(* ===== verification/_CoqProject ===== *)
-Q . S2P
Prelude.v
JsNumber.v
JsString.v
Regex.v
Base64.v
Sha256.v
Json.v
Env.v
JsonFacts.v
ClaimRef.v
Headers.v
Signature.v
Message.v
MessageFacts.v
Lifecycle.v
Http.v
Url.v
JsValue.v
ConformanceCases.v
ConformanceProducer.v
SdkPool.v
Conformance.v
ClaimCheck.v
AdminClient.v
RoutesClient.v
Targets.v
JetstreamWorker.v
JetstreamCluster.v
HookMessage.v
SqsWorker.v
SqsFacts.v
RabbitWorker.v
FleetRun.v
EventRouting.v
ControlPanel.v
VectorData.v
VectorRun.v
VectorHttp.v
