(* ===== verification/Prelude.v ===== *)
(** * Ankusa's TypeScript SDK and example consumers

    Ankusa ingests webhooks and hands them to consumers, over message queues
    and over HTTP. Its TypeScript package ([packages/sdk-typescript/src])
    holds what a consumer needs: the decoder of queue messages, the checks of
    an HTTP delivery, the claim-check client that fetches bodies too large to
    travel inline, the decoder of lifecycle events, and the clients of the
    operator and route-management APIs. Six example consumers under [examples]
    are built on it, and the script [conformance/check.mjs] keeps the SDKs of
    all languages to one set of test vectors. This library models those parts,
    as the source has them, and proves what makes them correct. The Elixir
    server and the SDKs in other languages are outside it, as are the
    generated type files, the unit tests and the re-export files.

    ** Files

    The language and its standard library:
    - [Prelude]: JavaScript strings as lists of UTF-16 code units, buffers as
      lists of bytes, [result] for code that may throw, [eff] for stateful code
      that may throw, ordered rule tables ([first_failure], [judged_by]), the
      development's tactics and hint database.
    - [JsNumber]: [number] as IEEE 754 binary64 ([SpecFloat]), with the
      operations the code uses and their exactness on integers below 2^53; that
      rounding leaves a full mantissa; decimal digits and number printing.  A power of two with a fractional
      exponent, which the language leaves open, is the class [Pow2Approx].
    - [JsString]: [startsWith], [split], [toLowerCase] (the class [LowerCase]:
      the code relies on its behaviour on ASCII only), UTF-8 both ways with
      replacement characters.
    - [Regex]: a backtracking matcher for the regular expressions of the source,
      sound and complete for a declarative semantics.
    - [Base64], [Sha256]: base64 and hex of Node buffers; SHA-256 and HMAC
      behind the class [Crypto], discharged by FIPS 180-4 and RFC 2104.
    - [Json], [JsonFacts]: [JSON.parse] as a pushdown automaton, total without
      fuel, [JSON.stringify], property order, and that parsing inverts printing.
    - [Env]: [process.env] and [Number] of a string.
    - [JsValue]: what plain scripts do to parsed JSON without checking its type:
      property reads and their [TypeError], spreading, [Object.keys],
      [Set] and [Map] by SameValueZero, [isDeepStrictEqual] (a partial
      equivalence that ignores the order of keys), sorting of strings.

    The SDK:
    - [ClaimRef]: [claim-check/ref.ts], [claim-check/errors.ts].
    - [Headers]: [webhook/headers.ts]; [Signature]: [webhook/signature.ts] and
      [webhook/receive.ts].
    - [Message], [MessageFacts]: [message/index.ts]; [Lifecycle]:
      [lifecycle/index.ts].
    - [Http]: calls through [openapi-fetch] as the class [OpenApiFetch]; an
      operation threads the list of calls made, so what was sent and when is
      part of its result.  [ClaimCheck], [AdminClient], [RoutesClient]:
      [claim-check/client.ts], [admin/*.ts], [routes/*.ts].
    - [Url], [Targets]: [encodeURIComponent], the URL parser's treatment of dot
      segments, how a call becomes a URL (the class [CallUrl], with what
      [openapi-fetch] documents), and where the clients' requests go.

    The consumers:
    - [JetstreamWorker], [JetstreamCluster]: [examples/jetstream-k8s]; NATS is the
      class [Nats].  The second file is the deployment: replicas on one work-queue
      stream, which may be killed at any moment and lose acknowledgements, and
      which share the gateway, whose answers may depend on all calls so far.
    - [HookMessage], [SqsWorker], [SqsFacts], [RabbitWorker], [FleetRun]:
      [examples/kafka-sqs-consumer], [examples/rabbitmq-consumer],
      [examples/fleet-e2e]; SQS is the class [Sqs], the fleet's table a finite
      map changed by its SQL statement (texts as UTF-8 carries them, refused with
      a NUL).  [FleetRun] is the recording worker with its concurrent handlers, a
      step relation between their [await]s in which the process may be killed and
      replies of the database may be lost, and other clients call the gateway.
    - [EventRouting]: [examples/event-routing], receiver and worker.
    - [ControlPanel]: the start and the listeners of the page script
      [examples/jetstream-k8s/control_panel/assets/js/app.js].

    The conformance check ([conformance/check.mjs]), in the order it runs:
    - [ConformanceCases]: validation of [features.json], the case files and
      [sdks.json] against the packages; a check appends its messages to the
      list of errors and may throw.
    - [ConformanceProducer]: regenerating the producer's vectors with [mix] (the
      class [Mix]) and comparing them with the checked-in ones.
    - [SdkPool]: the pool of runners that work through the SDKs, a step relation
      in which any running child may be the next to end ([ending] says how).
    - [Conformance]: the whole script, its output and its exit status.
    - [VectorData], [VectorRun], [VectorHttp]: the repository's vectors as data,
      and the SDK's runner ([sdk-typescript/src/conformance/conformance.test.ts])
      on the definitions above, for the operations without and with a client;
      the latter on a transport that follows the HTTP library's documentation.

    ** What the theorems show

    - Decoders ([Message], [MessageFacts], [Lifecycle]): each refines the
      ordered rule table of the conformance contract, errors included; every
      decoded message satisfies an invariant (one body form, size and digest
      right, a claim of its own tenant); printing and decoding are inverse for
      safe integers, and a message without a digest is the exception; text and
      bytes agree.
    - Deliveries ([Signature], [Headers], [EventRouting]): exactly the genuine
      deliveries are accepted, in the window and under any configured secret;
      the receiver is closed by default; header lookup ignores case.
    - References and clients ([ClaimRef], [ClaimCheck], [AdminClient],
      [RoutesClient]): the reference grammar is decided exactly and paths are
      injective; redeemed bytes always have the asked digest; nothing is sent
      for malformed arguments; every outcome is sorted into done, refused or
      retry, but for a refusal of the routes listener that cannot be printed.  In [Targets]: a redeem asks for the path its reference spells, and
      the guard on route ids refuses exactly the ids whose request would go
      elsewhere; ids of replay jobs have no such guard.
    - Keys and trust ([MessageFacts]): when idempotency keys coincide, and that
      trust fails closed.
    - Consumers: handling a JetStream message refines a contract that fixes the
      outcome by what failed and whether a retry could help; every message is
      settled once and in order; nothing is acknowledged, terminated or deleted
      before it, by its own data, is processed or stored in the dead-letter queue,
      whatever the brokers answer; bodies handed over have the announced digest; a FIFO group is never
      overtaken, and a batch without transient failures is drained; the memory is
      bounded.  A deployment of JetStream workers loses no message and can always
      work off its backlog ([JetstreamCluster]).  The recorded table counts the
      hooks of a key; with concurrent handlers every acknowledged hook is in it in
      every run, faults included ([FleetRun]), and runs without faults are
      sequential runs in some order.
    - The conformance check: validation passes exactly on directories that meet
      the documented contract; the producer's vectors pass exactly when every
      command of the generator succeeded and left the text that is checked in,
      differences are explained, and the temporary directory is always removed; the pool accounts for every SDK at every moment,
      terminates, completes, and reports what a sequential run reports; the
      script exits 0 exactly when all three parts pass, whatever
      [CONFORMANCE_JOBS] says.
    - The vectors: the directory as it is checked in is valid ([VectorRun]), and
      all 301 vectors pass on the definitions, recorded requests included
      ([VectorHttp]).

    ** Bounds

    No definition runs on fuel that could run out: the JSON automaton and the
    regular expressions recurse on their input, number printing has fuel from
    the number's own size ([num_to_string_of_Z] shows it is enough for
    integers), and [connect] has the source's sixty attempts.  The pool is a
    relation, shown finite by a decreasing measure (queued SDKs, commands
    left, runners).  Integers are doubles; statements about exact arithmetic ask
    for magnitudes below 2^53.

    ** Left out

    Log lines, process signals, listening sockets and timers have no effect on
    the modelled state.  The printing RabbitMQ worker's handlers share
    nothing, so one handling of a delivery is all of it.  Values of the wrong
    type are modelled where the code reads unchecked JSON; the arguments of
    the SDK's functions have their declared types, except the ids of the
    routes client, which the code checks itself.  What remains of the
    TypeScript files are imports, type declarations without a run-time effect,
    the construction of library clients and the [main().catch] lines. *)
From stdpp Require Import base tactics list numbers option strings.

(** ** JavaScript strings and byte buffers

    A JavaScript string is its sequence of UTF-16 code units, each a [Z] in
    [0, 65536); a [Buffer] or [Uint8Array] is a list of bytes, each a [Z] in
    [0, 256). *)
Abbreviation jstr := (list Z) (only parsing).
Abbreviation bytes := (list Z) (only parsing).

Definition unit_ok (c : Z) : Prop := (0 ≤ c < 65536)%Z.
Definition byte_ok (b : Z) : Prop := (0 ≤ b < 256)%Z.

#[global] Instance unit_ok_dec c : Decision (unit_ok c).
Proof. unfold unit_ok. apply _. Defined.
#[global] Instance byte_ok_dec b : Decision (byte_ok b).
Proof. unfold byte_ok. apply _. Defined.

(** A string literal of the source, as code units (every literal the code
    uses is ASCII). *)
Definition js (s : string) : jstr :=
  (λ a, Z.of_N (Ascii.N_of_ascii a)) <$> String.list_ascii_of_string s.

(** The same with ['] standing for the double quote, to write JSON texts. *)
Definition jq (s : string) : jstr := (λ c, if (c =? 39)%Z then 34%Z else c) <$> js s.

(** ** Errors as values

    A function of the source that may throw returns [result E A]: [Err e] is a
    throw of [e], [Ok a] a normal return. *)
Inductive result (E A : Type) : Type :=
| Ok (a : A)
| Err (e : E).
Arguments Ok {E A} a.
Arguments Err {E A} e.

#[global] Instance result_ret E : MRet (result E) := λ A a, Ok a.
#[global] Instance result_bind E : MBind (result E) := λ A B f r,
  match r with Ok a => f a | Err e => Err e end.
#[global] Instance result_fmap E : FMap (result E) := λ A B f r,
  match r with Ok a => Ok (f a) | Err e => Err e end.

#[global] Instance result_eq_dec E A `{EqDecision E, EqDecision A} :
  EqDecision (result E A).
Proof. solve_decision. Defined.

(** [if (!b) throw e;] *)
Definition require {E : Type} (b : bool) (e : E) : result E unit :=
  if b then Ok tt else Err e.

Definition is_ok {E A} (r : result E A) : bool :=
  match r with Ok _ => true | Err _ => false end.

(** Lifting an option whose absence is a throw. *)
Definition or_throw {E A : Type} (o : option A) (e : E) : result E A :=
  match o with Some a => Ok a | None => Err e end.

Section result_lemmas.
Context {E A B : Type}.
Implicit Types (r : result E A) (f : A → result E B).

Lemma bind_Ok_inv f r b :
  r ≫= f = Ok b → ∃ a, r = Ok a ∧ f a = Ok b.
Proof. destruct r; [eauto | discriminate]. Qed.

Lemma bind_Err_inv f r e :
  r ≫= f = Err e → r = Err e ∨ ∃ a, r = Ok a ∧ f a = Err e.
Proof. destruct r; cbn; [eauto | naive_solver]. Qed.

Lemma require_Ok b (e : E) u : require b e = Ok u ↔ b = true.
Proof. destruct b, u; cbn; naive_solver. Qed.

Lemma require_Err b (e e' : E) : require b e = Err e' ↔ b = false ∧ e = e'.
Proof. destruct b; cbn; naive_solver. Qed.

Lemma or_throw_Ok (o : option A) (e : E) a : or_throw o e = Ok a ↔ o = Some a.
Proof. destruct o; cbn; naive_solver. Qed.

Lemma or_throw_Err (o : option A) (e e' : E) :
  or_throw o e = Err e' ↔ o = None ∧ e = e'.
Proof. destruct o; cbn; naive_solver. Qed.
End result_lemmas.

(** ** Stateful code that may throw

    [eff S E A] passes a state through a computation that returns an [A] or
    throws an [E]; the state a throw leaves behind is kept, as a mutated object
    is. *)
Definition eff (S E A : Type) : Type := S → result E A * S.

#[global] Instance eff_ret S E : MRet (eff S E) := λ A a s, (Ok a, s).
#[global] Instance eff_bind S E : MBind (eff S E) := λ A B f m s,
  match m s with
  | (Ok a, s') => f a s'
  | (Err e, s') => (Err e, s')
  end.

Section eff.
Context {S E A : Type}.

Definition throw (e : E) : eff S E A := λ s, (Err e, s).

(** A throw or a return that touches no state. *)
Definition pure (r : result E A) : eff S E A := λ s, (r, s).

Definition modify (f : S → S) : eff S E unit := λ s, (Ok tt, f s).
Definition gets (f : S → A) : eff S E A := λ s, (Ok (f s), s).

(** [try { m } catch (e) { handler(e) }] *)
Definition catch {E'} (m : eff S E A) (handler : E → eff S E' A) : eff S E' A := λ s,
  match m s with
  | (Ok a, s') => (Ok a, s')
  | (Err e, s') => handler e s'
  end.
End eff.

(** ** Ordered rules

    The documentation of a decoder is an ordered table of rules; the verdict is
    the error of the first rule that does not hold. *)
Definition rule (E : Type) : Type := bool * E.

Fixpoint first_failure {E : Type} (rules : list (rule E)) : option E :=
  match rules with
  | [] => None
  | (holds, e) :: rules => if holds : bool then first_failure rules else Some e
  end.

(** A result and the verdict of a rule table agree. *)
Definition judged_by {E F A : Type} (view : E → F) (rules : list (rule F)) (r : result E A) : Prop :=
  match r with
  | Ok _ => first_failure rules = None
  | Err e => first_failure rules = Some (view e)
  end.

Lemma first_failure_None {E} (rules : list (rule E)) :
  first_failure rules = None ↔ Forall (λ r, r.1 = true) rules.
Proof.
  induction rules as [|[[] e] rules IH]; cbn; rewrite ?Forall_cons, ?IH; naive_solver.
Qed.

Lemma first_failure_app {E} (rs1 rs2 : list (rule E)) :
  first_failure (rs1 ++ rs2) =
  match first_failure rs1 with None => first_failure rs2 | Some e => Some e end.
Proof. induction rs1 as [|[[] e] rs1 IH]; cbn; auto. Qed.

Section judged.
Context {E F A B : Type} (view : E → F).
Implicit Types (r : result E A) (f : A → result E B).

Lemma judged_bind rules1 rules2 r f :
  judged_by view rules1 r → (∀ a, r = Ok a → judged_by view rules2 (f a)) →
  judged_by view (rules1 ++ rules2) (r ≫= f).
Proof.
  intros Hr Hf. unfold judged_by. destruct r as [a|e]; cbn in *.
  - specialize (Hf a eq_refl). unfold judged_by in Hf. rewrite first_failure_app, Hr.
    by destruct (f a).
  - by rewrite first_failure_app, Hr.
Qed.

(** A computation that makes one check. *)
Lemma judged_one (b : bool) x r :
  match r with Ok _ => b = true | Err e => b = false ∧ view e = x end → judged_by view [(b, x)] r.
Proof. unfold judged_by. destruct r; cbn; [by intros ->|by intros [-> ->]]. Qed.

Lemma judged_require (b : bool) e : judged_by view [(b, view e)] (require b e).
Proof. by destruct b. Qed.

Lemma judged_Ok (a : A) : judged_by view [] (Ok a).
Proof. done. Qed.
End judged.

(** ** Automation *)

Create HintDb ankusa discriminated.

(** Decompose a successful (or failed) monadic computation in a hypothesis. *)
Ltac ok_step :=
  match goal with
  | H : mbind _ _ = Ok _ |- _ =>
      apply bind_Ok_inv in H; destruct H as (? & ? & H)
  | H : require _ _ = Ok _ |- _ => apply require_Ok in H
  | H : or_throw _ _ = Ok _ |- _ => apply or_throw_Ok in H
  | H : require _ _ = Err _ |- _ => apply require_Err in H; destruct H as [H ?]
  | H : or_throw _ _ = Err _ |- _ => apply or_throw_Err in H; destruct H as [H ?]
  | H : Ok _ = Ok _ |- _ => injection H as H
  | H : Err _ = Err _ |- _ => injection H as H
  | H : Ok _ = Err _ |- _ => discriminate H
  | H : Err _ = Ok _ |- _ => discriminate H
  | H : mret _ = Ok _ |- _ => injection H as H
  | H : mret _ = Err _ |- _ => discriminate H
  end.
Ltac ok_inv := repeat (ok_step; simplify_eq).

(** Split boolean conjunctions and turn boolean tests into propositions. *)
Ltac bool_step :=
  match goal with
  | H : (_ && _)%bool = true |- _ => apply andb_true_iff in H; destruct H
  | H : (_ || _)%bool = false |- _ => apply orb_false_iff in H; destruct H
  | H : negb _ = true |- _ => apply negb_true_iff in H
  | H : negb _ = false |- _ => apply negb_false_iff in H
  | H : bool_decide _ = true |- _ => apply bool_decide_eq_true in H
  | H : bool_decide _ = false |- _ => apply bool_decide_eq_false in H
  | H : (_ <=? _)%Z = true |- _ => apply Z.leb_le in H
  | H : (_ <=? _)%Z = false |- _ => apply Z.leb_gt in H
  | H : (_ <? _)%Z = true |- _ => apply Z.ltb_lt in H
  | H : (_ <? _)%Z = false |- _ => apply Z.ltb_ge in H
  | H : (_ =? _)%Z = true |- _ => apply Z.eqb_eq in H
  | H : (_ =? _)%Z = false |- _ => apply Z.eqb_neq in H
  end.
Ltac bool_inv := repeat bool_step.

(** ** Generic lemmas *)

Lemma js_nonempty a s : js (String a s) ≠ [].
Proof. discriminate. Qed.

Lemma app_cancel_l {A} (l k1 k2 : list A) : l ++ k1 = l ++ k2 → k1 = k2.
Proof. apply app_inv_head. Qed.

(** Splitting at the first element that leaves a class: two decompositions
    around an element outside the class coincide. *)
Lemma class_split_unique {A} (p : A → Prop) (x y : A) (l1 l2 k1 k2 : list A) :
  Forall p l1 → Forall p k1 → ¬ p x → ¬ p y →
  l1 ++ x :: l2 = k1 ++ y :: k2 → l1 = k1 ∧ x = y ∧ l2 = k2.
Proof.
  intros Hl Hk Hx Hy; revert k1 Hk; induction Hl as [|a l1 Ha Hl IH];
    intros k1 Hk Heq; destruct Hk as [|b k1 Hb Hk]; simplify_eq/=; try done.
  destruct (IH k1 Hk) as (-> & -> & ->); auto.
Qed.

Lemma forallb_Forall_iff {A} (p : A → bool) (l : list A) :
  forallb p l = true ↔ Forall (λ x, p x = true) l.
Proof. rewrite forallb_forall, Forall_forall. by setoid_rewrite list_elem_of_In. Qed.

(** Strong induction on the length of a list. *)
Lemma list_length_ind {A} (P : list A → Prop) :
  (∀ l, (∀ k, length k < length l → P k) → P l) → ∀ l, P l.
Proof.
  intros H l. remember (length l) as n eqn:Hn. revert l Hn.
  induction (lt_wf n) as [n _ IH]; intros l ->. apply H. eauto.
Qed.
