(* ===== verification/JsNumber.v ===== *)
(** * JavaScript numbers

    A JavaScript number is an IEEE 754 binary64 value; it is modelled by the
    standard library's [spec_float] at precision 53 and maximal exponent 1024,
    so that rounding, infinities, NaN and the loss of precision above [2^53]
    are those of the program.  The file defines the number operations the SDK
    and the workers use ([Number.isInteger], the comparisons, subtraction,
    [Math.abs], decimal literals, [Number::toString]) and proves that on safe
    integers (absolute value below [2^53]) they are integer arithmetic. *)
From S2P Require Import Prelude.
From stdpp Require Import base tactics list numbers option strings.
From Corelib Require Import SpecFloat.
Local Open Scope Z_scope.

Abbreviation num := spec_float (only parsing).

#[global] Instance num_eq_dec : EqDecision num.
Proof. solve_decision. Defined.

(** The number nearest to an integer. *)
Definition num_of_Z (z : Z) : num := binary_normalize 53 1024 z 0 false.

(** The number nearest to [(-1)^neg * m * 10^e] with [0 <= m]: the value of a
    decimal literal ([JSON.parse], [Number(string)]). *)
Definition num_of_decimal (neg : bool) (m e : Z) : num :=
  match m with
  | Zpos p =>
      if 0 <=? e then binary_round 53 1024 neg (p * Z.to_pos (10 ^ e)) 0
      else SFdiv 53 1024 (S754_finite neg p 0) (S754_finite false (Z.to_pos (10 ^ (- e))) 0)
  | _ => S754_zero neg
  end.

(** The integer a number is, when it is one ([-0] is [0]). *)
Definition num_value (x : num) : option Z :=
  match x with
  | S754_zero _ => Some 0
  | S754_finite s m e =>
      let v := if 0 <=? e then Some (Z.pos m * 2 ^ e)
               else if Z.pos m mod 2 ^ (- e) =? 0 then Some (Z.pos m / 2 ^ (- e)) else None in
      (λ a, if s then - a else a) <$> v
  | _ => None
  end.

(** [Number.isInteger(x)] *)
Definition num_isInteger (x : num) : bool :=
  match num_value x with Some _ => true | None => false end.

(** [a < b], [a > b], [a === b], [a - b], [Math.abs(a)], [Math.min(a, b)] *)
Definition num_lt (a b : num) : bool := SFltb a b.
Definition num_gt (a b : num) : bool := SFltb b a.
Definition num_eq (a b : num) : bool := SFeqb a b.
Definition num_sub (a b : num) : num := SFsub 53 1024 a b.
Definition num_mul (a b : num) : num := SFmul 53 1024 a b.
Definition num_abs (a : num) : num := SFabs a.

(** The value of [2 ** n] for a finite exponent that is not an integer, which
    the language leaves to the implementation. *)
Class Pow2Approx := { pow2_approx : num → num }.

(** [2 ** n] for a number [n]: exact for an integral exponent in range, an
    infinity or zero beyond it. *)
Definition num_pow2 `{Pow2Approx} (n : num) : num :=
  match n with
  | S754_nan => S754_nan
  | S754_infinity false => S754_infinity false
  | S754_infinity true => S754_zero false
  | _ => match num_value n with
         | Some k => if k <? 1024 then (if k <? -1074 then S754_zero false else binary_round 53 1024 false 1 k)
                     else S754_infinity false
         | None => pow2_approx n
         end
  end.

(** ** Safe integers *)

Definition safe (z : Z) : Prop := Z.abs z < 2 ^ 53.

#[global] Instance safe_dec z : Decision (safe z).
Proof. unfold safe. apply _. Defined.

(** The normal form of a non-zero safe integer. *)
Definition num_canon (s : bool) (p : positive) : num :=
  let d := Z.log2 (Z.pos p) + 1 in
  S754_finite s (p * Z.to_pos (2 ^ (53 - d))) (d - 53).

Lemma digits2_pos_log2 p : Z.pos (digits2_pos p) = Z.log2 (Z.pos p) + 1.
Proof.
  induction p as [p IH|p IH|]; simpl digits2_pos; [| |done];
    rewrite Pos2Z.inj_succ, IH.
  - rewrite (Pos2Z.inj_xI p), Z.log2_succ_double by lia. lia.
  - rewrite (Pos2Z.inj_xO p), Z.log2_double by lia. lia.
Qed.

Lemma iter_pos_nat {A} (f : A → A) n x : iter_pos f n x = Nat.iter (Pos.to_nat n) f x.
Proof.
  revert x; induction n as [n IH|n IH|]; intros x; simpl iter_pos.
  - rewrite !IH, Pos2Nat.inj_xI, <-Nat.iter_add.
    replace (S (2 * Pos.to_nat n)) with ((Pos.to_nat n + Pos.to_nat n) + 1)%nat by lia.
    by rewrite (Nat.iter_add (Pos.to_nat n + Pos.to_nat n) 1).
  - rewrite !IH, Pos2Nat.inj_xO, <-Nat.iter_add. f_equal. lia.
  - done.
Qed.

Lemma iter_shr_exact n m :
  Nat.iter n shr_1 (Build_shr_record (Z.pos m * 2 ^ Z.of_nat n) false false)
  = Build_shr_record (Z.pos m) false false.
Proof.
  revert m; induction n as [|n IH]; intros m; [by rewrite Z.mul_1_r|].
  rewrite Nat2Z.inj_succ, Z.pow_succ_r, Nat.iter_succ_r by lia.
  replace (Z.pos m * (2 * 2 ^ Z.of_nat n)) with (2 * (Z.pos m * 2 ^ Z.of_nat n)) by lia.
  rewrite <-(IH m). f_equal.
  destruct (Z.pos m * 2 ^ Z.of_nat n) eqn:E; [|done|]; lia.
Qed.

Lemma pos_iter_xO n m : Z.pos (Pos.iter xO m n) = Z.pos m * 2 ^ Z.pos n.
Proof.
  rewrite Pos2Nat.inj_iter, <-(positive_nat_Z n).
  induction (Pos.to_nat n) as [|k IH]; [by rewrite Z.mul_1_r|].
  rewrite Nat2Z.inj_succ, Z.pow_succ_r by lia.
  cbn [nat_rect]. rewrite Pos2Z.inj_xO, IH. lia.
Qed.

Lemma pos_mul_pow2 p k : 0 ≤ k → Z.pos (p * Z.to_pos (2 ^ k)) = Z.pos p * 2 ^ k.
Proof. intros. rewrite Pos2Z.inj_mul, Z2Pos.id by lia. done. Qed.

Lemma log2_mul_pow2 p k : 0 ≤ k → Z.log2 (Z.pos p * 2 ^ k) = Z.log2 (Z.pos p) + k.
Proof. intros. rewrite Z.log2_mul_pow2; lia. Qed.

(** Rounding [p * 2^k] at exponent [-k] is exact when [p] is a safe integer. *)
Lemma round_aux_exact s q e p :
  Z.pos p < 2 ^ 53 →
  Z.pos q = Z.pos p * 2 ^ (- e) →
  e ≤ Z.log2 (Z.pos p) + 1 - 53 →
  binary_round_aux 53 1024 s (Z.pos q) e loc_Exact = num_canon s p.
Proof.
  intros Hp Hq He.
  assert (0 ≤ Z.log2 (Z.pos p) < 53) as Hd
    by (split; [apply Z.log2_nonneg | apply Z.log2_lt_pow2; lia]).
  set (d := Z.log2 (Z.pos p) + 1) in *.
  set (c := (p * Z.to_pos (2 ^ (53 - d)))%positive).
  assert (Z.pos c = Z.pos p * 2 ^ (53 - d)) as Hc by (apply pos_mul_pow2; lia).
  assert (shr_fexp 53 1024 (Z.pos q) e loc_Exact
          = (Build_shr_record (Z.pos c) false false, d - 53)) as E1.
  { unfold shr_fexp, fexp, emin. cbn [Zdigits2 shr_record_of_loc].
    rewrite digits2_pos_log2, Hq, log2_mul_pow2 by lia.
    replace (Z.max (Z.log2 (Z.pos p) + - e + 1 + e - 53) (3 - 1024 - 53) - e)
      with (d - 53 - e) by lia.
    assert (Z.pos p * 2 ^ (- e) = Z.pos c * 2 ^ (d - 53 - e)) as Hs.
    { rewrite Hc, <-Z.mul_assoc, <-Z.pow_add_r by lia. do 2 f_equal. lia. }
    rewrite Hs. destruct (d - 53 - e) as [|n|] eqn:En; [| |lia].
    - cbn. rewrite Z.mul_1_r. f_equal. lia.
    - cbn [shr]. rewrite iter_pos_nat, <-(positive_nat_Z n), iter_shr_exact.
      f_equal. lia. }
  assert (shr_fexp 53 1024 (Z.pos c) (d - 53) loc_Exact
          = (Build_shr_record (Z.pos c) false false, d - 53)) as E2.
  { unfold shr_fexp, fexp, emin. cbn [Zdigits2 shr_record_of_loc].
    rewrite digits2_pos_log2, Hc, log2_mul_pow2 by lia.
    replace (Z.max (Z.log2 (Z.pos p) + (53 - d) + 1 + (d - 53) - 53) (3 - 1024 - 53) - (d - 53))
      with 0 by lia. done. }
  unfold binary_round_aux. rewrite E1. cbn [loc_of_shr_record shr_m round_nearest_even].
  rewrite E2. cbn [shr_m]. rewrite (proj2 (Z.leb_le _ _)) by lia. done.
Qed.

Lemma round_exact s p k q :
  Z.pos p < 2 ^ 53 → 0 ≤ k → Z.pos q = Z.pos p * 2 ^ k →
  binary_round 53 1024 s q (- k) = num_canon s p.
Proof.
  intros Hp Hk Hq. unfold binary_round.
  assert (0 ≤ Z.log2 (Z.pos p) < 53) as Hd
    by (split; [apply Z.log2_nonneg | apply Z.log2_lt_pow2; lia]).
  rewrite digits2_pos_log2, Hq, log2_mul_pow2 by lia.
  replace (Z.log2 (Z.pos p) + k + 1 + - k) with (Z.log2 (Z.pos p) + 1) by lia.
  unfold fexp, emin, shl_align. rewrite Z.max_l by lia.
  destruct (Z.log2 (Z.pos p) + 1 - 53 - - k) as [|n|n] eqn:En.
  - apply round_aux_exact; [lia| |lia]. rewrite Hq. do 2 f_equal. lia.
  - apply round_aux_exact; [lia| |lia]. rewrite Hq. do 2 f_equal. lia.
  - apply round_aux_exact; [lia| |lia].
    rewrite pos_iter_xO, Hq, <-Z.mul_assoc, <-Z.pow_add_r by lia. do 2 f_equal. lia.
Qed.

Lemma normalize_exact z k m sz :
  safe z → 0 ≤ k → m = z * 2 ^ k → z ≠ 0 →
  binary_normalize 53 1024 m (- k) sz = num_of_Z z.
Proof.
  unfold safe. intros Hz Hk -> Hne. unfold num_of_Z.
  assert (0 < 2 ^ k) by lia.
  destruct z as [|p|p]; [done| |]; cbn [binary_normalize];
    rewrite (round_exact _ p 0 p) by lia.
  - destruct (Z.pos p * 2 ^ k) as [|q|q] eqn:Eq; [lia| |lia]. cbn [binary_normalize].
    apply round_exact; lia.
  - destruct (Z.neg p * 2 ^ k) as [|q|q] eqn:Eq; [lia|lia|]. cbn [binary_normalize].
    apply round_exact; lia.
Qed.

Lemma num_of_Z_canon z :
  safe z → num_of_Z z = match z with
                        | 0 => S754_zero false
                        | Zpos p => num_canon false p
                        | Zneg p => num_canon true p
                        end.
Proof.
  unfold safe, num_of_Z. intros Hz. destruct z as [|p|p]; [done| |];
    apply (round_exact _ p 0 p); lia.
Qed.

(** On safe integers the number operations are integer arithmetic. *)
Lemma num_value_of_Z z : safe z → num_value (num_of_Z z) = Some z.
Proof.
  intros Hz. rewrite num_of_Z_canon by done. unfold safe in Hz.
  assert (∀ s p, Z.pos p < 2 ^ 53 →
    num_value (num_canon s p) = Some (if s then - Z.pos p else Z.pos p)) as Hc.
  { intros s p Hp. assert (0 ≤ Z.log2 (Z.pos p) < 53)
      by (split; [apply Z.log2_nonneg | apply Z.log2_lt_pow2; lia]).
    unfold num_value, num_canon. rewrite pos_mul_pow2 by lia.
    set (d := Z.log2 (Z.pos p) + 1) in *.
    destruct (Z.leb_spec 0 (d - 53)).
    - replace d with 53 by lia. cbn. by rewrite !Z.mul_1_r.
    - replace (- (d - 53)) with (53 - d) by lia.
      rewrite Z.mod_mul, Z.div_mul by lia. by destruct s. }
  destruct z; [done| |]; rewrite Hc by lia; done.
Qed.

Lemma num_isInteger_of_Z z : safe z → num_isInteger (num_of_Z z) = true.
Proof. intros Hz. unfold num_isInteger. by rewrite num_value_of_Z. Qed.

Lemma canon_compare p q :
  Z.pos p < 2 ^ 53 → Z.pos q < 2 ^ 53 →
  let dp := Z.log2 (Z.pos p) + 1 in let dq := Z.log2 (Z.pos q) + 1 in
  match (dp - 53 ?= dq - 53) with
  | Lt => Lt
  | Gt => Gt
  | Eq => Pos.compare_cont Eq (p * Z.to_pos (2 ^ (53 - dp))) (q * Z.to_pos (2 ^ (53 - dq)))
  end = (Z.pos p ?= Z.pos q).
Proof.
  intros Hp Hq dp dq. destruct (Z.compare_spec (dp - 53) (dq - 53)) as [E|E|E].
  - replace dq with dp by lia.
    change (Pos.compare_cont Eq ?a ?b) with (Pos.compare a b).
    apply Pos.mul_compare_mono_r.
  - symmetry. apply Z.compare_lt_iff, Z.log2_lt_cancel. lia.
  - symmetry. apply Z.compare_gt_iff, Z.log2_lt_cancel. lia.
Qed.

Lemma num_compare_of_Z a b :
  safe a → safe b → SFcompare (num_of_Z a) (num_of_Z b) = Some (a ?= b).
Proof.
  intros Ha Hb. rewrite !num_of_Z_canon by done. unfold safe in *.
  destruct a as [|p|p], b as [|q|q]; try done; cbn [SFcompare num_canon]; f_equal.
  - apply canon_compare; lia.
  - change (Z.neg p ?= Z.neg q) with (CompOpp (Z.pos p ?= Z.pos q)).
    rewrite <-(canon_compare p q) by lia. by destruct (_ ?= _).
Qed.

Lemma num_lt_of_Z a b : safe a → safe b → num_lt (num_of_Z a) (num_of_Z b) = (a <? b).
Proof.
  intros. unfold num_lt, SFltb. rewrite num_compare_of_Z by done.
  unfold Z.ltb. by destruct (a ?= b).
Qed.

Lemma num_gt_of_Z a b : safe a → safe b → num_gt (num_of_Z a) (num_of_Z b) = (b <? a).
Proof. intros. by apply num_lt_of_Z. Qed.

Lemma num_eq_of_Z a b : safe a → safe b → num_eq (num_of_Z a) (num_of_Z b) = (a =? b).
Proof.
  intros. unfold num_eq, SFeqb. rewrite num_compare_of_Z by done.
  rewrite Z.eqb_compare. by destruct (a ?= b).
Qed.

Lemma num_of_Z_inj a b : safe a → safe b → num_of_Z a = num_of_Z b → a = b.
Proof.
  intros Ha Hb E. apply (f_equal num_value) in E.
  rewrite !num_value_of_Z in E by done. by simplify_eq.
Qed.

Lemma num_abs_of_Z a : safe a → num_abs (num_of_Z a) = num_of_Z (Z.abs a).
Proof.
  intros Ha. rewrite !num_of_Z_canon; [by destruct a| |done].
  unfold safe in *. by rewrite Z.abs_involutive.
Qed.

Lemma shl_align_canon p ez :
  Z.pos p < 2 ^ 53 → ez ≤ Z.log2 (Z.pos p) + 1 - 53 →
  let d := Z.log2 (Z.pos p) + 1 in
  Z.pos (fst (shl_align (p * Z.to_pos (2 ^ (53 - d))) (d - 53) ez)) = Z.pos p * 2 ^ (- ez).
Proof.
  intros Hp Hez d. assert (0 ≤ Z.log2 (Z.pos p) < 53)
    by (split; [apply Z.log2_nonneg | apply Z.log2_lt_pow2; lia]).
  unfold shl_align. destruct (ez - (d - 53)) as [|n|n] eqn:E; cbn [fst]; [|lia|].
  - rewrite pos_mul_pow2 by lia. do 2 f_equal. lia.
  - rewrite pos_iter_xO, pos_mul_pow2, <-Z.mul_assoc, <-Z.pow_add_r by lia.
    do 2 f_equal. lia.
Qed.

Lemma normalize_safe z k m :
  safe z → 0 ≤ k → m = z * 2 ^ k → binary_normalize 53 1024 m (- k) false = num_of_Z z.
Proof.
  intros Hz Hk ->. destruct (decide (z = 0)) as [->|Hne]; [done|].
  by apply normalize_exact.
Qed.

Lemma num_sub_of_Z a b :
  safe a → safe b → safe (a - b) → num_sub (num_of_Z a) (num_of_Z b) = num_of_Z (a - b).
Proof.
  intros Ha Hb Hab. rewrite (num_of_Z_canon a), (num_of_Z_canon b) by done.
  destruct a as [|p|p], b as [|q|q]; try done; unfold num_sub, SFsub;
    try (rewrite num_of_Z_canon by done; done); unfold safe in Ha, Hb.
  all: cbn [num_canon]; set (ez := Z.min _ _);
    assert (ez ≤ 0) by (assert (Z.log2 (Z.pos p) < 53) by (apply Z.log2_lt_pow2; lia);
                        unfold ez; lia);
    rewrite <-(Z.opp_involutive ez) at 3;
    apply normalize_safe; [done|lia|];
    unfold cond_Zopp; rewrite !shl_align_canon by (unfold ez; lia); lia.
Qed.

(** ** Rounded numbers are normalised *)

(** A rounded number has a full mantissa unless its exponent is the least. *)
Definition normal (x : num) : Prop :=
  match x with
  | S754_finite _ m e => e ≤ -1074 ∨ 2 ^ 52 ≤ Z.pos m
  | _ => True
  end.

Lemma shr_1_half r : 0 ≤ shr_m r → shr_m (shr_1 r) = shr_m r / 2.
Proof. rewrite <-Z.div2_div. destruct r as [[|[p|p|]|p] a b]; cbn; [done..|lia]. Qed.

Lemma iter_shr_div n r : 0 ≤ shr_m r → shr_m (Nat.iter n shr_1 r) = shr_m r / 2 ^ Z.of_nat n.
Proof.
  intros Hr. induction n as [|n IH]; cbn [Nat.iter nat_rect]; [by rewrite Z.div_1_r|].
  assert (0 ≤ shr_m (Nat.iter n shr_1 r)) by (rewrite IH; apply Z.div_pos; lia).
  change (nat_rect _ r (λ _, shr_1) n) with (Nat.iter n shr_1 r). rewrite shr_1_half, IH by done.
  rewrite Z.div_div, Nat2Z.inj_succ, Z.pow_succ_r by lia. f_equal. lia.
Qed.

Lemma shr_fexp_spec m e l :
  0 ≤ m → let n := Z.max (Z.max (Zdigits2 m + e - 53) (-1074) - e) 0 in
  shr_m (shr_fexp 53 1024 m e l).1 = m / 2 ^ n ∧ (shr_fexp 53 1024 m e l).2 = e + n.
Proof.
  intros Hm n. unfold shr_fexp, fexp, emin. change (3 - 1024 - 53) with (-1074).
  assert (shr_m (shr_record_of_loc m l) = m) as Hl by (by destruct l as [|[]]).
  unfold shr. destruct (_ - e) as [|p|p] eqn:E; cbn [fst snd]; subst n; rewrite ?E.
  - rewrite Hl, Z.div_1_r. lia.
  - rewrite iter_pos_nat, iter_shr_div, Hl by lia. rewrite Z.max_l by lia. rewrite positive_nat_Z. lia.
  - rewrite Hl. rewrite Z.max_r by lia. rewrite Z.div_1_r. lia.
Qed.

Lemma digits_bounds m : 0 < m → 2 ^ (Zdigits2 m - 1) ≤ m < 2 ^ Zdigits2 m ∧ 1 ≤ Zdigits2 m.
Proof.
  destruct m as [|p|p]; [lia| |lia]. intros _. cbn [Zdigits2]. rewrite digits2_pos_log2.
  pose proof (Z.log2_spec (Z.pos p)). pose proof (Z.log2_nonneg (Z.pos p)). rewrite Z.add_simpl_r.
  rewrite <-Z.add_1_r in *. lia.
Qed.

Lemma div_pow_range m d n :
  0 ≤ n ≤ d - 1 → 2 ^ (d - 1) ≤ m < 2 ^ d → 2 ^ (d - 1 - n) ≤ m / 2 ^ n < 2 ^ (d - n).
Proof.
  intros Hn Hm. split.
  - apply Z.div_le_lower_bound; [lia|]. rewrite <-Z.pow_add_r by lia. replace (n + (d - 1 - n)) with (d - 1) by lia. lia.
  - apply Z.div_lt_upper_bound; [lia|]. rewrite <-Z.pow_add_r by lia. replace (n + (d - n)) with d by lia. lia.
Qed.

(** Shifting a mantissa with digits enough leaves 53 of them, or the least
    exponent and no more than 53. *)
Lemma shr_fexp_normal m e l :
  0 ≤ m → e ≤ Z.max (Zdigits2 m + e - 53) (-1074) →
  let m' := shr_m (shr_fexp 53 1024 m e l).1 in
  let e' := (shr_fexp 53 1024 m e l).2 in
  -1074 ≤ e' ∧ 0 ≤ m' < 2 ^ 53 ∧ (e' = -1074 ∨ 2 ^ 52 ≤ m').
Proof.
  intros Hm He. destruct (shr_fexp_spec m e l Hm) as [-> ->]. cbv zeta. rewrite Z.max_l by lia.
  set (n := Z.max _ _ - e) in *.
  assert (0 ≤ n) by lia. split; [lia|]. destruct (decide (m = 0)) as [->|Hm0].
  { rewrite Z.div_0_l by lia. cbn in *. lia. }
  destruct (digits_bounds m) as [Hd Hd1]; [lia|]. set (d := Zdigits2 m) in *.
  destruct (decide (-1074 ≤ d + e - 53)) as [Hbig|Hsmall].
  - assert (n = d - 53) as -> by lia. destruct (div_pow_range m d (d - 53)) as [H1 H2]; [lia|done|].
    replace (d - 1 - (d - 53)) with 52 in H1 by lia. replace (d - (d - 53)) with 53 in H2 by lia. lia.
  - split; [|lia]. split; [apply Z.div_pos; lia|]. apply Z.div_lt_upper_bound; [lia|].
    rewrite <-Z.pow_add_r by lia. eapply Z.lt_le_trans; [apply Hd|]. apply Z.pow_le_mono_r; lia.
Qed.

Lemma round_bounds m r : m ≤ round_nearest_even m (loc_of_shr_record r) ≤ m + 1.
Proof. destruct r as [? [] []]; cbn; try lia. destruct (Z.even m); lia. Qed.

Lemma round_aux_normal s m e l :
  0 ≤ m → e ≤ Z.max (Zdigits2 m + e - 53) (-1074) → normal (binary_round_aux 53 1024 s m e l).
Proof.
  intros Hm He. unfold binary_round_aux. pose proof (shr_fexp_normal m e l Hm He) as H1. cbv zeta in H1.
  destruct (shr_fexp 53 1024 m e l) as [r1 e1]. cbn [fst snd] in H1.
  pose proof (round_bounds (shr_m r1) r1) as Hr. set (q := round_nearest_even _ _) in *.
  destruct (shr_fexp_spec q e1 loc_Exact) as [H2 H2']; [lia|].
  destruct (shr_fexp 53 1024 q e1 loc_Exact) as [r2 e2]. cbn [fst snd] in H2, H2'.
  destruct (shr_m r2) as [|p|p]; try done. destruct (_ <=? _); [|done]. cbn [normal].
  destruct (decide (q = 2 ^ 53)) as [Hq|Hq].
  - rewrite Hq in *. change (Zdigits2 (2 ^ 53)) with 54 in *. rewrite H2.
    assert (Z.max (Z.max (54 + e1 - 53) (-1074) - e1) 0 = 1) as -> by lia. right. vm_compute. done.
  - destruct (decide (q = 0)) as [Hq0|Hq0].
    { rewrite Hq0, Z.div_0_l in H2 by lia. lia. }
    destruct (digits_bounds q) as [Hd Hd1]; [lia|]. assert (Zdigits2 q ≤ 53) as Hd53.
    { destruct (decide (Zdigits2 q ≤ 53)); [done|]. assert (2 ^ 53 ≤ 2 ^ (Zdigits2 q - 1)) by (apply Z.pow_le_mono_r; lia). lia. }
    assert (Z.max (Z.max (Zdigits2 q + e1 - 53) (-1074) - e1) 0 = 0) as Hn by lia.
    rewrite Hn in *. rewrite Z.div_1_r in H2. lia.
Qed.

Lemma round_normal s p e : normal (binary_round 53 1024 s p e).
Proof.
  unfold binary_round, shl_align, fexp, emin. change (3 - 1024 - 53) with (-1074).
  destruct (_ - e) as [|d|d] eqn:E; apply round_aux_normal; try lia; cbn [Zdigits2]; try lia.
  rewrite !digits2_pos_log2 in *. rewrite pos_iter_xO, log2_mul_pow2 by lia. lia.
Qed.

Lemma num_of_Z_normal z : normal (num_of_Z z).
Proof. unfold num_of_Z. destruct z; cbn; [done|apply round_normal..]. Qed.

Lemma div_digits a b : 0 < a → 0 < b → Zdigits2 a - Zdigits2 b ≤ Zdigits2 (a / b) .
Proof.
  intros Ha Hb. destruct (digits_bounds a Ha) as [Hda Ha1], (digits_bounds b Hb) as [Hdb Hb1].
  destruct (decide (a / b = 0)) as [E|E].
  - rewrite E. cbn. apply Z.div_small_iff in E; [|lia]. destruct (decide (Zdigits2 a ≤ Zdigits2 b)); [lia|].
    assert (2 ^ Zdigits2 b ≤ 2 ^ (Zdigits2 a - 1)) by (apply Z.pow_le_mono_r; lia). lia.
  - assert (0 < a / b) as Hq by (pose proof (Z.div_pos a b); lia). destruct (digits_bounds _ Hq) as [Hdq Hq1].
    assert (a < b * (a / b + 1)) by (pose proof (Z.mul_succ_div_gt a b); lia).
    assert (2 ^ (Zdigits2 a - 1) < 2 ^ (Zdigits2 b + Zdigits2 (a / b))); [|apply Z.pow_lt_mono_r_iff in H0; lia].
    rewrite Z.pow_add_r by lia. nia.
Qed.

Lemma digits_shiftl a s : 0 < a → 0 ≤ s → Zdigits2 (a * 2 ^ s) = Zdigits2 a + s.
Proof.
  intros Ha Hs. destruct a as [|p|p]; try lia. assert (0 < 2 ^ s) by lia.
  destruct (Z.pos p * 2 ^ s) as [|q|q] eqn:E; try lia. cbn [Zdigits2]. rewrite !digits2_pos_log2, <-E, log2_mul_pow2 by lia. lia.
Qed.

Lemma quotient_normal s p q : normal (SFdiv 53 1024 (S754_finite s p 0) (S754_finite false q 0)).
Proof.
  cbn [SFdiv]. unfold SFdiv_core_binary, fexp, emin. change (3 - 1024 - 53) with (-1074). cbv zeta.
  set (d1 := Zdigits2 (Z.pos p)). set (d2 := Zdigits2 (Z.pos q)).
  replace (d1 + 0 - (d2 + 0)) with (d1 - d2) by lia. change (0 - 0) with 0. set (e := Z.min _ 0).
  assert (match 0 - e with Z0 => Z.pos p | Zpos _ => Z.shiftl (Z.pos p) (0 - e) | Zneg _ => 0 end =
          Z.pos p * 2 ^ (- e)) as ->.
  { replace (0 - e) with (- e) by lia. destruct (- e) as [|n|n] eqn:E; [lia|by rewrite Z.shiftl_mul_pow2|lia]. }
  assert (0 < Z.pos p * 2 ^ (- e)) as Hp by (pose proof (Z.pow_pos_nonneg 2 (- e)); lia).
  pose proof (div_digits (Z.pos p * 2 ^ (- e)) (Z.pos q) Hp eq_refl) as Hd.
  rewrite digits_shiftl in Hd by lia. fold d1 d2 in Hd.
  pose proof (Z.div_pos (Z.pos p * 2 ^ (- e)) (Z.pos q)) as Hpos.
  unfold Z.div in Hd, Hpos. destruct (Z.div_eucl _ _) as [m r]. apply round_aux_normal; lia.
Qed.

Lemma num_of_decimal_normal neg m e : normal (num_of_decimal neg m e).
Proof.
  unfold num_of_decimal. destruct m; [done| |done]. destruct (0 <=? e); [apply round_normal|apply quotient_normal].
Qed.

(** ** Decimal digits *)

Definition is_digit (c : Z) : bool := (48 <=? c) && (c <=? 57).

(** The mathematical value of a string of decimal digits. *)
Definition dec_step (acc c : Z) : Z := 10 * acc + (c - 48).
Definition dec_value (s : jstr) : Z := fold_left dec_step s 0.

(** [Number(s)] for a non-empty string of decimal digits. *)
Definition num_of_digits (s : jstr) : num := num_of_decimal false (dec_value s) 0.

Fixpoint dec_digits (fuel : nat) (z : Z) (acc : jstr) : jstr :=
  match fuel with
  | O => acc
  | S fuel => let acc := (48 + z mod 10) :: acc in
              if z <? 10 then acc else dec_digits fuel (z / 10) acc
  end.

(** The decimal digits of a non-negative integer; [log2 z + 1] steps suffice
    because each one divides by 10. *)
Definition dec_of_nat (z : Z) : jstr := dec_digits (S (Z.to_nat (Z.log2 z))) z [].

Definition dec_of_Z (z : Z) : jstr :=
  if z <? 0 then js "-" ++ dec_of_nat (- z) else dec_of_nat z.

Lemma dec_digits_app fuel z acc : dec_digits fuel z acc = dec_digits fuel z [] ++ acc.
Proof.
  revert z acc; induction fuel as [|fuel IH]; intros z acc; [done|]. cbn.
  destruct (z <? 10); [done|]. rewrite (IH _ (_ :: acc)), (IH _ [_]).
  by rewrite <-app_assoc.
Qed.

Lemma dec_digits_spec fuel z :
  0 ≤ z → (Z.to_nat (Z.log2 z) < fuel)%nat →
  let s := dec_digits fuel z [] in
  dec_value s = z ∧ Forall (λ c, is_digit c = true) s ∧
  (∃ c s', s = c :: s' ∧ (c = 48 → z = 0 ∧ s' = [])).
Proof.
  revert z; induction fuel as [|fuel IH]; intros z Hz Hf; [lia|]. cbn zeta.
  assert (0 ≤ z mod 10 < 10) by (apply Z.mod_pos_bound; lia).
  assert (is_digit (48 + z mod 10) = true) as Hdig
    by (unfold is_digit; apply andb_true_iff; split; apply Z.leb_le; lia).
  cbn [dec_digits]. destruct (Z.ltb_spec z 10).
  { rewrite Z.mod_small in * by lia. split_and!; [|by repeat constructor|].
    - unfold dec_value, dec_step. cbn. lia.
    - eexists _, []. split; [done|]. intros. split; [lia|done]. }
  assert (0 < z / 10) by (apply Z.div_str_pos; lia).
  assert (Z.log2 (z / 10) < Z.log2 z).
  { apply Z.log2_lt_pow2; [lia|]. apply Z.div_lt_upper_bound; [lia|].
    pose proof (Z.log2_spec z ltac:(lia)) as [_ Hs]. rewrite Z.pow_succ_r in Hs by apply Z.log2_nonneg. lia. }
  pose proof (Z.log2_nonneg (z / 10)).
  destruct (IH (z / 10)) as (Hv & Hd & c & s' & Hs & Hc); [lia|lia|].
  rewrite dec_digits_app. split_and!.
  - unfold dec_value in *. rewrite fold_left_app, Hv. cbn. unfold dec_step.
    pose proof (Z.div_mod z 10 ltac:(lia)). lia.
  - apply Forall_app; split; [done|by repeat constructor].
  - rewrite Hs. eexists c, (s' ++ _). split; [done|]. intros E.
    destruct (Hc E); lia.
Qed.

Lemma dec_of_nat_spec z :
  0 ≤ z →
  dec_value (dec_of_nat z) = z ∧ Forall (λ c, is_digit c = true) (dec_of_nat z) ∧
  (∃ c s', dec_of_nat z = c :: s' ∧ (c = 48 → z = 0 ∧ s' = [])).
Proof. intros. apply dec_digits_spec; [done|lia]. Qed.

Lemma num_of_decimal_int (neg : bool) z :
  0 ≤ z → safe z →
  num_of_decimal neg z 0 = if decide (z = 0) then S754_zero neg else num_of_Z (if neg then - z else z).
Proof.
  intros Hz Hs. unfold num_of_decimal. destruct z as [|p|p]; [done| |lia].
  rewrite Z.leb_refl, Pos.mul_1_r. case_decide; [done|].
  unfold num_of_Z. by destruct neg.
Qed.

Lemma num_of_digits_dec z : 0 ≤ z → safe z → num_of_digits (dec_of_nat z) = num_of_Z z.
Proof.
  intros Hz Hs. unfold num_of_digits. rewrite (proj1 (dec_of_nat_spec z Hz)).
  rewrite num_of_decimal_int by done. by case_decide; subst.
Qed.

(** ** [Number::toString] (radix 10)

    A safe integer prints as its decimal digits: no shorter digit string
    denotes the same double, because distinct safe integers are distinct
    doubles.  Any other finite number prints with the fewest significant
    digits that read back as the same double (17 always suffice). *)

(** [n] with [10^(n-1) <= a/b < 10^n], for [0 < a], [0 < b]; 330 steps cover
    the binary64 range on either side. *)
Fixpoint dec_exponent (fuel : nat) (a b : Z) (n : Z) : Z :=
  match fuel with
  | O => n
  | S fuel =>
      if b <=? a then dec_exponent fuel a (10 * b) (n + 1)
      else if b <=? 10 * a then n
      else dec_exponent fuel (10 * a) b (n - 1)
  end.

(** The significand of [k] digits nearest to [a/b], if it reads back as [x]. *)
Definition dec_candidate (x : num) (a b n : Z) (k : Z) : option Z :=
  let '(c, d) := if n <=? k then (a * 10 ^ (k - n), b) else (a, b * 10 ^ (n - k)) in
  let lo := c / d in
  let ok s := (10 ^ (k - 1) <=? s) && (s <? 10 ^ k) && num_eq (num_of_decimal false s (n - k)) x in
  match ok lo, ok (lo + 1) with
  | true, true => Some (if 2 * (c - lo * d) <=? d then lo else lo + 1)
  | true, false => Some lo
  | false, true => Some (lo + 1)
  | false, false => None
  end.

Fixpoint dec_search (fuel : nat) (x : num) (a b n k : Z) : Z * Z :=
  match dec_candidate x a b n k with
  | Some s => (s, k)
  | None => match fuel with
            | O => (a, k)
            | S fuel => dec_search fuel x a b n (k + 1)
            end
  end.

Definition zeros (n : Z) : jstr := replicate (Z.to_nat n) 48.

Definition dec_layout (ds : jstr) (k n : Z) : jstr :=
  let e := n - 1 in
  let exp := js "e" ++ (if e <? 0 then js "-" else js "+") ++ dec_of_nat (Z.abs e) in
  if (k <=? n) && (n <=? 21) then ds ++ zeros (n - k)
  else if (0 <? n) && (n <=? 21) then take (Z.to_nat n) ds ++ js "." ++ drop (Z.to_nat n) ds
  else if (-6 <? n) && (n <=? 0) then js "0." ++ zeros (- n) ++ ds
  else if k =? 1 then ds ++ exp
  else take 1 ds ++ js "." ++ drop 1 ds ++ exp.

Definition num_to_string_pos (x : num) (m : positive) (e : Z) : jstr :=
  let '(a, b) := if 0 <=? e then (Z.pos m * 2 ^ e, 1) else (Z.pos m, 2 ^ (- e)) in
  let n := dec_exponent 330 a b 0 in
  let '(s, k) := dec_search 17 x a b n 1 in
  dec_layout (dec_of_nat s) k n.

Definition num_to_string (x : num) : jstr :=
  match num_value x with
  | Some z => if Z.abs z <? 2 ^ 53 then dec_of_Z z
              else (match x with
                    | S754_finite s m e => (if s then js "-" else []) ++ num_to_string_pos (num_abs x) m e
                    | _ => []
                    end)
  | None => match x with
            | S754_finite s m e => (if s then js "-" else []) ++ num_to_string_pos (num_abs x) m e
            | S754_infinity s => if s then js "-Infinity" else js "Infinity"
            | _ => js "NaN"
            end
  end.

Lemma num_to_string_of_Z z : safe z → num_to_string (num_of_Z z) = dec_of_Z z.
Proof.
  intros Hz. unfold num_to_string. rewrite num_value_of_Z by done.
  by rewrite (proj2 (Z.ltb_lt _ _)).
Qed.

(** Decimal printing and reading agree with JavaScript on these inputs. *)
Example num_to_string_examples :
  num_to_string (num_of_decimal false 1 (-1)) = js "0.1" ∧
  num_to_string (num_of_decimal false 30000000000000004 (-17)) = js "0.30000000000000004" ∧
  num_to_string (num_of_decimal true 15 (-1)) = js "-1.5" ∧
  num_to_string (num_of_decimal false 1 21) = js "1e+21" ∧
  num_to_string (num_of_decimal false 123456789012345680000 0) = js "123456789012345680000" ∧
  num_to_string (num_of_decimal false 5 (-324)) = js "5e-324" ∧
  num_to_string (num_of_decimal false 17976931348623157 292) = js "1.7976931348623157e+308" ∧
  num_to_string (num_of_decimal false 1 400) = js "Infinity" ∧
  num_to_string (num_of_decimal false 1234 (-10)) = js "1.234e-7" ∧
  num_to_string (num_of_decimal false 9007199254740993 0) = js "9007199254740992" ∧
  num_to_string (num_of_decimal true 0 0) = js "0".
Proof. vm_compute. repeat split. Qed.
