(* ===== verification/JsString.v ===== *)
(** * JavaScript strings: search, slicing, case and UTF-8

    The string operations the SDK uses ([startsWith], [slice], [split(" ")],
    [toLowerCase]) on UTF-16 code units, and the two encodings at its edges:
    [Buffer.from(s, "utf8")] (a lone surrogate becomes U+FFFD) and the WHATWG
    UTF-8 decoder behind [TextDecoder] and [Buffer.toString("utf8")] (a
    malformed sequence becomes U+FFFD; [TextDecoder] drops a leading byte order
    mark). *)
From S2P Require Import Prelude.
From stdpp Require Import base tactics list numbers option strings sets.
Local Open Scope Z_scope.

(** ** Search and slicing *)

Fixpoint starts_with (p s : jstr) : bool :=
  match p, s with
  | [], _ => true
  | x :: p, y :: s => (x =? y) && starts_with p s
  | _ :: _, [] => false
  end.

(** [s.split(sep)] for a separator of one code unit. *)
Fixpoint split_on (sep : Z) (s : jstr) : list jstr :=
  match s with
  | [] => [[]]
  | c :: s =>
      if c =? sep then [] :: split_on sep s
      else match split_on sep s with
           | w :: ws => (c :: w) :: ws
           | [] => [[c]]
           end
  end.

Fixpoint join_with (sep : Z) (ws : list jstr) : jstr :=
  match ws with
  | [] => []
  | [w] => w
  | w :: ws => w ++ sep :: join_with sep ws
  end.

Lemma starts_with_spec p s : starts_with p s = true ↔ ∃ k, s = p ++ k.
Proof.
  revert s; induction p as [|x p IH]; intros s; [naive_solver|].
  destruct s as [|y s]; cbn; [naive_solver|].
  rewrite andb_true_iff, Z.eqb_eq, IH. naive_solver.
Qed.

Lemma split_on_nonempty sep s : split_on sep s ≠ [].
Proof. destruct s; cbn; [done|]. case_match; [done|]. by case_match. Qed.

Lemma join_split sep s : join_with sep (split_on sep s) = s.
Proof.
  induction s as [|c s IH]; [done|]. cbn. destruct (Z.eqb_spec c sep) as [->|].
  - pose proof (split_on_nonempty sep s). destruct (split_on sep s); [done|].
    cbn in *. by rewrite IH.
  - destruct (split_on sep s) as [|w [|w' ws]] eqn:E; cbn in *; by rewrite <-IH.
Qed.

Lemma split_on_free sep s : Forall (λ w, sep ∉ w) (split_on sep s).
Proof.
  induction s as [|c s IH]; cbn; [repeat constructor; set_solver|].
  destruct (Z.eqb_spec c sep) as [->|]; [constructor; set_solver|].
  destruct (split_on sep s) as [|w ws]; [repeat constructor; set_solver|].
  inversion_clear IH. constructor; [set_solver|done].
Qed.

Lemma split_on_app sep w s :
  sep ∉ w → split_on sep (w ++ sep :: s) = w :: split_on sep s.
Proof.
  induction w as [|c w IH]; intros Hw; cbn; [by rewrite Z.eqb_refl|].
  rewrite (proj2 (Z.eqb_neq c sep)) by set_solver. rewrite IH by set_solver. done.
Qed.

Lemma split_on_single sep w : sep ∉ w → split_on sep w = [w].
Proof.
  induction w as [|c w IH]; intros Hw; cbn; [done|].
  rewrite (proj2 (Z.eqb_neq c sep)) by set_solver. rewrite IH by set_solver. done.
Qed.

(** Splitting is the inverse of joining words without the separator. *)
Lemma split_join sep ws :
  ws ≠ [] → Forall (λ w, sep ∉ w) ws → split_on sep (join_with sep ws) = ws.
Proof.
  intros Hne Hf. induction Hf as [|w ws Hw Hf IH]; [done|].
  destruct ws as [|w' ws]; [by apply split_on_single|].
  cbn [join_with]. rewrite split_on_app by done. f_equal. apply IH. done.
Qed.

(** ** Case

    [toLowerCase] maps the ASCII capitals to the small letters; what it does
    outside ASCII is Unicode data of the JavaScript engine, an interface of
    the model with the one law the header code relies on. *)
Definition ascii_lower (c : Z) : Z := if (65 <=? c) && (c <=? 90) then c + 32 else c.
Definition is_ascii (c : Z) : bool := (0 <=? c) && (c <? 128).

Class LowerCase := {
  toLowerCase : jstr → jstr;
  toLowerCase_ascii : ∀ s, Forall (λ c, is_ascii c = true) s →
    toLowerCase s = map ascii_lower s;
}.

(** Lowering of ASCII only, with U+212A KELVIN SIGN (whose lower case is the
    ASCII [k]) as an instance of a capital outside ASCII. *)
Definition ascii_kelvin_lower (s : jstr) : jstr :=
  map (λ c, if c =? 8490 then 107 else ascii_lower c) s.

#[export] Program Instance AsciiKelvin : LowerCase := {| toLowerCase := ascii_kelvin_lower |}.
Next Obligation.
  intros s Hs. unfold ascii_kelvin_lower. induction Hs as [|c s Hc Hs IH]; [done|]. cbn.
  rewrite IH. f_equal. unfold is_ascii in Hc. bool_inv.
  by rewrite (proj2 (Z.eqb_neq c 8490)) by lia.
Qed.

(** ** UTF-16 and UTF-8 *)

Definition is_high (c : Z) : bool := (55296 <=? c) && (c <? 56320).
Definition is_low (c : Z) : bool := (56320 <=? c) && (c <? 57344).
Definition is_surrogate (c : Z) : bool := (55296 <=? c) && (c <? 57344).

(** The Unicode scalar values of a string; a lone surrogate reads as U+FFFD. *)
Fixpoint scalars (s : jstr) : list Z :=
  match s with
  | [] => []
  | c :: s1 =>
      if is_high c then
        match s1 with
        | d :: s2 => if is_low d then (65536 + (c - 55296) * 1024 + (d - 56320)) :: scalars s2
                     else 65533 :: scalars s1
        | [] => [65533]
        end
      else (if is_low c then 65533 else c) :: scalars s1
  end.

(** Strings without lone surrogates. *)
Fixpoint well_formed (s : jstr) : bool :=
  match s with
  | [] => true
  | c :: s1 =>
      if is_high c then
        match s1 with
        | d :: s2 => is_low d && well_formed s2
        | [] => false
        end
      else negb (is_low c) && well_formed s1
  end.

Definition utf16_of_scalar (c : Z) : jstr :=
  if c <? 65536 then [c] else [55296 + (c - 65536) / 1024; 56320 + (c - 65536) mod 1024].

Definition utf8_of_scalar (c : Z) : bytes :=
  if c <? 128 then [c]
  else if c <? 2048 then [192 + c / 64; 128 + c mod 64]
  else if c <? 65536 then [224 + c / 4096; 128 + (c / 64) mod 64; 128 + c mod 64]
  else [240 + c / 262144; 128 + (c / 4096) mod 64; 128 + (c / 64) mod 64; 128 + c mod 64].

(** [Buffer.from(s, "utf8")] *)
Definition utf8_encode (s : jstr) : bytes := scalars s ≫= utf8_of_scalar.

(** The decoder's state between bytes: how many continuation bytes are still
    needed, the bounds of the next one, and the bits collected. *)
Record utf8_state := Utf8State {
  u_needed : nat;
  u_lower : Z;
  u_upper : Z;
  u_point : Z;
}.

Definition utf8_init : utf8_state := Utf8State 0 128 191 0.

(** A byte in the initial state. *)
Definition utf8_first (b : Z) : list Z * utf8_state :=
  if b <? 128 then ([b], utf8_init)
  else if (194 <=? b) && (b <=? 223) then ([], Utf8State 1 128 191 (b - 192))
  else if (224 <=? b) && (b <=? 239) then
    ([], Utf8State 2 (if b =? 224 then 160 else 128) (if b =? 237 then 159 else 191) (b - 224))
  else if (240 <=? b) && (b <=? 244) then
    ([], Utf8State 3 (if b =? 240 then 144 else 128) (if b =? 244 then 143 else 191) (b - 240))
  else ([65533], utf8_init).

Definition utf8_step (st : utf8_state) (b : Z) : list Z * utf8_state :=
  match u_needed st with
  | O => utf8_first b
  | S n =>
      if (u_lower st <=? b) && (b <=? u_upper st) then
        let cp := u_point st * 64 + (b - 128) in
        match n with
        | O => ([cp], utf8_init)
        | S _ => ([], Utf8State n 128 191 cp)
        end
      else let '(out, st') := utf8_first b in (65533 :: out, st')
  end.

Fixpoint utf8_run (st : utf8_state) (bs : bytes) : list Z :=
  match bs with
  | [] => match u_needed st with O => [] | S _ => [65533] end
  | b :: bs => let '(out, st') := utf8_step st b in out ++ utf8_run st' bs
  end.

(** [buf.toString("utf8")] *)
Definition utf8_decode (bs : bytes) : jstr := utf8_run utf8_init bs ≫= utf16_of_scalar.

(** [new TextDecoder().decode(bs)]: as above, less a leading byte order mark. *)
Definition text_decode (bs : bytes) : jstr :=
  match utf8_decode bs with
  | c :: s => if c =? 65279 then s else c :: s
  | [] => []
  end.

(** ** Decoding inverts encoding *)

Definition scalar_ok (c : Z) : Prop := 0 ≤ c < 55296 ∨ 57344 ≤ c < 1114112.

Ltac zbool :=
  repeat match goal with
  | |- context [?a <? ?b] => destruct (Z.ltb_spec a b); try lia
  | |- context [?a <=? ?b] => destruct (Z.leb_spec a b); try lia
  | |- context [?a =? ?b] => destruct (Z.eqb_spec a b); try lia
  end.

Lemma utf8_run_scalar c bs :
  scalar_ok c → utf8_run utf8_init (utf8_of_scalar c ++ bs) = c :: utf8_run utf8_init bs.
Proof.
  unfold scalar_ok, utf8_of_scalar. intros Hc.
  pose proof (Z.div_mod c 64 ltac:(lia)). pose proof (Z.mod_pos_bound c 64 ltac:(lia)).
  pose proof (Z.div_mod (c / 64) 64 ltac:(lia)). pose proof (Z.mod_pos_bound (c / 64) 64 ltac:(lia)).
  pose proof (Z.div_mod (c / 4096) 64 ltac:(lia)). pose proof (Z.mod_pos_bound (c / 4096) 64 ltac:(lia)).
  assert (c / 64 / 64 = c / 4096) by (rewrite Z.div_div by lia; done).
  assert (c / 4096 / 64 = c / 262144) by (rewrite Z.div_div by lia; done).
  destruct (Z.ltb_spec c 128); [|destruct (Z.ltb_spec c 2048); [|destruct (Z.ltb_spec c 65536)]];
    cbn [app utf8_run utf8_step utf8_init u_needed u_lower u_upper u_point]; unfold utf8_first.
  all: repeat (zbool; cbn [andb app utf8_run utf8_step utf8_init u_needed u_lower u_upper u_point]).
  all: try (f_equal; lia).
  all: change (utf8_run (Utf8State 0 128 191 0) bs) with (utf8_run utf8_init bs); f_equal; lia.
Qed.

Lemma scalars_ok s : Forall unit_ok s → Forall scalar_ok (scalars s).
Proof.
  induction s as [s IH] using list_length_ind; intros Hs. destruct s as [|c s]; [constructor|].
  inversion_clear Hs as [|?? Hc Hs']. cbn [scalars]. unfold scalar_ok, unit_ok, is_high, is_low in *.
  destruct (Z.leb_spec 55296 c), (Z.ltb_spec c 56320); cbn [andb].
  2-4: constructor; [zbool; cbn; lia|apply IH; cbn; auto].
  destruct s as [|d s]; [repeat constructor; lia|].
  inversion Hs' as [|?? Hd Hs]; subst.
  destruct (Z.leb_spec 56320 d), (Z.ltb_spec d 57344); cbn [andb].
  1: constructor; [lia|apply IH; cbn; auto].
  all: constructor; [lia|apply IH; auto].
Qed.

Lemma utf16_scalars s :
  Forall unit_ok s → well_formed s = true → scalars s ≫= utf16_of_scalar = s.
Proof.
  induction s as [s IH] using list_length_ind; intros Hs Hw. destruct s as [|c s]; [done|].
  inversion_clear Hs as [|?? Hc Hs']. cbn [scalars well_formed] in *.
  destruct (is_high c) eqn:Hh.
  - destruct s as [|d s]; [done|]. inversion Hs' as [|?? Hd Hs]; subst.
    apply andb_true_iff in Hw as [Hl Hw]. rewrite Hl. cbn [mbind list_bind].
    rewrite IH by (cbn; auto; lia). unfold utf16_of_scalar, is_high, is_low in *.
    bool_inv. rewrite (proj2 (Z.ltb_ge _ _)) by lia.
    replace (65536 + (c - 55296) * 1024 + (d - 56320) - 65536)
      with ((d - 56320) + (c - 55296) * 1024) by lia.
    rewrite Z.div_add, Z.mod_add, Z.div_small, Z.mod_small by lia. cbn. do 2 f_equal; lia.
  - apply andb_true_iff in Hw as [Hl Hw]. rewrite negb_true_iff in Hl. rewrite Hl.
    cbn [mbind list_bind]. rewrite IH by (cbn; auto; lia).
    unfold utf16_of_scalar. unfold unit_ok in Hc. rewrite (proj2 (Z.ltb_lt _ _)) by lia. done.
Qed.

Lemma utf8_run_encode cs :
  Forall scalar_ok cs → utf8_run utf8_init (cs ≫= utf8_of_scalar) = cs.
Proof.
  induction 1 as [|c cs Hc Hcs IH]; [done|]. cbn [mbind list_bind].
  rewrite utf8_run_scalar by done. f_equal. exact IH.
Qed.

Lemma utf8_decode_encode s :
  Forall unit_ok s → well_formed s = true → utf8_decode (utf8_encode s) = s.
Proof.
  intros Hs Hw. unfold utf8_decode, utf8_encode.
  rewrite utf8_run_encode by by apply scalars_ok. by apply utf16_scalars.
Qed.

Lemma text_decode_encode s :
  Forall unit_ok s → well_formed s = true → head s ≠ Some 65279 →
  text_decode (utf8_encode s) = s.
Proof.
  intros Hs Hw Hb. unfold text_decode. rewrite utf8_decode_encode by done.
  destruct s as [|c s]; [done|]. destruct (Z.eqb_spec c 65279); [naive_solver|done].
Qed.

(** Encoding is the identity on ASCII, and only an ASCII string encodes to
    ASCII bytes. *)
Lemma utf8_encode_ascii s : Forall (λ c, is_ascii c = true) s → utf8_encode s = s.
Proof.
  unfold utf8_encode. induction 1 as [|c s Hc Hs IH]; [done|].
  unfold is_ascii in Hc. bool_inv. cbn [scalars]. unfold is_high, is_low in *.
  rewrite (proj2 (Z.leb_gt 55296 c)), (proj2 (Z.leb_gt 56320 c)) by lia. cbn [andb mbind list_bind].
  unfold utf8_of_scalar at 1. rewrite (proj2 (Z.ltb_lt c 128)) by lia. cbn. f_equal. exact IH.
Qed.

Lemma utf8_of_scalar_high c : 128 ≤ c → ∃ b bs, utf8_of_scalar c = b :: bs ∧ 128 ≤ b.
Proof.
  intros Hc. unfold utf8_of_scalar. zbool; eexists _, _; (split; [done|]).
  - pose proof (Z.div_pos c 64). lia.
  - pose proof (Z.div_pos c 4096). lia.
  - pose proof (Z.div_pos c 262144). lia.
Qed.

Lemma scalars_ascii s :
  Forall unit_ok s → Forall (λ c, c < 128) (scalars s) → Forall (λ c, is_ascii c = true) s.
Proof.
  intros Hs. induction Hs as [|c s Hc Hs IH]; [constructor|]. cbn [scalars].
  assert (∀ x l, 128 ≤ x → ¬ Forall (λ c, c < 128) (x :: l)) as Hbig
    by (intros x l ? Hx; inversion Hx; lia).
  unfold is_high, is_low. destruct (Z.leb_spec 55296 c), (Z.ltb_spec c 56320); cbn [andb].
  - intros Hf. exfalso. revert Hf. destruct s as [|d s]; [apply Hbig; lia|].
    destruct (Z.leb_spec 56320 d), (Z.ltb_spec d 57344); cbn [andb]; apply Hbig; lia.
  - intros Hf. exfalso. revert Hf. zbool; cbn [andb]; apply Hbig; lia.
  - zbool. cbn. inversion_clear 1. constructor; [|auto].
    unfold is_ascii, unit_ok in *. apply andb_true_iff. split; [apply Z.leb_le|apply Z.ltb_lt]; lia.
  - lia.
Qed.

(** A string whose encoding is the ASCII string [t] is [t]. *)
Lemma utf8_encode_inj_ascii s t :
  Forall unit_ok s → Forall (λ c, is_ascii c = true) t → utf8_encode s = t → s = t.
Proof.
  intros Hs Ht E. assert (Forall (λ c, is_ascii c = true) s) as Ha.
  { apply scalars_ascii; [done|]. unfold utf8_encode in E. subst t.
    induction (scalars s) as [|c cs IH]; [constructor|]. cbn [mbind list_bind] in Ht.
    apply Forall_app in Ht as [Hc Hcs]. constructor; [|by apply IH].
    destruct (Z.lt_ge_cases c 128); [done|].
    destruct (utf8_of_scalar_high c) as (b & bs & E & ?); [done|].
    rewrite E in Hc. inversion_clear Hc as [|?? Hb]. unfold is_ascii in Hb. bool_inv. lia. }
  by rewrite <-E, utf8_encode_ascii.
Qed.

Lemma utf8_of_scalar_bytes c : scalar_ok c → Forall byte_ok (utf8_of_scalar c).
Proof.
  unfold scalar_ok, utf8_of_scalar, byte_ok. intros Hc.
  pose proof (Z.mod_pos_bound c 64 ltac:(lia)). pose proof (Z.mod_pos_bound (c / 64) 64 ltac:(lia)).
  pose proof (Z.mod_pos_bound (c / 4096) 64 ltac:(lia)).
  pose proof (Z.div_mod c 64 ltac:(lia)).
  pose proof (Z.div_mod c 4096 ltac:(lia)). pose proof (Z.mod_pos_bound c 4096 ltac:(lia)).
  pose proof (Z.div_mod c 262144 ltac:(lia)). pose proof (Z.mod_pos_bound c 262144 ltac:(lia)).
  zbool; repeat constructor; lia.
Qed.

Lemma utf8_encode_bytes s : Forall unit_ok s → Forall byte_ok (utf8_encode s).
Proof.
  intros Hs. apply scalars_ok in Hs. unfold utf8_encode.
  induction Hs as [|c cs Hc Hcs IH]; [constructor|]. cbn [mbind list_bind].
  apply Forall_app; split; [by apply utf8_of_scalar_bytes|exact IH].
Qed.

(** ** Decoded text holds code units *)

(** The bits collected so far stay below the last code point. *)
Definition utf8_inv (st : utf8_state) : Prop :=
  match u_needed st with
  | O => True
  | S n => 0 ≤ u_point st ∧ 128 ≤ u_lower st ∧ u_upper st ≤ 191 ∧
           (u_point st * 64 + (u_upper st - 127)) * 64 ^ Z.of_nat n ≤ 1114112
  end.

Definition point_ok (c : Z) : Prop := 0 ≤ c < 1114112.

Lemma utf8_first_ok b :
  byte_ok b → Forall point_ok (utf8_first b).1 ∧ utf8_inv (utf8_first b).2.
Proof.
  unfold byte_ok, utf8_first. intros Hb.
  destruct (Z.ltb_spec b 128); [split; [by repeat constructor; unfold point_ok; lia|done]|].
  destruct ((194 <=? b) && (b <=? 223)) eqn:E1; [bool_inv; split; [constructor|unfold utf8_inv; cbn; lia]|].
  destruct ((224 <=? b) && (b <=? 239)) eqn:E2.
  { bool_inv. split; [constructor|unfold utf8_inv; cbn; zbool]. }
  destruct ((240 <=? b) && (b <=? 244)) eqn:E3; [|split; [by repeat constructor; unfold point_ok; lia|done]].
  bool_inv. split; [constructor|unfold utf8_inv; cbn; zbool].
Qed.

Lemma utf8_step_ok st b :
  utf8_inv st → byte_ok b → Forall point_ok (utf8_step st b).1 ∧ utf8_inv (utf8_step st b).2.
Proof.
  intros Hst Hb. unfold utf8_step. pose proof (utf8_first_ok b Hb) as [H1 H2].
  unfold utf8_inv in Hst. destruct (u_needed st) as [|n]; [done|]. destruct Hst as (Hp & Hl & Hu & Hmax).
  destruct ((u_lower st <=? b) && (b <=? u_upper st)) eqn:E.
  - bool_inv. destruct n as [|n]; cbn [fst snd].
    + split; [|done]. repeat constructor; unfold point_ok; cbn in Hmax; lia.
    + split; [done|]. unfold utf8_inv. cbn [u_needed u_point u_lower u_upper].
      rewrite Nat2Z.inj_succ, Z.pow_succ_r in Hmax by lia.
      pose proof (Z.pow_pos_nonneg 64 (Z.of_nat n) ltac:(lia) ltac:(lia)). split_and!; try lia. nia.
  - destruct (utf8_first b) as [out st']. cbn in *. split; [|done]. constructor; [unfold point_ok; lia|done].
Qed.

Lemma utf16_units c : point_ok c → Forall unit_ok (utf16_of_scalar c).
Proof.
  unfold point_ok, utf16_of_scalar. intros Hc. destruct (Z.ltb_spec c 65536); repeat constructor; unfold unit_ok; try lia.
  - apply Z.add_nonneg_nonneg; [lia|]. apply Z.div_pos; lia.
  - assert ((c - 65536) / 1024 < 1024) by (apply Z.div_lt_upper_bound; lia). lia.
  - pose proof (Z.mod_pos_bound (c - 65536) 1024 ltac:(lia)). lia.
  - pose proof (Z.mod_pos_bound (c - 65536) 1024 ltac:(lia)). lia.
Qed.

Lemma utf8_decode_units bs : Forall byte_ok bs → Forall unit_ok (utf8_decode bs).
Proof.
  intros Hbs. unfold utf8_decode. apply Forall_bind.
  apply (Forall_impl point_ok); [|apply utf16_units]. assert (utf8_inv utf8_init) as Hi by done.
  revert Hi. generalize utf8_init. induction Hbs as [|b bs Hb Hbs IH]; intros st Hst; cbn [utf8_run].
  - destruct (u_needed st); repeat constructor; unfold point_ok; lia.
  - destruct (utf8_step_ok st b Hst Hb) as [Ho Hs]. destruct (utf8_step st b) as [out st'].
    apply Forall_app. split; [done|by apply IH].
Qed.

Lemma js_ascii s : forallb is_ascii (js s) = true → Forall (λ c, is_ascii c = true) (js s).
Proof. apply forallb_Forall_iff. Qed.

(** The decoder on well-formed and malformed input. *)
Example utf8_examples :
  text_decode [239; 187; 191; 104; 105] = js "hi" ∧
  utf8_decode [226; 130; 172; 240; 159; 152; 128] = [8364; 55357; 56832] ∧
  utf8_decode [237; 160; 128] = [65533; 65533; 65533] ∧
  utf8_decode [240; 159; 152; 65] = [65533; 65] ∧
  utf8_decode [192; 128; 226; 130] = [65533; 65533; 65533] ∧
  utf8_encode [55357; 56832; 55357] = [240; 159; 152; 128; 239; 191; 189].
Proof. vm_compute. repeat split. Qed.

(** ** Text or bytes

    Several functions take [string | Uint8Array]. *)
Inductive payload :=
| PText (s : jstr)
| PBytes (b : bytes).

(** [Buffer.from(p, "utf8")] or [Buffer.from(p)] *)
Definition payload_bytes (p : payload) : bytes :=
  match p with PText s => utf8_encode s | PBytes b => b end.

(** [typeof p === "string" ? p : new TextDecoder().decode(p)] *)
Definition payload_text (p : payload) : jstr :=
  match p with PText s => s | PBytes b => text_decode b end.
