(* ===== verification/Regex.v ===== *)
(** * Regular expressions

    The patterns of the SDK ([REF_PATTERN], [REF_V2_PATTERN], the base64 and
    digest patterns, ...) are anchored JavaScript regular expressions built
    from character classes, sequence, alternation, greedy repetition and named
    groups.  [re_exec] is the backtracking matcher of ECMA-262 for that
    fragment, in continuation-passing style; [re_match] is the declarative
    meaning.  The matcher is sound and complete for it. *)
From S2P Require Import Prelude.
From stdpp Require Import base tactics list numbers option strings.
Local Open Scope Z_scope.
#[local] Arguments Nat.ltb : simpl never.

Inductive re : Type :=
| RChar (p : Z → bool)
| REps
| RSeq (a b : re)
| RAlt (a b : re)
| RStar (a : re)
| RGroup (name : string) (a : re).

(** Captured groups, the latest first. *)
Abbreviation captures := (list (string * jstr)) (only parsing).

(** The greedy star: try one more iteration (which must consume), then give up.
    [length s] iterations are enough, since each consumes a code unit. *)
Definition star_loop
    (ma : jstr → captures → (jstr → captures → option captures) → option captures)
    (k : jstr → captures → option captures) :
    nat → jstr → captures → option captures :=
  fix loop n s cs :=
    match (match n with
           | O => None
           | S n => ma s cs (λ s' cs', if (length s' <? length s)%nat then loop n s' cs' else None)
           end) with
    | Some out => Some out
    | None => k s cs
    end.

Fixpoint matcher (r : re) (s : jstr) (cs : captures)
    (k : jstr → captures → option captures) {struct r} : option captures :=
  match r with
  | RChar p => match s with
               | c :: s' => if p c then k s' cs else None
               | [] => None
               end
  | REps => k s cs
  | RSeq a b => matcher a s cs (λ s' cs', matcher b s' cs' k)
  | RAlt a b => match matcher a s cs k with
                | Some out => Some out
                | None => matcher b s cs k
                end
  | RStar a => star_loop (matcher a) k (length s) s cs
  | RGroup name a =>
      matcher a s cs (λ s' cs', k s' ((name, take (length s - length s') s) :: cs'))
  end.

(** [/^r$/.exec(s)]: the groups captured by a match of the whole string. *)
Definition re_exec (r : re) (s : jstr) : option captures :=
  matcher r s [] (λ s' cs, match s' with [] => Some cs | _ => None end).

(** [/^r$/.test(s)] *)
Definition re_test (r : re) (s : jstr) : bool :=
  match re_exec r s with Some _ => true | None => false end.

(** ** Pattern syntax *)

Definition re_lit (s : jstr) : re := foldr (λ c r, RSeq (RChar (Z.eqb c)) r) REps s.
Fixpoint re_times (n : nat) (r : re) : re :=
  match n with O => REps | S n => RSeq r (re_times n r) end.
Fixpoint re_upto (n : nat) (r : re) : re :=
  match n with O => REps | S n => RAlt (RSeq r (re_upto n r)) REps end.
(** [r{m,n}], [r+], [r?] *)
Definition re_range (m n : nat) (r : re) : re := RSeq (re_times m r) (re_upto (n - m) r).
Definition re_plus (r : re) : re := RSeq r (RStar r).
Definition re_opt (r : re) : re := RAlt r REps.

(** Character classes. *)
Definition cls_between (lo hi : Z) (c : Z) : bool := (lo <=? c) && (c <=? hi).
Definition cls_digit := cls_between 48 57.
Definition cls_upper := cls_between 65 90.
Definition cls_lower := cls_between 97 122.
Definition cls_or (p q : Z → bool) (c : Z) : bool := p c || q c.

(** ** Declarative meaning *)

Inductive re_match : re → jstr → captures → Prop :=
| MChar p c : p c = true → re_match (RChar p) [c] []
| MEps : re_match REps [] []
| MSeq a b s1 s2 c1 c2 :
    re_match a s1 c1 → re_match b s2 c2 → re_match (RSeq a b) (s1 ++ s2) (c2 ++ c1)
| MAltL a b s c : re_match a s c → re_match (RAlt a b) s c
| MAltR a b s c : re_match b s c → re_match (RAlt a b) s c
| MStarNil a : re_match (RStar a) [] []
| MStarCons a s1 s2 c1 c2 :
    s1 ≠ [] → re_match a s1 c1 → re_match (RStar a) s2 c2 →
    re_match (RStar a) (s1 ++ s2) (c2 ++ c1)
| MGroup name a s c : re_match a s c → re_match (RGroup name a) s ((name, s) :: c).

Lemma star_loop_sound a k n s cs out :
  (∀ s cs k out, matcher a s cs k = Some out →
     ∃ s1 s2 c, s = s1 ++ s2 ∧ re_match a s1 c ∧ k s2 (c ++ cs) = Some out) →
  star_loop (matcher a) k n s cs = Some out →
  ∃ s1 s2 c, s = s1 ++ s2 ∧ re_match (RStar a) s1 c ∧ k s2 (c ++ cs) = Some out.
Proof.
  intros IHa. revert s cs. induction n as [|n IH]; intros s cs; cbn.
  { intros ?. eexists [], s, []. eauto using re_match. }
  destruct (matcher a s cs _) as [out'|] eqn:E.
  - intros [= ->]. apply IHa in E as (s1 & s2 & c & -> & Hm & E).
    revert E. destruct (Nat.ltb_spec (length s2) (length (s1 ++ s2))) as [Hl|]; [intros E|done].
    apply IH in E as (t1 & t2 & c' & -> & Hm' & E).
    eexists (s1 ++ t1), t2, (c' ++ c). rewrite <-!app_assoc. split; [done|].
    split; [|by rewrite <-?app_assoc in * |- *].
    constructor; auto. intros ->. cbn in Hl. lia.
  - intros ?. eexists [], s, []. eauto using re_match.
Qed.

Lemma matcher_sound r s cs k out :
  matcher r s cs k = Some out →
  ∃ s1 s2 c, s = s1 ++ s2 ∧ re_match r s1 c ∧ k s2 (c ++ cs) = Some out.
Proof.
  revert s cs k out; induction r as [p| |a IHa b IHb|a IHa b IHb|a IHa|name a IHa];
    intros s cs k out; cbn.
  - destruct s as [|c s]; [done|]. destruct (p c) eqn:Hp; [|done]. intros ?.
    eexists [c], s, []. eauto using re_match.
  - intros ?. eexists [], s, []. eauto using re_match.
  - intros H. apply IHa in H as (s1 & s2 & c1 & -> & H1 & H).
    apply IHb in H as (s3 & s4 & c2 & -> & H2 & H).
    eexists (s1 ++ s3), s4, (c2 ++ c1). rewrite <-!app_assoc. eauto using re_match.
  - destruct (matcher a s cs k) as [out'|] eqn:E; [intros [= ->]|intros H].
    + apply IHa in E as (s1 & s2 & c & -> & H1 & H). eauto 8 using re_match.
    + apply IHb in H as (s1 & s2 & c & -> & H1 & H). eauto 8 using re_match.
  - by apply star_loop_sound.
  - intros H. apply IHa in H as (s1 & s2 & c & -> & H1 & H).
    eexists s1, s2, ((name, s1) :: c). split; [done|]. split; [by constructor|].
    rewrite <-H. do 3 f_equal. rewrite length_app, Nat.add_sub, take_app_length. done.
Qed.

Lemma star_loop_complete a s1 c :
  re_match (RStar a) s1 c →
  (∀ s1 c, re_match a s1 c → ∀ s2 cs k, k s2 (c ++ cs) ≠ None → matcher a (s1 ++ s2) cs k ≠ None) →
  ∀ s2 cs k n, (length (s1 ++ s2) ≤ n)%nat → k s2 (c ++ cs) ≠ None →
  star_loop (matcher a) k n (s1 ++ s2) cs ≠ None.
Proof.
  intros Hm IHa. remember (RStar a) as r eqn:Er.
  induction Hm as [| | | | | a'|a' s1 s1' c1 c2 Hne H1 _ Hs IHs|]; simplify_eq.
  - intros s2 cs k n _ Hk. destruct n; cbn; [done|]. by case_match.
  - intros s2 cs k n Hn Hk. destruct n as [|n]; [destruct s1; cbn in Hn; [done|lia]|].
    cbn. case_match eqn:E; [done|]. exfalso. revert E. rewrite <-app_assoc.
    apply IHa with (c := c1); [done|].
    destruct (Nat.ltb_spec (length (s1' ++ s2)) (length (s1 ++ s1' ++ s2))) as [|Hge].
    + apply IHs; [done| |by rewrite app_assoc].
      rewrite !length_app in *. destruct s1; [done|]. cbn in Hn. lia.
    + rewrite !length_app in Hge. destruct s1; [done|]. cbn in Hge. lia.
Qed.

Lemma matcher_complete r s1 c :
  re_match r s1 c → ∀ s2 cs k, k s2 (c ++ cs) ≠ None → matcher r (s1 ++ s2) cs k ≠ None.
Proof.
  revert s1 c; induction r as [p| |a IHa b IHb|a IHa b IHb|a IHa|name a IHa];
    intros s1 c Hm s2 cs k Hk.
  5: { cbn. eapply star_loop_complete; eauto. }
  all: inversion Hm; simplify_eq; cbn in *.
  - case_match; congruence.
  - done.
  - rewrite <-!app_assoc in *. eapply IHa; [done|]. eapply IHb; [done|].
    by rewrite app_assoc in Hk |- *.
  - case_match eqn:E; [done|]. exfalso. by eapply IHa in E.
  - case_match; [done|]. by eapply IHb.
  - eapply IHa; [done|]. by rewrite length_app, Nat.add_sub, take_app_length.
Qed.

Lemma re_exec_sound r s cs : re_exec r s = Some cs → re_match r s cs.
Proof.
  intros H. apply matcher_sound in H as (s1 & s2 & c & -> & Hm & E).
  destruct s2; [|done]. rewrite !app_nil_r in *. by simplify_eq.
Qed.

Lemma re_exec_complete r s c : re_match r s c → is_Some (re_exec r s).
Proof.
  intros Hm. apply not_eq_None_Some. unfold re_exec. rewrite <-(app_nil_r s).
  eapply matcher_complete; [done|]. done.
Qed.

Lemma re_test_spec r s : re_test r s = true ↔ ∃ c, re_match r s c.
Proof.
  unfold re_test. split.
  - destruct (re_exec r s) eqn:E; [|done]. eauto using re_exec_sound.
  - intros [c Hm]. by destruct (re_exec_complete _ _ _ Hm) as [? ->].
Qed.

(** ** Inversion of the meaning, one construct at a time *)

Section inversion.
Implicit Types (s : jstr) (c : captures).

Lemma match_seq a b s c :
  re_match (RSeq a b) s c ↔
  ∃ s1 s2 c1 c2, s = s1 ++ s2 ∧ c = c2 ++ c1 ∧ re_match a s1 c1 ∧ re_match b s2 c2.
Proof. split; [inversion 1; naive_solver|]. intros (?&?&?&?&->&->&?&?). by constructor. Qed.

Lemma match_alt a b s c : re_match (RAlt a b) s c ↔ re_match a s c ∨ re_match b s c.
Proof. split; [inversion 1; auto|]. intros [?|?]; auto using re_match. Qed.

Lemma match_eps s c : re_match REps s c ↔ s = [] ∧ c = [].
Proof. split; [by inversion 1|]. intros [-> ->]. constructor. Qed.

Lemma match_group name a s c :
  re_match (RGroup name a) s c ↔ ∃ c', c = (name, s) :: c' ∧ re_match a s c'.
Proof. split; [inversion 1; eauto|]. intros (? & -> & ?). by constructor. Qed.

Lemma match_char p s c : re_match (RChar p) s c ↔ ∃ x, s = [x] ∧ p x = true ∧ c = [].
Proof. split; [inversion 1; eauto|]. intros (? & -> & ? & ->). by constructor. Qed.

Lemma match_lit l s c : re_match (re_lit l) s c ↔ s = l ∧ c = [].
Proof.
  revert s c; induction l as [|x l IH]; intros s c; cbn; [apply match_eps|].
  rewrite match_seq. setoid_rewrite IH. setoid_rewrite match_char. split.
  - intros (?&?&?&?&->&->&(y&->&Hy&->)&->&->). apply Z.eqb_eq in Hy as ->. done.
  - intros [-> ->]. eexists [x], l, [], []. split_and!; eauto using Z.eqb_refl.
Qed.

Lemma match_times_cls n p s c :
  re_match (re_times n (RChar p)) s c ↔
  Forall (λ x, p x = true) s ∧ length s = n ∧ c = [].
Proof.
  revert s c; induction n as [|n IH]; intros s c; cbn.
  - rewrite match_eps. split; [intros [-> ->]; auto|].
    intros (_ & ?%nil_length_inv & ->). auto.
  - rewrite match_seq. setoid_rewrite IH. setoid_rewrite match_char. split.
    + intros (?&?&?&?&->&->&(y&->&Hy&->)&?&<-&->). split_and!; [by constructor|done|done].
    + intros (Hf & Hl & ->). destruct s as [|x s]; [done|]. inversion_clear Hf.
      eexists [x], s, [], []. split_and!; eauto.
Qed.

Lemma match_upto_cls n p s c :
  re_match (re_upto n (RChar p)) s c ↔
  Forall (λ x, p x = true) s ∧ (length s ≤ n)%nat ∧ c = [].
Proof.
  revert s c; induction n as [|n IH]; intros s c; cbn.
  - rewrite match_eps. split; [intros [-> ->]; auto|].
    intros (_ & Hl & ->). destruct s; cbn in Hl; [done|lia].
  - rewrite match_alt, match_seq, match_eps. setoid_rewrite IH. setoid_rewrite match_char. split.
    + intros [(?&?&?&?&->&->&(y&->&Hy&->)&?&?&->)|[-> ->]].
      * split_and!; [by constructor|cbn; lia|done].
      * split_and!; [constructor|cbn; lia|done].
    + intros (Hf & Hl & ->). destruct s as [|x s]; [by right|]. left. inversion_clear Hf.
      cbn in Hl. eexists [x], s, [], []. split_and!; eauto with lia.
Qed.

Lemma match_range_cls m n p s c :
  (m ≤ n)%nat →
  re_match (re_range m n (RChar p)) s c ↔
  Forall (λ x, p x = true) s ∧ (m ≤ length s ≤ n)%nat ∧ c = [].
Proof.
  intros Hmn. unfold re_range. rewrite match_seq.
  setoid_rewrite match_times_cls. setoid_rewrite match_upto_cls. split.
  - intros (?&?&?&?&->&->&(?&?&->)&?&?&->). rewrite Forall_app, length_app. split_and!; auto; lia.
  - intros (Hf & Hl & ->). eexists (take m s), (drop m s), [], [].
    rewrite take_drop, length_take, length_drop.
    split_and!; auto using Forall_take, Forall_drop; lia.
Qed.

Lemma match_star_cls p s c :
  re_match (RStar (RChar p)) s c ↔ Forall (λ x, p x = true) s ∧ c = [].
Proof.
  split.
  - intros Hm. remember (RStar (RChar p)) as r eqn:Er.
    induction Hm as [| | | | | |a s1 s2 c1 c2 _ H1 _ _ IH|]; simplify_eq; [auto|].
    apply match_char in H1 as (x & -> & Hx & ->). destruct IH as [? ->]; [done|].
    split; [by constructor|done].
  - intros [Hf ->]. induction Hf as [|x s Hx Hf IH]; [constructor|].
    apply (MStarCons _ [x] s [] []); eauto using re_match.
Qed.

Lemma match_plus_cls p s c :
  re_match (re_plus (RChar p)) s c ↔ Forall (λ x, p x = true) s ∧ s ≠ [] ∧ c = [].
Proof.
  unfold re_plus. rewrite match_seq. setoid_rewrite match_star_cls. setoid_rewrite match_char.
  split.
  - intros (?&?&?&?&->&->&(x&->&?&->)&?&->). split_and!; [by constructor|done|done].
  - intros (Hf & Hne & ->). destruct s as [|x s]; [done|]. inversion_clear Hf.
    eexists [x], s, [], []. split_and!; eauto.
Qed.

(** Repetition of a group that always consumes [k > 0] code units. *)
Lemma match_star_iff a (P : jstr → Prop) s c :
  (∀ s c, re_match a s c ↔ P s ∧ c = []) → ¬ P [] →
  re_match (RStar a) s c ↔ (∃ ws, Forall P ws ∧ s = concat ws) ∧ c = [].
Proof.
  intros Ha Hnil. split.
  - intros Hm. remember (RStar a) as r eqn:Er.
    induction Hm as [| | | | | |a' s1 s2 c1 c2 _ H1 _ _ IH|]; simplify_eq.
    + split; [|done]. by exists [].
    + apply Ha in H1 as [H1 ->]. destruct IH as [(ws & Hws & ->) ->]; [done..|].
      split; [|done]. exists (s1 :: ws). split; [by constructor|done].
  - intros [(ws & Hws & ->) ->]. induction Hws as [|w ws Hw Hws IH]; cbn; [constructor|].
    apply (MStarCons a w (concat ws) [] []); [naive_solver|by apply Ha|done].
Qed.
End inversion.
