(* ===== verification/Base64.v ===== *)
(** * Base64 and hexadecimal text

    [Buffer.from(s, "base64")], [buf.toString("base64")] and the ["hex"] digest
    form of Node's [Buffer], with the pattern both [message/index.ts] and
    [webhook/signature.ts] test a base64 string against before decoding it. *)
From S2P Require Import Prelude JsString Regex.
From stdpp Require Import base tactics list numbers option strings.
Local Open Scope Z_scope.

(** ** The alphabet *)

Definition b64_char (v : Z) : Z :=
  if v <? 26 then 65 + v
  else if v <? 52 then 71 + v
  else if v <? 62 then v - 4
  else if v =? 62 then 43 else 47.

(** The value of a character the decoder accepts; [-] and [_] are the URL-safe
    spellings of [+] and [/]. *)
Definition b64_value (c : Z) : option Z :=
  if cls_upper c then Some (c - 65)
  else if cls_lower c then Some (c - 71)
  else if cls_digit c then Some (c + 4)
  else if (c =? 43) || (c =? 45) then Some 62
  else if (c =? 47) || (c =? 95) then Some 63
  else None.

(** [[A-Za-z0-9+/]] *)
Definition cls_b64 : Z → bool :=
  cls_or cls_upper (cls_or cls_lower (cls_or cls_digit (cls_or (Z.eqb 43) (Z.eqb 47)))).

(** [/^(?:[A-Za-z0-9+/]{4})*(?:[A-Za-z0-9+/]{2}==|[A-Za-z0-9+/]{3}=)?$/] *)
Definition BASE64_PATTERN : re :=
  RSeq (RStar (re_times 4 (RChar cls_b64)))
       (re_opt (RAlt (RSeq (re_times 2 (RChar cls_b64)) (re_lit (js "==")))
                     (RSeq (re_times 3 (RChar cls_b64)) (re_lit (js "="))))).

(** ** Decoding and encoding *)

Fixpoint sextets_bytes (vs : list Z) : bytes :=
  match vs with
  | a :: b :: c :: d :: vs =>
      (a * 4 + b / 16) :: (b mod 16 * 16 + c / 4) :: (c mod 4 * 64 + d) :: sextets_bytes vs
  | [a; b; c] => [a * 4 + b / 16; b mod 16 * 16 + c / 4]
  | [a; b] => [a * 4 + b / 16]
  | _ => []
  end.

(** The characters before the first [=]. *)
Fixpoint before_pad (s : jstr) : jstr :=
  match s with
  | [] => []
  | c :: s => if c =? 61 then [] else c :: before_pad s
  end.

(** [Buffer.from(s, "base64")]: characters outside the alphabet are skipped,
    decoding stops at the first [=], and a trailing group of one sextet is
    dropped. *)
Definition buffer_from_base64 (s : jstr) : bytes := sextets_bytes (omap b64_value (before_pad s)).

(** [buf.toString("base64")] *)
Fixpoint base64_encode (bs : bytes) : jstr :=
  match bs with
  | a :: b :: c :: bs =>
      b64_char (a / 4) :: b64_char (a mod 4 * 16 + b / 16)
        :: b64_char (b mod 16 * 4 + c / 64) :: b64_char (c mod 64) :: base64_encode bs
  | [a; b] => [b64_char (a / 4); b64_char (a mod 4 * 16 + b / 16); b64_char (b mod 16 * 4); 61]
  | [a] => [b64_char (a / 4); b64_char (a mod 4 * 16); 61; 61]
  | [] => []
  end.

(** [digest("hex")] *)
Definition hex_char (v : Z) : Z := if v <? 10 then 48 + v else 87 + v.
Definition hex_encode (bs : bytes) : jstr := bs ≫= λ b, [hex_char (b / 16); hex_char (b mod 16)].

(** ** The pattern accepts exactly the padded strings over the alphabet *)

Definition b64_shape (s : jstr) : Prop :=
  ∃ body k, s = body ++ replicate k 61 ∧ Forall (λ c, cls_b64 c = true) body ∧
            (k ≤ 2)%nat ∧ Nat.divide 4 (length body + k).

Lemma concat_groups (P : jstr → Prop) (n : nat) ws :
  Forall (λ w : jstr, Forall (λ c, cls_b64 c = true) w ∧ length w = n) ws →
  Forall (λ c, cls_b64 c = true) (concat ws) ∧ length (concat ws) = (n * length ws)%nat.
Proof.
  induction 1 as [|w ws [Hw Hl] Hws [IH1 IH2]]; cbn; [split; [constructor|lia]|].
  rewrite Forall_app, length_app. split; [done|lia].
Qed.

(** A list whose length is a multiple of [n] is a concatenation of chunks. *)
Lemma chunks_of {A} (P : A → Prop) (n m : nat) (l : list A) :
  Forall P l → length l = (n * m)%nat →
  ∃ ws, Forall (λ w, Forall P w ∧ length w = n) ws ∧ l = concat ws.
Proof.
  revert l; induction m as [|m IH]; intros l Hl Hlen.
  - exists []. destruct l; [done|]. cbn in Hlen. lia.
  - destruct (IH (drop n l)) as (ws & Hws & E); [by apply Forall_drop|rewrite length_drop; lia|].
    exists (take n l :: ws). split.
    + constructor; [|done]. split; [by apply Forall_take|rewrite length_take; lia].
    + cbn. by rewrite <-E, take_drop.
Qed.

Lemma base64_pattern_spec s : re_test BASE64_PATTERN s = true ↔ b64_shape s.
Proof.
  rewrite re_test_spec. unfold BASE64_PATTERN, re_opt.
  setoid_rewrite match_seq. setoid_rewrite match_alt. setoid_rewrite match_alt.
  setoid_rewrite match_eps. setoid_rewrite match_seq.
  setoid_rewrite match_times_cls. setoid_rewrite match_lit.
  setoid_rewrite (match_star_iff _ (λ w, Forall (λ c, cls_b64 c = true) w ∧ length w = 4%nat));
    [|intros; rewrite match_times_cls; naive_solver|by intros [_ ?]]. split.
  - intros (c & s1 & s2 & c1 & c2 & -> & -> & [(ws & Hws & ->) _] & Ht).
    apply (concat_groups (λ _, True)) in Hws as [Hf Hl].
    destruct Ht as [[(t & u & ? & ? & -> & _ & (Ht & Hn & _) & -> & _)
                    |(t & u & ? & ? & -> & _ & (Ht & Hn & _) & -> & _)]|[-> _]].
    + exists (concat ws ++ t), 2%nat. rewrite <-app_assoc, Forall_app, length_app.
      split_and!; auto. exists (length ws + 1)%nat. lia.
    + exists (concat ws ++ t), 1%nat. rewrite <-app_assoc, Forall_app, length_app.
      split_and!; auto. exists (length ws + 1)%nat. lia.
    + exists (concat ws), 0%nat. split_and!; auto with lia. exists (length ws). lia.
  - intros (body & k & -> & Hb & Hk & [q Hq]).
    assert (∃ m r, length body = (4 * m + r)%nat ∧ ((k, r) = (0, 0) ∨ (k, r) = (1, 3) ∨ (k, r) = (2, 2))%nat)
      as (m & r & Hlen & Hr).
    { destruct k as [|[|[|k]]]; [exists q, 0%nat|exists (q - 1)%nat, 3%nat|exists (q - 1)%nat, 2%nat|lia];
        (split; [lia|auto]). }
    destruct (chunks_of (λ c, cls_b64 c = true) 4 m (take (4 * m) body)) as (ws & Hws & E);
      [by apply Forall_take|rewrite length_take; lia|].
    rewrite <-(take_drop (4 * m) body). eexists [], (take (4 * m) body), (drop (4 * m) body ++ replicate k 61), [], [].
    rewrite <-app_assoc. split_and!; [done|done|by exists ws|done|].
    assert (length (drop (4 * m) body) = r) as Hd by (rewrite length_drop; lia).
    destruct Hr as [[= -> ->]|[[= -> ->]|[= -> ->]]].
    + right. apply nil_length_inv in Hd. by rewrite Hd.
    + left; right. eexists (drop (4 * m) body), _, [], []. split_and!; auto using Forall_drop.
    + left; left. eexists (drop (4 * m) body), _, [], []. split_and!; auto using Forall_drop.
Qed.

(** ** Round trips *)

Ltac b64_cases v :=
  destruct (Z.ltb_spec v 26);
  [|destruct (Z.ltb_spec v 52); [|destruct (Z.ltb_spec v 62); [|destruct (Z.eqb_spec v 62)]]].

Lemma b64_char_value v : 0 ≤ v < 64 → b64_value (b64_char v) = Some v.
Proof.
  intros Hv. unfold b64_char. b64_cases v; unfold b64_value, cls_upper, cls_lower, cls_digit, cls_between;
    zbool; cbn; f_equal; lia.
Qed.

Lemma b64_char_cls v : 0 ≤ v < 64 → cls_b64 (b64_char v) = true.
Proof.
  intros Hv. unfold b64_char. b64_cases v;
    unfold cls_b64, cls_or, cls_upper, cls_lower, cls_digit, cls_between; zbool; done.
Qed.

Lemma cls_b64_not_pad c : cls_b64 c = true → c ≠ 61.
Proof. by intros H ->. Qed.

Lemma cls_b64_ascii c : cls_b64 c = true → is_ascii c = true.
Proof.
  unfold cls_b64, cls_or, cls_upper, cls_lower, cls_digit, cls_between, is_ascii.
  zbool; cbn; try done; lia.
Qed.

Lemma b64_value_cls c : cls_b64 c = true → is_Some (b64_value c).
Proof.
  unfold b64_value, cls_b64, cls_or, cls_upper, cls_lower, cls_digit, cls_between.
  zbool; cbn; by try eexists.
Qed.

Lemma b64_value_range c v : b64_value c = Some v → 0 ≤ v < 64.
Proof.
  unfold b64_value, cls_upper, cls_lower, cls_digit, cls_between.
  repeat case_match; intros; simplify_eq; bool_inv; lia.
Qed.

Lemma before_pad_shape body k :
  Forall (λ c, cls_b64 c = true) body → before_pad (body ++ replicate k 61) = body.
Proof.
  induction 1 as [|c body Hc Hb IH]; cbn; [by destruct k|].
  apply cls_b64_not_pad in Hc. rewrite (proj2 (Z.eqb_neq c 61)) by done. by rewrite IH.
Qed.

Lemma omap_b64_length body :
  Forall (λ c, cls_b64 c = true) body → length (omap b64_value body) = length body.
Proof.
  induction 1 as [|c body Hc Hb IH]; [done|]. cbn [omap list_omap].
  destruct (b64_value_cls c Hc) as [v ->]. cbn. by rewrite IH.
Qed.

(** The three ways a byte string ends a base64 text. *)
Lemma triple_ind (P : list Z → Prop) :
  P [] → (∀ a, P [a]) → (∀ a b, P [a; b]) →
  (∀ a b c l, P l → P (a :: b :: c :: l)) → ∀ l, P l.
Proof.
  intros H0 H1 H2 H3 l. induction l as [l IH] using list_length_ind.
  destruct l as [|a [|b [|c l]]]; auto. apply H3, IH. cbn. lia.
Qed.

Lemma div_pack x y k : 0 ≤ y < k → (x * k + y) / k = x.
Proof. intros. rewrite Z.div_add_l, Z.div_small by lia. lia. Qed.

Lemma mod_pack x y k : 0 ≤ y < k → (x * k + y) mod k = y.
Proof. intros. rewrite Z.add_comm, Z.mod_add, Z.mod_small by lia. done. Qed.

(** The sextets of a byte string. *)
Fixpoint bytes_sextets (bs : bytes) : list Z :=
  match bs with
  | a :: b :: c :: bs =>
      a / 4 :: a mod 4 * 16 + b / 16 :: b mod 16 * 4 + c / 64 :: c mod 64 :: bytes_sextets bs
  | [a; b] => [a / 4; a mod 4 * 16 + b / 16; b mod 16 * 4]
  | [a] => [a / 4; a mod 4 * 16]
  | [] => []
  end.

Lemma byte_parts b :
  byte_ok b → 0 ≤ b / 4 < 64 ∧ 0 ≤ b / 16 < 16 ∧ 0 ≤ b / 64 < 4 ∧
              0 ≤ b mod 4 < 4 ∧ 0 ≤ b mod 16 < 16 ∧ 0 ≤ b mod 64 < 64.
Proof.
  unfold byte_ok. intros. pose proof (Z.div_mod b 4 ltac:(lia)).
  pose proof (Z.div_mod b 16 ltac:(lia)). pose proof (Z.div_mod b 64 ltac:(lia)).
  pose proof (Z.mod_pos_bound b 4 ltac:(lia)). pose proof (Z.mod_pos_bound b 16 ltac:(lia)).
  pose proof (Z.mod_pos_bound b 64 ltac:(lia)). lia.
Qed.

Ltac byte_parts :=
  repeat match goal with
  | H : Forall byte_ok (_ :: _) |- _ => inversion_clear H
  end;
  repeat match goal with
  | H : byte_ok _ |- _ => apply byte_parts in H as (? & ? & ? & ? & ? & ?)
  end.

Lemma sextets_roundtrip bs : Forall byte_ok bs → sextets_bytes (bytes_sextets bs) = bs.
Proof.
  induction bs as [|a|a b|a b c bs IH] using triple_ind; intros Hbs; [done|..].
  all: assert (∀ x k, 0 < k → x / k * k + x mod k = x) as Hdm
    by (intros x k ?; pose proof (Z.div_mod x k ltac:(lia)); lia).
  all: cbn [bytes_sextets sextets_bytes]; try rewrite IH by (by inversion_clear Hbs as [|??? H]; inversion_clear H as [|??? H']; inversion_clear H').
  all: byte_parts; rewrite ?div_pack, ?mod_pack, ?Z.div_mul, ?Hdm by lia; try done.
Qed.

Lemma encode_sextets bs :
  Forall byte_ok bs →
  ∃ k, base64_encode bs = map b64_char (bytes_sextets bs) ++ replicate k 61 ∧ (k ≤ 2)%nat ∧
       Nat.divide 4 (length (bytes_sextets bs) + k) ∧
       Forall (λ v, 0 ≤ v < 64) (bytes_sextets bs).
Proof.
  induction bs as [|a|a b|a b c bs IH] using triple_ind; intros Hbs.
  - exists 0%nat. split_and!; [done|lia|by exists 0%nat|constructor].
  - exists 2%nat. byte_parts. split_and!; [done|lia|by exists 1%nat|repeat constructor; lia].
  - exists 1%nat. byte_parts. split_and!; [done|lia|by exists 1%nat|repeat constructor; lia].
  - destruct IH as (k & E & Hk & [q Hq] & Hv);
      [by inversion_clear Hbs as [|??? H]; inversion_clear H as [|??? H']; inversion_clear H'|].
    exists k. cbn [base64_encode bytes_sextets map app length]. rewrite E.
    byte_parts. split_and!; [done|done|exists (S q); lia|repeat constructor; auto; lia].
Qed.

Lemma map_b64_cls vs :
  Forall (λ v, 0 ≤ v < 64) vs → Forall (λ c, cls_b64 c = true) (map b64_char vs).
Proof. induction 1; cbn; constructor; auto using b64_char_cls. Qed.

Lemma omap_map_b64 vs : Forall (λ v, 0 ≤ v < 64) vs → omap b64_value (map b64_char vs) = vs.
Proof.
  induction 1 as [|v vs Hv Hvs IH]; [done|]. cbn. rewrite b64_char_value by done. by f_equal.
Qed.

(** Decoding inverts encoding, and an encoded text passes the pattern. *)
Lemma base64_decode_encode bs :
  Forall byte_ok bs → buffer_from_base64 (base64_encode bs) = bs.
Proof.
  intros Hbs. destruct (encode_sextets bs Hbs) as (k & -> & _ & _ & Hv).
  unfold buffer_from_base64. rewrite before_pad_shape by by apply map_b64_cls.
  rewrite omap_map_b64 by done. by apply sextets_roundtrip.
Qed.

Lemma base64_encode_pattern bs :
  Forall byte_ok bs → re_test BASE64_PATTERN (base64_encode bs) = true.
Proof.
  intros Hbs. apply base64_pattern_spec. destruct (encode_sextets bs Hbs) as (k & -> & Hk & Hd & Hv).
  exists (map b64_char (bytes_sextets bs)), k. rewrite length_map.
  split_and!; auto using map_b64_cls.
Qed.

Lemma base64_encode_inj bs bs' :
  Forall byte_ok bs → Forall byte_ok bs' → base64_encode bs = base64_encode bs' → bs = bs'.
Proof.
  intros H H' E. by rewrite <-(base64_decode_encode bs), E, base64_decode_encode.
Qed.

Lemma base64_encode_ascii bs :
  Forall byte_ok bs → Forall (λ c, is_ascii c = true) (base64_encode bs).
Proof.
  intros Hbs. destruct (encode_sextets bs Hbs) as (k & -> & _ & _ & Hv).
  apply Forall_app. split; [|by apply Forall_replicate].
  apply map_b64_cls in Hv. eapply Forall_impl; [done|]. apply cls_b64_ascii.
Qed.

(** ** Shape of decoded bytes *)

(** Four-step induction on sextets. *)
Lemma quad_ind (P : list Z → Prop) :
  P [] → (∀ a, P [a]) → (∀ a b, P [a; b]) → (∀ a b c, P [a; b; c]) →
  (∀ a b c d l, P l → P (a :: b :: c :: d :: l)) → ∀ l, P l.
Proof.
  intros H0 H1 H2 H3 H4 l. induction l as [l IH] using list_length_ind.
  destruct l as [|a [|b [|c [|d l]]]]; auto. apply H4, IH. cbn. lia.
Qed.

Lemma sextets_bytes_ok vs :
  Forall (λ v, 0 ≤ v < 64) vs → Forall byte_ok (sextets_bytes vs).
Proof.
  assert (∀ v, 0 ≤ v < 64 → 0 ≤ v / 16 < 4 ∧ 0 ≤ v mod 16 < 16 ∧ 0 ≤ v / 4 < 16 ∧ 0 ≤ v mod 4 < 4) as Hp.
  { intros v ?. pose proof (Z.div_mod v 16 ltac:(lia)). pose proof (Z.div_mod v 4 ltac:(lia)).
    pose proof (Z.mod_pos_bound v 16 ltac:(lia)). pose proof (Z.mod_pos_bound v 4 ltac:(lia)). lia. }
  induction vs as [| | | |a b c d vs IH] using quad_ind; intros Hv; cbn [sextets_bytes].
  1,2: constructor.
  all: repeat match goal with H : Forall _ (_ :: _) |- _ => inversion_clear H end.
  all: repeat match goal with H : 0 ≤ ?v < 64 |- _ =>
         lazymatch goal with
         | _ : 0 ≤ v / 16 < 4 |- _ => fail
         | _ => destruct (Hp v H) as (? & ? & ? & ?)
         end end.
  all: unfold byte_ok; repeat constructor; try lia. by apply IH.
Qed.

Lemma omap_b64_range s : Forall (λ v, 0 ≤ v < 64) (omap b64_value s).
Proof.
  induction s as [|c s IH]; [constructor|]. cbn. destruct (b64_value c) eqn:E; [|done].
  constructor; [by eapply b64_value_range|done].
Qed.

Lemma buffer_from_base64_bytes s : Forall byte_ok (buffer_from_base64 s).
Proof. apply sextets_bytes_ok, omap_b64_range. Qed.

Lemma sextets_bytes_length vs : (4 * length (sextets_bytes vs) = 3 * length vs - (3 * length vs) mod 4)%nat.
Proof.
  induction vs as [|a|a b|a b c|a b c d vs IH] using quad_ind; [done..|].
  cbn [sextets_bytes length].
  replace (3 * S (S (S (S (length vs)))))%nat with (3 * length vs + 3 * 4)%nat by lia.
  rewrite Nat.Div0.mod_add. pose proof (Nat.Div0.mod_le (3 * length vs) 4). lia.
Qed.

(** A text of [n] code units accepted by the pattern, [k] of them padding,
    decodes to [3 n / 4 - k] bytes. *)
Lemma base64_decoded_length s :
  re_test BASE64_PATTERN s = true →
  ∃ k, (k ≤ 2)%nat ∧ (4 * length (buffer_from_base64 s) = 3 * length s - 4 * k)%nat.
Proof.
  intros (body & k & -> & Hb & Hk & [q Hq])%base64_pattern_spec. exists k. split; [done|].
  unfold buffer_from_base64. rewrite before_pad_shape, sextets_bytes_length, omap_b64_length by done.
  rewrite length_app, length_replicate.
  assert ((3 * length body) mod 4 = k)%nat as ->; [|lia].
  replace (3 * length body)%nat with (k + (3 * q - k) * 4)%nat by lia.
  rewrite Nat.Div0.mod_add. apply Nat.mod_small. lia.
Qed.

(** ** Hexadecimal *)

Definition cls_hex : Z → bool := cls_or cls_digit (cls_between 97 102).

Lemma hex_char_inj v w : 0 ≤ v < 16 → 0 ≤ w < 16 → hex_char v = hex_char w → v = w.
Proof. unfold hex_char. intros ??. zbool. Qed.

Lemma hex_char_cls v : 0 ≤ v < 16 → cls_hex (hex_char v) = true.
Proof.
  intros Hv. unfold hex_char. destruct (Z.ltb_spec v 10);
    unfold cls_hex, cls_or, cls_digit, cls_between; zbool; done.
Qed.

Lemma byte_nibbles b : byte_ok b → 0 ≤ b / 16 < 16 ∧ 0 ≤ b mod 16 < 16 ∧ b = b / 16 * 16 + b mod 16.
Proof.
  unfold byte_ok. intros. pose proof (Z.div_mod b 16 ltac:(lia)).
  pose proof (Z.mod_pos_bound b 16 ltac:(lia)). lia.
Qed.

Lemma hex_encode_inj bs bs' :
  Forall byte_ok bs → Forall byte_ok bs' → hex_encode bs = hex_encode bs' → bs = bs'.
Proof.
  intros H. revert bs'. induction H as [|b bs Hb Hbs IH]; intros bs' H' E;
    destruct H' as [|b' bs' Hb' Hbs']; try done.
  cbn in E. injection E as E1 E2 E.
  apply byte_nibbles in Hb as (? & ? & ->), Hb' as (? & ? & ->).
  apply hex_char_inj in E1, E2; try done. f_equal; [congruence|by apply IH].
Qed.

Lemma hex_encode_length bs : length (hex_encode bs) = (2 * length bs)%nat.
Proof. induction bs as [|b bs IH]; [done|]. change (length (hex_encode (b :: bs))) with (2 + length (hex_encode bs))%nat.
  rewrite IH. cbn. lia. Qed.

Lemma hex_encode_cls bs : Forall byte_ok bs → Forall (λ c, cls_hex c = true) (hex_encode bs).
Proof.
  induction 1 as [|b bs Hb Hbs IH]; [constructor|]. apply byte_nibbles in Hb as (? & ? & _).
  cbn. repeat constructor; auto using hex_char_cls.
Qed.

(** [/^[0-9a-f]{64}$/]: the form of a lowercase hex SHA-256 digest. *)
Definition SHA256_PATTERN : re := re_times 64 (RChar cls_hex).

Lemma sha256_pattern_spec s :
  re_test SHA256_PATTERN s = true ↔ Forall (λ c, cls_hex c = true) s ∧ length s = 64%nat.
Proof.
  rewrite re_test_spec. unfold SHA256_PATTERN. setoid_rewrite match_times_cls. naive_solver.
Qed.

Example base64_examples :
  base64_encode (js "hello") = js "aGVsbG8=" ∧
  buffer_from_base64 (js "aGVsbG8=") = js "hello" ∧
  re_test BASE64_PATTERN (js "aGVsbG8=") = true ∧
  re_test BASE64_PATTERN (js "aGVsbG8") = false ∧
  re_test BASE64_PATTERN (js "!not_base64!") = false ∧
  buffer_from_base64 (js "aGVs bG8_-=zz") = js "hello?" ∧
  hex_encode [0; 255; 16] = js "00ff10".
Proof. vm_compute. repeat split. Qed.
