(* ===== verification/Sha256.v ===== *)
(** * SHA-256 and HMAC-SHA256

    [createHash("sha256")] and [createHmac("sha256", key)] of Node's crypto
    module.  The SDK relies on an interface, [Crypto]: a digest of 32 bytes and
    a keyed digest of 32 bytes.  The functions of FIPS 180-4 and RFC 2104 are
    defined here, executable on 32-bit words with their wrap-around, and
    discharge it. *)
From S2P Require Import Prelude Base64.
From stdpp Require Import base tactics list numbers option strings.
Local Open Scope Z_scope.

Class Crypto := {
  sha256 : bytes → bytes;
  hmac_sha256 : bytes → bytes → bytes;
  sha256_length : ∀ m, length (sha256 m) = 32%nat;
  sha256_bytes : ∀ m, Forall byte_ok (sha256 m);
  hmac_length : ∀ k m, length (hmac_sha256 k m) = 32%nat;
  hmac_bytes : ∀ k m, Forall byte_ok (hmac_sha256 k m);
}.

(** [createHash("sha256").update(m).digest("hex")] *)
Definition sha256_hex `{Crypto} (m : bytes) : jstr := hex_encode (sha256 m).

Lemma sha256_hex_pattern `{Crypto} m : Regex.re_test SHA256_PATTERN (sha256_hex m) = true.
Proof.
  apply sha256_pattern_spec. unfold sha256_hex. split; [apply hex_encode_cls, sha256_bytes|].
  by rewrite hex_encode_length, sha256_length.
Qed.

(** ** FIPS 180-4 *)

Definition w32 (x : Z) : Z := Z.land x 4294967295.
Definition rotr (n x : Z) : Z := Z.lor (Z.shiftr x n) (w32 (Z.shiftl x (32 - n))).
Definition bsig0 x := Z.lxor (rotr 2 x) (Z.lxor (rotr 13 x) (rotr 22 x)).
Definition bsig1 x := Z.lxor (rotr 6 x) (Z.lxor (rotr 11 x) (rotr 25 x)).
Definition ssig0 x := Z.lxor (rotr 7 x) (Z.lxor (rotr 18 x) (Z.shiftr x 3)).
Definition ssig1 x := Z.lxor (rotr 17 x) (Z.lxor (rotr 19 x) (Z.shiftr x 10)).
Definition ch x y z := Z.lxor (Z.land x y) (Z.land (Z.lxor x 4294967295) z).
Definition maj x y z := Z.lxor (Z.land x y) (Z.lxor (Z.land x z) (Z.land y z)).

Definition round_constants : list Z :=
  [1116352408; 1899447441; 3049323471; 3921009573; 961987163; 1508970993; 2453635748; 2870763221;
   3624381080; 310598401; 607225278; 1426881987; 1925078388; 2162078206; 2614888103; 3248222580;
   3835390401; 4022224774; 264347078; 604807628; 770255983; 1249150122; 1555081692; 1996064986;
   2554220882; 2821834349; 2952996808; 3210313671; 3336571891; 3584528711; 113926993; 338241895;
   666307205; 773529912; 1294757372; 1396182291; 1695183700; 1986661051; 2177026350; 2456956037;
   2730485921; 2820302411; 3259730800; 3345764771; 3516065817; 3600352804; 4094571909; 275423344;
   430227734; 506948616; 659060556; 883997877; 958139571; 1322822218; 1537002063; 1747873779;
   1955562222; 2024104815; 2227730452; 2361852424; 2428436474; 2756734187; 3204031479; 3329325298].

Definition initial_hash : list Z :=
  [1779033703; 3144134277; 1013904242; 2773480762; 1359893119; 2600822924; 528734635; 1541459225].

(** Big-endian words of a byte string. *)
Fixpoint be_words (bs : bytes) : list Z :=
  match bs with
  | a :: b :: c :: d :: bs =>
      Z.lor (Z.shiftl a 24) (Z.lor (Z.shiftl b 16) (Z.lor (Z.shiftl c 8) d)) :: be_words bs
  | _ => []
  end.

Definition be_bytes (n : nat) (x : Z) : bytes :=
  map (λ i, Z.land (Z.shiftr x (8 * Z.of_nat i)) 255) (reverse (seq 0 n)).

Definition pad (m : bytes) : bytes :=
  let len := length m in
  m ++ 128 :: replicate ((119 - len mod 64) mod 64) 0 ++ be_bytes 8 (8 * Z.of_nat len).

(** The message schedule as a sliding window of 16 words, and one round. *)
Definition next_word (w : list Z) : Z :=
  w32 (ssig1 (nth 14 w 0) + nth 9 w 0 + ssig0 (nth 1 w 0) + nth 0 w 0).

Definition round (st : list Z) (k w : Z) : list Z :=
  match st with
  | [a; b; c; d; e; f; g; h] =>
      let t1 := h + bsig1 e + ch e f g + k + w in
      let t2 := bsig0 a + maj a b c in
      [w32 (t1 + t2); a; b; c; w32 (d + t1); e; f; g]
  | _ => st
  end.

Fixpoint rounds (ks : list Z) (w st : list Z) : list Z :=
  match ks with
  | [] => st
  | k :: ks => rounds ks (tail w ++ [next_word w]) (round st k (nth 0 w 0))
  end.

Definition compress (h w : list Z) : list Z :=
  zip_with (λ x y, w32 (x + y)) h (rounds round_constants w h).

Fixpoint blocks (n : nat) (ws h : list Z) : list Z :=
  match n with
  | O => h
  | S n => blocks n (drop 16 ws) (compress h (take 16 ws))
  end.

Definition fips_sha256 (m : bytes) : bytes :=
  let p := pad m in
  blocks (length p / 64) (be_words p) initial_hash ≫= be_bytes 4.

(** RFC 2104 with the 64-byte block of SHA-256. *)
Definition block_key (k : bytes) : bytes :=
  let k := if (64 <? length k)%nat then fips_sha256 k else k in
  k ++ replicate (64 - length k) 0.

Definition rfc_hmac (k m : bytes) : bytes :=
  let kb := block_key k in
  fips_sha256 (map (Z.lxor 92) kb ++ fips_sha256 (map (Z.lxor 54) kb ++ m)).

(** ** The interface holds *)

Lemma be_bytes_ok n x : Forall byte_ok (be_bytes n x).
Proof.
  apply Forall_forall. intros b Hb. unfold be_bytes in Hb.
  apply list_elem_of_fmap in Hb as (i & -> & _). unfold byte_ok.
  change 255 with (Z.ones 8). rewrite Z.land_ones by lia. apply Z.mod_pos_bound. lia.
Qed.

Lemma round_length st k w : length (round st k w) = length st.
Proof. do 9 (destruct st as [|? st]; [done|]). done. Qed.

Lemma rounds_length ks w st : length (rounds ks w st) = length st.
Proof.
  revert w st; induction ks as [|k ks IH]; intros w st; cbn; [done|].
  by rewrite IH, round_length.
Qed.

Lemma blocks_length n ws h : length (blocks n ws h) = length h.
Proof.
  revert ws h; induction n as [|n IH]; intros ws h; cbn; [done|].
  rewrite IH. unfold compress. rewrite length_zip_with, rounds_length. lia.
Qed.

Lemma bind_be_bytes n ws :
  length (ws ≫= be_bytes n) = (n * length ws)%nat ∧ Forall byte_ok (ws ≫= be_bytes n).
Proof.
  induction ws as [|w ws [IH1 IH2]]; [split; [cbn; lia|constructor]|].
  cbn [mbind list_bind]. rewrite length_app, Forall_app. split.
  - rewrite IH1. unfold be_bytes at 1. rewrite length_map, length_reverse, length_seq. cbn. lia.
  - split; [apply be_bytes_ok|exact IH2].
Qed.

Lemma fips_sha256_length m : length (fips_sha256 m) = 32%nat.
Proof.
  unfold fips_sha256. rewrite (proj1 (bind_be_bytes 4 _)), blocks_length. done.
Qed.

Lemma fips_sha256_bytes m : Forall byte_ok (fips_sha256 m).
Proof. apply bind_be_bytes. Qed.

#[export] Instance NodeCrypto : Crypto := {|
  sha256 := fips_sha256;
  hmac_sha256 := rfc_hmac;
  sha256_length := fips_sha256_length;
  sha256_bytes := fips_sha256_bytes;
  hmac_length k m := fips_sha256_length _;
  hmac_bytes k m := fips_sha256_bytes _;
|}.

(** Published test vectors (FIPS 180-4; RFC 4231, case 2). *)
Example sha256_vectors :
  hex_encode (fips_sha256 []) =
    js "e3b0c44298fc1c149afbf4c8996fb92427ae41e4649b934ca495991b7852b855" ∧
  hex_encode (fips_sha256 (js "hello")) =
    js "2cf24dba5fb0a30e26e83b2ac5b9e29e1b161e5c1fa7425e73043362938b9824" ∧
  hex_encode (fips_sha256 (js "abcdbcdecdefdefgefghfghighijhijkijkljklmklmnlmnomnopnopq")) =
    js "248d6a61d20638b8e5c026930c3e6039a33ce45964ff2167f6ecedd419db06c1" ∧
  hex_encode (rfc_hmac (js "Jefe") (js "what do ya want for nothing?")) =
    js "5bdcc146bf60754e6a042426089575c75a003f089d2739839dec58b964ec3843".
Proof. vm_compute. repeat split. Qed.
