(* ===== verification/Json.v ===== *)
(** * JSON values, [JSON.parse] and [JSON.stringify]

    A parsed JSON value; an object is its own properties in creation order with
    distinct keys, and [enumerate] is the order JavaScript lists them in (array
    indices first, ascending).  [json_parse] is a pushdown automaton that reads
    one code unit at a time, so it is total without a bound on its running
    time: [None] is the [SyntaxError]. *)
From S2P Require Import Prelude JsNumber JsString Base64.
From stdpp Require Import base tactics list numbers option strings.
Local Open Scope Z_scope.

Inductive json : Type :=
| JNull
| JBool (b : bool)
| JNum (x : num)
| JStr (s : jstr)
| JArr (l : list json)
| JObj (o : list (jstr * json)).

(** ** Properties of an object *)

Section props.
Context {A : Type}.
Implicit Types (o : list (jstr * A)) (k : jstr) (v : A).

(** [o[k]]; [None] is [undefined]. *)
Fixpoint obj_get (k : jstr) (o : list (jstr * A)) : option A :=
  match o with
  | [] => None
  | (k', v) :: o => if decide (k' = k) then Some v else obj_get k o
  end.

(** [o[k] = v]: an existing property keeps its place. *)
Fixpoint obj_set (k : jstr) (v : A) (o : list (jstr * A)) : list (jstr * A) :=
  match o with
  | [] => [(k, v)]
  | (k', v') :: o => if decide (k' = k) then (k, v) :: o else (k', v') :: obj_set k v o
  end.

(** The value of a key that is an array index. *)
Definition array_index (k : jstr) : option Z :=
  match k with
  | [] => None
  | c :: k' =>
      if forallb is_digit k && (negb (c =? 48) || bool_decide (k' = [])) &&
         (dec_value k <? 4294967295)
      then Some (dec_value k) else None
  end.

Definition is_index (kv : jstr * A) : bool :=
  match array_index (fst kv) with Some _ => true | None => false end.
Definition index_of (kv : jstr * A) : Z := default 0 (array_index (fst kv)).

Fixpoint insert_index (kv : jstr * A) (o : list (jstr * A)) : list (jstr * A) :=
  match o with
  | [] => [kv]
  | kv' :: o => if index_of kv <=? index_of kv' then kv :: kv' :: o else kv' :: insert_index kv o
  end.

(** Own properties in enumeration order ([Object.entries], spread,
    [JSON.stringify]). *)
Definition enumerate (o : list (jstr * A)) : list (jstr * A) :=
  foldr insert_index [] (filter (λ kv, is_index kv = true) o) ++
  filter (λ kv, is_index kv = false) o.
End props.

(** ** [JSON.parse] *)

Inductive num_phase := PMinus | PZero | PInt | PDot | PFrac | PExp | PExpSign | PExpDigits.

(** A number being read: sign, digits so far, fractional digits, exponent. *)
Record num_lex := NumLex {
  nl_neg : bool;
  nl_mant : Z;
  nl_scale : Z;
  nl_eneg : bool;
  nl_exp : Z;
  nl_phase : num_phase;
}.

Definition nl_done (n : num_lex) : bool :=
  match nl_phase n with PZero | PInt | PFrac | PExpDigits => true | _ => false end.

Definition nl_value (n : num_lex) : json :=
  JNum (num_of_decimal (nl_neg n) (nl_mant n)
          ((if nl_eneg n then - nl_exp n else nl_exp n) - nl_scale n)).

Inductive str_mode := SNormal | SEscape | SUnicode (n : nat) (acc : Z).

(** What encloses the value being read: an array with the elements so far (last
    first), an object waiting for a key, an object waiting for the value of a
    key. *)
Inductive frame :=
| FArr (acc : list json)
| FKey (o : list (jstr * json))
| FObj (o : list (jstr * json)) (k : jstr).

Inductive mode :=
| MValue
| MArrFirst
| MObjFirst
| MKey
| MColon
| MStr (m : str_mode) (acc : jstr) (is_key : bool)
| MNum (n : num_lex)
| MLit (rest : jstr) (v : json)
| MAfter (v : json).

Abbreviation pstate := (list frame * mode)%type (only parsing).

Definition is_ws (c : Z) : bool := (c =? 9) || (c =? 10) || (c =? 13) || (c =? 32).

Definition start_num (neg : bool) (c : Z) (stk : list frame) : option pstate :=
  if is_digit c then Some (stk, MNum (NumLex neg (c - 48) 0 false 0 (if c =? 48 then PZero else PInt)))
  else None.

(** The first code unit of a value. *)
Definition start_value (c : Z) (stk : list frame) : option pstate :=
  if is_ws c then Some (stk, MValue)
  else if c =? 34 then Some (stk, MStr SNormal [] false)
  else if c =? 123 then Some (FKey [] :: stk, MObjFirst)
  else if c =? 91 then Some (FArr [] :: stk, MArrFirst)
  else if c =? 116 then Some (stk, MLit (js "rue") (JBool true))
  else if c =? 102 then Some (stk, MLit (js "alse") (JBool false))
  else if c =? 110 then Some (stk, MLit (js "ull") JNull)
  else if c =? 45 then Some (stk, MNum (NumLex true 0 0 false 0 PMinus))
  else start_num false c stk.

(** After a complete value. *)
Definition after_value (v : json) (c : Z) (stk : list frame) : option pstate :=
  if is_ws c then Some (stk, MAfter v)
  else match stk with
       | FArr acc :: stk' =>
           if c =? 44 then Some (FArr (v :: acc) :: stk', MValue)
           else if c =? 93 then Some (stk', MAfter (JArr (reverse (v :: acc))))
           else None
       | FObj o k :: stk' =>
           if c =? 44 then Some (FKey (obj_set k v o) :: stk', MKey)
           else if c =? 125 then Some (stk', MAfter (JObj (obj_set k v o)))
           else None
       | _ => None
       end.

Definition hex_value (c : Z) : option Z :=
  if is_digit c then Some (c - 48)
  else if (97 <=? c) && (c <=? 102) then Some (c - 87)
  else if (65 <=? c) && (c <=? 70) then Some (c - 55)
  else None.

Definition escape_value (c : Z) : option Z :=
  if (c =? 34) || (c =? 92) || (c =? 47) then Some c
  else if c =? 98 then Some 8
  else if c =? 102 then Some 12
  else if c =? 110 then Some 10
  else if c =? 114 then Some 13
  else if c =? 116 then Some 9
  else None.

Definition end_string (s : jstr) (is_key : bool) (stk : list frame) : option pstate :=
  if is_key then match stk with
                 | FKey o :: stk' => Some (FObj o s :: stk', MColon)
                 | _ => None
                 end
  else Some (stk, MAfter (JStr s)).

Definition step_string (m : str_mode) (acc : jstr) (key : bool) (c : Z) (stk : list frame) :
    option pstate :=
  match m with
  | SNormal =>
      if c =? 34 then end_string (reverse acc) key stk
      else if c =? 92 then Some (stk, MStr SEscape acc key)
      else if c <? 32 then None
      else Some (stk, MStr SNormal (c :: acc) key)
  | SEscape =>
      if c =? 117 then Some (stk, MStr (SUnicode 4 0) acc key)
      else (λ x, (stk, MStr SNormal (x :: acc) key)) <$> escape_value c
  | SUnicode n u =>
      d ← hex_value c;
      let u := 16 * u + d in
      match n with
      | S (S _ as n') => Some (stk, MStr (SUnicode n' u) acc key)
      | _ => Some (stk, MStr SNormal (u :: acc) key)
      end
  end.

Definition set_phase (n : num_lex) (p : num_phase) : num_lex :=
  NumLex (nl_neg n) (nl_mant n) (nl_scale n) (nl_eneg n) (nl_exp n) p.

(** The next code unit of a number, or [None] when it does not continue it. *)
Definition more_num (n : num_lex) (c : Z) : option num_lex :=
  let digit := NumLex (nl_neg n) (dec_step (nl_mant n) c) (nl_scale n) (nl_eneg n) (nl_exp n) PInt in
  let frac := NumLex (nl_neg n) (dec_step (nl_mant n) c) (nl_scale n + 1) (nl_eneg n) (nl_exp n) PFrac in
  let expd := NumLex (nl_neg n) (nl_mant n) (nl_scale n) (nl_eneg n) (dec_step (nl_exp n) c) PExpDigits in
  let is_e := (c =? 101) || (c =? 69) in
  match nl_phase n with
  | PMinus => if is_digit c then Some (set_phase digit (if c =? 48 then PZero else PInt)) else None
  | PZero => if c =? 46 then Some (set_phase n PDot)
             else if is_e then Some (set_phase n PExp) else None
  | PInt => if is_digit c then Some digit
            else if c =? 46 then Some (set_phase n PDot)
            else if is_e then Some (set_phase n PExp) else None
  | PDot => if is_digit c then Some frac else None
  | PFrac => if is_digit c then Some frac
             else if is_e then Some (set_phase n PExp) else None
  | PExp => if is_digit c then Some expd
            else if c =? 43 then Some (set_phase n PExpSign)
            else if c =? 45 then
              Some (NumLex (nl_neg n) (nl_mant n) (nl_scale n) true (nl_exp n) PExpSign)
            else None
  | PExpSign => if is_digit c then Some expd else None
  | PExpDigits => if is_digit c then Some expd else None
  end.

Definition parse_step (st : pstate) (c : Z) : option pstate :=
  let '(stk, m) := st in
  match m with
  | MValue => start_value c stk
  | MArrFirst =>
      if is_ws c then Some (stk, MArrFirst)
      else if c =? 93 then match stk with
                           | FArr _ :: stk' => Some (stk', MAfter (JArr []))
                           | _ => None
                           end
      else start_value c stk
  | MObjFirst =>
      if is_ws c then Some (stk, MObjFirst)
      else if c =? 125 then match stk with
                            | FKey o :: stk' => Some (stk', MAfter (JObj o))
                            | _ => None
                            end
      else if c =? 34 then Some (stk, MStr SNormal [] true) else None
  | MKey => if is_ws c then Some (stk, MKey)
            else if c =? 34 then Some (stk, MStr SNormal [] true) else None
  | MColon => if is_ws c then Some (stk, MColon)
              else if c =? 58 then Some (stk, MValue) else None
  | MStr sm acc key => step_string sm acc key c stk
  | MNum n => match more_num n c with
              | Some n' => Some (stk, MNum n')
              | None => if nl_done n then after_value (nl_value n) c stk else None
              end
  | MLit rest v =>
      match rest with
      | x :: rest' => if c =? x then Some (stk, match rest' with [] => MAfter v | _ => MLit rest' v end)
                      else None
      | [] => None
      end
  | MAfter v => after_value v c stk
  end.

Definition parse_end (st : pstate) : option json :=
  match st with
  | ([], MAfter v) => Some v
  | ([], MNum n) => if nl_done n then Some (nl_value n) else None
  | _ => None
  end.

Fixpoint parse_run (st : pstate) (s : jstr) : option json :=
  match s with
  | [] => parse_end st
  | c :: s => st' ← parse_step st c; parse_run st' s
  end.

Definition json_parse (s : jstr) : option json := parse_run ([], MValue) s.

(** ** [JSON.stringify] *)

Definition unicode_escape (c : Z) : jstr :=
  [92; 117; Base64.hex_char (c / 4096); Base64.hex_char (c / 256 mod 16);
   Base64.hex_char (c / 16 mod 16); Base64.hex_char (c mod 16)].

Definition quote_unit (c : Z) : jstr :=
  if (c =? 34) || (c =? 92) then [92; c]
  else if c =? 8 then [92; 98]
  else if c =? 12 then [92; 102]
  else if c =? 10 then [92; 110]
  else if c =? 13 then [92; 114]
  else if c =? 9 then [92; 116]
  else if c <? 32 then unicode_escape c
  else [c].

(** A lone surrogate is escaped; a surrogate pair is copied. *)
Fixpoint quote_body (s : jstr) : jstr :=
  match s with
  | [] => []
  | c :: s1 =>
      if is_high c then
        match s1 with
        | d :: s2 => if is_low d then c :: d :: quote_body s2 else unicode_escape c ++ quote_body s1
        | [] => unicode_escape c
        end
      else (if is_low c then unicode_escape c else quote_unit c) ++ quote_body s1
  end.

Definition json_quote (s : jstr) : jstr := 34 :: quote_body s ++ [34].

Definition json_num (x : num) : jstr :=
  match x with
  | SpecFloat.S754_infinity _ | SpecFloat.S754_nan => js "null"
  | _ => num_to_string x
  end.

Fixpoint json_stringify (v : json) : jstr :=
  match v with
  | JNull => js "null"
  | JBool b => if b then js "true" else js "false"
  | JNum x => json_num x
  | JStr s => json_quote s
  | JArr l => 91 :: join_with 44 (map json_stringify l) ++ [93]
  | JObj o =>
      123 :: join_with 44
               (map (λ kv, json_quote (fst kv) ++ 58 :: snd kv)
                  (enumerate (map (λ kv, (fst kv, json_stringify (snd kv))) o))) ++ [125]
  end.

Example json_examples :
  json_parse (js "{'a':[1,2.5e-3,true,null],'b':{},'a':false}") = None ∧
  (json_stringify <$> json_parse ([34; 92; 117; 48; 48; 101; 57; 34])) = Some [34; 233; 34] ∧
  json_parse (js "01") = None ∧ json_parse (js "1.") = None ∧ json_parse (js "[1,]") = None ∧
  json_parse (js " -0 ") = Some (JNum (SpecFloat.S754_zero true)) ∧
  (json_stringify <$> json_parse (js "[1e2, -0.5 ,1e400,true]")) = Some (js "[100,-0.5,null,true]") ∧
  json_parse (js "not json") = None ∧ json_parse [] = None.
Proof. vm_compute. repeat split. Qed.

(** Object text: a repeated key keeps its first place and its last value, and
    array indices are listed first. *)
Example json_object_example :
  let q s := json_quote (js s) in
  (json_stringify <$> json_parse
     (js "{" ++ q "b" ++ js ":1," ++ q "10" ++ js ":2," ++ q "9" ++ js ":3, " ++ q "b" ++ js ":4 }"))
  = Some (js "{" ++ q "9" ++ js ":3," ++ q "10" ++ js ":2," ++ q "b" ++ js ":4}").
Proof. vm_compute. reflexivity. Qed.
