(* ===== verification/Env.v ===== *)
(** * Environment variables and [Number]

    The workers take their settings from [process.env], with a default for a
    missing variable, and turn some of them into numbers. *)
From stdpp Require Import base tactics list numbers option strings gmap.
From S2P Require Import Prelude JsNumber JsString Json.
Local Open Scope Z_scope.

(** ** [Number(s)] of a string *)

(** WhiteSpace and LineTerminator of ECMAScript. *)
Definition js_space (c : Z) : bool :=
  bool_decide (c ∈ [9; 10; 11; 12; 13; 32; 160; 5760; 8232; 8233; 8239; 8287; 12288; 65279]) ||
  ((8192 <=? c) && (c <=? 8202)).

Fixpoint trim_start (s : jstr) : jstr :=
  match s with
  | c :: s' => if js_space c then trim_start s' else s
  | [] => []
  end.

Definition trim (s : jstr) : jstr := reverse (trim_start (reverse (trim_start s))).

(** The longest prefix of digits and the rest. *)
Fixpoint span_digits (s : jstr) : jstr * jstr :=
  match s with
  | c :: s' => if is_digit c then let '(d, r) := span_digits s' in (c :: d, r) else ([], s)
  | [] => ([], [])
  end.

(** The value of a text in a base given by its digit values. *)
Fixpoint radix_value (base : Z) (digit : Z → option Z) (s : jstr) (acc : Z) : option Z :=
  match s with
  | [] => Some acc
  | c :: s => d ← digit c; if d <? base then radix_value base digit s (base * acc + d) else None
  end.

Definition any_digit (c : Z) : option Z :=
  if is_digit c then Some (c - 48)
  else if (97 <=? c) && (c <=? 102) then Some (c - 87)
  else if (65 <=? c) && (c <=? 70) then Some (c - 55) else None.

Definition radix_number (base : Z) (s : jstr) : num :=
  match s with
  | [] => SpecFloat.S754_nan
  | _ => match radix_value base any_digit s 0 with
         | Some z => num_of_Z z
         | None => SpecFloat.S754_nan
         end
  end.

(** The exponent part of a decimal literal: [[]] is no exponent. *)
Definition exponent_value (s : jstr) : option Z :=
  match s with
  | [] => Some 0
  | c :: s =>
      if (c =? 101) || (c =? 69) then
        let '(neg, ds) := match s with
                          | 43 :: s => (false, s)
                          | 45 :: s => (true, s)
                          | _ => (false, s)
                          end in
        match span_digits ds with
        | ((_ :: _) as d, []) => Some (if neg : bool then - dec_value d else dec_value d)
        | _ => None
        end
      else None
  end.

(** A decimal literal without its sign. *)
Definition decimal_number (neg : bool) (s : jstr) : num :=
  if bool_decide (s = js "Infinity") then SpecFloat.S754_infinity neg
  else
    let '(whole, r) := span_digits s in
    let '(frac, r) := match r with 46 :: r' => span_digits r' | _ => ([], r) end in
    if bool_decide (whole ++ frac = []) then SpecFloat.S754_nan
    else match exponent_value r with
         | Some e => num_of_decimal neg (dec_value (whole ++ frac)) (e - Z.of_nat (length frac))
         | None => SpecFloat.S754_nan
         end.

(** The base a letter after a leading zero announces. *)
Definition radix_of (c : Z) : option Z :=
  if (c =? 120) || (c =? 88) then Some 16
  else if (c =? 111) || (c =? 79) then Some 8
  else if (c =? 98) || (c =? 66) then Some 2 else None.

Definition js_number (s : jstr) : num :=
  match trim s with
  | [] => num_of_Z 0
  | c :: r =>
      match (if c =? 48 then head r ≫= radix_of else None) with
      | Some base => radix_number base (tail r)
      | None =>
          if c =? 43 then decimal_number false r
          else if c =? 45 then decimal_number true r
          else decimal_number false (c :: r)
      end
  end.

Example js_number_examples :
  map js_number (map js ["3"; " 671088640 "; ""; "0x1F"; "1e3"; ".5"; "2."; "-0"; "007"]) =
    [num_of_Z 3; num_of_Z 671088640; num_of_Z 0; num_of_Z 31; num_of_Z 1000; num_of_decimal false 5 (-1);
     num_of_Z 2; SpecFloat.S754_zero true; num_of_Z 7] ∧
  map js_number (map js ["3s"; "."; "1e"; "0x"; "+-1"; "1 2"; "0xg"]) = replicate 7 SpecFloat.S754_nan.
Proof. by vm_compute. Qed.

Lemma js_number_normal s : normal (js_number s).
Proof.
  assert (∀ neg s, normal (decimal_number neg s)) as Hd.
  { intros neg s'. unfold decimal_number. case_bool_decide; [done|]. destruct (span_digits s') as [whole r].
    destruct (match r with 46 :: r' => _ | _ => _ end) as [frac r']. case_bool_decide; [done|].
    destruct (exponent_value r'); [apply num_of_decimal_normal|done]. }
  assert (∀ base s, normal (radix_number base s)) as Hr.
  { intros base [|c s']; [done|]. unfold radix_number. destruct (radix_value _ _ _ _); [apply num_of_Z_normal|done]. }
  unfold js_number. destruct (trim s) as [|c r]; [apply num_of_Z_normal|].
  destruct (if c =? 48 then _ else _); [apply Hr|]. repeat case_match; apply Hd.
Qed.

(** Digits give the integer they spell. *)
Lemma span_digits_all d r :
  Forall (λ c, is_digit c = true) d → match r with c :: _ => is_digit c = false | [] => True end →
  span_digits (d ++ r) = (d, r).
Proof.
  induction 1 as [|c d Hc Hd IH]; intros Hr; cbn.
  - destruct r as [|c r]; [done|]. cbn. by rewrite Hr.
  - by rewrite Hc, IH.
Qed.

Lemma digit_range c : is_digit c = true → 48 ≤ c ≤ 57.
Proof. unfold is_digit. intros. bool_inv. lia. Qed.

Lemma digit_not_space c : is_digit c = true → js_space c = false.
Proof.
  intros Hc%digit_range. unfold js_space. apply orb_false_iff. split.
  - apply bool_decide_eq_false. intros Hin. repeat (apply elem_of_cons in Hin as [?|Hin]; [lia|]).
    by apply elem_of_nil in Hin.
  - apply andb_false_iff. left. apply Z.leb_gt. lia.
Qed.

Lemma trim_digits d : Forall (λ c, is_digit c = true) d → trim d = d.
Proof.
  assert (∀ l, Forall (λ c, is_digit c = true) l → trim_start l = l) as Ht.
  { intros l Hl. destruct Hl as [|c l Hc _]; cbn; [done|]. by rewrite digit_not_space. }
  intros Hd. unfold trim. rewrite (Ht d Hd), Ht by by apply Forall_reverse. apply reverse_involutive.
Qed.

Lemma js_number_digits d :
  Forall (λ c, is_digit c = true) d → d ≠ [] → js_number d = num_of_digits d.
Proof.
  intros Hd Hne. unfold js_number. rewrite trim_digits by done. destruct Hd as [|c r Hc Hr]; [done|].
  pose proof (digit_range c Hc). rewrite (proj2 (Z.eqb_neq c 43)), (proj2 (Z.eqb_neq c 45)) by lia.
  assert ((if c =? 48 then head r ≫= radix_of else None) = None) as ->.
  { case_match; [|done]. destruct Hr as [|p r Hp _]; [done|]. cbn. pose proof (digit_range p Hp).
    unfold radix_of. by rewrite !(proj2 (Z.eqb_neq p _)) by lia. }
  unfold decimal_number. rewrite bool_decide_eq_false_2 by (intros [= -> _]; lia).
  pose proof (span_digits_all (c :: r) [] (Forall_cons_2 _ _ _ Hc Hr) I) as Hs. rewrite app_nil_r in Hs.
  rewrite Hs. cbv beta iota zeta. rewrite app_nil_r. by rewrite bool_decide_eq_false_2.
Qed.

(** The decimal of a number is read back. *)
Lemma js_number_dec z : 0 ≤ z → safe z → js_number (dec_of_Z z) = num_of_Z z.
Proof.
  intros Hz Hs. unfold dec_of_Z. rewrite (proj2 (Z.ltb_ge z 0)) by lia.
  destruct (dec_of_nat_spec z Hz) as (_ & Hd & c & s' & E & _).
  rewrite js_number_digits by (done || by rewrite E). by apply num_of_digits_dec.
Qed.

(** ** [process.env] *)

Abbreviation environment := (gmap (list Z) (list Z)) (only parsing).

(** [process.env.NAME ?? "default"] *)
Definition env_or (env : environment) (name : string) (default_value : jstr) : jstr :=
  default default_value (env !! js name).

(** [required(name)]: throws for a missing or empty variable. *)
Definition env_required (env : environment) (name : string) : result jstr jstr :=
  match env !! js name with
  | Some (c :: s) => Ok (c :: s)
  | _ => Err (js name ++ js " is required")
  end.
