(* ===== verification/JsonFacts.v ===== *)
(** * Laws of JSON values and of their text

    Properties of an object, its enumeration order, and the round trip
    [json_parse (json_stringify v) = Some v] for the values whose numbers are
    safe integers (the numbers of a queue message). *)
From S2P Require Import Prelude JsNumber JsString Base64 Json.
From stdpp Require Import base tactics list numbers option strings sets sorting.
Local Open Scope Z_scope.

(** ** Properties *)

Section props.
Context {A : Type}.
Implicit Types (o : list (jstr * A)) (k : jstr) (v : A).

Lemma obj_get_app_notin k o o' :
  k ∉ o.*1 → obj_get k (o ++ o') = obj_get k o'.
Proof.
  induction o as [|[k' v] o IH]; cbn; [done|]. intros Hk.
  rewrite decide_False by set_solver. apply IH. set_solver.
Qed.

Lemma obj_set_fresh k v o : k ∉ o.*1 → obj_set k v o = o ++ [(k, v)].
Proof.
  induction o as [|[k' v'] o IH]; cbn; [done|]. intros Hk.
  rewrite decide_False by set_solver. rewrite IH by set_solver. done.
Qed.

Lemma obj_get_Some_elem k v o : obj_get k o = Some v → (k, v) ∈ o.
Proof.
  induction o as [|[k' v'] o IH]; cbn; [done|]. case_decide; simplify_eq.
  - intros [= ->]. left.
  - intros. right. auto.
Qed.

Lemma obj_get_None k o : obj_get k o = None ↔ k ∉ o.*1.
Proof.
  induction o as [|[k' v'] o IH]; cbn; [set_solver|]. case_decide; [set_solver|].
  rewrite IH. set_solver.
Qed.

Lemma obj_get_NoDup k v o : NoDup o.*1 → (k, v) ∈ o → obj_get k o = Some v.
Proof.
  induction o as [|[k' v'] o IH]; cbn; [set_solver|]. intros Hnd Hin.
  apply NoDup_cons in Hnd as [Hk' Hnd]. apply elem_of_cons in Hin as [[= -> ->]|Hin].
  - by rewrite decide_True.
  - rewrite decide_False; [auto|]. intros ->. apply Hk'. apply list_elem_of_fmap. by exists (k, v).
Qed.

Lemma obj_get_set k k' v o :
  obj_get k (obj_set k' v o) = if decide (k' = k) then Some v else obj_get k o.
Proof.
  induction o as [|[k1 v1] o IH]; cbn; [done|].
  destruct (decide (k1 = k')) as [->|]; cbn.
  - by destruct (decide (k' = k)).
  - rewrite IH. repeat case_decide; congruence.
Qed.

Lemma obj_set_keys k v o : (obj_set k v o).*1 = if decide (k ∈ o.*1) then o.*1 else o.*1 ++ [k].
Proof.
  induction o as [|[k1 v1] o IH]; cbn; [done|].
  destruct (decide (k1 = k)) as [->|]; cbn.
  - rewrite decide_True by set_solver. done.
  - rewrite IH. repeat case_decide; set_solver.
Qed.

Lemma obj_set_NoDup k v o : NoDup o.*1 → NoDup (obj_set k v o).*1.
Proof.
  intros. rewrite obj_set_keys. case_decide; [done|].
  apply NoDup_app. split_and!; [done|set_solver|apply NoDup_singleton].
Qed.

(** ** Enumeration *)

Lemma insert_index_perm kv o : insert_index kv o ≡ₚ kv :: o.
Proof.
  induction o as [|kv' o IH]; cbn; [done|]. case_match; [done|]. rewrite IH. apply Permutation_swap.
Qed.

Lemma sort_index_perm o : foldr insert_index [] o ≡ₚ o.
Proof. induction o as [|kv o IH]; cbn; [done|]. by rewrite insert_index_perm, IH. Qed.

Lemma enumerate_perm o : enumerate o ≡ₚ o.
Proof.
  unfold enumerate. rewrite sort_index_perm.
  induction o as [|kv o IH]; [done|]. rewrite !filter_cons.
  destruct (is_index kv).
  - rewrite decide_True, decide_False by done. cbn. by rewrite IH.
  - rewrite decide_False, decide_True by done. rewrite <-Permutation_middle. by rewrite IH.
Qed.

Lemma enumerate_elem kv o : kv ∈ enumerate o ↔ kv ∈ o.
Proof. by rewrite enumerate_perm. Qed.

Lemma enumerate_keys_NoDup o : NoDup o.*1 → NoDup (enumerate o).*1.
Proof. by rewrite enumerate_perm. Qed.

Lemma obj_get_enumerate k o : NoDup o.*1 → obj_get k (enumerate o) = obj_get k o.
Proof.
  intros Hnd. destruct (obj_get k o) as [v|] eqn:E.
  - apply obj_get_NoDup; [by apply enumerate_keys_NoDup|].
    by apply enumerate_elem, obj_get_Some_elem.
  - apply obj_get_None. rewrite enumerate_perm. by apply obj_get_None.
Qed.

Definition index_le (kv kv' : jstr * A) : Prop := index_of kv ≤ index_of kv'.

Lemma insert_index_sorted kv o : Sorted index_le o → Sorted index_le (insert_index kv o).
Proof.
  induction 1 as [|kv' o Hs IH Hhd]; cbn; [repeat constructor|].
  destruct (Z.leb_spec (index_of kv) (index_of kv')).
  - constructor; [by constructor|]. by constructor.
  - constructor; [done|]. destruct o as [|kv'' o]; cbn; [constructor; unfold index_le; lia|].
    case_match; constructor; unfold index_le in *; [lia|]. by inversion Hhd.
Qed.

Lemma sort_index_sorted o : Sorted index_le (foldr insert_index [] o).
Proof. induction o; cbn; [constructor|]. by apply insert_index_sorted. Qed.

Lemma sort_index_id o : Sorted index_le o → foldr insert_index [] o = o.
Proof.
  induction 1 as [|kv o Hs IH Hhd]; cbn; [done|]. rewrite IH.
  destruct o as [|kv' o]; [done|]. cbn. inversion Hhd. unfold index_le in *.
  by rewrite (proj2 (Z.leb_le _ _)).
Qed.

Lemma filter_all (p : jstr * A → bool) (b : bool) o :
  Forall (λ kv, p kv = b) o →
  filter (λ kv, p kv = b) o = o ∧ ∀ b', b' ≠ b → filter (λ kv, p kv = b') o = [].
Proof.
  induction 1 as [|kv o Hkv Ho [IH1 IH2]]; [done|]. split.
  - by rewrite filter_cons, decide_True, IH1.
  - intros b' Hb'. rewrite filter_cons, decide_False by congruence. by apply IH2.
Qed.

(** An enumeration is already in enumeration order. *)
Lemma enumerate_idemp o : enumerate (enumerate o) = enumerate o.
Proof.
  unfold enumerate at 1. unfold enumerate.
  set (ix := foldr insert_index [] (filter (λ kv, is_index kv = true) o)).
  set (rest := filter (λ kv, is_index kv = false) o).
  assert (Forall (λ kv, is_index kv = true) ix) as Hix.
  { unfold ix. rewrite sort_index_perm. apply Forall_forall. intros kv.
    rewrite list_elem_of_filter. tauto. }
  assert (Forall (λ kv, is_index kv = false) rest) as Hrest.
  { apply Forall_forall. intros kv. unfold rest. rewrite list_elem_of_filter. tauto. }
  rewrite !filter_app.
  destruct (filter_all is_index true ix Hix) as [-> Hf].
  destruct (filter_all is_index false rest Hrest) as [-> Ht].
  rewrite (Hf false), (Ht true) by done.
  rewrite app_nil_r. f_equal. apply sort_index_id, sort_index_sorted.
Qed.

Lemma enumerate_no_index o :
  Forall (λ kv, is_index kv = false) o → enumerate o = o.
Proof.
  intros Ho. unfold enumerate. destruct (filter_all is_index false o Ho) as [-> Ht].
  by rewrite (Ht true).
Qed.
End props.

Lemma enumerate_map {A B} (f : A → B) (o : list (jstr * A)) :
  enumerate (map (λ kv, (kv.1, f kv.2)) o) = map (λ kv, (kv.1, f kv.2)) (enumerate o).
Proof.
  set (g := λ kv : jstr * A, (kv.1, f kv.2)).
  assert (∀ b l, filter (λ kv, is_index kv = b) (map g l) = map g (filter (λ kv, is_index kv = b) l)) as Hf.
  { intros b l. induction l as [|kv l IH]; [done|]. cbn [map]. rewrite !filter_cons.
    change (is_index (g kv)) with (is_index kv). case_decide; cbn [map]; by rewrite IH. }
  assert (∀ kv l, insert_index (g kv) (map g l) = map g (insert_index kv l)) as Hi.
  { intros kv l. induction l as [|kv' l IH]; [done|]. cbn.
    change (index_of (g kv)) with (index_of kv). change (index_of (g kv')) with (index_of kv').
    case_match; cbn; [done|by rewrite IH]. }
  assert (∀ l, foldr insert_index [] (map g l) = map g (foldr insert_index [] l)) as Hs.
  { induction l as [|kv l IH]; [done|]. cbn. by rewrite IH, Hi. }
  unfold enumerate. by rewrite !Hf, Hs, map_app.
Qed.

(** ** Parsing inverts printing *)

(** Induction on values with the elements of arrays and objects. *)
Lemma json_nested_ind (P : json → Prop) :
  P JNull → (∀ b, P (JBool b)) → (∀ x, P (JNum x)) → (∀ s, P (JStr s)) →
  (∀ l, Forall P l → P (JArr l)) →
  (∀ o, Forall (λ kv, P (snd kv)) o → P (JObj o)) → ∀ v, P v.
Proof.
  intros Hnull Hb Hx Hs Ha Ho. fix IH 1.
  intros [|b|x|s|l|o]; [exact Hnull|exact (Hb b)|exact (Hx x)|exact (Hs s)| |].
  - apply Ha. induction l as [|v l IHl]; constructor; [apply IH|exact IHl].
  - apply Ho. induction o as [|[k v] o IHo]; constructor; [apply IH|exact IHo].
Qed.

(** Values whose numbers are safe integers, whose strings hold code units and
    whose objects list their distinct keys in enumeration order. *)
Inductive json_ok : json → Prop :=
| OkNull : json_ok JNull
| OkBool b : json_ok (JBool b)
| OkNum z : safe z → json_ok (JNum (num_of_Z z))
| OkStr s : Forall unit_ok s → json_ok (JStr s)
| OkArr l : Forall json_ok l → json_ok (JArr l)
| OkObj o : NoDup o.*1 → enumerate o = o → Forall (λ kv, Forall unit_ok kv.1) o →
    Forall (λ kv, json_ok kv.2) o → json_ok (JObj o).

(** What may follow a value inside a text. *)
Definition delim (rest : jstr) : Prop :=
  match rest with [] => True | c :: _ => c = 44 ∨ c = 93 ∨ c = 125 end.

Lemma run_num_end stk n rest :
  nl_done n = true → delim rest → parse_run (stk, MNum n) rest = parse_run (stk, MAfter (nl_value n)) rest.
Proof.
  intros Hn Hd. destruct rest as [|c rest]; cbn in *; [by destruct stk; [rewrite Hn|]|].
  assert (more_num n c = None) as ->; [|by rewrite Hn].
  unfold nl_done in Hn. unfold more_num. destruct (nl_phase n), Hd as [->|[->| ->]]; done.
Qed.

Lemma run_digits stk neg m s rest :
  Forall (λ c, is_digit c = true) s →
  parse_run (stk, MNum (NumLex neg m 0 false 0 PInt)) (s ++ rest) =
  parse_run (stk, MNum (NumLex neg (fold_left dec_step s m) 0 false 0 PInt)) rest.
Proof.
  intros Hs. revert m; induction Hs as [|c s Hc Hs IH]; intros m; [done|].
  cbn [app parse_run parse_step more_num nl_phase]. rewrite Hc. cbn [mbind option_bind]. apply IH.
Qed.

Lemma is_digit_bounds c : is_digit c = true → 48 ≤ c ≤ 57.
Proof. unfold is_digit. intros. bool_inv. lia. Qed.

(** The digits of [z], read after [-] or as the start of a value. *)
Lemma run_dec stk (neg : bool) z rest :
  0 ≤ z → safe z → delim rest → (neg = true → z ≠ 0) →
  parse_run (stk, if neg then MNum (NumLex true 0 0 false 0 PMinus) else MValue) (dec_of_nat z ++ rest) =
  parse_run (stk, MAfter (JNum (num_of_Z (if neg then - z else z)))) rest.
Proof.
  intros Hz Hsafe Hd Hneg. destruct (dec_of_nat_spec z Hz) as (Hv & Hf & c & s & E & Hc).
  rewrite E in *. inversion_clear Hf as [|?? Hdig Hs]. pose proof (is_digit_bounds c Hdig).
  assert (∀ p, (p = PZero → c = 48 ∧ s = []) → (p = PZero ∨ p = PInt) →
    parse_run (stk, MNum (NumLex neg (c - 48) 0 false 0 p)) (s ++ rest) =
    parse_run (stk, MAfter (JNum (num_of_Z (if neg then - z else z)))) rest) as Hrun.
  { intros p Hp0 Hp.
    assert (parse_run (stk, MNum (NumLex neg (c - 48) 0 false 0 p)) (s ++ rest) =
            parse_run (stk, MNum (NumLex neg z 0 false 0 p)) rest) as ->.
    { destruct Hp as [->| ->].
      - destruct (Hp0 eq_refl) as [-> ->]. destruct (Hc eq_refl) as [-> _]. done.
      - rewrite run_digits by done. do 4 f_equal. rewrite <-Hv. unfold dec_value. cbn. done. }
    rewrite run_num_end by (try done; destruct Hp as [->| ->]; done).
    unfold nl_value. cbn [nl_neg nl_mant nl_exp nl_eneg nl_scale].
    rewrite Z.sub_0_r, num_of_decimal_int by done. case_decide as Ez; [|done].
    rewrite Ez. destruct neg; [by destruct Hneg|done]. }
  destruct neg; cbn [app parse_run parse_step].
  - unfold more_num. cbn [nl_phase nl_neg nl_mant nl_scale nl_eneg nl_exp set_phase].
    rewrite Hdig. cbn [mbind option_bind]. unfold set_phase. cbn [nl_neg nl_mant nl_scale nl_eneg nl_exp].
    replace (dec_step 0 c) with (c - 48) by (unfold dec_step; lia).
    apply Hrun; destruct (Z.eqb_spec c 48); auto; [|done]. intros _. split; [done|]. by apply Hc.
  - unfold start_value, is_ws, start_num. zbool; cbn [orb]; rewrite Hdig; cbn [mbind option_bind];
      apply Hrun; auto; [|done]. intros _. split; [done|]. by apply Hc.
Qed.

(** *** Strings *)

Lemma hex_value_char v : 0 ≤ v < 16 → hex_value (hex_char v) = Some v.
Proof.
  intros Hv. unfold hex_char. destruct (Z.ltb_spec v 10);
    unfold hex_value, is_digit; zbool; cbn; f_equal; lia.
Qed.

Lemma hex_quads c : unit_ok c →
  0 ≤ c / 4096 < 16 ∧ 0 ≤ c / 256 mod 16 < 16 ∧ 0 ≤ c / 16 mod 16 < 16 ∧ 0 ≤ c mod 16 < 16 ∧
  16 * (16 * (16 * (16 * 0 + c / 4096) + c / 256 mod 16) + c / 16 mod 16) + c mod 16 = c.
Proof.
  unfold unit_ok. intros Hc.
  pose proof (Z.div_mod c 16 ltac:(lia)). pose proof (Z.mod_pos_bound c 16 ltac:(lia)).
  pose proof (Z.div_mod (c / 16) 16 ltac:(lia)). pose proof (Z.mod_pos_bound (c / 16) 16 ltac:(lia)).
  pose proof (Z.div_mod (c / 256) 16 ltac:(lia)). pose proof (Z.mod_pos_bound (c / 256) 16 ltac:(lia)).
  assert (c / 16 / 16 = c / 256) by (rewrite Z.div_div by lia; done).
  assert (c / 256 / 16 = c / 4096) by (rewrite Z.div_div by lia; done).
  lia.
Qed.

Lemma run_unicode stk acc key c rest :
  unit_ok c →
  parse_run (stk, MStr SNormal acc key) (unicode_escape c ++ rest) =
  parse_run (stk, MStr SNormal (c :: acc) key) rest.
Proof.
  intros (H1 & H2 & H3 & H4 & E)%hex_quads. unfold unicode_escape.
  cbn [app parse_run parse_step step_string Z.eqb Pos.eqb mbind option_bind].
  rewrite !hex_value_char by done. cbn [mbind option_bind parse_run parse_step step_string].
  rewrite !hex_value_char by done. cbn [mbind option_bind parse_run parse_step step_string].
  rewrite !hex_value_char by done. cbn [mbind option_bind parse_run parse_step step_string].
  rewrite !hex_value_char by done. cbn [mbind option_bind parse_run parse_step step_string].
  by rewrite E.
Qed.

Lemma run_plain stk acc key c rest :
  32 ≤ c → c ≠ 34 → c ≠ 92 →
  parse_run (stk, MStr SNormal acc key) (c :: rest) = parse_run (stk, MStr SNormal (c :: acc) key) rest.
Proof. intros. cbn [parse_run parse_step step_string]. by zbool. Qed.

Lemma run_quote_unit stk acc key c rest :
  unit_ok c →
  parse_run (stk, MStr SNormal acc key) (quote_unit c ++ rest) =
  parse_run (stk, MStr SNormal (c :: acc) key) rest.
Proof.
  intros Hc. unfold quote_unit.
  destruct (Z.eqb_spec c 34) as [->|]; [done|]. destruct (Z.eqb_spec c 92) as [->|]; [done|]. cbn [orb].
  repeat match goal with |- context [c =? ?k] => destruct (Z.eqb_spec c k) as [->|]; [done|] end.
  destruct (Z.ltb_spec c 32); [by apply run_unicode|]. by apply run_plain.
Qed.

Lemma run_quote_body stk acc key s rest :
  Forall unit_ok s →
  parse_run (stk, MStr SNormal acc key) (quote_body s ++ rest) =
  parse_run (stk, MStr SNormal (reverse s ++ acc) key) rest.
Proof.
  revert acc; induction s as [s IH] using list_length_ind; intros acc Hs.
  destruct s as [|c s]; [done|]. inversion_clear Hs as [|?? Hc Hs']. cbn [quote_body].
  destruct (is_high c) eqn:Hh.
  - assert (55296 ≤ c < 56320) by (unfold is_high in Hh; bool_inv; lia).
    destruct s as [|d s]; [rewrite run_unicode by done; done|].
    destruct (is_low d) eqn:Hl.
    + assert (56320 ≤ d < 57344) by (unfold is_low in Hl; bool_inv; lia).
      inversion_clear Hs'. cbn [app]. rewrite !run_plain by lia. rewrite IH by (cbn; auto; lia).
      rewrite !reverse_cons, <-!app_assoc. done.
    + rewrite <-app_assoc, run_unicode, IH by (cbn; auto; lia).
      by rewrite (reverse_cons (d :: s) c), <-app_assoc.
  - rewrite <-app_assoc. destruct (is_low c).
    + rewrite run_unicode, IH by (cbn; auto; lia). by rewrite reverse_cons, <-app_assoc.
    + rewrite run_quote_unit, IH by (cbn; auto; lia). by rewrite reverse_cons, <-app_assoc.
Qed.

Lemma run_string stk s rest :
  Forall unit_ok s →
  parse_run (stk, MStr SNormal [] false) (quote_body s ++ 34 :: rest) =
  parse_run (stk, MAfter (JStr s)) rest.
Proof.
  intros. rewrite run_quote_body, app_nil_r by done.
  cbn [parse_run parse_step step_string Z.eqb Pos.eqb end_string mbind option_bind].
  by rewrite reverse_involutive.
Qed.

Lemma run_key stk o k rest :
  Forall unit_ok k →
  parse_run (FKey o :: stk, MStr SNormal [] true) (quote_body k ++ 34 :: 58 :: rest) =
  parse_run (FObj o k :: stk, MValue) rest.
Proof.
  intros. rewrite run_quote_body, app_nil_r by done.
  cbn [parse_run parse_step step_string Z.eqb Pos.eqb end_string mbind option_bind is_ws orb].
  by rewrite reverse_involutive.
Qed.

(** *** Arrays, objects and values *)

Lemma join_cons sep w ws : join_with sep (w :: ws) = w ++ concat (map (cons sep) ws).
Proof.
  revert w; induction ws as [|w' ws IH]; intros w; [by cbn; rewrite app_nil_r|].
  change (join_with sep (w :: w' :: ws)) with (w ++ sep :: join_with sep (w' :: ws)).
  by rewrite IH.
Qed.

(** A value is read from [MValue] to [MAfter]. *)
Definition reads (v : json) : Prop :=
  ∀ stk rest, delim rest →
    parse_run (stk, MValue) (json_stringify v ++ rest) = parse_run (stk, MAfter v) rest.

Lemma delim_elements (f : json → jstr) l (c : Z) rest :
  c = 93 ∨ c = 125 → delim (concat (map (cons 44) (map f l)) ++ c :: rest).
Proof. intros Hc. destruct l; cbn; [tauto|by left]. Qed.

Lemma run_elements stk acc v l rest :
  Forall reads l →
  parse_run (FArr acc :: stk, MAfter v)
    (concat (map (cons 44) (map json_stringify l)) ++ 93 :: rest) =
  parse_run (stk, MAfter (JArr (reverse acc ++ v :: l))) rest.
Proof.
  intros Hl. revert acc v; induction Hl as [|w l Hw Hl IH]; intros acc v.
  - cbn [map concat app parse_run parse_step after_value is_ws orb Z.eqb Pos.eqb mbind option_bind].
    by rewrite reverse_cons.
  - cbn [map concat]. rewrite <-!app_assoc.
    cbn [app parse_run parse_step after_value is_ws orb Z.eqb Pos.eqb mbind option_bind].
    rewrite Hw by (apply delim_elements; auto).
    rewrite IH, reverse_cons, <-app_assoc. done.
Qed.

Definition member (kv : jstr * json) : jstr := json_quote kv.1 ++ 58 :: json_stringify kv.2.

Lemma stringify_obj o :
  enumerate o = o → json_stringify (JObj o) = 123 :: join_with 44 (map member o) ++ [125].
Proof.
  intros E. cbn [json_stringify]. rewrite (enumerate_map json_stringify o), E, map_map. done.
Qed.

Lemma delim_members l (c : Z) rest :
  c = 93 ∨ c = 125 → delim (concat (map (cons 44) (map member l)) ++ c :: rest).
Proof. intros Hc. destruct l; cbn; [tauto|by left]. Qed.

Lemma run_members stk o k v l rest :
  NoDup (o.*1 ++ k :: l.*1) → Forall (λ kv, Forall unit_ok kv.1) l → Forall (λ kv, reads kv.2) l →
  parse_run (FObj o k :: stk, MAfter v) (concat (map (cons 44) (map member l)) ++ 125 :: rest) =
  parse_run (stk, MAfter (JObj (o ++ (k, v) :: l))) rest.
Proof.
  intros Hnd Hk Hl. revert o k v Hnd; induction Hl as [|[k' v'] l Hw Hl IH]; intros o k v Hnd.
  - cbn [map concat app parse_run parse_step after_value is_ws orb Z.eqb Pos.eqb mbind option_bind].
    rewrite obj_set_fresh; [done|]. apply NoDup_app in Hnd as (_ & Hd & _).
    intros Hin. apply (Hd k Hin). left.
  - inversion_clear Hk as [|?? Hk' Hks]. cbn [map concat]. unfold member at 1, json_quote.
    cbn [fst snd]. rewrite <-!app_assoc. cbn [app].
    cbn [parse_run parse_step after_value is_ws orb Z.eqb Pos.eqb mbind option_bind].
    rewrite <-!app_assoc. cbn [app].
    rewrite run_key by done. rewrite Hw by (apply delim_members; auto).
    rewrite obj_set_fresh by (apply NoDup_app in Hnd as (_ & Hd & _); intros Hin; apply (Hd k Hin); left).
    cbn [snd]. rewrite (IH Hks (o ++ [(k, v)]) k' v').
    + by rewrite <-app_assoc.
    + rewrite fmap_app. cbn. rewrite <-app_assoc. exact Hnd.
Qed.

Lemma json_num_of_Z z : safe z → json_stringify (JNum (num_of_Z z)) = dec_of_Z z.
Proof.
  intros Hz. cbn. rewrite num_of_Z_canon by done. unfold json_num.
  rewrite <-num_to_string_of_Z, num_of_Z_canon by done. by destruct z.
Qed.

Lemma stringify_head v :
  json_ok v → ∃ c s, json_stringify v = c :: s ∧ is_ws c = false ∧ c ≠ 93.
Proof.
  destruct 1 as [|b|z Hz|s Hs|l Hl|o Ho]; try (by eexists _, _).
  - destruct b; by eexists _, _.
  - rewrite json_num_of_Z by done. unfold dec_of_Z. destruct (Z.ltb_spec z 0); [by eexists _, _|].
    destruct (dec_of_nat_spec z) as (_ & Hd & c & s & E & _); [done|].
    rewrite E in *. inversion_clear Hd as [|?? Hc _]. apply is_digit_bounds in Hc.
    eexists c, s. split; [done|]. unfold is_ws. by zbool.
Qed.

Lemma reads_num z : safe z → reads (JNum (num_of_Z z)).
Proof.
  intros Hz stk rest Hd. rewrite json_num_of_Z by done. unfold dec_of_Z.
  destruct (Z.ltb_spec z 0).
  - change (js "-" ++ dec_of_nat (- z)) with (45 :: dec_of_nat (- z)). cbn [app].
    cbn [parse_run parse_step start_value is_ws orb Z.eqb Pos.eqb mbind option_bind].
    rewrite (run_dec stk true (- z) rest); [by rewrite Z.opp_involutive|lia| |done|lia].
    unfold safe in *. lia.
  - by apply (run_dec stk false).
Qed.

Lemma reads_arr l : Forall json_ok l → Forall reads l → reads (JArr l).
Proof.
  intros Hok Hl stk rest Hd. cbn [json_stringify app].
  cbn [parse_run parse_step start_value is_ws orb Z.eqb Pos.eqb mbind option_bind].
  rewrite <-app_assoc. cbn [app]. destruct Hl as [|v l Hv Hl]; [done|].
  cbn [map]. rewrite join_cons, <-app_assoc. inversion_clear Hok as [|?? Hvok _].
  destruct (stringify_head v Hvok) as (c & s & E & Hws & Hc).
  trans (parse_run (FArr [] :: stk, MValue)
           (json_stringify v ++ concat (map (cons 44) (map json_stringify l)) ++ 93 :: rest)).
  - rewrite E. cbn [app parse_run parse_step]. rewrite Hws. by rewrite (proj2 (Z.eqb_neq c 93)).
  - rewrite Hv by (apply delim_elements; auto). by rewrite run_elements.
Qed.

Lemma reads_obj o :
  NoDup o.*1 → enumerate o = o → Forall (λ kv, Forall unit_ok kv.1) o →
  Forall (λ kv, reads kv.2) o → reads (JObj o).
Proof.
  intros Hnd He Hk Hr stk rest Hd. rewrite stringify_obj by done. cbn [app].
  cbn [parse_run parse_step start_value is_ws orb Z.eqb Pos.eqb mbind option_bind].
  rewrite <-app_assoc. cbn [app]. destruct Hr as [|[k v] o Hv Hr]; [done|].
  cbn [map]. rewrite join_cons, <-app_assoc. inversion_clear Hk as [|?? Hk1 Hk2].
  unfold member at 1, json_quote. cbn [fst snd]. rewrite <-!app_assoc. cbn [app].
  cbn [parse_run parse_step is_ws orb Z.eqb Pos.eqb mbind option_bind].
  rewrite <-!app_assoc. cbn [app]. rewrite run_key by done.
  rewrite Hv by (apply delim_members; auto). cbn [snd]. by rewrite run_members.
Qed.

Lemma json_ok_reads v : json_ok v → reads v.
Proof.
  induction v as [|b|x|s|l IH|o IH] using json_nested_ind; inversion 1; simplify_eq.
  - intros stk rest _. done.
  - intros stk rest _. by destruct b.
  - by apply reads_num.
  - intros stk rest _. cbn [json_stringify]. unfold json_quote. cbn [app].
    rewrite <-app_assoc. cbn [parse_run parse_step start_value is_ws orb Z.eqb Pos.eqb mbind option_bind app].
    by apply run_string.
  - apply reads_arr; [done|]. rewrite Forall_forall in *. auto.
  - apply reads_obj; [done..|]. rewrite Forall_forall in *. auto.
Qed.

(** The round trip. *)
Lemma json_parse_stringify v : json_ok v → json_parse (json_stringify v) = Some v.
Proof.
  intros Hv. unfold json_parse. rewrite <-(app_nil_r (json_stringify v)).
  rewrite (json_ok_reads v Hv [] []) by done. done.
Qed.

(** ** What parsing produces

    Every string of a parsed value holds code units and every object has
    distinct keys. *)
Inductive json_wf : json → Prop :=
| WfNull : json_wf JNull
| WfBool b : json_wf (JBool b)
| WfNum x : json_wf (JNum x)
| WfStr s : Forall unit_ok s → json_wf (JStr s)
| WfArr l : Forall json_wf l → json_wf (JArr l)
| WfObj o : obj_wf o → json_wf (JObj o)
with obj_wf : list (jstr * json) → Prop :=
| WfProps o : NoDup o.*1 → Forall (λ kv, Forall unit_ok kv.1) o → Forall (λ kv, json_wf kv.2) o →
    obj_wf o.

Definition frame_wf (f : frame) : Prop :=
  match f with
  | FArr acc => Forall json_wf acc
  | FKey o => obj_wf o
  | FObj o k => obj_wf o ∧ Forall unit_ok k
  end.

Definition mode_wf (m : mode) : Prop :=
  match m with
  | MStr (SUnicode n u) acc _ => Forall unit_ok acc ∧ (1 ≤ n ≤ 4)%nat ∧ 0 ≤ u < 16 ^ (4 - Z.of_nat n)
  | MStr _ acc _ => Forall unit_ok acc
  | MLit _ v | MAfter v => json_wf v
  | _ => True
  end.

Definition state_wf (st : list frame * mode) : Prop := Forall frame_wf st.1 ∧ mode_wf st.2.

Lemma obj_set_wf k v o : obj_wf o → Forall unit_ok k → json_wf v → obj_wf (obj_set k v o).
Proof.
  inversion_clear 1 as [? Hnd Hk Hv]. intros Hk' Hv'. constructor; [by apply obj_set_NoDup|..].
  - clear Hnd Hv. induction Hk as [|[k1 v1] o Hk1 Hk IH]; cbn; [by repeat constructor|].
    case_decide; by constructor.
  - clear Hnd Hk. induction Hv as [|[k1 v1] o Hv1 Hv IH]; cbn; [by repeat constructor|].
    case_decide; by constructor.
Qed.

Lemma obj_wf_nil : obj_wf [].
Proof. constructor; constructor. Qed.

#[export] Hint Constructors json_wf : ankusa.
#[export] Hint Resolve obj_set_wf obj_wf_nil : ankusa.

Lemma start_value_wf c stk st :
  start_value c stk = Some st → Forall frame_wf stk → state_wf st.
Proof.
  unfold start_value, start_num, state_wf. intros H Hs.
  repeat case_match; simplify_eq; cbn; (split; [repeat constructor; auto with ankusa|auto with ankusa]).
Qed.

Lemma after_value_wf v c stk st :
  after_value v c stk = Some st → Forall frame_wf stk → json_wf v → state_wf st.
Proof.
  unfold after_value, state_wf. intros H Hs Hv.
  repeat case_match; simplify_eq; cbn; [done|..]; inversion_clear Hs as [|?? Hf Hs'];
    cbn in *; (split; [try constructor; auto with ankusa; try done|auto with ankusa]).
  - by constructor.
  - constructor. change (Forall json_wf (reverse (v :: acc))). rewrite Forall_reverse. by constructor.
  - destruct Hf. cbn. auto with ankusa.
  - destruct Hf. auto with ankusa.
Qed.

Lemma end_string_wf s key stk st :
  end_string s key stk = Some st → Forall frame_wf stk → Forall unit_ok s → state_wf st.
Proof.
  unfold end_string, state_wf. intros H Hs Hu. repeat case_match; simplify_eq; cbn.
  - inversion_clear Hs. split; [constructor; [split|]; done|done].
  - auto with ankusa.
Qed.

Lemma hex_value_range c v : hex_value c = Some v → 0 ≤ v < 16.
Proof. unfold hex_value, is_digit. repeat case_match; intros; simplify_eq; bool_inv; lia. Qed.

Lemma escape_value_ok c v : escape_value c = Some v → unit_ok v.
Proof.
  unfold escape_value, unit_ok. repeat case_match; intros; simplify_eq; lia.
Qed.

Lemma step_string_wf m acc key c stk st :
  step_string m acc key c stk = Some st → Forall frame_wf stk → mode_wf (MStr m acc key) →
  unit_ok c → state_wf st.
Proof.
  intros H Hs Hm Hc. destruct m as [| |n u]; cbn in H, Hm.
  - repeat case_match; simplify_eq; unfold state_wf; cbn; auto.
    eapply end_string_wf; [done|done|]. by rewrite Forall_reverse.
  - case_match; simplify_eq; [unfold state_wf; cbn; auto with lia|].
    destruct (escape_value c) eqn:E; simplify_eq/=. unfold state_wf; cbn.
    eauto using escape_value_ok.
  - destruct Hm as (Ha & Hn & Hu). destruct (hex_value c) as [d|] eqn:E; [|done]. cbn in H.
    apply hex_value_range in E. unfold state_wf.
    destruct n as [|[|n]]; simplify_eq; cbn [fst snd mode_wf].
    + lia.
    + split; [done|]. constructor; [|done]. unfold unit_ok. cbn in Hu. lia.
    + split_and!; [done|done|lia|lia|lia|].
      * replace (4 - Z.of_nat (S n)) with (Z.succ (4 - Z.of_nat (S (S n)))) by lia.
        rewrite Z.pow_succ_r by lia. lia.
Qed.

Lemma parse_step_wf st c st' :
  parse_step st c = Some st' → state_wf st → unit_ok c → state_wf st'.
Proof.
  destruct st as [stk m]. intros H [Hs Hm] Hc. cbn in Hs, Hm. destruct m as [| | | | |sm acc key|n|rest v|v]; cbn in H.
  - by eapply start_value_wf.
  - repeat case_match; simplify_eq; [done| |by eapply start_value_wf].
    inversion_clear Hs. split; cbn; auto with ankusa.
  - repeat case_match; simplify_eq; [done| |by split; [|constructor]].
    inversion_clear Hs. split; cbn; auto with ankusa.
  - repeat case_match; simplify_eq; (split; [done|constructor]).
  - repeat case_match; simplify_eq; done.
  - by eapply step_string_wf.
  - repeat case_match; simplify_eq; [done|]. eapply after_value_wf; [done|done|constructor].
  - repeat case_match; simplify_eq; done.
  - by eapply after_value_wf.
Qed.

Lemma parse_run_wf s st v :
  parse_run st s = Some v → state_wf st → Forall unit_ok s → json_wf v.
Proof.
  revert st; induction s as [|c s IH]; intros st H Hst Hs; cbn in H.
  - destruct st as [stk m]. destruct Hst as [_ Hm]. unfold parse_end in H.
    repeat case_match; simplify_eq; [constructor|done].
  - destruct (parse_step st c) as [st'|] eqn:E; [|done]. cbn in H. inversion_clear Hs.
    eapply IH; [done| |done]. by eapply parse_step_wf.
Qed.

Lemma json_parse_wf s v : json_parse s = Some v → Forall unit_ok s → json_wf v.
Proof. intros H Hs. eapply parse_run_wf; [done| |done]. by split; constructor. Qed.

Lemma obj_wf_inv o :
  obj_wf o → NoDup o.*1 ∧ Forall (λ kv, Forall unit_ok kv.1) o ∧ Forall (λ kv, json_wf kv.2) o.
Proof. by inversion 1. Qed.

(** A property read from a parsed object. *)
Lemma obj_get_wf k o v : obj_wf o → obj_get k o = Some v → json_wf v.
Proof.
  intros (_ & _ & Hv)%obj_wf_inv H%obj_get_Some_elem. rewrite Forall_forall in Hv. by apply (Hv _ H).
Qed.

Lemma obj_get_str_wf k o s : obj_wf o → obj_get k o = Some (JStr s) → Forall unit_ok s.
Proof. intros Ho H. apply (obj_get_wf k) in H; [|done]. by inversion H. Qed.
