(* ===== verification/ClaimRef.v ===== *)
(** * Claim-check references ([claim-check/ref.ts], [claim-check/errors.ts])

    A queue message too large to travel inline carries a claim-check
    reference, a URN naming a tenant and a claim:
<<
      urn:ankusa:claim:v1:<tenant>:<claim_id>
      urn:ankusa:claim:v2:<tenant>:<claim_id>:<exp_unix>:<signature>
>>
    [parseClaimRef] turns it into the gateway path that redeems it.  The file
    also holds the error classes of the claim-check client, which a consumer
    sorts by [retryable]. *)
From S2P Require Import Prelude JsString Regex Json.
From stdpp Require Import base tactics list numbers option strings sets.
Local Open Scope Z_scope.

(** ** Errors *)

(** An exception of code outside the SDK, as the SDK sees it: its message. *)
Record thrown := Thrown { thrown_message : jstr }.

Inductive claim_check_error : Type :=
| InvalidClaimRefError (message : jstr)
| ClaimNotFoundError (message : jstr)
| ClaimRejectedError (message : jstr) (status : Z) (body : json)
| ClaimIntegrityError (message : jstr)
| ClaimCheckUnavailableError (message : jstr) (cause : option thrown).

(** The [retryable] field of each class. *)
Definition retryable (e : claim_check_error) : bool :=
  match e with
  | InvalidClaimRefError _ | ClaimNotFoundError _ | ClaimRejectedError _ _ _
  | ClaimIntegrityError _ => false
  | ClaimCheckUnavailableError _ _ => true
  end.

Definition claim_error_message (e : claim_check_error) : jstr :=
  match e with
  | InvalidClaimRefError m | ClaimNotFoundError m | ClaimRejectedError m _ _
  | ClaimIntegrityError m | ClaimCheckUnavailableError m _ => m
  end.

(** ** Parsing *)

Record ParsedClaimRef := {
  tenantId : jstr;
  claimId : jstr;
  path : jstr;
  proof : option (jstr * jstr);
}.

(** [[A-Za-z0-9_-]], [[0-7]], [[0-9A-HJKMNP-TV-Z]], [[1-9]] *)
Definition cls_word : Z → bool :=
  cls_or cls_upper (cls_or cls_lower (cls_or cls_digit (cls_or (Z.eqb 95) (Z.eqb 45)))).
Definition cls_octal : Z → bool := cls_between 48 55.
Definition cls_crockford : Z → bool :=
  cls_or cls_digit (cls_or (cls_between 65 72) (cls_or (cls_between 74 75)
    (cls_or (cls_between 77 78) (cls_or (cls_between 80 84) (cls_between 86 90))))).
Definition cls_nonzero : Z → bool := cls_between 49 57.

Definition re_tenant : re := re_range 1 64 (RChar cls_word).
Definition re_claim : re := RSeq (RChar cls_octal) (re_times 25 (RChar cls_crockford)).
Definition re_exp : re := RSeq (RChar cls_nonzero) (re_range 0 11 (RChar cls_digit)).
Definition re_sig : re := re_times 43 (RChar cls_word).

Definition REF_PATTERN : re :=
  RSeq (re_lit (js "urn:ankusa:claim:v1:"))
    (RSeq (RGroup "tenantId" re_tenant) (RSeq (re_lit (js ":")) (RGroup "claimId" re_claim))).

Definition REF_V2_PATTERN : re :=
  RSeq (re_lit (js "urn:ankusa:claim:v2:"))
    (RSeq (RGroup "tenantId" re_tenant) (RSeq (re_lit (js ":"))
      (RSeq (RGroup "claimId" re_claim) (RSeq (re_lit (js ":"))
        (RSeq (RGroup "exp" re_exp) (RSeq (re_lit (js ":")) (RGroup "sig" re_sig))))))).

Fixpoint group (name : string) (cs : list (string * jstr)) : jstr :=
  match cs with
  | [] => []
  | (n, s) :: cs => if decide (n = name) then s else group name cs
  end.

Definition claim_path (tenant claim : jstr) : jstr :=
  js "/v1/claims/" ++ tenant ++ js "/" ++ claim.

Definition parseClaimRef (ref : jstr) : result claim_check_error ParsedClaimRef :=
  match re_exec REF_V2_PATTERN ref with
  | Some g =>
      Ok {| tenantId := group "tenantId" g;
            claimId := group "claimId" g;
            path := claim_path (group "tenantId" g) (group "claimId" g) ++
                    js "?exp=" ++ group "exp" g ++ js "&sig=" ++ group "sig" g;
            proof := Some (group "exp" g, group "sig" g) |}
  | None =>
      match re_exec REF_PATTERN ref with
      | None => Err (InvalidClaimRefError (js "invalid claim-check ref: " ++ ref))
      | Some g =>
          Ok {| tenantId := group "tenantId" g;
                claimId := group "claimId" g;
                path := claim_path (group "tenantId" g) (group "claimId" g);
                proof := None |}
      end
  end.

(** ** The grammar of references *)

Definition valid_tenant (t : jstr) : Prop :=
  Forall (λ c, cls_word c = true) t ∧ (1 ≤ length t ≤ 64)%nat.
Definition valid_claim (c : jstr) : Prop :=
  ∃ x r, c = x :: r ∧ cls_octal x = true ∧ Forall (λ c, cls_crockford c = true) r ∧ length r = 25%nat.
Definition valid_exp (e : jstr) : Prop :=
  ∃ x r, e = x :: r ∧ cls_nonzero x = true ∧ Forall (λ c, cls_digit c = true) r ∧ (length r ≤ 11)%nat.
Definition valid_sig (s : jstr) : Prop :=
  Forall (λ c, cls_word c = true) s ∧ length s = 43%nat.

(** A reference as its parts, and the URN that spells it. *)
Record claim_ref := ClaimRef {
  ref_tenant : jstr;
  ref_claim : jstr;
  ref_proof : option (jstr * jstr);
}.

Definition valid_ref (r : claim_ref) : Prop :=
  valid_tenant (ref_tenant r) ∧ valid_claim (ref_claim r) ∧
  match ref_proof r with None => True | Some (e, s) => valid_exp e ∧ valid_sig s end.

Definition format_ref (r : claim_ref) : jstr :=
  match ref_proof r with
  | None => js "urn:ankusa:claim:v1:" ++ ref_tenant r ++ js ":" ++ ref_claim r
  | Some (e, s) => js "urn:ankusa:claim:v2:" ++ ref_tenant r ++ js ":" ++ ref_claim r ++
                   js ":" ++ e ++ js ":" ++ s
  end.

(** What parsing returns for a reference. *)
Definition parsed (r : claim_ref) : ParsedClaimRef := {|
  tenantId := ref_tenant r;
  claimId := ref_claim r;
  path := claim_path (ref_tenant r) (ref_claim r) ++
    match ref_proof r with None => [] | Some (e, s) => js "?exp=" ++ e ++ js "&sig=" ++ s end;
  proof := ref_proof r;
|}.

Lemma match_tenant s c : re_match re_tenant s c ↔ valid_tenant s ∧ c = [].
Proof. unfold re_tenant, valid_tenant. rewrite match_range_cls by lia. naive_solver. Qed.

Lemma match_claim s c : re_match re_claim s c ↔ valid_claim s ∧ c = [].
Proof.
  unfold re_claim, valid_claim. rewrite match_seq. setoid_rewrite match_char.
  setoid_rewrite match_times_cls. split.
  - intros (?&?&?&?&->&->&(x&->&?&->)&?&?&->). naive_solver.
  - intros [(x & r & -> & ? & ? & ?) ->]. eexists [x], r, [], []. naive_solver.
Qed.

Lemma match_exp s c : re_match re_exp s c ↔ valid_exp s ∧ c = [].
Proof.
  unfold re_exp, valid_exp. rewrite match_seq. setoid_rewrite match_char.
  setoid_rewrite match_range_cls; [|lia]. split.
  - intros (?&?&?&?&->&->&(x&->&?&->)&?&?&->). split; [|done]. eexists x, _. naive_solver.
  - intros [(x & r & -> & ? & ? & ?) ->]. eexists [x], r, [], [].
    split_and!; eauto with lia.
Qed.

Lemma match_sig s c : re_match re_sig s c ↔ valid_sig s ∧ c = [].
Proof. unfold re_sig, valid_sig. rewrite match_times_cls. naive_solver. Qed.

Ltac match_inv :=
  repeat match goal with
  | H : ∃ _, _ |- _ => destruct H as [? H]
  | H : _ ∧ _ |- _ => destruct H
  | H : re_match (RSeq _ _) _ _ |- _ => apply match_seq in H
  | H : re_match (RGroup _ _) _ _ |- _ => apply match_group in H
  | H : re_match (re_lit _) _ _ |- _ => apply match_lit in H
  | H : re_match re_tenant _ _ |- _ => apply match_tenant in H
  | H : re_match re_claim _ _ |- _ => apply match_claim in H
  | H : re_match re_exp _ _ |- _ => apply match_exp in H
  | H : re_match re_sig _ _ |- _ => apply match_sig in H
  end; subst.

Lemma match_ref_v1 s g :
  re_match REF_PATTERN s g ↔
  ∃ t c, valid_ref (ClaimRef t c None) ∧ s = format_ref (ClaimRef t c None) ∧
         g = [("claimId", c); ("tenantId", t)].
Proof.
  unfold REF_PATTERN. split.
  - intros H. match_inv.
    match goal with Ht : valid_tenant ?t, Hc : valid_claim ?c |- _ =>
      exists t, c; split; [exact (conj Ht (conj Hc I))|done] end.
  - intros (t & c & (Ht & Hc & _) & -> & ->). cbn in Ht, Hc. unfold format_ref; cbn [ref_proof ref_tenant ref_claim].
    change [("claimId", c); ("tenantId", t)] with ((([("claimId", c)] ++ []) ++ [("tenantId", t)]) ++ []).
    repeat (apply MSeq; [first [apply match_lit; split; reflexivity|apply MGroup]|]); try apply MGroup.
    + by apply match_tenant.
    + by apply match_claim.
Qed.

Lemma match_ref_v2 s g :
  re_match REF_V2_PATTERN s g ↔
  ∃ t c e sg, valid_ref (ClaimRef t c (Some (e, sg))) ∧ s = format_ref (ClaimRef t c (Some (e, sg))) ∧
         g = [("sig", sg); ("exp", e); ("claimId", c); ("tenantId", t)].
Proof.
  unfold REF_V2_PATTERN. split.
  - intros H. match_inv.
    match goal with Ht : valid_tenant ?t, Hc : valid_claim ?c, He : valid_exp ?e, Hs : valid_sig ?s |- _ =>
      exists t, c, e, s; split; [exact (conj Ht (conj Hc (conj He Hs)))|done] end.
  - intros (t & c & e & sg & (Ht & Hc & He & Hsg) & -> & ->). cbn in Ht, Hc.
    unfold format_ref; cbn [ref_proof ref_tenant ref_claim].
    change [("sig", sg); ("exp", e); ("claimId", c); ("tenantId", t)]
      with ((((((([("sig", sg)] ++ []) ++ [("exp", e)]) ++ []) ++ [("claimId", c)]) ++ []) ++ [("tenantId", t)]) ++ []).
    repeat (apply MSeq; [first [apply match_lit; split; reflexivity|apply MGroup]|]); try apply MGroup.
    + by apply match_tenant.
    + by apply match_claim.
    + by apply match_exp.
    + by apply match_sig.
Qed.

(** Two references with the same URN are the same: no part holds the
    separator, and the version is in the fixed prefix. *)
Lemma cls_word_sep c : cls_word c = true → c ≠ 58 ∧ c ≠ 47 ∧ c ≠ 63 ∧ c ≠ 38.
Proof. intros H. split_and!; intros ->; done. Qed.

Lemma cls_crockford_word c : cls_crockford c = true → cls_word c = true.
Proof.
  unfold cls_crockford, cls_word, cls_or, cls_digit, cls_upper, cls_lower, cls_between.
  zbool; cbn; congruence.
Qed.

Lemma cls_octal_word c : cls_octal c = true → cls_word c = true.
Proof.
  unfold cls_octal, cls_word, cls_or, cls_digit, cls_upper, cls_lower, cls_between.
  zbool; cbn; congruence.
Qed.

Lemma cls_digit_word c : cls_digit c = true → cls_word c = true.
Proof.
  unfold cls_word, cls_or, cls_digit, cls_upper, cls_lower, cls_between. zbool; cbn; congruence.
Qed.

Lemma cls_nonzero_word c : cls_nonzero c = true → cls_word c = true.
Proof.
  unfold cls_nonzero, cls_word, cls_or, cls_digit, cls_upper, cls_lower, cls_between.
  zbool; cbn; congruence.
Qed.

Abbreviation word s := (Forall (λ c, cls_word c = true) s) (only parsing).

Lemma valid_tenant_word t : valid_tenant t → word t.
Proof. by intros []. Qed.

Lemma valid_claim_word c : valid_claim c → word c.
Proof.
  intros (x & r & -> & ? & ? & _). constructor; [by apply cls_octal_word|].
  eapply Forall_impl; [done|]. apply cls_crockford_word.
Qed.

Lemma valid_exp_word e : valid_exp e → word e.
Proof.
  intros (x & r & -> & ? & ? & _). constructor; [by apply cls_nonzero_word|].
  eapply Forall_impl; [done|]. apply cls_digit_word.
Qed.

Lemma valid_sig_word s : valid_sig s → word s.
Proof. by intros []. Qed.

#[export] Hint Resolve valid_tenant_word valid_claim_word valid_exp_word valid_sig_word : ankusa.

(** Cutting at a separator that no word holds. *)
Lemma word_cut (sep : Z) w w' (s s' : jstr) :
  cls_word sep = false → word w → word w' → w ++ sep :: s = w' ++ sep :: s' → w = w' ∧ s = s'.
Proof.
  intros Hsep Hw Hw' E.
  destruct (class_split_unique (λ c, cls_word c = true) sep sep w s w' s') as (-> & _ & ->);
    auto; congruence.
Qed.

Lemma word_no_sep (sep : Z) w w' (s : jstr) :
  cls_word sep = false → word w → w = w' ++ sep :: s → False.
Proof.
  intros Hsep Hw ->. apply Forall_app in Hw as [_ Hw]. inversion_clear Hw. congruence.
Qed.

Lemma valid_ref_v1_v2 t c t' c' e s :
  format_ref (ClaimRef t c None) ≠ format_ref (ClaimRef t' c' (Some (e, s))).
Proof. unfold format_ref. cbn. discriminate. Qed.

Lemma app_prefix_inj (p s s' : jstr) : p ++ s = p ++ s' → s = s'.
Proof. apply app_inv_head. Qed.

Lemma format_ref_inj r r' : valid_ref r → valid_ref r' → format_ref r = format_ref r' → r = r'.
Proof.
  destruct r as [t c [[e s]|]], r' as [t' c' [[e' s']|]]; intros (Ht & Hc & Hp) (Ht' & Hc' & Hp') E;
    cbn [format_ref ref_tenant ref_claim ref_proof] in *.
  - destruct Hp, Hp'. apply app_prefix_inj in E.
    apply (word_cut 58) in E as [<- E]; [|done|auto with ankusa..].
    apply (word_cut 58) in E as [<- E]; [|done|auto with ankusa..].
    apply (word_cut 58) in E as [<- <-]; [|done|auto with ankusa..]. done.
  - by symmetry in E; apply valid_ref_v1_v2 in E.
  - by apply valid_ref_v1_v2 in E.
  - apply app_prefix_inj in E. apply (word_cut 58) in E as [<- <-]; [|done|auto with ankusa..]. done.
Qed.

Lemma parseClaimRef_Ok ref p :
  parseClaimRef ref = Ok p → ∃ r, valid_ref r ∧ ref = format_ref r ∧ p = parsed r.
Proof.
  unfold parseClaimRef. destruct (re_exec REF_V2_PATTERN ref) as [g|] eqn:E2; [intros [= <-]|].
  - apply re_exec_sound, match_ref_v2 in E2 as (t & c & e & s & Hv & -> & ->). eauto.
  - destruct (re_exec REF_PATTERN ref) as [g|] eqn:E1; [intros [= <-]|done].
    apply re_exec_sound, match_ref_v1 in E1 as (t & c & Hv & -> & ->).
    eexists. split_and!; [done|done|]. unfold parsed. cbn. by rewrite app_nil_r.
Qed.

Lemma parseClaimRef_format r : valid_ref r → parseClaimRef (format_ref r) = Ok (parsed r).
Proof.
  intros Hv. destruct (parseClaimRef (format_ref r)) as [p|e] eqn:E.
  - apply parseClaimRef_Ok in E as (r' & Hv' & Er & ->).
    by apply format_ref_inj in Er as <-.
  - exfalso. unfold parseClaimRef in E. destruct r as [t c [[ex s]|]].
    + destruct (re_exec_complete REF_V2_PATTERN (format_ref (ClaimRef t c (Some (ex, s))))
        [("sig", s); ("exp", ex); ("claimId", c); ("tenantId", t)]) as [g Hg];
        [apply match_ref_v2; eauto 10|].
      by rewrite Hg in E.
    + destruct (re_exec_complete REF_PATTERN (format_ref (ClaimRef t c None))
        [("claimId", c); ("tenantId", t)]) as [g Hg]; [apply match_ref_v1; eauto|].
      rewrite Hg in E. by case_match.
Qed.

Lemma parseClaimRef_Err ref e :
  parseClaimRef ref = Err e →
  e = InvalidClaimRefError (js "invalid claim-check ref: " ++ ref) ∧ ∀ r, valid_ref r → ref ≠ format_ref r.
Proof.
  intros E. split.
  - unfold parseClaimRef in E. repeat case_match; by simplify_eq.
  - intros r Hv ->. by rewrite parseClaimRef_format in E.
Qed.

Lemma path_inj r r' :
  valid_ref r → valid_ref r' → path (parsed r) = path (parsed r') → r = r'.
Proof.
  destruct r as [t c p], r' as [t' c' p']; intros (Ht & Hc & Hp) (Ht' & Hc' & Hp') E;
    cbn [ref_tenant ref_claim ref_proof path parsed] in *. unfold claim_path in E.
  rewrite <-!app_assoc in E. apply app_prefix_inj in E.
  apply (word_cut 47) in E as [<- E]; [|done|auto with ankusa..].
  destruct p as [[e s]|], p' as [[e' s']|].
  - destruct Hp, Hp'. apply (word_cut 63) in E as [<- E]; [|done|auto with ankusa..].
    apply (app_prefix_inj (js "exp=")) in E.
    apply (word_cut 38) in E as [<- E]; [|done|auto with ankusa..].
    apply (app_prefix_inj (js "sig=")) in E. by subst.
  - exfalso. rewrite app_nil_r in E. symmetry in E.
    eapply (word_no_sep 63) in E; [done|done|auto with ankusa].
  - exfalso. rewrite app_nil_r in E. eapply (word_no_sep 63) in E; [done|done|auto with ankusa].
  - rewrite !app_nil_r in E. by subst.
Qed.

(** [C18] [parseClaimRef] accepts exactly the references of the grammar and
    returns their parts and gateway path: it returns [p] for [ref] if and only
    if [ref] is the URN of a well-formed reference [r] and [p] is [r] parsed. *)
Theorem parse_claim_ref_correct ref p :
  parseClaimRef ref = Ok p ↔ ∃ r, valid_ref r ∧ ref = format_ref r ∧ p = parsed r.
Proof.
  split; [apply parseClaimRef_Ok|]. intros (r & Hv & -> & ->). by apply parseClaimRef_format.
Qed.

(** A string that is no reference is refused with a non-retryable
    [InvalidClaimRefError] naming it, and only such a string is refused. *)
Theorem parse_claim_ref_rejects ref e :
  parseClaimRef ref = Err e ↔
  (∀ r, valid_ref r → ref ≠ format_ref r) ∧
  e = InvalidClaimRefError (js "invalid claim-check ref: " ++ ref) ∧ retryable e = false.
Proof.
  split.
  - intros [-> Hn]%parseClaimRef_Err. auto.
  - intros (Hn & -> & _). destruct (parseClaimRef ref) as [p|e] eqn:E.
    + apply parseClaimRef_Ok in E as (r & Hv & -> & _). by destruct (Hn r).
    + by apply parseClaimRef_Err in E as [-> _].
Qed.

(** The gateway path determines the reference: two accepted references
    with the same redeem path are the same string, so one tenant's reference
    never redeems another claim. *)
Theorem claim_path_injective ref ref' p p' :
  parseClaimRef ref = Ok p → parseClaimRef ref' = Ok p' → path p = path p' → ref = ref'.
Proof.
  intros (r & Hv & -> & ->)%parseClaimRef_Ok (r' & Hv' & -> & ->)%parseClaimRef_Ok E.
  by apply path_inj in E as <-.
Qed.

Definition sample_ref : jstr := js "urn:ankusa:claim:v1:acme:01M39VMD8RA3C5HR4RBV67Y002".
Definition sample_ref_v2 : jstr :=
  js "urn:ankusa:claim:v2:acme:01M39VMD8RA3C5HR4RBV67Y002:1790345000:MAmydaNzNwA3sV38ggZG15ElUTajA8QtBkKevsaq1Ac".

Example parse_claim_ref_vectors :
  (path <$> parseClaimRef sample_ref) = Ok (js "/v1/claims/acme/01M39VMD8RA3C5HR4RBV67Y002") ∧
  (path <$> parseClaimRef sample_ref_v2) =
    Ok (js "/v1/claims/acme/01M39VMD8RA3C5HR4RBV67Y002?exp=1790345000&sig=MAmydaNzNwA3sV38ggZG15ElUTajA8QtBkKevsaq1Ac") ∧
  is_ok (parseClaimRef (sample_ref ++ [10])) = false ∧
  is_ok (parseClaimRef (js "urn:ankusa:claim:v1:acme:01m39vmd8ra3c5hr4rbv67y002")) = false ∧
  is_ok (parseClaimRef (js "urn:ankusa:claim:v1:bad.tenant:01M39VMD8RA3C5HR4RBV67Y002")) = false.
Proof. vm_compute. repeat split. Qed.

Lemma claim_path_injective_witness :
  is_ok (parseClaimRef sample_ref_v2) = true ∧ sample_ref_v2 = sample_ref_v2.
Proof.
  split; [by vm_compute|]. refine (claim_path_injective sample_ref_v2 sample_ref_v2 _ _ _ _ eq_refl).
  - vm_compute. reflexivity.
  - vm_compute. reflexivity.
Defined.
