(* ===== verification/Headers.v ===== *)
(** * Delivery headers ([webhook/headers.ts])

    Ankusa's HTTP sink sends a hook's identity in [x-ankusa-*] headers.
    [parseHeaders] reads them from a [Headers] object, a plain object or Node's
    [IncomingHttpHeaders], whatever the case of the names. *)
From S2P Require Import Prelude JsNumber JsString Regex Base64.
From stdpp Require Import base tactics list numbers option strings gmap.
Local Open Scope Z_scope.

(** ** Data *)

(** A header of a plain object: absent ([undefined]), one value, or the values
    of a repeated header. *)
Inductive header_value :=
| HUndefined
| HValue (s : jstr)
| HValues (l : list jstr).

(** [HeaderSource]: a [Headers] object by its [entries()] (names in lower case,
    repeated headers joined), or an object by its [Object.entries]. *)
Inductive HeaderSource :=
| HHeaders (entries : list (jstr * jstr))
| HRecord (entries : list (jstr * header_value)).

Record Verification := {
  status : jstr;
  flagged : bool;
}.

Record HookHeaders := {
  id : jstr;
  source : jstr;
  tenant : option jstr;
  contentType : option jstr;
  dedupeKey : option jstr;
  replayId : option jstr;
  idempotencyKey : option jstr;
  receivedAt : option num;
  bodySha256 : option jstr;
  verification : option Verification;
}.

Inductive MissingHookIdError := MissingHookId (message : jstr).

(** ** Lookup *)

Definition entries_of (h : HeaderSource) : list (jstr * header_value) :=
  match h with
  | HHeaders l => map (λ kv, (kv.1, HValue kv.2)) l
  | HRecord l => l
  end.

Section lookup.
Context `{LowerCase}.

(** [lowered.set(name.toLowerCase(), ...)] for each entry: the first value of a
    repeated header, [undefined] for an empty list of values; a later entry
    replaces an earlier one. *)
Definition lower_step (m : gmap (list Z) (option jstr)) (kv : jstr * header_value) :
    gmap (list Z) (option jstr) :=
  match kv.2 with
  | HUndefined => m
  | HValue s => <[toLowerCase kv.1 := Some s]> m
  | HValues l => <[toLowerCase kv.1 := head l]> m
  end.

Definition lowered (h : HeaderSource) : gmap (list Z) (option jstr) :=
  fold_left lower_step (entries_of h) ∅.

(** [lowered.get(name)] *)
Definition header (m : gmap (list Z) (option jstr)) (name : string) : option jstr :=
  mjoin (m !! js name).

(** [value || null]: an empty string is the same as absent. *)
Definition non_empty (o : option jstr) : option jstr :=
  match o with Some [] => None | _ => o end.

Definition RECEIVED_AT_PATTERN : re := re_range 1 15 (RChar cls_digit).

Definition parseReceivedAt (value : option jstr) : option num :=
  match value with
  | Some v => if re_test RECEIVED_AT_PATTERN v then Some (num_of_digits v) else None
  | None => None
  end.

Definition parseBodySha256 (value : option jstr) : option jstr :=
  match value with
  | Some v => if re_test SHA256_PATTERN v then Some v else None
  | None => None
  end.

Definition parseVerificationHeaders (m : gmap (list Z) (option jstr)) : option Verification :=
  match non_empty (header m "x-ankusa-verification") with
  | None => None
  | Some s => Some {| status := s;
                      flagged := bool_decide (header m "x-ankusa-verification-flagged" = Some (js "true")) |}
  end.

Definition parseHeaders (headers : HeaderSource) : result MissingHookIdError HookHeaders :=
  let m := lowered headers in
  match non_empty (header m "x-ankusa-id") with
  | None => Err (MissingHookId (js "missing x-ankusa-id header"))
  | Some hook_id =>
      Ok {| id := hook_id;
            source := default [] (header m "x-ankusa-source");
            tenant := header m "x-ankusa-tenant";
            contentType := header m "content-type";
            dedupeKey := non_empty (header m "x-ankusa-dedupe-key");
            replayId := non_empty (header m "x-ankusa-replay-id");
            idempotencyKey := non_empty (header m "x-ankusa-idempotency-key");
            receivedAt := parseReceivedAt (header m "x-ankusa-received-at");
            bodySha256 := parseBodySha256 (header m "x-ankusa-body-sha256");
            verification := parseVerificationHeaders m |}
  end.
End lookup.

(** ** Properties *)

Lemma non_empty_Some o s : non_empty o = Some s ↔ o = Some s ∧ s ≠ [].
Proof. destruct o as [[|c s']|]; cbn; naive_solver. Qed.

Lemma non_empty_not_empty o : non_empty o ≠ Some [].
Proof. intros E. by apply non_empty_Some in E as [_ ?]. Qed.

Lemma received_at_pattern_spec s :
  re_test RECEIVED_AT_PATTERN s = true ↔
  Forall (λ c, cls_digit c = true) s ∧ (1 ≤ length s ≤ 15)%nat.
Proof.
  rewrite re_test_spec. unfold RECEIVED_AT_PATTERN. setoid_rewrite match_range_cls; [|lia]. naive_solver.
Qed.

Lemma dec_value_bound s :
  Forall (λ c, cls_digit c = true) s → 0 ≤ dec_value s < 10 ^ Z.of_nat (length s).
Proof.
  unfold dec_value. intros Hs.
  assert (∀ acc, 0 ≤ acc → acc * 10 ^ Z.of_nat (length s) ≤ fold_left dec_step s acc
                 < (acc + 1) * 10 ^ Z.of_nat (length s)) as Hb; [|specialize (Hb 0); lia].
  induction Hs as [|c s Hc Hs IH]; intros acc Hacc; [cbn; lia|].
  unfold cls_digit, cls_between in Hc. bool_inv. cbn [fold_left length].
  rewrite Nat2Z.inj_succ, Z.pow_succ_r by lia.
  specialize (IH (dec_step acc c)). unfold dec_step in *.
  assert (0 < 10 ^ Z.of_nat (length s)) by lia. nia.
Qed.

Section properties.
Context `{LowerCase}.

(** Replacing the names of a source by others with the same lower case. *)
Lemma lowered_cong (e1 e2 : list (jstr * header_value)) :
  Forall2 (λ a b, toLowerCase a.1 = toLowerCase b.1 ∧ a.2 = b.2) e1 e2 →
  ∀ m, fold_left lower_step e1 m = fold_left lower_step e2 m.
Proof.
  induction 1 as [|[n1 v1] [n2 v2] e1 e2 [E Ev] _ IH]; intros m; [done|]. cbn [fold_left].
  cbn in E, Ev. subst v2. rewrite IH. unfold lower_step. cbn. by rewrite E.
Qed.

(** Header lookup is case-insensitive: spelling the (ASCII) names of a header
    object differently does not change the result. *)
Theorem parse_headers_case_insensitive (e1 e2 : list (jstr * header_value)) :
  Forall2 (λ a b, Forall (λ c, is_ascii c = true) a.1 ∧ Forall (λ c, is_ascii c = true) b.1 ∧
                  map ascii_lower a.1 = map ascii_lower b.1 ∧ a.2 = b.2) e1 e2 →
  parseHeaders (HRecord e1) = parseHeaders (HRecord e2).
Proof.
  intros Hf. unfold parseHeaders, lowered. cbn [entries_of].
  rewrite (lowered_cong e1 e2); [done|]. eapply Forall2_impl; [done|].
  intros a b (Ha & Hb & E & Ev). by rewrite !toLowerCase_ascii.
Qed.

(** [C39] What [parseHeaders] returns never holds an empty identity or key, and the
    advisory fields hold only well-formed values: the acceptance time is the
    exact integer of its digits, at most 15 of them. *)
Theorem parse_headers_wf headers h :
  parseHeaders headers = Ok h →
  id h ≠ [] ∧ dedupeKey h ≠ Some [] ∧ replayId h ≠ Some [] ∧ idempotencyKey h ≠ Some [] ∧
  (∀ n, receivedAt h = Some n → ∃ z, num_value n = Some z ∧ 0 ≤ z < 10 ^ 15) ∧
  (∀ s, bodySha256 h = Some s → Forall (λ c, cls_hex c = true) s ∧ length s = 64%nat) ∧
  (∀ v, verification h = Some v → status v ≠ []).
Proof.
  unfold parseHeaders. set (m := lowered headers).
  destruct (non_empty _) as [i|] eqn:Ei; [|done]. intros [= <-]. cbn.
  apply non_empty_Some in Ei as [_ Hi]. split_and!; auto using non_empty_not_empty.
  - intros n. unfold parseReceivedAt. destruct (header m _) as [v|]; [|done].
    destruct (re_test _ v) eqn:Et; [|done]. intros [= <-].
    apply received_at_pattern_spec in Et as [Hd Hl]. pose proof (dec_value_bound v Hd) as Hb.
    assert (10 ^ Z.of_nat (length v) ≤ 10 ^ 15) by (apply Z.pow_le_mono_r; lia).
    exists (dec_value v). split; [|lia]. unfold num_of_digits.
    assert (safe (dec_value v)) by (unfold safe; lia).
    rewrite num_of_decimal_int by (done || lia). case_decide as E; [by rewrite E|]. by apply num_value_of_Z.
  - intros s. unfold parseBodySha256. destruct (header m _) as [v|]; [|done].
    destruct (re_test _ v) eqn:Et; [|done]. intros [= <-]. by apply sha256_pattern_spec.
  - intros v. unfold parseVerificationHeaders. destruct (non_empty _) as [s|] eqn:Es; [|done].
    intros [= <-]. cbn. by apply non_empty_Some in Es as [_ ?].
Qed.
End properties.

Module Samples.
#[local] Existing Instance AsciiKelvin.

Definition upper : list (jstr * header_value) :=
  [(js "X-Ankusa-ID", HValue (js "01a0")); (js "X-ANKUSA-Received-At", HValues [js "1790345000000"; js "2"]);
   (js "Content-Type", HUndefined)].
Definition lower : list (jstr * header_value) :=
  [(js "x-ankusa-id", HValue (js "01a0")); (js "x-ankusa-received-at", HValues [js "1790345000000"; js "2"]);
   (js "content-type", HUndefined)].

Definition parsed : HookHeaders :=
  {| id := js "01a0"; source := []; tenant := None; contentType := None; dedupeKey := None; replayId := None;
     idempotencyKey := None; receivedAt := Some (num_of_Z 1790345000000); bodySha256 := None; verification := None |}.

Example parse_upper : parseHeaders (HRecord upper) = Ok parsed.
Proof. by vm_compute. Qed.
Example parse_missing : is_ok (parseHeaders (HRecord [(js "x-ankusa-id", HValue [])])) = false.
Proof. by vm_compute. Qed.

Lemma parse_headers_case_insensitive_witness : parseHeaders (HRecord upper) = parseHeaders (HRecord lower).
Proof.
  apply (parse_headers_case_insensitive upper lower).
  repeat constructor; by vm_compute.
Defined.

Lemma parse_headers_wf_witness : id parsed ≠ [].
Proof. apply (parse_headers_wf (HRecord upper) parsed). by vm_compute. Defined.
End Samples.
