(* ===== verification/Signature.v ===== *)
(** * Standard Webhooks signatures ([webhook/signature.ts], [webhook/receive.ts])

    [verifySignature] checks the HMAC-SHA256 signature of an HTTP-sink
    delivery; [receiveDelivery] is the receiver's whole decision, closed by
    default. *)
From S2P Require Import Prelude JsNumber JsString Regex Base64 Sha256 Headers.
From stdpp Require Import base tactics list numbers option strings gmap.
Local Open Scope Z_scope.

(** ** Data *)

Inductive InvalidSignatureCode :=
| invalid_secret
| missing_header
| invalid_timestamp
| timestamp_out_of_tolerance
| no_matching_signature.

Record InvalidSignatureError := {
  code : InvalidSignatureCode;
  field : option jstr;
  message : jstr;
}.

Definition signature_retryable (e : InvalidSignatureError) : bool := false.

(** [string | string[]] *)
Inductive secret_list :=
| OneSecret (s : jstr)
| Secrets (l : list jstr).

Record VerifySignatureOptions := {
  headers : HeaderSource;
  body : payload;
  secrets : secret_list;
  toleranceSeconds : option num;
  now : option num;
}.

Record VerifiedSignature := {
  verified_id : jstr;
  verified_timestamp : num;
}.

Definition signature_error (c : InvalidSignatureCode) (f : option string) (m : string) : InvalidSignatureError :=
  {| code := c; field := js <$> f; message := js m |}.

(** ** Secrets *)

Definition secret_items (s : secret_list) : list jstr :=
  match s with OneSecret x => [x] | Secrets l => l end.

(** [secret.startsWith("whsec_") ? base64 of the rest : its own UTF-8 bytes] *)
Definition decodeSecret (secret : jstr) : result InvalidSignatureError bytes :=
  if starts_with (js "whsec_") secret then
    let encoded := drop 6 secret in
    if bool_decide (encoded = []) || negb (re_test BASE64_PATTERN encoded)
    then Err (signature_error invalid_secret None "a whsec_ secret is not valid base64")
    else Ok (buffer_from_base64 encoded)
  else if bool_decide (secret = []) then Err (signature_error invalid_secret None "an empty secret")
  else Ok (utf8_encode secret).

Fixpoint decodeList (l : list jstr) : result InvalidSignatureError (list bytes) :=
  match l with
  | [] => Ok []
  | s :: l => k ← decodeSecret s; ks ← decodeList l; Ok (k :: ks)
  end.

Definition decodeSecrets (s : secret_list) : result InvalidSignatureError (list bytes) :=
  match secret_items s with
  | [] => Err (signature_error invalid_secret None "no secret configured")
  | l => decodeList l
  end.

Definition TIMESTAMP_PATTERN : re := re_plus (RChar cls_digit).

Section verify.
Context `{LowerCase, Crypto}.

(** [Math.floor(Date.now() / 1000)] at the call. *)
Context (clock : num).

Definition required (m : gmap (list Z) (option jstr)) (name : string) :
    result InvalidSignatureError jstr :=
  match non_empty (header m name) with
  | Some v => Ok v
  | None => Err {| code := missing_header; field := Some (js name);
                   message := js "missing " ++ js name ++ js " header" |}
  end.

(** The [v1,] entries of the [webhook-signature] header, as buffers. *)
Definition signature_candidates (signature : jstr) : list bytes :=
  map (λ e, utf8_encode (drop 3 e))
    (List.filter (starts_with (js "v1,")) (split_on 32 signature)).

(** The base64 HMAC of the signed content under a key, as a buffer. *)
Definition expected_signature (key signed : bytes) : bytes :=
  utf8_encode (base64_encode (hmac_sha256 key signed)).

(** [candidate.length === expected.length && timingSafeEqual(candidate, expected)] *)
Definition same_buffer (a b : bytes) : bool :=
  (length a =? length b)%nat && bool_decide (a = b).

Definition signed_content (hook_id timestamp : jstr) (p : payload) : bytes :=
  utf8_encode (hook_id ++ js "." ++ timestamp ++ js ".") ++ payload_bytes p.

Definition verifySignature (o : VerifySignatureOptions) : result InvalidSignatureError VerifiedSignature :=
  keys ← decodeSecrets (secrets o);
  let m := lowered (headers o) in
  hook_id ← required m "webhook-id";
  rawTimestamp ← required m "webhook-timestamp";
  signature ← required m "webhook-signature";
  _ ← require (re_test TIMESTAMP_PATTERN rawTimestamp)
        (signature_error invalid_timestamp (Some "webhook-timestamp") "webhook-timestamp is not a unix time");
  let timestamp := num_of_digits rawTimestamp in
  let t := default clock (now o) in
  let tolerance := default (num_of_Z 300) (toleranceSeconds o) in
  _ ← require (negb (num_gt (num_abs (num_sub t timestamp)) tolerance))
        (signature_error timestamp_out_of_tolerance (Some "webhook-timestamp")
           "webhook-timestamp is outside the tolerance window");
  let signed := signed_content hook_id rawTimestamp (body o) in
  let candidates := signature_candidates signature in
  let matched := existsb (λ key, existsb (λ c, same_buffer c (expected_signature key signed)) candidates) keys in
  _ ← require matched
        (signature_error no_matching_signature (Some "webhook-signature") "no webhook-signature entry matches");
  Ok {| verified_id := hook_id; verified_timestamp := timestamp |}.

(** ** The receiver's decision *)

Record ReceiveDeliveryOptions := {
  r_headers : HeaderSource;
  r_body : payload;
  r_secrets : option secret_list;
  r_allowUnsigned : option bool;
  r_toleranceSeconds : option num;
  r_now : option num;
}.

Record ReceivedDelivery := {
  delivery : HookHeaders;
  verified : bool;
}.

Inductive receive_error :=
| ReceiveSignature (e : InvalidSignatureError)
| ReceiveMissingId (e : MissingHookIdError).

Definition receiveDelivery (o : ReceiveDeliveryOptions) : result receive_error ReceivedDelivery :=
  let secrets := match r_secrets o with None => [] | Some s => secret_items s end in
  ok ← (match secrets with
        | _ :: _ =>
            match verifySignature {| headers := r_headers o; body := r_body o;
                                     secrets := Secrets secrets;
                                     toleranceSeconds := r_toleranceSeconds o;
                                     now := r_now o |} with
            | Ok _ => Ok true
            | Err e => Err (ReceiveSignature e)
            end
        | [] =>
            if bool_decide (r_allowUnsigned o = Some true) then Ok false
            else Err (ReceiveSignature (signature_error invalid_secret None
                   "no secret configured: deliveries are signed, so the receiver needs the sink's secret (or allowUnsigned: true)"))
        end);
  match parseHeaders (r_headers o) with
  | Ok h => Ok {| delivery := h; verified := ok |}
  | Err e => Err (ReceiveMissingId e)
  end.
End verify.

(** ** What a verified signature means *)

Lemma same_buffer_spec a b : same_buffer a b = true ↔ a = b.
Proof.
  unfold same_buffer. rewrite andb_true_iff, bool_decide_eq_true, Nat.eqb_eq. naive_solver.
Qed.

Lemma existsb_elem {A} (p : A → bool) l : existsb p l = true ↔ ∃ x, x ∈ l ∧ p x = true.
Proof. rewrite existsb_exists. by setoid_rewrite list_elem_of_In. Qed.

Lemma split_on_units sep s : Forall unit_ok s → Forall (Forall unit_ok) (split_on sep s).
Proof.
  induction 1 as [|c s Hc Hs IH]; cbn; [by repeat constructor|].
  case_match; [by constructor|]. destruct (split_on sep s) as [|w ws].
  - by apply Forall_singleton, Forall_singleton.
  - inversion_clear IH. constructor; [by constructor|done].
Qed.

Lemma starts_with_app p k : starts_with p (p ++ k) = true.
Proof. apply starts_with_spec. eauto. Qed.

Section meaning.
Context `{LowerCase, Crypto}.

(** The signature entry Ankusa's HTTP sink writes for a signed content. *)
Definition signature_entry (key signed : bytes) : jstr :=
  js "v1," ++ base64_encode (hmac_sha256 key signed).

Lemma candidate_spec key signed signature :
  Forall unit_ok signature →
  existsb (λ c, same_buffer c (expected_signature key signed)) (signature_candidates signature) = true
  ↔ signature_entry key signed ∈ split_on 32 signature.
Proof.
  intros Hu. rewrite existsb_elem. setoid_rewrite same_buffer_spec.
  pose proof (split_on_units 32 _ Hu) as Hs. rewrite Forall_forall in Hs.
  pose proof (base64_encode_ascii _ (hmac_bytes key signed)) as Ha.
  unfold signature_candidates, expected_signature, signature_entry.
  rewrite (utf8_encode_ascii (base64_encode _)) by done. split.
  - intros (c & Hc & ->). apply list_elem_of_fmap in Hc as (e & Ee & He).
    apply list_elem_of_In, filter_In in He as [He Hp]. apply list_elem_of_In in He.
    apply starts_with_spec in Hp as [k ->]. change (drop 3 (js "v1," ++ k)) with k in Ee.
    symmetry in Ee. apply utf8_encode_inj_ascii in Ee as ->; [done| |done].
    apply Hs, Forall_app in He as [_ He]. exact He.
  - intros He. eexists. split; [|done]. apply list_elem_of_fmap.
    exists (js "v1," ++ base64_encode (hmac_sha256 key signed)). split.
    + by rewrite (utf8_encode_ascii (drop 3 _)).
    + apply list_elem_of_In, filter_In. split; [by apply list_elem_of_In|]. apply starts_with_app.
Qed.

Lemma matched_spec keys signed signature :
  Forall unit_ok signature →
  existsb (λ key, existsb (λ c, same_buffer c (expected_signature key signed))
                    (signature_candidates signature)) keys = true
  ↔ ∃ key, key ∈ keys ∧ signature_entry key signed ∈ split_on 32 signature.
Proof.
  intros Hu. rewrite existsb_elem. by setoid_rewrite candidate_spec.
Qed.

Lemma required_Ok m name v : required m name = Ok v ↔ header m name = Some v ∧ v ≠ [].
Proof.
  unfold required. rewrite <-non_empty_Some. destruct (non_empty _); naive_solver.
Qed.

Lemma timestamp_pattern_spec s :
  re_test TIMESTAMP_PATTERN s = true ↔ Forall (λ c, cls_digit c = true) s ∧ s ≠ [].
Proof.
  rewrite re_test_spec. unfold TIMESTAMP_PATTERN. setoid_rewrite match_plus_cls. naive_solver.
Qed.

(** A delivery whose headers are JavaScript strings. *)
Definition headers_wf (h : HeaderSource) : Prop :=
  ∀ s, header (lowered h) "webhook-signature" = Some s → Forall unit_ok s.

(** The acceptance condition, as a statement about the delivery: the secrets
    decode, the three headers are there, the timestamp is a decimal within the
    tolerance of the clock, and some [v1] entry of the signature header is the
    signature of the content under some secret. *)
Definition genuine (clock : num) (o : VerifySignatureOptions) (r : VerifiedSignature) : Prop :=
  ∃ keys hook_id ts signature,
    decodeSecrets (secrets o) = Ok keys ∧
    header (lowered (headers o)) "webhook-id" = Some hook_id ∧ hook_id ≠ [] ∧
    header (lowered (headers o)) "webhook-timestamp" = Some ts ∧
    header (lowered (headers o)) "webhook-signature" = Some signature ∧
    Forall (λ c, cls_digit c = true) ts ∧ ts ≠ [] ∧
    num_gt (num_abs (num_sub (default clock (now o)) (num_of_digits ts)))
      (default (num_of_Z 300) (toleranceSeconds o)) = false ∧
    (∃ key, key ∈ keys ∧
       signature_entry key (signed_content hook_id ts (body o)) ∈ split_on 32 signature) ∧
    r = {| verified_id := hook_id; verified_timestamp := num_of_digits ts |}.

Lemma verifySignature_Ok clock o r :
  headers_wf (headers o) → verifySignature clock o = Ok r ↔ genuine clock o r.
Proof.
  intros Hwf. unfold verifySignature. split.
  - intros Hv. ok_inv. repeat match goal with H : required _ _ = Ok _ |- _ => apply required_Ok in H as [? ?] end.
    match goal with H : re_test _ _ = true |- _ => apply timestamp_pattern_spec in H as [? ?] end.
    match goal with H : existsb _ _ = true |- _ => apply matched_spec in H; [|by apply Hwf] end.
    match goal with H : negb _ = true |- _ => apply negb_true_iff in H end.
    eexists _, _, _, _. split_and!; eauto.
  - intros (keys & i & ts & sg & Hk & Hi & Hi0 & Hts & Hsg & Hd & Hts0 & Htol & Hm & ->).
    assert (sg ≠ []) as Hsg0.
    { intros ->. destruct Hm as (key & _ & Hm). apply elem_of_cons in Hm as [Hm|Hm]; [done|set_solver]. }
    rewrite Hk. cbn [mbind result_bind].
    rewrite (proj2 (required_Ok _ _ _) (conj Hi Hi0)), (proj2 (required_Ok _ _ _) (conj Hts Hts0)),
      (proj2 (required_Ok _ _ _) (conj Hsg Hsg0)). cbn [mbind result_bind].
    rewrite (proj2 (timestamp_pattern_spec ts)) by done. cbn [require mbind result_bind].
    rewrite Htol. cbn [negb require mbind result_bind].
    rewrite (proj2 (matched_spec keys _ sg (Hwf _ Hsg))) by done. done.
Qed.

(** ** The tolerance window is exact *)

Lemma num_of_digits_value ts :
  Forall (λ c, cls_digit c = true) ts → (length ts ≤ 15)%nat →
  0 ≤ dec_value ts < 10 ^ 15 ∧ num_of_digits ts = num_of_Z (dec_value ts).
Proof.
  intros Hd Hl. pose proof (dec_value_bound ts Hd) as Hb.
  assert (10 ^ Z.of_nat (length ts) ≤ 10 ^ 15) by (apply Z.pow_le_mono_r; lia).
  split; [lia|]. unfold num_of_digits.
  rewrite num_of_decimal_int by (unfold safe; lia). by case_decide as E; [rewrite E|].
Qed.

Lemma tolerance_check n t ts :
  0 ≤ n < 2 ^ 52 → safe t → Forall (λ c, cls_digit c = true) ts → (length ts ≤ 15)%nat →
  num_gt (num_abs (num_sub (num_of_Z n) (num_of_digits ts))) (num_of_Z t) = false ↔
  Z.abs (n - dec_value ts) ≤ t.
Proof.
  intros Hn Ht Hd Hl. destruct (num_of_digits_value ts Hd Hl) as [Hb ->].
  rewrite num_sub_of_Z, num_abs_of_Z, num_gt_of_Z by (unfold safe in *; lia).
  by rewrite Z.ltb_ge.
Qed.

(** With an integer clock and tolerance, an accepted delivery was sent at a
    time (its timestamp header, of up to 15 digits) that differs from the
    clock by at most the tolerance, in either direction; the returned
    timestamp is that integer. *)
Theorem verify_signature_window clock o r n t ts :
  now o = Some (num_of_Z n) → toleranceSeconds o = Some (num_of_Z t) → 0 ≤ n < 2 ^ 52 → safe t →
  header (lowered (headers o)) "webhook-timestamp" = Some ts → (length ts ≤ 15)%nat →
  verifySignature clock o = Ok r →
  Z.abs (n - dec_value ts) ≤ t ∧ verified_timestamp r = num_of_Z (dec_value ts).
Proof.
  intros Hn Ht Hnr Htr Hts Hl Hv. unfold verifySignature in Hv. ok_inv.
  repeat match goal with H : required _ _ = Ok _ |- _ => apply required_Ok in H as [? ?] end.
  simplify_eq.
  match goal with H : re_test _ _ = true |- _ => apply timestamp_pattern_spec in H as [Hd ?] end.
  match goal with H : negb _ = true |- _ => apply negb_true_iff in H; rewrite Hn, Ht in H; cbn in H;
    apply tolerance_check in H end; try done.
  split; [done|]. cbn. by apply num_of_digits_value.
Qed.

(** ** Signed deliveries are accepted *)

Lemma base64_no_space bs : Forall byte_ok bs → 32 ∉ base64_encode bs.
Proof.
  intros Hbs Hin. destruct (encode_sextets bs Hbs) as (k & E & _ & _ & Hv). rewrite E in Hin.
  apply elem_of_app in Hin as [Hin|Hin]; [|by apply elem_of_replicate in Hin as [? _]].
  apply map_b64_cls in Hv. rewrite Forall_forall in Hv. by apply Hv in Hin.
Qed.

Lemma signature_entry_no_space key signed : 32 ∉ signature_entry key signed.
Proof.
  unfold signature_entry. intros Hin. apply elem_of_app in Hin as [Hin|Hin].
  - cbn in Hin. set_solver by lia.
  - by apply base64_no_space in Hin; [|apply hmac_bytes].
Qed.

(** A delivery signed under one of the configured secrets, possibly among
    other entries of the header and other secrets (a key rotation), whose
    timestamp is inside the window, is accepted with its id and timestamp. *)
Theorem signed_delivery_accepted clock o n t ts hook_id keys key entries :
  headers_wf (headers o) →
  decodeSecrets (secrets o) = Ok keys → key ∈ keys →
  now o = Some (num_of_Z n) → toleranceSeconds o = Some (num_of_Z t) → 0 ≤ n < 2 ^ 52 → safe t →
  header (lowered (headers o)) "webhook-id" = Some hook_id → hook_id ≠ [] →
  header (lowered (headers o)) "webhook-timestamp" = Some ts →
  Forall (λ c, cls_digit c = true) ts → (1 ≤ length ts ≤ 15)%nat → Z.abs (n - dec_value ts) ≤ t →
  Forall (λ e, 32 ∉ e) entries →
  signature_entry key (signed_content hook_id ts (body o)) ∈ entries →
  header (lowered (headers o)) "webhook-signature" = Some (join_with 32 entries) →
  verifySignature clock o = Ok {| verified_id := hook_id; verified_timestamp := num_of_Z (dec_value ts) |}.
Proof.
  intros Hwf Hk Hkey Hn Ht Hnr Htr Hid Hid0 Hts Hd Hl Hw He Hin Hsig.
  apply verifySignature_Ok; [done|].
  exists keys, hook_id, ts, (join_with 32 entries). rewrite Hn, Ht. cbn [default].
  split_and!; try done.
  - intros ->. cbn in Hl. lia.
  - by apply tolerance_check; [| | |lia|].
  - exists key. split; [done|]. rewrite split_join; [done| |done]. intros ->. set_solver.
  - f_equal. symmetry. by apply num_of_digits_value; [|lia].
Qed.

(** ** The order of the checks *)

Definition decodes (s : secret_list) : bool :=
  bool_decide (secret_items s ≠ []) && forallb (λ x, is_ok (decodeSecret x)) (secret_items s).

Definition present (o : VerifySignatureOptions) (name : string) : bool :=
  bool_decide (default [] (header (lowered (headers o)) name) ≠ []).

(** The value of a header the rules below already required. *)
Definition value_of (o : VerifySignatureOptions) (name : string) : jstr :=
  default [] (header (lowered (headers o)) name).

Definition in_window (clock : num) (o : VerifySignatureOptions) : bool :=
  negb (num_gt (num_abs (num_sub (default clock (now o)) (num_of_digits (value_of o "webhook-timestamp"))))
          (default (num_of_Z 300) (toleranceSeconds o))).

Definition some_entry_matches (o : VerifySignatureOptions) : bool :=
  let signed := signed_content (value_of o "webhook-id") (value_of o "webhook-timestamp") (body o) in
  existsb (λ key, existsb (λ c, same_buffer c (expected_signature key signed))
                    (signature_candidates (value_of o "webhook-signature")))
    (match decodeSecrets (secrets o) with Ok keys => keys | Err _ => [] end).

(** The table of the receiver contract: the code and the header at fault. *)
Definition signature_rules (clock : num) (o : VerifySignatureOptions) :
    list (rule (InvalidSignatureCode * option jstr)) :=
  [ (decodes (secrets o), (invalid_secret, None));
    (present o "webhook-id", (missing_header, Some (js "webhook-id")));
    (present o "webhook-timestamp", (missing_header, Some (js "webhook-timestamp")));
    (present o "webhook-signature", (missing_header, Some (js "webhook-signature")));
    (forallb cls_digit (value_of o "webhook-timestamp"), (invalid_timestamp, Some (js "webhook-timestamp")));
    (in_window clock o, (timestamp_out_of_tolerance, Some (js "webhook-timestamp")));
    (some_entry_matches o, (no_matching_signature, Some (js "webhook-signature"))) ].

Definition signature_view (e : InvalidSignatureError) : InvalidSignatureCode * option jstr :=
  (code e, field e).

Lemma decodeSecret_Err s e : decodeSecret s = Err e → signature_view e = (invalid_secret, None).
Proof. unfold decodeSecret. repeat case_match; naive_solver. Qed.

Lemma decodeList_spec l :
  match decodeList l with
  | Ok ks => forallb (λ x, is_ok (decodeSecret x)) l = true ∧ length ks = length l
  | Err e => forallb (λ x, is_ok (decodeSecret x)) l = false ∧ signature_view e = (invalid_secret, None)
  end.
Proof.
  induction l as [|s l IH]; [done|]. cbn.
  destruct (decodeSecret s) as [k|e] eqn:Es; cbn; [|by eauto using decodeSecret_Err].
  destruct (decodeList l); cbn; naive_solver.
Qed.

Lemma decodeSecrets_spec s :
  match decodeSecrets s with
  | Ok ks => decodes s = true
  | Err e => decodes s = false ∧ signature_view e = (invalid_secret, None)
  end.
Proof.
  unfold decodeSecrets, decodes. destruct (secret_items s) as [|x l]; [done|].
  pose proof (decodeList_spec (x :: l)). destruct (decodeList (x :: l)); naive_solver.
Qed.

Lemma required_spec o name :
  match required (lowered (headers o)) name with
  | Ok v => present o name = true ∧ value_of o name = v ∧ v ≠ []
  | Err e => present o name = false ∧ signature_view e = (missing_header, Some (js name))
  end.
Proof.
  unfold required, present, value_of. destruct (header _ name) as [[|c s]|]; done.
Qed.

Lemma timestamp_pattern_forallb s : s ≠ [] → re_test TIMESTAMP_PATTERN s = forallb cls_digit s.
Proof.
  intros Hs. apply eq_true_iff_eq. rewrite timestamp_pattern_spec, forallb_Forall_iff. naive_solver.
Qed.

(** [C17] [verifySignature] applies its checks in the documented order: it
    succeeds when every rule of the table holds, and otherwise throws the code
    and names the header of the first rule that fails. *)
Theorem verify_signature_ordered clock o :
  judged_by signature_view (signature_rules clock o) (verifySignature clock o).
Proof.
  unfold verifySignature, signature_rules, judged_by, in_window, some_entry_matches.
  pose proof (decodeSecrets_spec (secrets o)) as Hs.
  destruct (decodeSecrets (secrets o)) as [keys|e]; cbn [mbind result_bind first_failure];
    [rewrite Hs|by destruct Hs as [-> ->]].
  pose proof (required_spec o "webhook-id") as Hi.
  destruct (required _ "webhook-id"); cbn; [destruct Hi as (-> & -> & Hi0)|by destruct Hi as [-> ->]].
  pose proof (required_spec o "webhook-timestamp") as Ht.
  destruct (required _ "webhook-timestamp") as [ts|]; cbn; [destruct Ht as (-> & -> & Ht0)|by destruct Ht as [-> ->]].
  pose proof (required_spec o "webhook-signature") as Hg.
  destruct (required _ "webhook-signature"); cbn; [destruct Hg as (-> & -> & Hg0)|by destruct Hg as [-> ->]].
  rewrite timestamp_pattern_forallb by done.
  destruct (forallb cls_digit ts); cbn; [|done].
  destruct (num_gt _ _); cbn; [done|].
  by destruct (existsb _ keys); cbn.
Qed.

(** [C5] A delivery is accepted exactly when it is genuine: nothing else makes
    [verifySignature] return, and it returns for every genuine delivery, with
    its own id and timestamp. *)
Theorem verify_signature_iff clock o r :
  headers_wf (headers o) → verifySignature clock o = Ok r ↔ genuine clock o r.
Proof. apply verifySignature_Ok. Qed.

(** ** The receiver is closed by default *)

Definition configured (o : ReceiveDeliveryOptions) : list jstr :=
  match r_secrets o with None => [] | Some s => secret_items s end.

Definition verify_options (o : ReceiveDeliveryOptions) : VerifySignatureOptions :=
  {| headers := r_headers o; body := r_body o; secrets := Secrets (configured o);
     toleranceSeconds := r_toleranceSeconds o; now := r_now o |}.

(** [C7] A delivery is accepted in two ways only: with secrets configured, when
    its signature is genuine (whatever [allowUnsigned] says), and it is then
    marked verified; or with none configured and [allowUnsigned: true], and it
    is then marked unverified. In both cases its identity is what the headers
    say. *)
Theorem receive_delivery_closed clock o d :
  headers_wf (r_headers o) →
  receiveDelivery clock o = Ok d ↔
  parseHeaders (r_headers o) = Ok (delivery d) ∧
  ((configured o ≠ [] ∧ (∃ r, genuine clock (verify_options o) r) ∧ verified d = true) ∨
   (configured o = [] ∧ r_allowUnsigned o = Some true ∧ verified d = false)).
Proof.
  intros Hwf. setoid_rewrite <-verifySignature_Ok; [|done].
  unfold receiveDelivery, verify_options. fold (configured o).
  destruct (configured o) as [|s l].
  - case_bool_decide as Ha; cbn; [|naive_solver].
    destruct (parseHeaders _) as [h|]; [|naive_solver]. destruct d; naive_solver.
  - destruct (verifySignature _ _) as [r|e]; cbn; [|naive_solver].
    destruct (parseHeaders _) as [h|]; [|naive_solver]. destruct d; naive_solver.
Qed.

(** The signature is judged first: the id is reported missing only for a
    delivery whose signature already passed, and every other refusal carries
    an [InvalidSignatureError], which is [invalid_secret] when no secret is
    configured. *)
Theorem receive_delivery_errors clock o e :
  receiveDelivery clock o = Err e ↔
  match e with
  | ReceiveSignature s =>
      (configured o ≠ [] ∧ verifySignature clock (verify_options o) = Err s) ∨
      (configured o = [] ∧ r_allowUnsigned o ≠ Some true ∧
       s = signature_error invalid_secret None
             "no secret configured: deliveries are signed, so the receiver needs the sink's secret (or allowUnsigned: true)")
  | ReceiveMissingId m =>
      parseHeaders (r_headers o) = Err m ∧
      ((configured o ≠ [] ∧ ∃ r, verifySignature clock (verify_options o) = Ok r) ∨
       (configured o = [] ∧ r_allowUnsigned o = Some true))
  end.
Proof.
  unfold receiveDelivery, verify_options. fold (configured o).
  destruct (configured o) as [|s l].
  - case_bool_decide as Ha; cbn; [destruct (parseHeaders _)|]; destruct e; naive_solver.
  - destruct (verifySignature _ _) as [r|e']; cbn; [destruct (parseHeaders _)|]; destruct e; naive_solver.
Qed.
End meaning.

(** ** The Standard Webhooks test vector *)

Module Vector.
#[local] Existing Instance AsciiKelvin.
#[local] Existing Instance NodeCrypto.

Definition secret : jstr := js "whsec_MfKQ9r8GKYqrTwjUPD8ILPZIo2LaLaSw".
Definition other_secret : jstr := js "whsec_AAECAwQFBgcICQoLDA0ODxAREhMUFRYXGBkaGxwdHh8=".
Definition entry : jstr := js "v1,g0hM9SsE+OTPJTGt/tmIKtSyZlE3uFJELVlNIOLJ1OE=".
(** [{"test": 2432232314}] *)
Definition sample_text : jstr :=
  js "{" ++ [34] ++ js "test" ++ [34] ++ js ": 2432232314}".

Definition vector_headers : HeaderSource :=
  HRecord [(js "X-Ankusa-Id", HValue (js "01a0")); (js "X-Ankusa-Source", HValue (js "demo"));
           (js "Webhook-Id", HValue (js "msg_p5jXN8AQM9LWM0D4loKWxJek"));
           (js "webhook-timestamp", HValues [js "1614265330"]);
           (js "webhook-signature", HValue (js "v1,AAAA" ++ [32] ++ entry))].

Definition vector (now_s : Z) (text : jstr) (keys : list jstr) : VerifySignatureOptions :=
  {| headers := vector_headers; body := PText text; secrets := Secrets keys;
     toleranceSeconds := Some (num_of_Z 300); now := Some (num_of_Z now_s) |}.

Definition receiver (now_s : Z) (text : jstr) (keys : option secret_list) (unsigned : option bool) :
    ReceiveDeliveryOptions :=
  {| r_headers := vector_headers; r_body := PText text; r_secrets := keys; r_allowUnsigned := unsigned;
     r_toleranceSeconds := Some (num_of_Z 300); r_now := Some (num_of_Z now_s) |}.

Definition accepted : VerifiedSignature :=
  {| verified_id := js "msg_p5jXN8AQM9LWM0D4loKWxJek"; verified_timestamp := num_of_Z 1614265330 |}.

Lemma vector_headers_wf : headers_wf vector_headers.
Proof.
  intros s. change (header (lowered vector_headers) "webhook-signature") with (Some (js "v1,AAAA" ++ [32] ++ entry)).
  intros [= <-]. apply (bool_decide_unpack _). by vm_compute.
Qed.

Example vector_accepted :
  verifySignature (num_of_Z 0) (vector 1614265630 sample_text [other_secret; secret]) = Ok accepted.
Proof. by vm_compute. Qed.
Example vector_stale :
  signature_view <$> (match verifySignature (num_of_Z 0) (vector 1614265631 sample_text [secret]) with
                      | Err e => Some e | Ok _ => None end)
  = Some (timestamp_out_of_tolerance, Some (js "webhook-timestamp")).
Proof. by vm_compute. Qed.
Example vector_tampered :
  signature_view <$> (match verifySignature (num_of_Z 0) (vector 1614265330 (sample_text ++ [32]) [secret]) with
                      | Err e => Some e | Ok _ => None end)
  = Some (no_matching_signature, Some (js "webhook-signature")).
Proof. by vm_compute. Qed.

Lemma verify_signature_iff_witness :
  headers_wf vector_headers ∧ genuine (num_of_Z 0) (vector 1614265630 sample_text [secret]) accepted.
Proof.
  split; [apply vector_headers_wf|].
  apply (verify_signature_iff (num_of_Z 0) (vector 1614265630 sample_text [secret]) accepted);
    [apply vector_headers_wf | by vm_compute].
Defined.

Lemma verify_signature_window_witness :
  Z.abs (1614265630 - 1614265330) ≤ 300 ∧ verified_timestamp accepted = num_of_Z 1614265330.
Proof.
  apply (verify_signature_window (num_of_Z 0) (vector 1614265630 sample_text [secret]) accepted
           1614265630 300 (js "1614265330")); first [by vm_compute | by apply (bool_decide_unpack _); vm_compute].
Defined.

Lemma signed_delivery_accepted_witness :
  verifySignature (num_of_Z 0) (vector 1614265030 sample_text [other_secret; secret]) = Ok accepted.
Proof.
  apply (signed_delivery_accepted (num_of_Z 0) (vector 1614265030 sample_text [other_secret; secret])
           1614265030 300 (js "1614265330") (js "msg_p5jXN8AQM9LWM0D4loKWxJek")
           [buffer_from_base64 (drop 6 other_secret); buffer_from_base64 (drop 6 secret)]
           (buffer_from_base64 (drop 6 secret)) [js "v1,AAAA"; entry]).
  1: apply vector_headers_wf.
  all: first [by vm_compute | by apply (bool_decide_unpack _); vm_compute].
Defined.

Definition signed_receiver : ReceiveDeliveryOptions :=
  receiver 1614265330 sample_text (Some (OneSecret secret)) (Some true).

Definition signed_delivery : ReceivedDelivery :=
  {| delivery := {| id := js "01a0"; source := js "demo"; tenant := None; contentType := None;
       dedupeKey := None; replayId := None; idempotencyKey := None; receivedAt := None;
       bodySha256 := None; verification := None |}; verified := true |}.

Lemma receive_delivery_closed_witness :
  parseHeaders vector_headers = Ok (delivery signed_delivery) ∧
  ((configured signed_receiver ≠ [] ∧
    (∃ r, genuine (num_of_Z 0) (verify_options signed_receiver) r) ∧ verified signed_delivery = true) ∨
   (configured signed_receiver = [] ∧ Some true = Some true ∧ verified signed_delivery = false)).
Proof.
  apply (receive_delivery_closed (num_of_Z 0) signed_receiver signed_delivery vector_headers_wf).
  by vm_compute.
Defined.

Example receive_unsigned_allowed :
  verified <$> receiveDelivery (num_of_Z 0) (receiver 1614265330 sample_text None (Some true)) = Ok false.
Proof. by vm_compute. Qed.
Example receive_unsigned_refused :
  is_ok (receiveDelivery (num_of_Z 0) (receiver 1614265330 sample_text None None)) = false.
Proof. by vm_compute. Qed.
End Vector.
