(* ===== verification/Message.v ===== *)
(** * Queue messages ([message/index.ts])

    [decodeMessage] turns the JSON a broker carries into a [Message], checking
    the fields in a fixed order and verifying an inline body; [idempotencyKey]
    and [isTrusted] answer a consumer's two questions about it. *)
From S2P Require Import Prelude JsNumber JsString Regex Base64 Sha256 Json JsonFacts ClaimRef Headers.
From stdpp Require Import base tactics list numbers option strings.
Local Open Scope Z_scope.

(** ** Data *)

(** The wire names, [body] last (the non-enumerable property). *)
Record Message := {
  v : num;
  msg_id : jstr;
  source_id : jstr;
  tenant_id : option jstr;
  received_at : num;
  content_type : option jstr;
  size : num;
  body_base64 : option jstr;
  claim : option jstr;
  msg_sha256 : option jstr;
  dedupe_key : option jstr;
  replay_id : option jstr;
  idempotency_key : option jstr;
  msg_headers : list (jstr * jstr);
  msg_verification : option Verification;
  traceparent : option jstr;
  tracestate : option jstr;
  instance : option jstr;
  region : option jstr;
  event_type : option jstr;
  msg_body : option bytes;
}.

Inductive InvalidMessageCode :=
| invalid_json
| not_an_object
| unsupported_version
| invalid_field
| ambiguous_body
| missing_body
| invalid_body_base64
| size_mismatch
| integrity
| tenant_mismatch.

#[global] Instance InvalidMessageCode_eq_dec : EqDecision InvalidMessageCode.
Proof. solve_decision. Defined.

Definition code_text (c : InvalidMessageCode) : jstr :=
  js match c with
     | invalid_json => "invalid_json"
     | not_an_object => "not_an_object"
     | unsupported_version => "unsupported_version"
     | invalid_field => "invalid_field"
     | ambiguous_body => "ambiguous_body"
     | missing_body => "missing_body"
     | invalid_body_base64 => "invalid_body_base64"
     | size_mismatch => "size_mismatch"
     | integrity => "integrity"
     | tenant_mismatch => "tenant_mismatch"
     end.

Record InvalidMessageError := {
  im_code : InvalidMessageCode;
  im_field : option jstr;
  im_message : jstr;
}.

Definition message_retryable (e : InvalidMessageError) : bool := false.

(** [new InvalidMessageError(code, field)] *)
Definition invalid_message (c : InvalidMessageCode) (field : option string) : InvalidMessageError :=
  {| im_code := c;
     im_field := js <$> field;
     im_message := code_text c ++
       match field with
       | Some f => if bool_decide (js f = []) then [] else js ": " ++ js f
       | None => []
       end |}.

Definition MIN_SUPPORTED_VERSION : num := num_of_Z 1.
Definition MAX_SUPPORTED_VERSION : num := num_of_Z 2.

(** ** Reading fields *)

Abbreviation props := (list (jstr * json)) (only parsing).

(** [raw.key] *)
Definition get (raw : props) (key : string) : option json := obj_get (js key) raw.

(** [raw[key] ?? null], where the value is known to be a string if any. *)
Definition nullable (raw : props) (key : string) : option jstr :=
  match get raw key with Some (JStr s) => Some s | _ => None end.

(** [value === undefined || value === null] *)
Definition is_nullish (value : option json) : bool :=
  match value with None | Some JNull => true | _ => false end.

(** [JSON.parse] and the object test, shared with the lifecycle decoder. *)
Definition parse_object (data : payload) : result InvalidMessageError props :=
  match json_parse (payload_text data) with
  | None => Err (invalid_message invalid_json None)
  | Some (JObj raw) => Ok raw
  | Some _ => Err (invalid_message not_an_object None)
  end.

Definition decodeBase64 (value : jstr) : option bytes :=
  if re_test BASE64_PATTERN value then Some (buffer_from_base64 value) else None.

Definition decodeVerification (value : option json) :
    result InvalidMessageError (option Verification) :=
  match value with
  | None | Some JNull => Ok None
  | Some (JObj o) =>
      match get o "status", get o "flagged" with
      | Some (JStr s), Some (JBool f) =>
          if bool_decide (s = []) then Err (invalid_message invalid_field (Some "verification"))
          else Ok (Some {| status := s; flagged := f |})
      | _, _ => Err (invalid_message invalid_field (Some "verification"))
      end
  | Some _ => Err (invalid_message invalid_field (Some "verification"))
  end.

Definition nullable_keys : list string :=
  ["tenant_id"; "content_type"; "dedupe_key"; "replay_id"; "idempotency_key"; "traceparent";
   "tracestate"; "instance"; "region"; "event_type"].

(** [value === undefined || value === null || typeof value === "string"] *)
Definition null_or_string (value : option json) : bool :=
  match value with None | Some JNull | Some (JStr _) => true | _ => false end.

(** The loop over the nullable keys. *)
Fixpoint check_nullable (raw : props) (keys : list string) : result InvalidMessageError unit :=
  match keys with
  | [] => Ok tt
  | key :: keys =>
      _ ← require (null_or_string (get raw key)) (invalid_message invalid_field (Some key));
      check_nullable raw keys
  end.

(** The loop over [Object.values], and the spread that copies the object. *)
Fixpoint header_strings (o : props) : result InvalidMessageError (list (jstr * jstr)) :=
  match o with
  | [] => Ok []
  | (k, JStr s) :: o => h ← header_strings o; Ok ((k, s) :: h)
  | _ => Err (invalid_message invalid_field (Some "headers"))
  end.

Definition decode_headers (raw : props) : result InvalidMessageError (list (jstr * jstr)) :=
  match get raw "headers" with
  | None => Ok []
  | Some (JObj o) => header_strings (enumerate o)
  | Some _ => Err (invalid_message invalid_field (Some "headers"))
  end.

Definition decode_sha256 (raw : props) : result InvalidMessageError (option jstr) :=
  match get raw "sha256" with
  | None => Ok None
  | Some (JStr s) =>
      if re_test SHA256_PATTERN s then Ok (Some s) else Err (invalid_message invalid_field (Some "sha256"))
  | Some _ => Err (invalid_message invalid_field (Some "sha256"))
  end.

Section decode.
Context `{Crypto}.

(** What the body checks leave: the bytes of an inline body, or the claim and
    its parsed reference. *)
Inductive body_form :=
| Inline (body : bytes)
| Claimed (claim : jstr) (ref : ParsedClaimRef).

Definition decode_inline (value : json) (size : num) (sha256 : option jstr) :
    result InvalidMessageError body_form :=
  match value with
  | JStr s =>
      body ← or_throw (decodeBase64 s) (invalid_message invalid_body_base64 None);
      _ ← require (num_eq (num_of_Z (Z.of_nat (length body))) size) (invalid_message size_mismatch None);
      _ ← match sha256 with
          | Some h => require (bool_decide (sha256_hex body = h)) (invalid_message integrity None)
          | None => Ok tt
          end;
      Ok (Inline body)
  | _ => Err (invalid_message invalid_body_base64 None)
  end.

Definition decode_claim (value : json) (sha256 : option jstr) : result InvalidMessageError body_form :=
  match value with
  | JStr s =>
      match parseClaimRef s with
      | Err _ => Err (invalid_message invalid_field (Some "claim"))
      | Ok ref =>
          _ ← or_throw sha256 (invalid_message invalid_field (Some "sha256"));
          Ok (Claimed s ref)
      end
  | _ => Err (invalid_message invalid_field (Some "claim"))
  end.

(** Body form: exactly one of [body_base64] and [claim]. *)
Definition decode_body (raw : props) (size : num) (sha256 : option jstr) :
    result InvalidMessageError body_form :=
  match get raw "body_base64", get raw "claim" with
  | (None | Some JNull), (None | Some JNull) => Err (invalid_message missing_body None)
  | Some b, (None | Some JNull) => decode_inline b size sha256
  | (None | Some JNull), Some c => decode_claim c sha256
  | Some _, Some _ => Err (invalid_message ambiguous_body None)
  end.

Definition decode_version (raw : props) : result InvalidMessageError num :=
  match get raw "v" with
  | Some (JNum x) =>
      if negb (num_isInteger x) || num_lt x MIN_SUPPORTED_VERSION || num_gt x MAX_SUPPORTED_VERSION
      then Err (invalid_message unsupported_version None) else Ok x
  | _ => Err (invalid_message unsupported_version None)
  end.

Definition decode_id (raw : props) : result InvalidMessageError jstr :=
  match get raw "id" with
  | Some (JStr s) => if bool_decide (s = []) then Err (invalid_message invalid_field (Some "id")) else Ok s
  | _ => Err (invalid_message invalid_field (Some "id"))
  end.

Definition decode_source_id (raw : props) : result InvalidMessageError jstr :=
  match get raw "source_id" with
  | Some (JStr s) => Ok s
  | _ => Err (invalid_message invalid_field (Some "source_id"))
  end.

Definition decode_received_at (raw : props) : result InvalidMessageError num :=
  match get raw "received_at" with
  | Some (JNum x) => if num_isInteger x then Ok x else Err (invalid_message invalid_field (Some "received_at"))
  | _ => Err (invalid_message invalid_field (Some "received_at"))
  end.

Definition decode_size (raw : props) : result InvalidMessageError num :=
  match get raw "size" with
  | Some (JNum x) =>
      if negb (num_isInteger x) || num_lt x (num_of_Z 0) then Err (invalid_message invalid_field (Some "size"))
      else Ok x
  | _ => Err (invalid_message invalid_field (Some "size"))
  end.

(** [tenantId !== null && claimRef !== null && claimRef.tenantId !== tenantId] *)
Definition tenant_clash (tenant : option jstr) (form : body_form) : bool :=
  match tenant, form with
  | Some t, Claimed _ ref => negb (bool_decide (tenantId ref = t))
  | _, _ => false
  end.

Definition decodeMessage (data : payload) : result InvalidMessageError Message :=
  raw ← parse_object data;
  version ← decode_version raw;
  i ← decode_id raw;
  sourceId ← decode_source_id raw;
  receivedAt ← decode_received_at raw;
  sz ← decode_size raw;
  _ ← check_nullable raw nullable_keys;
  headers ← decode_headers raw;
  sha256 ← decode_sha256 raw;
  verification ← decodeVerification (get raw "verification");
  form ← decode_body raw sz sha256;
  let tenantId := nullable raw "tenant_id" in
  _ ← require (negb (tenant_clash tenantId form)) (invalid_message tenant_mismatch None);
  Ok {| v := version;
        msg_id := i;
        source_id := sourceId;
        tenant_id := tenantId;
        received_at := receivedAt;
        content_type := nullable raw "content_type";
        size := sz;
        body_base64 := match form with Inline b => Some (base64_encode b) | Claimed _ _ => None end;
        claim := match form with Inline _ => None | Claimed c _ => Some c end;
        msg_sha256 := sha256;
        dedupe_key := nullable raw "dedupe_key";
        replay_id := nullable raw "replay_id";
        idempotency_key := nullable raw "idempotency_key";
        msg_headers := headers;
        msg_verification := verification;
        traceparent := nullable raw "traceparent";
        tracestate := nullable raw "tracestate";
        instance := nullable raw "instance";
        region := nullable raw "region";
        event_type := nullable raw "event_type";
        msg_body := match form with Inline b => Some b | Claimed _ _ => None end |}.
End decode.

(** ** A hook's key and trust *)

(** [Message | HookHeaders] *)
Inductive hook :=
| HookMessage (m : Message)
| HookHeader (h : HookHeaders).

Definition shipped_key (k : hook) : option jstr :=
  match k with HookMessage m => idempotency_key m | HookHeader h => Headers.idempotencyKey h end.
Definition hook_tenant (k : hook) : option jstr :=
  match k with HookMessage m => tenant_id m | HookHeader h => tenant h end.
Definition hook_source (k : hook) : jstr :=
  match k with HookMessage m => source_id m | HookHeader h => source h end.
Definition hook_dedupe (k : hook) : option jstr :=
  match k with HookMessage m => dedupe_key m | HookHeader h => dedupeKey h end.
Definition hook_replay (k : hook) : option jstr :=
  match k with HookMessage m => replay_id m | HookHeader h => replayId h end.
Definition hook_id (k : hook) : jstr :=
  match k with HookMessage m => msg_id m | HookHeader h => id h end.
Definition hook_verification (k : hook) : option Verification :=
  match k with HookMessage m => msg_verification m | HookHeader h => verification h end.

Definition idempotencyKey (k : hook) (includeReplay : bool) : jstr :=
  let key :=
    match shipped_key k with
    | Some (c :: s) => c :: s
    | _ =>
        match hook_dedupe k with
        | Some (c :: s) => default (js "default") (hook_tenant k) ++ js ":" ++ hook_source k ++ js ":" ++ c :: s
        | _ => hook_id k
        end
    end in
  if includeReplay then
    match hook_replay k with Some r => key ++ js "#replay:" ++ r | None => key end
  else key.

Definition isTrusted (k : hook) : bool :=
  match hook_verification k with
  | Some x => bool_decide (status x = js "ok") && negb (flagged x)
  | None => false
  end.

(** ** The rule table

    The decode rules of the conformance contract, each a test on the parsed
    object alone; the verdict is the code and field of the first that fails. *)

Definition verdict : Type := InvalidMessageCode * option jstr.
Definition view (e : InvalidMessageError) : verdict := (im_code e, im_field e).
Definition bad_field (key : string) : verdict := (invalid_field, Some (js key)).

Definition integer_such (p : num → bool) (value : option json) : bool :=
  match value with Some (JNum x) => num_isInteger x && p x | _ => false end.
Definition string_such (p : jstr → bool) (value : option json) : bool :=
  match value with Some (JStr s) => p s | _ => false end.
Definition absent_or (p : option json → bool) (value : option json) : bool :=
  match value with None => true | _ => p value end.
Definition nonempty (s : jstr) : bool := bool_decide (s ≠ []).

Definition all_strings (value : option json) : bool :=
  match value with
  | Some (JObj o) => forallb (λ kv, string_such (λ _, true) (Some kv.2)) o
  | _ => false
  end.

Definition verification_shape (value : option json) : bool :=
  match value with
  | Some (JObj o) =>
      string_such nonempty (get o "status") && (match get o "flagged" with Some (JBool _) => true | _ => false end)
  | _ => false
  end.

Definition has (raw : props) (key : string) : bool := negb (is_nullish (get raw key)).

Definition implb_if (b : bool) (c : bool) : bool := if b then c else true.

Definition in_versions (x : num) : bool := negb (num_lt x MIN_SUPPORTED_VERSION) && negb (num_gt x MAX_SUPPORTED_VERSION).

Section rules.
Context `{Crypto}.

(** The decoded inline body, [[]] if there is none. *)
Definition inline_bytes (raw : props) : bytes :=
  match get raw "body_base64" with Some (JStr s) => buffer_from_base64 s | _ => [] end.

Definition size_of (raw : props) : num :=
  match get raw "size" with Some (JNum x) => x | _ => num_of_Z 0 end.

Definition claim_tenant (raw : props) : option jstr :=
  match get raw "claim" with
  | Some (JStr s) => match parseClaimRef s with Ok r => Some (tenantId r) | Err _ => None end
  | _ => None
  end.

Definition body_rules (raw : props) : list (rule verdict) :=
  let inline := has raw "body_base64" in
  let claimed := has raw "claim" in
  [ (negb (inline && claimed), (ambiguous_body, None));
    (inline || claimed, (missing_body, None));
    (implb_if inline (string_such (re_test BASE64_PATTERN) (get raw "body_base64")), (invalid_body_base64, None));
    (implb_if claimed (string_such (λ s, is_ok (parseClaimRef s)) (get raw "claim")), bad_field "claim");
    (implb_if claimed (bool_decide (is_Some (nullable raw "sha256"))), bad_field "sha256");
    (implb_if inline (num_eq (num_of_Z (Z.of_nat (length (inline_bytes raw)))) (size_of raw)), (size_mismatch, None));
    (implb_if inline (match nullable raw "sha256" with
                      | Some h => bool_decide (sha256_hex (inline_bytes raw) = h)
                      | None => true
                      end), (integrity, None)) ].

Definition tenant_rule (raw : props) : rule verdict :=
  (implb_if (has raw "claim")
     (match nullable raw "tenant_id" with
      | Some t => bool_decide (claim_tenant raw = Some t)
      | None => true
      end), (tenant_mismatch, None)).

Definition object_rules (raw : props) : list (rule verdict) :=
  [ (integer_such in_versions (get raw "v"), (unsupported_version, None)) ] ++
  [ (string_such nonempty (get raw "id"), bad_field "id") ] ++
  [ (string_such (λ _, true) (get raw "source_id"), bad_field "source_id") ] ++
  [ (integer_such (λ _, true) (get raw "received_at"), bad_field "received_at") ] ++
  [ (integer_such (λ x, negb (num_lt x (num_of_Z 0))) (get raw "size"), bad_field "size") ] ++
  map (λ key, (null_or_string (get raw key), bad_field key)) nullable_keys ++
  [ (absent_or all_strings (get raw "headers"), bad_field "headers") ] ++
  [ (absent_or (string_such (re_test SHA256_PATTERN)) (get raw "sha256"), bad_field "sha256") ] ++
  [ (implb_if (has raw "verification") (verification_shape (get raw "verification")), bad_field "verification") ] ++
  body_rules raw ++
  [ tenant_rule raw ] ++ [].

Definition parse_rules (data : payload) : list (rule verdict) :=
  [ (bool_decide (is_Some (json_parse (payload_text data))), (invalid_json, None));
    (match json_parse (payload_text data) with Some (JObj _) => true | _ => false end, (not_an_object, None)) ].

Definition object_of (data : payload) : props :=
  match json_parse (payload_text data) with Some (JObj raw) => raw | _ => [] end.

Definition message_rules (data : payload) : list (rule verdict) :=
  parse_rules data ++ object_rules (object_of data).

(** *** Each check judges by its own rules *)

Lemma parse_object_judged data : judged_by view (parse_rules data) (parse_object data).
Proof. unfold parse_object, parse_rules, judged_by. by destruct (json_parse _) as [[]|]. Qed.

Lemma parse_object_Ok data raw :
  parse_object data = Ok raw ↔ json_parse (payload_text data) = Some (JObj raw).
Proof. unfold parse_object. destruct (json_parse _) as [[]|]; naive_solver. Qed.

Lemma check_nullable_judged raw keys :
  judged_by view (map (λ key, (null_or_string (get raw key), bad_field key)) keys) (check_nullable raw keys).
Proof.
  induction keys as [|key keys IH]; [done|]. cbn [map check_nullable].
  apply (judged_bind view [(null_or_string (get raw key), bad_field key)]); [|done].
  apply (judged_require view _ (invalid_message invalid_field (Some key))).
Qed.

Lemma header_strings_spec o :
  match header_strings o with
  | Ok h => o = map (λ kv, (kv.1, JStr kv.2)) h
  | Err e => forallb (λ kv, string_such (λ _, true) (Some kv.2)) o = false ∧ view e = bad_field "headers"
  end.
Proof.
  induction o as [|[k x] o IH]; [done|]. destruct x; try done. cbn.
  destruct (header_strings o); cbn; [by rewrite IH|done].
Qed.

Lemma forallb_perm {A} (p : A → bool) l k : l ≡ₚ k → forallb p l = forallb p k.
Proof. intros Hp. apply eq_true_iff_eq. by rewrite !forallb_Forall_iff, Hp. Qed.

Lemma all_strings_map (h : list (jstr * jstr)) :
  forallb (λ kv, string_such (λ _, true) (Some kv.2)) (map (λ kv, (kv.1, JStr kv.2)) h) = true.
Proof. by induction h. Qed.

Lemma decode_headers_judged raw :
  judged_by view [(absent_or all_strings (get raw "headers"), bad_field "headers")] (decode_headers raw).
Proof.
  apply judged_one. unfold decode_headers. destruct (get raw "headers") as [[| | | | |o]|]; try done.
  cbn. pose proof (header_strings_spec (enumerate o)) as Hs.
  rewrite (forallb_perm _ (enumerate o) o) in Hs by apply enumerate_perm.
  rewrite <-(forallb_perm _ (enumerate o) o) by apply enumerate_perm.
  destruct (header_strings _); [|by rewrite (forallb_perm _ (enumerate o) o) by apply enumerate_perm].
  rewrite Hs. apply all_strings_map.
Qed.

Lemma decode_sha256_Ok raw s : decode_sha256 raw = Ok s → s = nullable raw "sha256".
Proof. unfold decode_sha256, nullable. repeat case_match; naive_solver. Qed.

Lemma decode_size_Ok raw x : decode_size raw = Ok x → x = size_of raw.
Proof. unfold decode_size, size_of. repeat case_match; naive_solver. Qed.

Lemma decode_inline_judged raw x :
  get raw "body_base64" = Some x → x ≠ JNull → is_nullish (get raw "claim") = true →
  judged_by view (body_rules raw) (decode_inline x (size_of raw) (nullable raw "sha256")).
Proof.
  intros Hb Hx Hc. unfold body_rules, has, inline_bytes, judged_by. rewrite Hb, Hc.
  destruct x as [| | |s| |]; try done. cbn. unfold decodeBase64.
  destruct (re_test BASE64_PATTERN s); cbn; [|done].
  destruct (num_eq _ _); cbn; [|done].
  destruct (nullable raw "sha256") as [h|]; cbn; [|done]. by case_bool_decide.
Qed.

Lemma decode_claim_judged raw x :
  get raw "claim" = Some x → x ≠ JNull → is_nullish (get raw "body_base64") = true →
  judged_by view (body_rules raw) (decode_claim x (nullable raw "sha256")).
Proof.
  intros Hb Hx Hc. unfold body_rules, has, judged_by. rewrite Hb, Hc.
  destruct x as [| | |s| |]; try done. cbn.
  destruct (parseClaimRef s); cbn; [|done].
  destruct (nullable raw "sha256") as [h|]; cbn; done.
Qed.

Ltac body_case :=
  match goal with Hb : get _ "body_base64" = _, Hc : get _ "claim" = _ |- _ =>
    first [ apply decode_inline_judged; rewrite ?Hb, ?Hc; done
          | apply decode_claim_judged; rewrite ?Hb, ?Hc; done
          | unfold judged_by, body_rules, has; by rewrite Hb, Hc ]
  end.

Lemma decode_body_judged raw :
  judged_by view (body_rules raw) (decode_body raw (size_of raw) (nullable raw "sha256")).
Proof.
  unfold decode_body.
  destruct (get raw "body_base64") as [x|] eqn:Hb, (get raw "claim") as [y|] eqn:Hc.
  - destruct x, y; body_case.
  - destruct x; body_case.
  - destruct y; body_case.
  - body_case.
Qed.

Lemma decode_inline_Ok x sz sha form :
  decode_inline x sz sha = Ok form →
  ∃ s, x = JStr s ∧ re_test BASE64_PATTERN s = true ∧ form = Inline (buffer_from_base64 s) ∧
    num_eq (num_of_Z (Z.of_nat (length (buffer_from_base64 s)))) sz = true ∧
    (∀ h, sha = Some h → h = sha256_hex (buffer_from_base64 s)).
Proof.
  unfold decode_inline, decodeBase64. destruct x as [| | |s| |]; try done. intros Hd.
  destruct (re_test BASE64_PATTERN s) eqn:Hs; [|done]. cbn [or_throw mbind result_bind] in Hd. ok_inv.
  exists s. split_and!; try done. intros h ->. ok_inv. by bool_inv.
Qed.

Lemma decode_claim_Ok x sha form :
  decode_claim x sha = Ok form →
  ∃ s ref, x = JStr s ∧ parseClaimRef s = Ok ref ∧ form = Claimed s ref ∧ is_Some sha.
Proof.
  unfold decode_claim. destruct x as [| | |s| |]; try done. destruct (parseClaimRef s) as [ref|] eqn:Er; [|done].
  intros Hd. ok_inv. eauto 10.
Qed.

Lemma decode_body_Ok raw form :
  decode_body raw (size_of raw) (nullable raw "sha256") = Ok form →
  match form with
  | Inline b =>
      has raw "claim" = false ∧ nullable raw "claim" = None ∧
      (∃ s, get raw "body_base64" = Some (JStr s) ∧ re_test BASE64_PATTERN s = true ∧ b = buffer_from_base64 s) ∧
      num_eq (num_of_Z (Z.of_nat (length b))) (size_of raw) = true ∧
      (∀ h, nullable raw "sha256" = Some h → h = sha256_hex b)
  | Claimed c ref =>
      has raw "claim" = true ∧ get raw "claim" = Some (JStr c) ∧ parseClaimRef c = Ok ref ∧
      claim_tenant raw = Some (tenantId ref) ∧ is_Some (nullable raw "sha256")
  end.
Proof.
  unfold decode_body, has, claim_tenant. generalize (nullable raw "sha256") as sha. unfold nullable.
  intros sha. destruct (get raw "body_base64") as [x|], (get raw "claim") as [y|];
    intros Hd; repeat (case_match; try discriminate Hd); simplify_eq; cbn;
    first [ apply decode_inline_Ok in Hd as (? & ? & ? & ? & ? & ?); simplify_eq; split_and!; eauto
          | apply decode_claim_Ok in Hd as (? & ? & ? & ? & ? & ?); simplify_eq; split_and!; eauto; congruence ].
Qed.

Lemma tenant_judged raw form :
  decode_body raw (size_of raw) (nullable raw "sha256") = Ok form →
  judged_by view [tenant_rule raw]
    (require (negb (tenant_clash (nullable raw "tenant_id") form)) (invalid_message tenant_mismatch None)).
Proof.
  intros Hf%decode_body_Ok. unfold tenant_rule, judged_by. destruct form as [b|c ref].
  - destruct Hf as (-> & _). cbn. by destruct (nullable raw "tenant_id").
  - destruct Hf as (-> & _ & _ & -> & _). cbn. destruct (nullable raw "tenant_id") as [t|]; cbn; [|done].
    by repeat case_bool_decide; simplify_eq.
Qed.

Lemma decode_version_judged raw :
  judged_by view [(integer_such in_versions (get raw "v"), (unsupported_version, None))] (decode_version raw).
Proof.
  apply judged_one. unfold decode_version, in_versions. destruct (get raw "v") as [[]|]; try done. cbn.
  by destruct (num_isInteger _), (num_lt _ _), (num_gt _ _).
Qed.

Lemma decode_id_judged raw :
  judged_by view [(string_such nonempty (get raw "id"), bad_field "id")] (decode_id raw).
Proof.
  apply judged_one. unfold decode_id, nonempty. destruct (get raw "id") as [[]|]; try done. cbn.
  repeat case_bool_decide; done.
Qed.

Lemma decode_source_id_judged raw :
  judged_by view [(string_such (λ _, true) (get raw "source_id"), bad_field "source_id")] (decode_source_id raw).
Proof. apply judged_one. unfold decode_source_id. by destruct (get raw "source_id") as [[]|]. Qed.

Lemma decode_received_at_judged raw :
  judged_by view [(integer_such (λ _, true) (get raw "received_at"), bad_field "received_at")]
    (decode_received_at raw).
Proof.
  apply judged_one. unfold decode_received_at. destruct (get raw "received_at") as [[]|]; try done. cbn.
  by destruct (num_isInteger _).
Qed.

Lemma decode_size_judged raw :
  judged_by view [(integer_such (λ x, negb (num_lt x (num_of_Z 0))) (get raw "size"), bad_field "size")]
    (decode_size raw).
Proof.
  apply judged_one. unfold decode_size. destruct (get raw "size") as [[]|]; try done. cbn.
  by destruct (num_isInteger _), (num_lt _ _).
Qed.

Lemma decode_sha256_judged raw :
  judged_by view [(absent_or (string_such (re_test SHA256_PATTERN)) (get raw "sha256"), bad_field "sha256")]
    (decode_sha256 raw).
Proof.
  apply judged_one. unfold decode_sha256. destruct (get raw "sha256") as [[]|]; try done. cbn.
  by destruct (re_test _ _).
Qed.

Lemma decodeVerification_judged raw :
  judged_by view
    [(implb_if (has raw "verification") (verification_shape (get raw "verification")), bad_field "verification")]
    (decodeVerification (get raw "verification")).
Proof.
  apply judged_one. unfold decodeVerification, has, nonempty.
  destruct (get raw "verification") as [[| | | | |o]|]; try done. cbn.
  destruct (get o "status") as [[| | |s| |]|], (get o "flagged") as [[]|]; try done; cbn;
    unfold nonempty; repeat case_bool_decide; cbn; done.
Qed.
End rules.

#[export] Hint Resolve decode_version_judged decode_id_judged decode_source_id_judged
  decode_received_at_judged decode_size_judged check_nullable_judged decode_headers_judged
  decode_sha256_judged decodeVerification_judged decode_body_judged tenant_judged
  parse_object_judged : ankusa.

Section properties.
Context `{Crypto}.

(** [C1] [decodeMessage] applies the contract's rules in order: it returns a
    message exactly when every rule holds, and otherwise throws the code and
    the field of the first rule that fails. *)
Theorem decode_message_ordered data :
  judged_by view (message_rules data) (decodeMessage data).
Proof.
  unfold decodeMessage, message_rules. apply judged_bind; [apply parse_object_judged|].
  intros raw Hraw. unfold object_of. apply parse_object_Ok in Hraw as ->. unfold object_rules.
  repeat (apply judged_bind; [auto with ankusa; fail|]; intros ? ?).
  repeat match goal with
  | H : decode_size raw = Ok _ |- _ => apply decode_size_Ok in H; subst
  | H : decode_sha256 raw = Ok _ |- _ => apply decode_sha256_Ok in H; subst
  end.
  apply judged_bind; [apply decode_body_judged|]. intros form Hform.
  apply judged_bind; [by apply tenant_judged|]. done.
Qed.
End properties.
