(* ===== verification/MessageFacts.v ===== *)
(** * What a decoded message is ([message/index.ts], continued)

    The invariant of every [Message] that [decodeMessage] returns, its round
    trip through [JSON.stringify], and the properties of the idempotency key
    and of the trust decision. *)
From stdpp Require Import base tactics list numbers option strings.
From S2P Require Import Prelude JsNumber JsString Regex Base64 Sha256 Json JsonFacts ClaimRef Headers Message.
Local Open Scope Z_scope.

(** ** The invariant *)

Section invariant.
Context `{Crypto}.

(** An inline body is the bytes the size and the digest describe; a claim is a
    well-formed reference of the message's own tenant with a digest to check
    the redeemed bytes against. Exactly one of the two is there. *)
Definition body_wf (m : Message) : Prop :=
  match msg_body m with
  | Some b =>
      Forall byte_ok b ∧ body_base64 m = Some (base64_encode b) ∧ claim m = None ∧
      num_eq (num_of_Z (Z.of_nat (length b))) (size m) = true ∧
      (∀ h, msg_sha256 m = Some h → h = sha256_hex b)
  | None =>
      body_base64 m = None ∧
      ∃ r h, valid_ref r ∧ claim m = Some (format_ref r) ∧ msg_sha256 m = Some h ∧
        re_test SHA256_PATTERN h = true ∧ (∀ t, tenant_id m = Some t → t = ref_tenant r)
  end.

Definition message_wf (m : Message) : Prop :=
  num_isInteger (v m) = true ∧ in_versions (v m) = true ∧
  msg_id m ≠ [] ∧
  num_isInteger (received_at m) = true ∧
  num_isInteger (size m) = true ∧ num_lt (size m) (num_of_Z 0) = false ∧
  (∀ x, msg_verification m = Some x → status x ≠ []) ∧
  body_wf m.

Lemma decode_version_Ok raw x :
  decode_version raw = Ok x → get raw "v" = Some (JNum x) ∧ num_isInteger x = true ∧ in_versions x = true.
Proof.
  unfold decode_version, in_versions. repeat case_match; intros; simplify_eq.
  split; [done|]. repeat match goal with H : (_ || _)%bool = false |- _ => apply orb_false_iff in H as [? ?] end.
  bool_inv. split; [done|]. by apply andb_true_iff; split; apply negb_true_iff.
Qed.

Lemma decode_id_Ok raw s : decode_id raw = Ok s → get raw "id" = Some (JStr s) ∧ s ≠ [].
Proof. unfold decode_id. repeat case_match; intros; simplify_eq. by bool_inv. Qed.

Lemma decode_source_id_Ok raw s : decode_source_id raw = Ok s → get raw "source_id" = Some (JStr s).
Proof. unfold decode_source_id. repeat case_match; intros; by simplify_eq. Qed.

Lemma decode_received_at_Ok raw x :
  decode_received_at raw = Ok x → get raw "received_at" = Some (JNum x) ∧ num_isInteger x = true.
Proof. unfold decode_received_at. repeat case_match; intros; by simplify_eq. Qed.

Lemma decode_size_bounds raw x :
  decode_size raw = Ok x →
  get raw "size" = Some (JNum x) ∧ num_isInteger x = true ∧ num_lt x (num_of_Z 0) = false.
Proof. unfold decode_size. repeat case_match; intros; simplify_eq. by bool_inv. Qed.

Lemma decode_sha256_pattern raw h : decode_sha256 raw = Ok (Some h) → re_test SHA256_PATTERN h = true.
Proof. unfold decode_sha256. repeat case_match; intros; by simplify_eq. Qed.

Lemma decodeVerification_Ok x s :
  decodeVerification x = Ok (Some s) →
  status s ≠ [] ∧ ∃ o, x = Some (JObj o) ∧ get o "status" = Some (JStr (status s)) ∧
                       get o "flagged" = Some (JBool (flagged s)).
Proof.
  unfold decodeVerification. repeat case_match; intros; simplify_eq; bool_inv; cbn; naive_solver.
Qed.

Lemma decode_body_wf raw form h :
  decode_body raw (size_of raw) (nullable raw "sha256") = Ok form →
  decode_sha256 raw = Ok h →
  tenant_clash (nullable raw "tenant_id") form = false →
  match form with
  | Inline b => Forall byte_ok b ∧ num_eq (num_of_Z (Z.of_nat (length b))) (size_of raw) = true ∧
                (∀ x, h = Some x → x = sha256_hex b)
  | Claimed c _ => ∃ r x, valid_ref r ∧ c = format_ref r ∧ h = Some x ∧ re_test SHA256_PATTERN x = true ∧
                (∀ t, nullable raw "tenant_id" = Some t → t = ref_tenant r)
  end.
Proof.
  intros Hf%decode_body_Ok Hh Ht. pose proof (decode_sha256_Ok raw h Hh) as E. rewrite <-E in Hf.
  destruct form as [b|c ref].
  - destruct Hf as (_ & _ & (s & _ & _ & ->) & Hs & Hd).
    split_and!; [apply buffer_from_base64_bytes|done|done].
  - destruct Hf as (_ & _ & Hr & _ & [x ->]). apply decode_sha256_pattern in Hh.
    apply parseClaimRef_Ok in Hr as (r & Hv & -> & ->). exists r, x. split_and!; try done.
    intros t Et. rewrite Et in Ht. cbn in Ht. by bool_inv.
Qed.

Lemma decodeMessage_wf data m : decodeMessage data = Ok m → message_wf m.
Proof.
  unfold decodeMessage. intros Hm. ok_inv.
  repeat match goal with
  | H : decode_version _ = Ok _ |- _ => apply decode_version_Ok in H as (_ & ? & ?)
  | H : decode_id _ = Ok _ |- _ => apply decode_id_Ok in H as [_ ?]
  | H : decode_received_at _ = Ok _ |- _ => apply decode_received_at_Ok in H as [_ ?]
  | H : decode_size _ = Ok _ |- _ =>
      let E := fresh in pose proof (decode_size_Ok _ _ H) as E; apply decode_size_bounds in H as (_ & ? & ?); subst
  | H : negb (tenant_clash _ _) = true |- _ => apply negb_true_iff in H
  | H : decode_body _ _ ?h = Ok _, H' : decode_sha256 _ = Ok ?h |- _ =>
      rewrite (decode_sha256_Ok _ _ H') in H; eapply decode_body_wf in H; [|done|done]
  end.
  unfold message_wf, body_wf. cbn. split_and!; try done.
  - intros y ->. by eapply decodeVerification_Ok.
  - case_match; naive_solver.
Qed.

(** [C2] Every message [decodeMessage] returns satisfies the invariant: a
    supported version, a non-empty id, integer times and a non-negative size,
    and exactly one body form. An inline body has the announced size and, when
    a digest was sent, that digest; a claim is a well-formed reference of the
    message's own tenant and always comes with a digest. *)
Theorem decode_message_wf data m : decodeMessage data = Ok m → message_wf m.
Proof. apply decodeMessage_wf. Qed.

(** Decoding the UTF-8 bytes of a text gives what decoding the text gives,
    errors included (a text that starts with a byte order mark aside, which
    decoding bytes removes). *)
Theorem decode_message_bytes s :
  Forall unit_ok s → well_formed s = true → head s ≠ Some 65279 →
  decodeMessage (PBytes (utf8_encode s)) = decodeMessage (PText s).
Proof.
  intros Hu Hw Hb. unfold decodeMessage, parse_object. cbn [payload_text].
  by rewrite text_decode_encode.
Qed.
End invariant.

(** ** Printing *)

Definition json_opt (o : option jstr) : json := match o with Some s => JStr s | None => JNull end.

(** What [JSON.stringify] lists of a message: the enumerable properties in the
    order [decodeMessage] creates them. *)
Definition message_props (m : Message) : props :=
  [ (js "v", JNum (v m)); (js "id", JStr (msg_id m)); (js "source_id", JStr (source_id m));
    (js "tenant_id", json_opt (tenant_id m)); (js "received_at", JNum (received_at m));
    (js "content_type", json_opt (content_type m)); (js "size", JNum (size m));
    (js "body_base64", json_opt (body_base64 m)); (js "claim", json_opt (claim m));
    (js "sha256", json_opt (msg_sha256 m)); (js "dedupe_key", json_opt (dedupe_key m));
    (js "replay_id", json_opt (replay_id m)); (js "idempotency_key", json_opt (idempotency_key m));
    (js "headers", JObj (map (λ kv, (kv.1, JStr kv.2)) (msg_headers m)));
    (js "verification", match msg_verification m with
                        | Some x => JObj [(js "status", JStr (status x)); (js "flagged", JBool (flagged x))]
                        | None => JNull
                        end);
    (js "traceparent", json_opt (traceparent m)); (js "tracestate", json_opt (tracestate m));
    (js "instance", json_opt (instance m)); (js "region", json_opt (region m));
    (js "event_type", json_opt (event_type m)) ].

(** [JSON.stringify(message)] *)
Definition stringify_message (m : Message) : jstr := json_stringify (JObj (message_props m)).

(** A safe integer other than [-0]. *)
Definition exact_int (x : num) : Prop := ∃ z, safe z ∧ x = num_of_Z z.

Definition opt_units (o : option jstr) : Prop := ∀ s, o = Some s → Forall unit_ok s.

(** The strings hold code units, the headers have distinct keys in the order
    JavaScript lists them, and the numbers are exact. *)
Record printable (m : Message) : Prop := {
  pr_v : exact_int (v m);
  pr_received_at : exact_int (received_at m);
  pr_size : exact_int (size m);
  pr_id : Forall unit_ok (msg_id m);
  pr_source : Forall unit_ok (source_id m);
  pr_strings : Forall opt_units [tenant_id m; content_type m; claim m; body_base64 m; msg_sha256 m; dedupe_key m;
    replay_id m; idempotency_key m; traceparent m; tracestate m; instance m; region m; event_type m];
  pr_status : ∀ x, msg_verification m = Some x → Forall unit_ok (status x);
  pr_header_keys : NoDup (msg_headers m).*1;
  pr_header_order : enumerate (msg_headers m) = msg_headers m;
  pr_headers : Forall (λ kv, Forall unit_ok kv.1 ∧ Forall unit_ok kv.2) (msg_headers m);
}.

Lemma json_opt_ok o : opt_units o → json_ok (json_opt o).
Proof. destruct o; constructor; auto. Qed.

Lemma exact_int_ok x : exact_int x → json_ok (JNum x).
Proof. intros (z & Hz & ->). by constructor. Qed.

Lemma ascii_units s : Forall (λ c, is_ascii c = true) s → Forall unit_ok s.
Proof.
  intros Hs. eapply Forall_impl; [done|]. intros c. unfold is_ascii, unit_ok. intros. bool_inv. lia.
Qed.

Lemma js_units s : forallb is_ascii (js s) = true → Forall unit_ok (js s).
Proof. intros. by apply ascii_units, js_ascii. Qed.

Lemma headers_json_ok (h : list (jstr * jstr)) :
  NoDup h.*1 → enumerate h = h → Forall (λ kv, Forall unit_ok kv.1 ∧ Forall unit_ok kv.2) h →
  json_ok (JObj (map (λ kv, (kv.1, JStr kv.2)) h)).
Proof.
  intros Hn Ho Hu. constructor.
  - rewrite <-list_fmap_compose. exact Hn.
  - by rewrite (enumerate_map JStr), Ho.
  - apply Forall_map. eapply Forall_impl; [done|]. by intros ? [? _].
  - apply Forall_map. eapply Forall_impl; [done|]. intros ? [_ ?]. by constructor.
Qed.

Lemma verification_json_ok (x : Verification) :
  Forall unit_ok (status x) →
  json_ok (JObj [(js "status", JStr (status x)); (js "flagged", JBool (flagged x))]).
Proof.
  intros Hs. constructor.
  - apply (bool_decide_unpack _). by vm_compute.
  - by apply enumerate_no_index; repeat constructor.
  - by repeat (constructor; [by apply js_units|]).
  - repeat constructor; done.
Qed.

Lemma message_json_ok m : printable m → json_ok (JObj (message_props m)).
Proof.
  intros []. repeat match goal with H : Forall _ (_ :: _) |- _ => inversion_clear H end.
  constructor.
  - change (message_props m).*1 with
      (js <$> ["v"; "id"; "source_id"; "tenant_id"; "received_at"; "content_type"; "size"; "body_base64"; "claim";
       "sha256"; "dedupe_key"; "replay_id"; "idempotency_key"; "headers"; "verification"; "traceparent";
       "tracestate"; "instance"; "region"; "event_type"]).
    apply (bool_decide_unpack _). by vm_compute.
  - apply enumerate_no_index. by repeat constructor.
  - repeat (constructor; [by apply js_units|]). constructor.
  - repeat (constructor; [first [by apply json_opt_ok | by apply exact_int_ok | by constructor
                               | by apply headers_json_ok | idtac]|]); [|constructor].
    cbn. destruct (msg_verification m); [|constructor]. apply verification_json_ok; auto.
Qed.

(** ** Decoding inverts printing *)

Section reopen.
Context `{Crypto}.

(** The object [JSON.parse] gives back, read field by field. *)
Lemma nullable_props m key o :
  get (message_props m) key = Some (json_opt o) → nullable (message_props m) key = o.
Proof. unfold nullable. intros ->. by destruct o. Qed.

Lemma null_or_string_opt o : null_or_string (Some (json_opt o)) = true.
Proof. by destruct o. Qed.

Lemma check_nullable_props m : check_nullable (message_props m) nullable_keys = Ok tt.
Proof.
  unfold nullable_keys. cbn [check_nullable].
  change (get (message_props m) "tenant_id") with (Some (json_opt (tenant_id m))).
  change (get (message_props m) "content_type") with (Some (json_opt (content_type m))).
  change (get (message_props m) "dedupe_key") with (Some (json_opt (dedupe_key m))).
  change (get (message_props m) "replay_id") with (Some (json_opt (replay_id m))).
  change (get (message_props m) "idempotency_key") with (Some (json_opt (idempotency_key m))).
  change (get (message_props m) "traceparent") with (Some (json_opt (traceparent m))).
  change (get (message_props m) "tracestate") with (Some (json_opt (tracestate m))).
  change (get (message_props m) "instance") with (Some (json_opt (instance m))).
  change (get (message_props m) "region") with (Some (json_opt (region m))).
  change (get (message_props m) "event_type") with (Some (json_opt (event_type m))).
  by rewrite !null_or_string_opt.
Qed.

Lemma header_strings_map h : header_strings (map (λ kv, (kv.1, JStr kv.2)) h) = Ok h.
Proof. induction h as [|[k x] h IH]; [done|]. cbn. by rewrite IH. Qed.

Lemma decode_headers_props m :
  enumerate (msg_headers m) = msg_headers m → decode_headers (message_props m) = Ok (msg_headers m).
Proof.
  intros Ho. unfold decode_headers.
  change (get (message_props m) "headers") with (Some (JObj (map (λ kv, (kv.1, JStr kv.2)) (msg_headers m)))).
  cbn. by rewrite (enumerate_map JStr), Ho, header_strings_map.
Qed.

Lemma decodeVerification_props m :
  (∀ x, msg_verification m = Some x → status x ≠ []) →
  decodeVerification (get (message_props m) "verification") = Ok (msg_verification m).
Proof.
  intros Hs. change (get (message_props m) "verification") with
    (Some match msg_verification m with
          | Some x => JObj [(js "status", JStr (status x)); (js "flagged", JBool (flagged x))]
          | None => JNull
          end).
  destruct (msg_verification m) as [x|]; [|done]. unfold decodeVerification.
  change (get [(js "status", JStr (status x)); (js "flagged", JBool (flagged x))] "status")
    with (Some (JStr (status x))).
  change (get [(js "status", JStr (status x)); (js "flagged", JBool (flagged x))] "flagged")
    with (Some (JBool (flagged x))).
  cbv beta iota.  rewrite bool_decide_eq_false_2 by auto. by destruct x.
Qed.

Lemma decode_numbers_props m :
  message_wf m →
  decode_version (message_props m) = Ok (v m) ∧ decode_id (message_props m) = Ok (msg_id m) ∧
  decode_source_id (message_props m) = Ok (source_id m) ∧
  decode_received_at (message_props m) = Ok (received_at m) ∧ decode_size (message_props m) = Ok (size m).
Proof.
  intros (Hv & Hr & Hi & Hra & Hs & Hs0 & _).
  unfold decode_version, decode_id, decode_source_id, decode_received_at, decode_size.
  change (get (message_props m) "v") with (Some (JNum (v m))).
  change (get (message_props m) "id") with (Some (JStr (msg_id m))).
  change (get (message_props m) "source_id") with (Some (JStr (source_id m))).
  change (get (message_props m) "received_at") with (Some (JNum (received_at m))).
  change (get (message_props m) "size") with (Some (JNum (size m))).
  unfold in_versions in Hr. apply andb_true_iff in Hr as [Hlo%negb_true_iff Hhi%negb_true_iff].
  rewrite Hv, Hra, Hs, Hs0, Hlo, Hhi, bool_decide_eq_false_2; done.
Qed.

Lemma decode_sha256_props m :
  decode_sha256 (message_props m) =
  match msg_sha256 m with
  | Some h => if re_test SHA256_PATTERN h then Ok (Some h) else Err (invalid_message invalid_field (Some "sha256"))
  | None => Err (invalid_message invalid_field (Some "sha256"))
  end.
Proof.
  unfold decode_sha256. change (get (message_props m) "sha256") with (Some (json_opt (msg_sha256 m))).
  by destruct (msg_sha256 m).
Qed.

(** The body form a decoded message came from. *)
Definition form_of (m : Message) (form : body_form) : Prop :=
  match form with
  | Inline b => msg_body m = Some b ∧ body_base64 m = Some (base64_encode b) ∧ claim m = None
  | Claimed c _ => msg_body m = None ∧ body_base64 m = None ∧ claim m = Some c
  end.

Lemma body_props m :
  body_wf m → is_Some (msg_sha256 m) →
  ∃ form, decode_body (message_props m) (size m) (msg_sha256 m) = Ok form ∧ form_of m form ∧
          tenant_clash (tenant_id m) form = false.
Proof.
  unfold body_wf, decode_body. intros Hw [h Hh].
  change (get (message_props m) "body_base64") with (Some (json_opt (body_base64 m))).
  change (get (message_props m) "claim") with (Some (json_opt (claim m))).
  destruct (msg_body m) as [b|] eqn:Eb.
  - destruct Hw as (Hb & E64 & Ec & Hs & Hd). exists (Inline b). rewrite E64, Ec. cbn.
    unfold decodeBase64. rewrite base64_encode_pattern, base64_decode_encode by done. cbn.
    rewrite Hs, Hh. cbn. rewrite bool_decide_eq_true_2 by (symmetry; auto). cbn.
    unfold form_of. split_and!; try done. by destruct (tenant_id m).
  - destruct Hw as (E64 & r & x & Hv & Ec & Ex & Hp & Ht). exists (Claimed (format_ref r) (parsed r)).
    rewrite E64, Ec. cbn. rewrite parseClaimRef_format, Hh by done. cbn.
    unfold form_of. split_and!; try done. destruct (tenant_id m) as [t|]; [|done]. cbn.
    rewrite bool_decide_eq_true_2; [done|]. symmetry. by apply Ht.
Qed.

Lemma sha256_pattern_wf m h : body_wf m → msg_sha256 m = Some h → re_test SHA256_PATTERN h = true.
Proof.
  unfold body_wf. intros Hw Hh. destruct (msg_body m) as [b|].
  - destruct Hw as (_ & _ & _ & _ & Hd). rewrite (Hd h Hh). apply sha256_hex_pattern.
  - destruct Hw as (_ & r & x & _ & _ & Ex & Hp & _). naive_solver.
Qed.

Lemma parse_object_print m :
  printable m → parse_object (PText (stringify_message m)) = Ok (message_props m).
Proof.
  intros Hp. unfold parse_object, stringify_message. cbn [payload_text].
  by rewrite json_parse_stringify by by apply message_json_ok.
Qed.

(** Decoding a printed message, up to the digest check. *)
Lemma decode_print m :
  message_wf m → printable m → is_Some (msg_sha256 m) →
  decodeMessage (PText (stringify_message m)) = Ok m.
Proof.
  intros Hw Hp Hsha. destruct (decode_numbers_props m Hw) as (E1 & E2 & E3 & E4 & E5).
  destruct Hw as (_ & _ & _ & _ & _ & _ & Hver & Hbody).
  destruct (body_props m Hbody Hsha) as (form & Ef & Hform & Htc).
  unfold decodeMessage. rewrite parse_object_print by done. cbn [mbind result_bind].
  rewrite E1, E2, E3, E4, E5. cbn [mbind result_bind].
  rewrite check_nullable_props. cbn [mbind result_bind].
  rewrite decode_headers_props by apply Hp. cbn [mbind result_bind].
  rewrite decode_sha256_props. destruct Hsha as [h Hh]. rewrite Hh, (sha256_pattern_wf m h) by done.
  cbn [mbind result_bind]. rewrite decodeVerification_props by done. cbn [mbind result_bind].
  rewrite <-Hh, Ef. cbn [mbind result_bind].
  rewrite (nullable_props m "tenant_id" (tenant_id m) eq_refl), Htc. cbn [negb require mbind result_bind].
  rewrite (nullable_props m "content_type" (content_type m) eq_refl),
    (nullable_props m "dedupe_key" (dedupe_key m) eq_refl),
    (nullable_props m "replay_id" (replay_id m) eq_refl),
    (nullable_props m "idempotency_key" (idempotency_key m) eq_refl),
    (nullable_props m "traceparent" (traceparent m) eq_refl),
    (nullable_props m "tracestate" (tracestate m) eq_refl),
    (nullable_props m "instance" (instance m) eq_refl),
    (nullable_props m "region" (region m) eq_refl),
    (nullable_props m "event_type" (event_type m) eq_refl).
  destruct m, form; destruct Hform as (? & ? & ?); cbn in *; by subst.
Qed.

Lemma decode_print_no_digest m :
  message_wf m → printable m → msg_sha256 m = None →
  decodeMessage (PText (stringify_message m)) = Err (invalid_message invalid_field (Some "sha256")).
Proof.
  intros Hw Hp Hsha. destruct (decode_numbers_props m Hw) as (E1 & E2 & E3 & E4 & E5).
  unfold decodeMessage. rewrite parse_object_print by done. cbn [mbind result_bind].
  rewrite E1, E2, E3, E4, E5. cbn [mbind result_bind].
  rewrite check_nullable_props. cbn [mbind result_bind].
  rewrite decode_headers_props by apply Hp. cbn [mbind result_bind].
  by rewrite decode_sha256_props, Hsha.
Qed.
End reopen.

(** ** Decoded messages print *)

Section printed.
Context `{Crypto}.

Lemma map_pair_str_inj (h h' : list (jstr * jstr)) :
  map (λ kv, (kv.1, JStr kv.2)) h = map (λ kv, (kv.1, JStr kv.2)) h' → h = h'.
Proof.
  revert h'; induction h as [|[k s] h IH]; intros [|[k' s'] h']; cbn; try done.
  intros [= -> -> E]. by rewrite (IH h').
Qed.

Lemma decode_headers_printable raw h :
  obj_wf raw → decode_headers raw = Ok h →
  NoDup h.*1 ∧ enumerate h = h ∧ Forall (λ kv, Forall unit_ok kv.1 ∧ Forall unit_ok kv.2) h.
Proof.
  intros Hraw. unfold decode_headers. destruct (get raw "headers") as [[| | | | |o]|] eqn:Eg; try done.
  2: { intros [= <-]. split_and!; [constructor|done|constructor]. }
  apply (obj_get_wf (js "headers")) in Eg; [|done]. inversion_clear Eg as [| | | | |? Ho].
  apply obj_wf_inv in Ho as (Hnd & Hk & Hv). intros Eh.
  pose proof (header_strings_spec (enumerate o)) as Hs. rewrite Eh in Hs. split_and!.
  - pose proof (enumerate_keys_NoDup o Hnd) as Hn. rewrite Hs in Hn.
    by rewrite <-list_fmap_compose in Hn.
  - apply map_pair_str_inj. rewrite <-(enumerate_map JStr), <-Hs. apply enumerate_idemp.
  - apply Forall_forall. intros [k x] Hkv.
    assert ((k, JStr x) ∈ o) as Hin.
    { apply enumerate_elem. rewrite Hs. apply list_elem_of_fmap. by exists (k, x). }
    rewrite Forall_forall in Hk. rewrite Forall_forall in Hv.
    split; [exact (Hk _ Hin)|]. pose proof (Hv _ Hin) as Hx. by inversion Hx.
Qed.

Lemma nullable_units raw key : obj_wf raw → opt_units (nullable raw key).
Proof.
  intros Hraw s. unfold nullable, get. repeat case_match; intros; simplify_eq. by eapply obj_get_str_wf.
Qed.

Lemma decodeMessage_printable data m :
  Forall unit_ok (payload_text data) → decodeMessage data = Ok m →
  exact_int (v m) → exact_int (received_at m) → exact_int (size m) → printable m.
Proof.
  unfold decodeMessage. intros Hu Hm. ok_inv. intros Hv Hra Hs. cbn in Hv, Hra, Hs.
  match goal with H : parse_object data = Ok ?r |- _ =>
    apply parse_object_Ok in H; apply json_parse_wf in H; [|done]; inversion_clear H; rename r into raw end.
  repeat match goal with
  | H : decode_id _ = Ok _ |- _ => apply decode_id_Ok in H as [? _]
  | H : decode_source_id _ = Ok _ |- _ => apply decode_source_id_Ok in H
  | H : decode_headers _ = Ok _ |- _ => apply decode_headers_printable in H as (? & ? & ?); [|done]
  | H : decode_size _ = Ok _ |- _ => apply decode_size_Ok in H; subst
  | H : decode_sha256 _ = Ok _ |- _ => apply decode_sha256_Ok in H; subst
  | H : decode_body _ _ _ = Ok _ |- _ => apply decode_body_Ok in H
  end.
  split; cbn; try done; eauto using obj_get_str_wf.
  - repeat (constructor; [try (by apply nullable_units)|]); [..|constructor]; intros s Es; case_match; simplify_eq.
    + eapply obj_get_str_wf; [done|]. naive_solver.
    + apply ascii_units, base64_encode_ascii. destruct_and!. naive_solver eauto using buffer_from_base64_bytes.
  - intros y ->. match goal with H : decodeVerification _ = Ok _ |- _ =>
      apply decodeVerification_Ok in H as (_ & o & Eo & Es & _) end.
    apply (obj_get_wf (js "verification")) in Eo; [|done]. inversion_clear Eo. by eapply obj_get_str_wf.
Qed.

(** [C12] A decoded message round-trips: when it has a digest, and its version,
    time of receipt and size are safe integers other than [-0] (an integer of
    [2^53] or more is not covered, and [-0] prints as [0]), decoding its
    [JSON.stringify] gives the same message back, the body included. *)
Theorem decode_stringify data m :
  Forall unit_ok (payload_text data) → decodeMessage data = Ok m →
  exact_int (v m) → exact_int (received_at m) → exact_int (size m) → is_Some (msg_sha256 m) →
  decodeMessage (PText (stringify_message m)) = Ok m.
Proof.
  intros Hu Hm Hv Hr Hs Hd. apply decode_print; [by eapply decodeMessage_wf| |done].
  by eapply decodeMessage_printable.
Qed.

(** A message decoded without a digest does not round-trip: it prints
    with [sha256] [null], which the decoder refuses. *)
Theorem decode_stringify_no_digest data m :
  Forall unit_ok (payload_text data) → decodeMessage data = Ok m →
  exact_int (v m) → exact_int (received_at m) → exact_int (size m) → msg_sha256 m = None →
  decodeMessage (PText (stringify_message m)) = Err (invalid_message invalid_field (Some "sha256")).
Proof.
  intros Hu Hm Hv Hr Hs Hd. apply decode_print_no_digest; [by eapply decodeMessage_wf| |done].
  by eapply decodeMessage_printable.
Qed.

(** ** Trust *)

(** A decoded message is trusted exactly when the wire says so itself: its
    [verification] is an object whose status is [ok] and whose [flagged] is
    [false]. A message without the field, or with any other status, is not. *)
Theorem message_trusted_iff data m :
  decodeMessage data = Ok m →
  isTrusted (HookMessage m) = true ↔
  ∃ raw o, json_parse (payload_text data) = Some (JObj raw) ∧ get raw "verification" = Some (JObj o) ∧
    get o "status" = Some (JStr (js "ok")) ∧ get o "flagged" = Some (JBool false).
Proof.
  unfold decodeMessage. intros Hm. ok_inv. unfold isTrusted. cbn [hook_verification msg_verification].
  match goal with H : parse_object data = Ok ?r |- _ => apply parse_object_Ok in H; rewrite H; rename r into raw end.
  match goal with H : decodeVerification _ = Ok ?x |- _ => rename H into Hv; rename x into ver end.
  destruct ver as [[s f]|].
  - apply decodeVerification_Ok in Hv as (_ & o & Eo & Es & Ef). cbn in *.
    rewrite andb_true_iff, bool_decide_eq_true, negb_true_iff. split; [naive_solver|].
    intros (? & ? & [= <-] & Eo' & Es' & Ef'). naive_solver.
  - split; [done|]. intros (? & o & [= <-] & Eo & Es & Ef). rewrite Eo in Hv. cbn in Hv.
    rewrite Es, Ef in Hv. by rewrite bool_decide_eq_false_2 in Hv.
Qed.

(** An HTTP delivery is trusted exactly when its verification header is
    [ok] and its flag header is not [true]. *)
Theorem delivery_trusted_iff `{LowerCase} hs h :
  parseHeaders hs = Ok h →
  isTrusted (HookHeader h) = true ↔
  header (lowered hs) "x-ankusa-verification" = Some (js "ok") ∧
  header (lowered hs) "x-ankusa-verification-flagged" ≠ Some (js "true").
Proof.
  unfold parseHeaders. destruct (non_empty _); [|done]. intros [= <-]. unfold isTrusted. cbn.
  unfold parseVerificationHeaders.
  destruct (header _ "x-ankusa-verification") as [[|c s]|]; cbn; [naive_solver| |naive_solver].
  rewrite andb_true_iff, bool_decide_eq_true, negb_true_iff, bool_decide_eq_false. naive_solver.
Qed.
End printed.

(** ** Idempotency keys *)

(** The key before the replay suffix: what Ankusa computes for a hook without
    a shipped key. *)
Definition keyless (k : hook) : Prop := default [] (shipped_key k) = [].

Lemma idempotencyKey_computed k :
  keyless k → default [] (hook_dedupe k) ≠ [] →
  idempotencyKey k false =
  default (js "default") (hook_tenant k) ++ 58 :: hook_source k ++ 58 :: default [] (hook_dedupe k).
Proof.
  unfold keyless, idempotencyKey. intros Hs Hd.
  destruct (shipped_key k) as [[|]|]; [|done|]; destruct (hook_dedupe k) as [[|]|]; done.
Qed.

Lemma colon_cut (a a' b b' : jstr) :
  58 ∉ a → 58 ∉ a' → a ++ 58 :: b = a' ++ 58 :: b' → a = a' ∧ b = b'.
Proof.
  intros Ha Ha' E.
  destruct (class_split_unique (λ c, c ≠ 58) 58 58 a b a' b') as (-> & _ & ->); auto;
    apply Forall_forall; intros x Hx ->; done.
Qed.

Lemma tenant_no_colon (o : option jstr) : 58 ∉ default [] o → 58 ∉ default (js "default") o.
Proof. destruct o; [done|]. intros _. apply (bool_decide_unpack _). by vm_compute. Qed.

(** [C38] Computed keys keep events apart: for hooks without a shipped key, with
    a dedupe key that is not empty and with tenants and sources that hold no
    colon, equal keys without the replay suffix mean the same tenant (no tenant
    counting as [default]), the same source and the same dedupe key. *)
Theorem idempotency_key_separates k k' :
  keyless k → keyless k' →
  default [] (hook_dedupe k) ≠ [] → default [] (hook_dedupe k') ≠ [] →
  58 ∉ default [] (hook_tenant k) → 58 ∉ default [] (hook_tenant k') →
  58 ∉ hook_source k → 58 ∉ hook_source k' →
  idempotencyKey k false = idempotencyKey k' false →
  default (js "default") (hook_tenant k) = default (js "default") (hook_tenant k') ∧
  hook_source k = hook_source k' ∧ hook_dedupe k = hook_dedupe k'.
Proof.
  intros Hk Hk' Hd Hd' Ht Ht' Hs Hs'. rewrite !idempotencyKey_computed by done. intros E.
  apply colon_cut in E as [? E]; [|by apply tenant_no_colon..].
  apply colon_cut in E as [? E]; [|done..]. split_and!; try done.
  destruct (hook_dedupe k), (hook_dedupe k'); cbn in *; congruence.
Qed.

Lemma idempotencyKey_replay k :
  idempotencyKey k true =
  idempotencyKey k false ++ match hook_replay k with Some r => js "#replay:" ++ r | None => [] end.
Proof. unfold idempotencyKey. by destruct (hook_replay k); rewrite ?app_nil_r. Qed.

(** Replays: two deliveries of one event (the same key without
    [includeReplay], whatever their replay ids) have the same key with
    [includeReplay] exactly when they belong to the same replay job. *)
Theorem idempotency_key_replay k k' :
  idempotencyKey k false = idempotencyKey k' false →
  idempotencyKey k true = idempotencyKey k' true ↔ hook_replay k = hook_replay k'.
Proof.
  intros E. rewrite !idempotencyKey_replay, E. split; [|by intros ->].
  intros E'%app_inv_head. destruct (hook_replay k), (hook_replay k'); try done.
  apply app_inv_head in E'. congruence.
Qed.

(** One hook, one key: a queue message and an HTTP delivery that describe
    the same hook have the same idempotency key, so a consumer of both dedupes
    across them. *)
Theorem idempotency_key_transport m h b :
  idempotency_key m = Headers.idempotencyKey h → tenant_id m = tenant h → source_id m = source h →
  dedupe_key m = dedupeKey h → replay_id m = replayId h → msg_id m = id h →
  idempotencyKey (HookMessage m) b = idempotencyKey (HookHeader h) b.
Proof. intros E1 E2 E3 E4 E5 E6. unfold idempotencyKey. cbn. by rewrite E1, E2, E3, E4, E5, E6. Qed.

(** ** Conformance vectors *)

Module Vectors.
#[local] Existing Instance AsciiKelvin.
#[local] Existing Instance NodeCrypto.

(** [hi], inline, with its digest. *)
Definition inline_text : jstr := jq
  "{'v':1,'id':'01a0','source_id':'demo','tenant_id':'acme','received_at':1790345000000,'size':2,'body_base64':'aGk=','sha256':'8f434346648f6b96df89dda901c5176b10a6d83961dd3c1ac88b59b2dc327aa4','dedupe_key':'evt_1','headers':{'b':'1','2':'x'},'verification':{'status':'ok','flagged':false},'unknown':[1,2]}".
(** The same without a digest. *)
Definition bare_text : jstr := jq
  "{'v':2,'id':'01a0','source_id':'demo','received_at':1790345000000,'size':2,'body_base64':'aGk='}".
Definition claim_text (tenant : string) : jstr := jq
  ("{'v':1,'id':'01a0','source_id':'demo','tenant_id':'" +:+ tenant +:+ "','received_at':1,'size':9,'claim':'urn:ankusa:claim:v1:acme:01M39VMD8RA3C5HR4RBV67Y002','sha256':'8f434346648f6b96df89dda901c5176b10a6d83961dd3c1ac88b59b2dc327aa4'}").

Definition decoded (text : jstr) : Message :=
  match decodeMessage (PText text) with
  | Ok m => m
  | Err _ => {| v := num_of_Z 0; msg_id := []; source_id := []; tenant_id := None; received_at := num_of_Z 0;
                content_type := None; size := num_of_Z 0; body_base64 := None; claim := None; msg_sha256 := None;
                dedupe_key := None; replay_id := None; idempotency_key := None; msg_headers := [];
                msg_verification := None; traceparent := None; tracestate := None; instance := None;
                region := None; event_type := None; msg_body := None |}
  end.

Definition refused (text : jstr) : option verdict :=
  match decodeMessage (PText text) with Ok _ => None | Err e => Some (view e) end.

Example vectors_ok :
  decodeMessage (PText inline_text) = Ok (decoded inline_text) ∧
  msg_body (decoded inline_text) = Some [104; 105] ∧
  msg_headers (decoded inline_text) = [(js "2", js "x"); (js "b", js "1")] ∧
  idempotencyKey (HookMessage (decoded inline_text)) true = js "acme:demo:evt_1" ∧
  isTrusted (HookMessage (decoded inline_text)) = true ∧
  isTrusted (HookMessage (decoded bare_text)) = false ∧
  claim (decoded (claim_text "acme")) = Some sample_ref.
Proof. vm_compute. repeat split. Qed.

Example vectors_refused :
  refused (claim_text "other") = Some (tenant_mismatch, None) ∧
  refused (js "nope") = Some (invalid_json, None) ∧ refused (js "[]") = Some (not_an_object, None) ∧
  refused (jq "{'v':3}") = Some (unsupported_version, None) ∧
  refused (jq "{'v':1,'id':'','source_id':1}") = Some (bad_field "id") ∧
  refused (jq "{'v':1,'id':'a','source_id':'s','received_at':1,'size':2.5}") = Some (bad_field "size") ∧
  refused (jq "{'v':1,'id':'a','source_id':'s','received_at':1,'size':3,'body_base64':'aGk='}") = Some (size_mismatch, None) ∧
  refused (jq "{'v':1,'id':'a','source_id':'s','received_at':1,'size':2,'body_base64':'aGk'}") = Some (invalid_body_base64, None) ∧
  refused (jq "{'v':1,'id':'a','source_id':'s','received_at':1,'size':2}") = Some (missing_body, None).
Proof. vm_compute. repeat split. Qed.

Lemma decoded_ints text z1 z2 z3 :
  safe z1 → safe z2 → safe z3 →
  v (decoded text) = num_of_Z z1 → received_at (decoded text) = num_of_Z z2 → size (decoded text) = num_of_Z z3 →
  exact_int (v (decoded text)) ∧ exact_int (received_at (decoded text)) ∧ exact_int (size (decoded text)).
Proof. unfold exact_int. eauto 10. Qed.

Lemma inline_ints :
  exact_int (v (decoded inline_text)) ∧ exact_int (received_at (decoded inline_text)) ∧
  exact_int (size (decoded inline_text)).
Proof. by apply (decoded_ints _ 1 1790345000000 2); vm_compute. Qed.

Lemma bare_ints :
  exact_int (v (decoded bare_text)) ∧ exact_int (received_at (decoded bare_text)) ∧
  exact_int (size (decoded bare_text)).
Proof. by apply (decoded_ints _ 2 1790345000000 2); vm_compute. Qed.

Lemma decode_message_wf_witness :
  decodeMessage (PText inline_text) = Ok (decoded inline_text) ∧ message_wf (decoded inline_text).
Proof.
  split; [by vm_compute|]. apply (decode_message_wf (PText inline_text) (decoded inline_text)). by vm_compute.
Defined.

Lemma decode_message_bytes_witness :
  decodeMessage (PBytes (utf8_encode inline_text)) = decodeMessage (PText inline_text).
Proof.
  apply (decode_message_bytes inline_text); [apply (bool_decide_unpack _); by vm_compute|by vm_compute..].
Defined.

Lemma decode_stringify_witness :
  decodeMessage (PText (stringify_message (decoded inline_text))) = Ok (decoded inline_text).
Proof.
  destruct inline_ints as (Hv & Hr & Hs).
  apply (decode_stringify (PText inline_text) (decoded inline_text));
    [apply (bool_decide_unpack _); by vm_compute|by vm_compute|exact Hv|exact Hr|exact Hs|].
  apply (bool_decide_unpack _). by vm_compute.
Defined.

Lemma decode_stringify_no_digest_witness :
  decodeMessage (PText (stringify_message (decoded bare_text))) =
  Err (invalid_message invalid_field (Some "sha256")).
Proof.
  destruct bare_ints as (Hv & Hr & Hs).
  apply (decode_stringify_no_digest (PText bare_text) (decoded bare_text));
    [apply (bool_decide_unpack _); by vm_compute|by vm_compute|exact Hv|exact Hr|exact Hs|by vm_compute].
Defined.

Lemma message_trusted_iff_witness :
  ∃ raw o, json_parse inline_text = Some (JObj raw) ∧ get raw "verification" = Some (JObj o) ∧
    get o "status" = Some (JStr (js "ok")) ∧ get o "flagged" = Some (JBool false).
Proof.
  apply (message_trusted_iff (PText inline_text) (decoded inline_text)); by vm_compute.
Defined.

Definition delivery_headers : HeaderSource :=
  HRecord [(js "X-Ankusa-Id", HValue (js "01a0")); (js "x-ankusa-source", HValue (js "demo"));
           (js "x-ankusa-tenant", HValue (js "acme")); (js "x-ankusa-dedupe-key", HValue (js "evt_1"));
           (js "x-ankusa-verification", HValue (js "ok"))].

Definition delivery : HookHeaders :=
  {| id := js "01a0"; source := js "demo"; tenant := Some (js "acme"); contentType := None;
     dedupeKey := Some (js "evt_1"); replayId := None; Headers.idempotencyKey := None; receivedAt := None;
     bodySha256 := None; verification := Some {| status := js "ok"; flagged := false |} |}.

Lemma delivery_trusted_iff_witness :
  parseHeaders delivery_headers = Ok delivery ∧
  header (lowered delivery_headers) "x-ankusa-verification" = Some (js "ok") ∧
  header (lowered delivery_headers) "x-ankusa-verification-flagged" ≠ Some (js "true").
Proof.
  split; [by vm_compute|]. apply (delivery_trusted_iff delivery_headers delivery); by vm_compute.
Defined.

Definition replayed (r : string) : hook :=
  HookHeader {| id := js "01a0"; source := js "demo"; tenant := Some (js "acme"); contentType := None;
     dedupeKey := Some (js "evt_1"); replayId := Some (js r); Headers.idempotencyKey := None; receivedAt := None;
     bodySha256 := None; verification := None |}.

Lemma idempotency_key_separates_witness :
  hook_source (HookMessage (decoded inline_text)) = hook_source (HookHeader delivery).
Proof.
  apply (idempotency_key_separates (HookMessage (decoded inline_text)) (HookHeader delivery));
    first [by vm_compute | apply (bool_decide_unpack _); by vm_compute].
Defined.

Lemma idempotency_key_replay_witness :
  idempotencyKey (replayed "r1") true ≠ idempotencyKey (replayed "r2") true.
Proof.
  intros E. apply (idempotency_key_replay (replayed "r1") (replayed "r2") eq_refl) in E. discriminate E.
Defined.

Lemma idempotency_key_transport_witness :
  idempotencyKey (HookMessage (decoded inline_text)) true = idempotencyKey (HookHeader delivery) true.
Proof. apply (idempotency_key_transport (decoded inline_text) delivery true); by vm_compute. Defined.
End Vectors.
