(* ===== verification/Lifecycle.v ===== *)
(** * Lifecycle events ([lifecycle/index.ts])

    [decodeLifecycle] decodes the CloudEvents JSON an instance publishes when
    its configuration changes. *)
From stdpp Require Import base tactics list numbers option strings.
From S2P Require Import Prelude JsNumber JsString Regex Json JsonFacts Message MessageFacts.
Local Open Scope Z_scope.

(** ** Data *)

(** [specversion] is always ["1.0"] and has no field. *)
Record LifecycleEvent := {
  le_id : jstr;
  le_source : jstr;
  le_type : jstr;
  subject : jstr;
  time : jstr;
  datacontenttype : option jstr;
  le_data : option (list (jstr * json));
  revision : option num;
  actor : option jstr;
  le_instance : option jstr;
  sequence : option jstr;
  replayid : option jstr;
  le_traceparent : option jstr;
  le_tracestate : option jstr;
}.

(** ** Decoding *)

Definition requiredString (raw : props) (key : string) : result InvalidMessageError jstr :=
  match get raw key with
  | Some (JStr s) => if bool_decide (s = []) then Err (invalid_message invalid_field (Some key)) else Ok s
  | _ => Err (invalid_message invalid_field (Some key))
  end.

Definition optionalString (raw : props) (key : string) : result InvalidMessageError (option jstr) :=
  match get raw key with
  | None | Some JNull => Ok None
  | Some (JStr s) => Ok (Some s)
  | Some _ => Err (invalid_message invalid_field (Some key))
  end.

Definition decode_data (raw : props) : result InvalidMessageError (option (list (jstr * json))) :=
  match get raw "data" with
  | None | Some JNull => Ok None
  | Some (JObj o) => Ok (Some o)
  | Some _ => Err (invalid_message invalid_field (Some "data"))
  end.

Definition decode_revision (raw : props) : result InvalidMessageError (option num) :=
  match get raw "revision" with
  | None | Some JNull => Ok None
  | Some (JNum x) =>
      if negb (num_isInteger x) || num_lt x (num_of_Z 1)
      then Err (invalid_message invalid_field (Some "revision")) else Ok (Some x)
  | Some _ => Err (invalid_message invalid_field (Some "revision"))
  end.

Definition SEQUENCE_PATTERN : re := re_plus (RChar cls_digit).

Definition decode_sequence (raw : props) : result InvalidMessageError (option jstr) :=
  match get raw "sequence" with
  | None | Some JNull => Ok None
  | Some (JStr s) =>
      if re_test SEQUENCE_PATTERN s then Ok (Some s) else Err (invalid_message invalid_field (Some "sequence"))
  | Some _ => Err (invalid_message invalid_field (Some "sequence"))
  end.

(** [raw.specversion === "1.0"] *)
Definition is_spec_1_0 (value : option json) : bool :=
  match value with Some (JStr s) => bool_decide (s = js "1.0") | _ => false end.

Definition decodeLifecycle (data : payload) : result InvalidMessageError LifecycleEvent :=
  raw ← parse_object data;
  _ ← require (is_spec_1_0 (get raw "specversion")) (invalid_message unsupported_version None);
  i ← requiredString raw "id";
  src ← requiredString raw "source";
  ty ← requiredString raw "type";
  sub ← requiredString raw "subject";
  tm ← requiredString raw "time";
  dct ← optionalString raw "datacontenttype";
  body ← decode_data raw;
  rev ← decode_revision raw;
  act ← optionalString raw "actor";
  ins ← optionalString raw "instance";
  sq ← decode_sequence raw;
  rep ← optionalString raw "replayid";
  tp ← optionalString raw "traceparent";
  ts ← optionalString raw "tracestate";
  Ok {| le_id := i; le_source := src; le_type := ty; subject := sub; time := tm; datacontenttype := dct;
        le_data := body; revision := rev; actor := act; le_instance := ins; sequence := sq;
        replayid := rep; le_traceparent := tp; le_tracestate := ts |}.

(** ** The rule table *)

Definition required_rule (raw : props) (key : string) : rule verdict :=
  (string_such nonempty (get raw key), bad_field key).
Definition optional_rule (raw : props) (key : string) : rule verdict :=
  (null_or_string (get raw key), bad_field key).

Definition lifecycle_object_rules (raw : props) : list (rule verdict) :=
  [ (is_spec_1_0 (get raw "specversion"), (unsupported_version, None)) ] ++
  [ required_rule raw "id" ] ++ [ required_rule raw "source" ] ++ [ required_rule raw "type" ] ++
  [ required_rule raw "subject" ] ++ [ required_rule raw "time" ] ++
  [ optional_rule raw "datacontenttype" ] ++
  [ (match get raw "data" with None | Some JNull | Some (JObj _) => true | _ => false end, bad_field "data") ] ++
  [ (implb_if (has raw "revision") (integer_such (λ x, negb (num_lt x (num_of_Z 1))) (get raw "revision")),
     bad_field "revision") ] ++
  [ optional_rule raw "actor" ] ++ [ optional_rule raw "instance" ] ++
  [ (implb_if (has raw "sequence")
       (string_such (λ s, nonempty s && forallb cls_digit s) (get raw "sequence")), bad_field "sequence") ] ++
  [ optional_rule raw "replayid" ] ++ [ optional_rule raw "traceparent" ] ++
  [ optional_rule raw "tracestate" ] ++ [].

Definition lifecycle_rules (data : payload) : list (rule verdict) :=
  parse_rules data ++ lifecycle_object_rules (object_of data).

Lemma requiredString_judged raw key : judged_by view [required_rule raw key] (requiredString raw key).
Proof.
  apply judged_one. unfold requiredString, nonempty. destruct (get raw key) as [[]|]; try done. cbn.
  unfold nonempty. by repeat case_bool_decide.
Qed.

Lemma optionalString_judged raw key : judged_by view [optional_rule raw key] (optionalString raw key).
Proof. apply judged_one. unfold optionalString. by destruct (get raw key) as [[]|]. Qed.

Lemma decode_data_judged raw :
  judged_by view [(match get raw "data" with None | Some JNull | Some (JObj _) => true | _ => false end,
                   bad_field "data")] (decode_data raw).
Proof. apply judged_one. unfold decode_data. by destruct (get raw "data") as [[]|]. Qed.

Lemma decode_revision_judged raw :
  judged_by view [(implb_if (has raw "revision")
                     (integer_such (λ x, negb (num_lt x (num_of_Z 1))) (get raw "revision")), bad_field "revision")]
    (decode_revision raw).
Proof.
  apply judged_one. unfold decode_revision, has. destruct (get raw "revision") as [[]|]; try done. cbn.
  by destruct (num_isInteger _), (num_lt _ _).
Qed.

Lemma sequence_pattern_spec s : re_test SEQUENCE_PATTERN s = nonempty s && forallb cls_digit s.
Proof.
  apply eq_true_iff_eq. rewrite re_test_spec, andb_true_iff, forallb_Forall_iff. unfold SEQUENCE_PATTERN, nonempty.
  setoid_rewrite match_plus_cls. rewrite bool_decide_eq_true. naive_solver.
Qed.

Lemma decode_sequence_judged raw :
  judged_by view [(implb_if (has raw "sequence")
       (string_such (λ s, nonempty s && forallb cls_digit s) (get raw "sequence")), bad_field "sequence")]
    (decode_sequence raw).
Proof.
  apply judged_one. unfold decode_sequence, has. destruct (get raw "sequence") as [[]|]; try done. cbn.
  rewrite sequence_pattern_spec. by destruct (_ && _)%bool.
Qed.

#[export] Hint Resolve requiredString_judged optionalString_judged decode_data_judged decode_revision_judged
  decode_sequence_judged : ankusa.

(** [C30] [decodeLifecycle] applies its checks in order: it returns an event
    exactly when every rule holds, and otherwise throws the code and field of
    the first rule that fails. *)
Theorem decode_lifecycle_ordered data :
  judged_by view (lifecycle_rules data) (decodeLifecycle data).
Proof.
  unfold decodeLifecycle, lifecycle_rules. apply judged_bind; [apply parse_object_judged|].
  intros raw Hraw. unfold object_of. apply parse_object_Ok in Hraw as ->. unfold lifecycle_object_rules.
  apply judged_bind; [apply (judged_require view _ (invalid_message unsupported_version None))|]. intros _ _.
  repeat (apply judged_bind; [auto with ankusa; fail|]; intros ? _). done.
Qed.

(** ** Round trip *)

Definition lifecycle_props (e : LifecycleEvent) : props :=
  [ (js "specversion", JStr (js "1.0")); (js "id", JStr (le_id e)); (js "source", JStr (le_source e));
    (js "type", JStr (le_type e)); (js "subject", JStr (subject e)); (js "time", JStr (time e));
    (js "datacontenttype", json_opt (datacontenttype e));
    (js "data", match le_data e with Some o => JObj o | None => JNull end);
    (js "revision", match revision e with Some x => JNum x | None => JNull end);
    (js "actor", json_opt (actor e)); (js "instance", json_opt (le_instance e));
    (js "sequence", json_opt (sequence e)); (js "replayid", json_opt (replayid e));
    (js "traceparent", json_opt (le_traceparent e)); (js "tracestate", json_opt (le_tracestate e)) ].

(** [JSON.stringify(event)] *)
Definition stringify_lifecycle (e : LifecycleEvent) : jstr := json_stringify (JObj (lifecycle_props e)).

Record lifecycle_wf (e : LifecycleEvent) : Prop := {
  lw_required : Forall (λ s, s ≠ []) [le_id e; le_source e; le_type e; subject e; time e];
  lw_units : Forall (Forall unit_ok) [le_id e; le_source e; le_type e; subject e; time e];
  lw_optional : Forall opt_units [datacontenttype e; actor e; le_instance e; sequence e; replayid e;
    le_traceparent e; le_tracestate e];
  lw_data : ∀ o, le_data e = Some o → json_ok (JObj o);
  lw_revision : ∀ x, revision e = Some x → ∃ z, 1 ≤ z < 2 ^ 53 ∧ x = num_of_Z z;
  lw_sequence : ∀ s, sequence e = Some s → nonempty s && forallb cls_digit s = true;
}.

Lemma lifecycle_json_ok e : lifecycle_wf e → json_ok (JObj (lifecycle_props e)).
Proof.
  intros []. repeat match goal with H : Forall _ (_ :: _) |- _ => inversion_clear H end.
  constructor.
  - change (lifecycle_props e).*1 with
      (js <$> ["specversion"; "id"; "source"; "type"; "subject"; "time"; "datacontenttype"; "data"; "revision";
       "actor"; "instance"; "sequence"; "replayid"; "traceparent"; "tracestate"]).
    apply (bool_decide_unpack _). by vm_compute.
  - apply enumerate_no_index. by repeat constructor.
  - repeat (constructor; [by apply js_units|]). constructor.
  - constructor; [by constructor; apply js_units|].
    repeat (constructor; [first [by apply json_opt_ok | by constructor | cbn]|]); [| |constructor].
    + destruct (le_data e); [auto|constructor].
    + destruct (revision e) as [x|]; [|constructor]. destruct (lw_revision0 x) as (z & Hz & ->); [done|].
      constructor. unfold safe. lia.
Qed.

Lemma requiredString_props e key s :
  get (lifecycle_props e) key = Some (JStr s) → s ≠ [] → requiredString (lifecycle_props e) key = Ok s.
Proof. unfold requiredString. intros -> Hs. by rewrite bool_decide_eq_false_2. Qed.

Lemma optionalString_props e key o :
  get (lifecycle_props e) key = Some (json_opt o) → optionalString (lifecycle_props e) key = Ok o.
Proof. unfold optionalString. intros ->. by destruct o. Qed.

Lemma decode_revision_props e :
  lifecycle_wf e → decode_revision (lifecycle_props e) = Ok (revision e).
Proof.
  intros Hw. unfold decode_revision.
  change (get (lifecycle_props e) "revision") with (Some match revision e with Some x => JNum x | None => JNull end).
  destruct (revision e) as [x|] eqn:Ex; [|done].
  destruct (lw_revision e Hw x Ex) as (z & Hz & ->). cbv beta iota.
  rewrite num_isInteger_of_Z, num_lt_of_Z by (unfold safe; lia). cbn [negb orb].
  by rewrite (proj2 (Z.ltb_ge z 1)) by lia.
Qed.

Lemma decode_sequence_props e :
  lifecycle_wf e → decode_sequence (lifecycle_props e) = Ok (sequence e).
Proof.
  intros Hw. unfold decode_sequence.
  change (get (lifecycle_props e) "sequence") with (Some (json_opt (sequence e))).
  destruct (sequence e) as [s|] eqn:Es; [|done]. cbn.
  by rewrite sequence_pattern_spec, (lw_sequence e Hw).
Qed.

(** [C31] Lifecycle events round-trip: decoding the [JSON.stringify] of a
    well-formed event gives the event back.  Well-formed includes that the
    numbers in its data are safe integers other than [-0] and that its objects
    list their keys in JavaScript's order. *)
Theorem decode_lifecycle_stringify e :
  lifecycle_wf e → decodeLifecycle (PText (stringify_lifecycle e)) = Ok e.
Proof.
  intros Hw. pose proof (lw_required e Hw) as Hr.
  repeat match goal with H : Forall _ (_ :: _) |- _ => apply Forall_cons in H as [? H] end.
  unfold decodeLifecycle, stringify_lifecycle, parse_object. cbn [payload_text].
  rewrite json_parse_stringify by by apply lifecycle_json_ok. cbn [mbind result_bind].
  change (is_spec_1_0 (get (lifecycle_props e) "specversion")) with true. cbn [require mbind result_bind].
  rewrite (requiredString_props e "id" (le_id e) eq_refl), (requiredString_props e "source" (le_source e) eq_refl),
    (requiredString_props e "type" (le_type e) eq_refl), (requiredString_props e "subject" (subject e) eq_refl),
    (requiredString_props e "time" (time e) eq_refl) by done.
  cbn [mbind result_bind].
  rewrite (optionalString_props e "datacontenttype" (datacontenttype e) eq_refl).
  assert (decode_data (lifecycle_props e) = Ok (le_data e)) as ->.
  { unfold decode_data. change (get (lifecycle_props e) "data")
      with (Some match le_data e with Some o => JObj o | None => JNull end). by destruct (le_data e). }
  cbn [mbind result_bind]. rewrite decode_revision_props, decode_sequence_props by done.
  rewrite (optionalString_props e "actor" (actor e) eq_refl),
    (optionalString_props e "instance" (le_instance e) eq_refl),
    (optionalString_props e "replayid" (replayid e) eq_refl),
    (optionalString_props e "traceparent" (le_traceparent e) eq_refl),
    (optionalString_props e "tracestate" (le_tracestate e) eq_refl).
  by destruct e.
Qed.

Definition sample_event : LifecycleEvent :=
  {| le_id := js "e1"; le_source := js "/ankusa/eu"; le_type := js "io.ankusa.route.updated";
     subject := js "route/01"; time := js "2026-01-01T00:00:00Z"; datacontenttype := Some (js "application/json");
     le_data := Some [(js "id", JStr (js "01")); (js "n", JNum (num_of_Z 3))]; revision := Some (num_of_Z 7);
     actor := None; le_instance := Some (js "eu"); sequence := Some (js "0042"); replayid := None;
     le_traceparent := None; le_tracestate := None |}.

Lemma sample_event_wf : lifecycle_wf sample_event.
Proof.
  split.
  - apply (bool_decide_unpack _). by vm_compute.
  - apply (bool_decide_unpack _). by vm_compute.
  - repeat constructor; intros s [=]; subst; by apply js_units.
  - intros o [= <-]. constructor; [apply (bool_decide_unpack _); by vm_compute|by vm_compute| |].
    + repeat (constructor; [by apply js_units|]). constructor.
    + constructor; [apply OkStr; by apply js_units|]. constructor; [by apply (OkNum 3)|constructor].
  - intros x [= <-]. exists 7. split; [lia|done].
  - intros s [= <-]. by vm_compute.
Qed.

Lemma decode_lifecycle_stringify_witness :
  decodeLifecycle (PText (stringify_lifecycle sample_event)) = Ok sample_event.
Proof. apply (decode_lifecycle_stringify sample_event), sample_event_wf. Defined.

Example lifecycle_refused :
  decodeLifecycle (PText (jq "{'specversion':'1.0','id':'a','source':'s','type':'t','subject':'u','time':'x','revision':0}"))
  = Err (invalid_message invalid_field (Some "revision")).
Proof. by vm_compute. Qed.
