(* ===== verification/Http.v ===== *)
(** * HTTP calls

    The three clients of the SDK call a server through [openapi-fetch], which
    is outside the repository: here it is the class [OpenApiFetch], a function
    from the client's configuration, the calls made so far and a call to an
    outcome.  A client operation threads the list of calls made so far, so what
    was sent, in which order and before which check, is part of its result. *)
From stdpp Require Import base tactics list numbers option strings.
From S2P Require Import Prelude JsNumber JsString Json JsonFacts ClaimRef.
Local Open Scope Z_scope.

(** ** Calls and outcomes *)

Inductive http_method := GET | POST | PUT | PATCH | DELETE.

#[global] Instance http_method_eq_dec : EqDecision http_method.
Proof. solve_decision. Defined.

(** How the body of a successful answer is read: [parseAs], JSON unless given. *)
Inductive parse_as := AsJson | AsText | AsArrayBuffer.

#[global] Instance parse_as_eq_dec : EqDecision parse_as.
Proof. solve_decision. Defined.

Definition parsed_body (p : parse_as) : Type :=
  match p with AsJson => json | AsText => list Z | AsArrayBuffer => list Z end.

(** [http.METHOD(template, { params: { path, query }, body, parseAs, signal })] *)
Record call := {
  c_method : http_method;
  c_template : jstr;
  c_path : list (jstr * jstr);
  c_query : option (list (jstr * json));
  c_body : option json;
  c_parseAs : parse_as;
  c_timeout : num;
}.

(** What [createClient] is given; every client of the SDK asks for
    [redirect: "manual"]. *)
Record client_config := {
  cfg_baseUrl : jstr;
  cfg_headers : list (jstr * jstr);
  cfg_redirect_manual : bool;
}.

(** A call rejects, or answers with the parsed body of a success, the error
    body of a failure (its JSON, or its text; [None] when empty) and the status. *)
Inductive outcome (A : Type) : Type :=
| Rejected (err : thrown)
| Answered (data : option A) (error : option json) (status : Z).
Arguments Rejected {A} err.
Arguments Answered {A} data error status.

Class OpenApiFetch := {
  send : client_config → list call → ∀ c : call, outcome (parsed_body (c_parseAs c));
}.

(** ** Operations as state passing over the calls made *)

Definition http (E A : Type) : Type := list call → result E A * list call.

#[global] Instance http_ret E : MRet (http E) := λ A a h, (Ok a, h).
#[global] Instance http_bind E : MBind (http E) := λ A B f m h,
  match m h with
  | (Ok a, h') => f a h'
  | (Err e, h') => (Err e, h')
  end.

(** A throw, or a return, without a call. *)
Definition lift {E A} (r : result E A) : http E A := λ h, (r, h).

Section calls.
Context `{OpenApiFetch}.

(** [await http.METHOD(...)], its rejection caught. *)
Definition perform {E} (cfg : client_config) (c : call) : http E (outcome (parsed_body (c_parseAs c))) :=
  λ h, (Ok (send cfg h c), h ++ [c]).
End calls.

(** ** Status classes *)

Definition is_2xx (status : Z) : bool := (200 <=? status) && (status <? 300).
Definition is_4xx (status : Z) : bool := (400 <=? status) && (status <? 500).

Lemma status_range (status lo hi : Z) :
  (lo <=? status) && (status <? hi) = bool_decide (lo ≤ status < hi).
Proof.
  apply eq_true_iff_eq. rewrite andb_true_iff, Z.leb_le, Z.ltb_lt, bool_decide_eq_true. done.
Qed.

Lemma eqb_decide (a b : Z) : (a =? b) = bool_decide (a = b).
Proof. by apply eq_true_iff_eq; rewrite Z.eqb_eq, bool_decide_eq_true. Qed.

(** ** The string a template literal makes of a JSON value

    [None] is the [TypeError] of an object with a [toString] property of its
    own. *)
Fixpoint json_display (x : json) : option jstr :=
  match x with
  | JNull => Some (js "null")
  | JBool b => Some (if b then js "true" else js "false")
  | JNum n => Some (num_to_string n)
  | JStr s => Some s
  | JArr l =>
      join_with 44 <$> (fix display_list (l : list json) : option (list jstr) :=
        match l with
        | [] => Some []
        | JNull :: l => ws ← display_list l; Some ([] :: ws)
        | x :: l => w ← json_display x; ws ← display_list l; Some (w :: ws)
        end) l
  | JObj o => match obj_get (js "toString") o with
              | Some _ => None
              | None => Some (js "[object Object]")
              end
  end.

(** JavaScript truthiness; [None] is [undefined]. *)
Definition truthy (x : option json) : bool :=
  match x with
  | None | Some JNull => false
  | Some (JBool b) => b
  | Some (JNum n) => match n with
                     | SpecFloat.S754_zero _ | SpecFloat.S754_nan => false
                     | _ => true
                     end
  | Some (JStr s) => bool_decide (s ≠ [])
  | Some _ => true
  end.

(** [x === "s"] *)
Definition is_string (s : string) (x : option json) : bool :=
  match x with Some (JStr t) => bool_decide (t = js s) | _ => false end.

(** [x ?? null], where [None] also stands for the [null] result. *)
Definition nullish_to_none (x : option json) : option json :=
  match x with Some JNull => None | _ => x end.

(** [error === undefined ? "" : error] *)
Definition error_body (error : option json) : json := default (JStr []) error.

(** [(body && typeof body === "object" ? body : {})], read for its named
    properties: an array has none of them. *)
Definition body_fields (body : json) : list (jstr * json) :=
  match body with JObj o => o | _ => [] end.

Example display_examples :
  json_display (JArr [JNull; JStr (js "a"); JArr [JBool true; JNull]]) = Some (js ",a,true,") ∧
  json_display (JArr [JObj [(js "toString", JNull)]]) = None.
Proof. vm_compute. repeat split. Qed.

(** ** A transport for examples

    It answers every call with the same outcome. *)
Definition fixed_transport (status : Z) (j : option json) (t : option jstr) (b : option bytes) (e : option json) :
    OpenApiFetch :=
  {| send := λ _ _ c,
       match c_parseAs c as p return outcome (parsed_body p) with
       | AsJson => Answered j e status
       | AsText => Answered t e status
       | AsArrayBuffer => Answered b e status
       end |}.

Definition dead_transport (m : string) : OpenApiFetch :=
  {| send := λ _ _ c, Rejected (Thrown (js m)) |}.
