(* ===== verification/Url.v ===== *)
(** * URLs

    [encodeURIComponent], the reading of a percent-encoded segment, and the path
    of a URL as the platform's parser leaves it: dot segments, also the
    percent-encoded ones, are resolved away.  [openapi-fetch] builds the URL of
    a call; it is outside the repository, and the class [CallUrl] says what its
    documentation says: path parameters in OpenAPI's [simple] style and query
    parameters in its [form] style, both through [encodeURIComponent]. *)
From stdpp Require Import base tactics list numbers option strings.
From S2P Require Import Prelude JsNumber JsString Regex Json ClaimRef Http.
Local Open Scope Z_scope.

(** ** [encodeURIComponent] *)

(** Letters, digits and [- _ . ! ~ * ' ( )]. *)
Definition unreserved (c : Z) : bool :=
  cls_word c || bool_decide (c ∈ [46; 33; 126; 42; 39; 40; 41]).

Definition hex_upper (v : Z) : Z := if v <? 10 then 48 + v else 55 + v.

Definition encode_byte (b : Z) : jstr :=
  if unreserved b then [b] else [37; hex_upper (b / 16); hex_upper (b mod 16)].

Definition encode_bytes (bs : bytes) : jstr := bs ≫= encode_byte.

(** [None] is the [URIError] of a lone surrogate. *)
Definition encodeURIComponent (s : jstr) : option jstr :=
  if well_formed s then Some (encode_bytes (utf8_encode s)) else None.

(** ** Reading a segment *)

Definition hex_value (c : Z) : option Z :=
  if (48 <=? c) && (c <=? 57) then Some (c - 48)
  else if (65 <=? c) && (c <=? 70) then Some (c - 55)
  else if (97 <=? c) && (c <=? 102) then Some (c - 87)
  else None.

(** The bytes a percent-encoded text stands for; a [%] that no two hex digits
    follow stands for itself. *)
Fixpoint percent_decode (s : jstr) : bytes :=
  match s with
  | [] => []
  | c :: s1 =>
      match s1 with
      | a :: b :: s2 =>
          match (if c =? 37 then hex_value a else None), hex_value b with
          | Some x, Some y => x * 16 + y :: percent_decode s2
          | _, _ => c :: percent_decode s1
          end
      | _ => c :: percent_decode s1
      end
  end.

(** ** The path state of the URL parser *)

Definition single_dots : list jstr := [js "."; js "%2e"; js "%2E"].
Definition double_dots : list jstr := a ← single_dots; b ← single_dots; [a ++ b].

(** The segments read so far, last first, and the segments to read. *)
Fixpoint path_state (acc segments : list jstr) : list jstr :=
  match segments with
  | [] => reverse acc
  | s :: rest =>
      let close acc := match rest with [] => [] :: acc | _ => acc end in
      if bool_decide (s ∈ double_dots) then path_state (close (tail acc)) rest
      else if bool_decide (s ∈ single_dots) then path_state (close acc) rest
      else path_state (s :: acc) rest
  end.

(** The path of [origin ++ p], for [p] from its leading slash on. *)
Definition pathname (p : jstr) : jstr := path_state [] (tail (split_on 47 p)) ≫= λ s, 47 :: s.

(** ** The URL of a call *)

(** A template's segment: a literal, or [{name}]. *)
Definition placeholder (segment : jstr) : option jstr :=
  match segment with
  | 123 :: s => match reverse s with 125 :: n => Some (reverse n) | _ => None end
  | _ => None
  end.

Fixpoint param (name : jstr) (ps : list (jstr * jstr)) : option jstr :=
  match ps with
  | [] => None
  | (n, v) :: ps => if decide (n = name) then Some v else param name ps
  end.

Definition fill_segment (ps : list (jstr * jstr)) (segment : jstr) : option jstr :=
  match placeholder segment ≫= λ n, param n ps with
  | Some v => encodeURIComponent v
  | None => Some segment
  end.

Definition fill_template (template : jstr) (ps : list (jstr * jstr)) : option jstr :=
  join_with 47 <$> mapM (fill_segment ps) (split_on 47 template).

(** A query value that is no list and no object; [null] is left out. *)
Definition query_part (kv : jstr * json) : option (option jstr) :=
  match kv.2 with
  | JNull => Some None
  | JArr _ | JObj _ => None
  | v => t ← json_display v; e ← encodeURIComponent t; Some (Some (kv.1 ++ js "=" ++ e))
  end.

Definition form_query (q : option (list (jstr * json))) : option jstr :=
  parts ← mapM query_part (default [] q);
  match omap id parts with
  | [] => Some []
  | ps => Some (63 :: join_with 38 ps)
  end.

(** The request target: path and query. *)
Definition simple_target (c : call) : option jstr :=
  p ← fill_template (c_template c) (c_path c);
  q ← form_query (c_query c);
  Some (pathname p ++ q).

Definition plain_query (c : call) : Prop :=
  Forall (λ kv, match kv.2 with JArr _ | JObj _ => False | _ => True end) (default [] (c_query c)).

(** [None] when the call throws before a request is made. *)
Class CallUrl := {
  target : call → option jstr;
  target_simple c : plain_query c → target c = simple_target c;
}.

(** ** Lemmas: encoding *)

(** What a byte is encoded to, checked on all of them. *)
Definition byte_encoding_ok (b : Z) : bool :=
  match encode_byte b with
  | [c] => (c =? b) && negb (c =? 37) && negb (c =? 47)
  | [c; x; y] =>
      (c =? 37) && bool_decide ((hx ← hex_value x; hy ← hex_value y; Some (hx * 16 + hy)) = Some b) &&
      negb (x =? 47) && negb (y =? 47)
  | _ => false
  end.

Lemma byte_encodings : forallb byte_encoding_ok (seqZ 0 256) = true.
Proof. by vm_compute. Qed.

Lemma encode_byte_cases b :
  byte_ok b →
  (encode_byte b = [b] ∧ b ≠ 37 ∧ b ≠ 47) ∨
  ∃ x y hx hy, encode_byte b = [37; x; y] ∧ hex_value x = Some hx ∧ hex_value y = Some hy ∧
    hx * 16 + hy = b ∧ x ≠ 47 ∧ y ≠ 47.
Proof.
  intros Hb. pose proof byte_encodings as H. rewrite forallb_Forall_iff, Forall_forall in H.
  specialize (H b). unfold byte_encoding_ok in H.
  assert (b ∈ seqZ 0 256) as Hin by (apply elem_of_seqZ; unfold byte_ok in Hb; lia).
  specialize (H Hin). destruct (encode_byte b) as [|c [|x [|y [|]]]]; try done.
  - left. bool_inv. by subst.
  - right. bool_inv. destruct (hex_value x) as [hx|] eqn:Ex, (hex_value y) as [hy|] eqn:Ey; try done.
    simplify_eq/=. eauto 10.
Qed.

Lemma percent_decode_encode bs : Forall byte_ok bs → percent_decode (encode_bytes bs) = bs.
Proof.
  induction 1 as [|b bs Hb _ IH]; [done|]. unfold encode_bytes. cbn [mbind list_bind]. fold (encode_bytes bs).
  destruct (encode_byte_cases b Hb) as [(-> & Hp & _)|(x & y & hx & hy & -> & Ex & Ey & <- & _)]; cbn.
  - rewrite (proj2 (Z.eqb_neq b 37) Hp). fold (encode_bytes bs).
    destruct (encode_bytes bs) as [|? [|]]; by rewrite <-IH.
  - rewrite Ex, Ey. f_equal. exact IH.
Qed.

Lemma encode_bytes_slash bs : Forall byte_ok bs → 47 ∉ encode_bytes bs.
Proof.
  induction 1 as [|b bs Hb _ IH]; [apply not_elem_of_nil|]. unfold encode_bytes. cbn [mbind list_bind].
  rewrite elem_of_app. intros [Hin|Hin]; [|done]. revert Hin.
  destruct (encode_byte_cases b Hb) as [(-> & _ & Hs)|(x & y & hx & hy & -> & _ & _ & _ & Hx & Hy)];
    rewrite !elem_of_cons, elem_of_nil; naive_solver.
Qed.

(** A string is read back from its encoding, which is one path segment. *)
Lemma encodeURIComponent_spec s :
  Forall unit_ok s → well_formed s = true →
  ∃ e, encodeURIComponent s = Some e ∧ 47 ∉ e ∧ utf8_decode (percent_decode e) = s.
Proof.
  intros Hs Hw. unfold encodeURIComponent. rewrite Hw. eexists. split; [done|].
  pose proof (utf8_encode_bytes s Hs) as Hb. split; [by apply encode_bytes_slash|].
  rewrite percent_decode_encode by done. by apply utf8_decode_encode.
Qed.

(** Word characters stand for themselves. *)
Lemma encodeURIComponent_word s : Forall (λ c, cls_word c = true) s → encodeURIComponent s = Some s.
Proof.
  intros Hs.
  assert (Forall (λ c, is_ascii c = true) s) as Ha.
  { eapply Forall_impl; [exact Hs|]. intros c. unfold cls_word, cls_or, cls_digit, cls_upper, cls_lower, cls_between, is_ascii.
    zbool; cbn; try congruence; lia. }
  unfold encodeURIComponent. rewrite utf8_encode_ascii by done.
  assert (well_formed s = true) as ->.
  { clear Hs. induction Ha as [|c s Hc _ IH]; [done|]. unfold is_ascii in Hc. bool_inv. cbn [well_formed].
    unfold is_high, is_low. rewrite (proj2 (Z.leb_gt 55296 c)), (proj2 (Z.leb_gt 56320 c)) by lia. exact IH. }
  f_equal. clear Ha. induction Hs as [|c s Hc _ IH]; [done|].
  unfold encode_bytes. cbn [mbind list_bind]. unfold encode_byte at 1, unreserved. rewrite Hc. cbn. f_equal. exact IH.
Qed.
