(* ===== verification/JsValue.v ===== *)
(** * Values read without a type

    What the checker and the workers do with parsed JSON whose shape nothing
    guarantees: reading properties, iterating, [Set] and [Map], deep equality
    ([util.isDeepStrictEqual]) and sorting strings.  An absent property is
    [None]; a [TypeError] is an [Err]. *)
From stdpp Require Import base tactics list numbers option strings sorting sets.
From S2P Require Import Prelude JsNumber JsString Json JsonFacts ClaimRef Http.
Local Open Scope Z_scope.

(** ** Properties and iteration *)

Definition TypeError (m : string) : thrown := Thrown (js m).

(** [x.k] for a name [k] that no prototype has. *)
Definition prop (x : option json) (k : string) : result thrown (option json) :=
  match x with
  | None => Err (TypeError "Cannot read properties of undefined")
  | Some JNull => Err (TypeError "Cannot read properties of null")
  | Some (JObj o) => Ok (obj_get (js k) o)
  | Some _ => Ok None
  end.

(** [x ?? d] *)
Definition nullish (x : option json) (d : json) : json :=
  match x with None | Some JNull => d | Some v => v end.

(** [k in x] for a name [k] that no prototype has. *)
Definition has_key (k : jstr) (x : json) : result thrown bool :=
  match x with
  | JObj o => Ok (bool_decide (is_Some (obj_get k o)))
  | JArr l => Ok (match array_index k with Some i => i <? Z.of_nat (length l) | None => false end)
  | _ => Err (TypeError "Cannot use 'in' operator to search in a primitive")
  end.

(** The characters a string iterates over: code points, a lone surrogate being
    one by itself. *)
Fixpoint characters (s : jstr) : list jstr :=
  match s with
  | [] => []
  | h :: rest =>
      match rest with
      | l :: rest' => if is_high h && is_low l then [h; l] :: characters rest' else [h] :: characters rest
      | [] => [[h]]
      end
  end.

(** What [for (... of x)], [...x] and destructuring iterate over. *)
Definition iterate (x : option json) : result thrown (list json) :=
  match x with
  | Some (JArr l) => Ok l
  | Some (JStr s) => Ok (map JStr (characters s))
  | _ => Err (TypeError "is not iterable")
  end.

(** [Object.keys(x)] *)
Definition object_keys (x : option json) : result thrown (list jstr) :=
  match x with
  | None | Some JNull => Err (TypeError "Cannot convert undefined or null to object")
  | Some (JObj o) => Ok (enumerate o).*1
  | Some (JArr l) => Ok (map (λ i, dec_of_nat (Z.of_nat i)) (seq 0 (length l)))
  | Some (JStr s) => Ok (map (λ i, dec_of_nat (Z.of_nat i)) (seq 0 (length s)))
  | Some _ => Ok []
  end.

(** [`${x}`] *)
Definition template (x : option json) : result thrown jstr :=
  match x with
  | None => Ok (js "undefined")
  | Some v => or_throw (json_display v) (TypeError "Cannot convert object to primitive value")
  end.

(** ** [Set] and [Map]

    A value of an object type is a fresh object wherever it was parsed, equal
    to no other key. *)
Definition same_value (x y : option json) : bool :=
  match x, y with
  | None, None => true
  | Some JNull, Some JNull => true
  | Some (JBool a), Some (JBool b) => Bool.eqb a b
  | Some (JNum a), Some (JNum b) => num_eq a b
  | Some (JStr a), Some (JStr b) => bool_decide (a = b)
  | _, _ => false
  end.

Definition set_has (x : option json) (l : list (option json)) : bool := existsb (same_value x) l.
Definition set_add (x : option json) (l : list (option json)) : list (option json) :=
  if set_has x l then l else l ++ [x].

(** A [Map] as its entries in insertion order. *)
Fixpoint map_get {V} (x : option json) (m : list (option json * V)) : option V :=
  match m with
  | [] => None
  | (k, v) :: m => if same_value x k then Some v else map_get x m
  end.

Fixpoint map_set {V} (x : option json) (v : V) (m : list (option json * V)) : list (option json * V) :=
  match m with
  | [] => [(x, v)]
  | (k, v') :: m => if same_value x k then (k, v) :: m else (k, v') :: map_set x v m
  end.

(** ** [isDeepStrictEqual] on parsed values

    Numbers are compared by [Object.is], objects by their own properties in any
    order. *)
Fixpoint deep_equal (x y : json) {struct x} : bool :=
  match x, y with
  | JNull, JNull => true
  | JBool a, JBool b => Bool.eqb a b
  | JNum a, JNum b => bool_decide (a = b)
  | JStr a, JStr b => bool_decide (a = b)
  | JArr l, JArr l' =>
      (fix all2 (l l' : list json) : bool :=
         match l, l' with
         | [], [] => true
         | v :: l, w :: l' => deep_equal v w && all2 l l'
         | _, _ => false
         end) l l'
  | JObj o, JObj o' =>
      (length o =? length o')%nat &&
      (fix sub (o : list (jstr * json)) : bool :=
         match o with
         | [] => true
         | (k, v) :: o => match obj_get k o' with Some w => deep_equal v w && sub o | None => false end
         end) o
  | _, _ => false
  end.

(** [isDeepStrictEqual] of two property values, which may be absent. *)
Definition deep_equal_opt (x y : option json) : bool :=
  match x, y with
  | None, None => true
  | Some v, Some w => deep_equal v w
  | _, _ => false
  end.

(** ** [Array.prototype.sort] on strings: by code units *)
Fixpoint str_leb (s t : jstr) : bool :=
  match s, t with
  | [], _ => true
  | _ :: _, [] => false
  | a :: s, b :: t => (a <? b) || ((a =? b) && str_leb s t)
  end.

Definition str_le (s t : jstr) : Prop := str_leb s t = true.

#[global] Instance str_le_dec : RelDecision str_le.
Proof. intros s t. unfold str_le. apply _. Defined.

Definition sort_strings (l : list (list Z)) : list (list Z) := merge_sort str_le l.

(** ** Lemmas on sorting *)

#[global] Instance str_le_total : Total str_le.
Proof.
  intros s. unfold str_le. induction s as [|a s IH]; intros [|b t]; cbn; auto.
  specialize (IH t). destruct (Z.lt_trichotomy a b) as [H|[->|H]].
  - left. by rewrite (proj2 (Z.ltb_lt a b)).
  - rewrite Z.eqb_refl, Z.ltb_irrefl. done.
  - right. by rewrite (proj2 (Z.ltb_lt b a)).
Qed.

#[global] Instance str_le_trans : Transitive str_le.
Proof.
  intros s. unfold str_le. induction s as [|a s IH]; intros [|b t] [|c u]; cbn; try done.
  rewrite !orb_true_iff, !andb_true_iff, !Z.ltb_lt, !Z.eqb_eq.
  intros [H|[-> H]] [H'|[-> H']]; [left; lia|by left|by left|]. right. split; [done|]. by eapply IH.
Qed.

#[global] Instance str_le_antisymm : AntiSymm (=) str_le.
Proof.
  intros s. unfold str_le. induction s as [|a s IH]; intros [|b t]; cbn; try done.
  rewrite !orb_true_iff, !andb_true_iff, !Z.ltb_lt, !Z.eqb_eq.
  intros [H|[-> H]] [H'|[Hb H']]; try lia. f_equal. by apply IH.
Qed.

Lemma sort_strings_perm l : sort_strings l ≡ₚ l.
Proof. apply merge_sort_Permutation. Qed.

Lemma sort_strings_sorted l : StronglySorted str_le (sort_strings l).
Proof. apply StronglySorted_merge_sort; apply _. Qed.

(** The order of the input does not matter. *)
#[global] Instance sort_strings_proper : Proper ((≡ₚ) ==> (=)) sort_strings.
Proof.
  intros l l' Hl. apply (StronglySorted_unique str_le); [apply sort_strings_sorted..|].
  by rewrite !sort_strings_perm.
Qed.

(** ** Lemmas on [Set] and [Map] *)

Lemma set_has_true x l : set_has x l = true ↔ ∃ y, y ∈ l ∧ same_value x y = true.
Proof. unfold set_has. rewrite existsb_exists. by setoid_rewrite list_elem_of_In. Qed.

(** Keys are compared through a normal form: [-0] is [0], and [NaN], arrays and
    objects have none. *)
Definition num_key (a : num) : option num :=
  match a with
  | SpecFloat.S754_zero _ => Some (SpecFloat.S754_zero false)
  | SpecFloat.S754_nan => None
  | _ => Some a
  end.

Definition key_of_value (x : option json) : option (option json) :=
  match x with
  | Some (JNum a) => (λ b, Some (JNum b)) <$> num_key a
  | Some (JArr _) | Some (JObj _) => None
  | _ => Some x
  end.

Lemma num_eq_key a b : num_eq a b = true ↔ ∃ c, num_key a = Some c ∧ num_key b = Some c.
Proof.
  unfold num_eq, SpecFloat.SFeqb.
  destruct a as [[]|[]| |[] m e], b as [[]|[]| |[] m' e']; cbn;
    try (by split; [eauto|intros (? & [=] & [=]); congruence]).
  all: destruct (Z.compare_spec e e') as [->| |]; cbn; try (by split; [done|intros (? & [= <-] & [= <-]); lia]).
  all: change (Pos.compare_cont Eq m m') with (Pos.compare m m').
  all: destruct (Pos.compare_spec m m') as [->| |]; cbn;
    [by split; [eauto|]|by split; [done|intros (? & [= <-] & [= <-]); lia]..].
Qed.

Lemma same_value_key x y :
  same_value x y = true ↔ ∃ c, key_of_value x = Some c ∧ key_of_value y = Some c.
Proof.
  destruct x as [[|a|a|a|a|a]|], y as [[|b|b|b|b|b]|]; cbn [same_value key_of_value];
    rewrite ?num_eq_key, ?bool_decide_eq_true, ?Bool.eqb_true_iff;
    try (split; [intros; simplify_eq; eauto|intros (? & Hx & Hy); try destruct (num_key _); simplify_eq/=; done]).
  destruct (num_key a), (num_key b); cbn; split; intros (? & ? & ?); simplify_eq; eauto.
Qed.

Lemma same_value_sym x y : same_value x y = true → same_value y x = true.
Proof. rewrite !same_value_key. naive_solver. Qed.

Lemma same_value_trans x y z : same_value x y = true → same_value y z = true → same_value x z = true.
Proof. rewrite !same_value_key. naive_solver. Qed.

Lemma same_value_str s x : same_value (Some (JStr s)) x = true ↔ x = Some (JStr s).
Proof. destruct x as [[| | |t| |]|]; cbn; rewrite ?bool_decide_eq_true; naive_solver. Qed.

Lemma same_value_refl x : is_Some (key_of_value x) → same_value x x = true.
Proof. intros [c Hc]. apply same_value_key. eauto. Qed.

Lemma set_has_add x y l : set_has x (set_add y l) = set_has x l || same_value x y.
Proof.
  unfold set_add. destruct (set_has y l) eqn:Hy.
  - destruct (same_value x y) eqn:E; [|by rewrite orb_false_r]. rewrite orb_true_r.
    apply set_has_true in Hy as (z & Hz & Hyz). apply set_has_true. eauto using same_value_trans.
  - unfold set_has. rewrite existsb_app. cbn. by rewrite orb_false_r.
Qed.

Section maps.
Context {V : Type}.
Implicit Types (m : list (option json * V)).

Lemma map_get_same x y m : same_value x y = true → map_get x m = map_get y m.
Proof.
  intros Hxy. induction m as [|[k v] m IH]; cbn; [done|]. rewrite IH.
  destruct (same_value x k) eqn:Ex, (same_value y k) eqn:Ey; try done.
  - by rewrite (same_value_trans y x k) in Ey by auto using same_value_sym.
  - by rewrite (same_value_trans x y k) in Ex.
Qed.

Lemma map_get_set x y v m :
  is_Some (key_of_value y) →
  map_get x (map_set y v m) = if same_value x y then Some v else map_get x m.
Proof.
  intros Hy. induction m as [|[k w] m IH]; cbn; [done|].
  destruct (same_value y k) eqn:Eyk; cbn.
  - destruct (same_value x k) eqn:Exk.
    + by rewrite (same_value_trans x k y) by auto using same_value_sym.
    + destruct (same_value x y) eqn:Exy; [|done]. by rewrite (same_value_trans x y k) in Exk.
  - rewrite IH. destruct (same_value x k) eqn:Exk; [|done].
    destruct (same_value x y) eqn:Exy; [|done].
    by rewrite (same_value_trans y x k) in Eyk by auto using same_value_sym.
Qed.

Lemma map_set_keys x v m :
  (map_set x v m).*1 = if set_has x m.*1 then m.*1 else m.*1 ++ [x].
Proof.
  induction m as [|[k w] m IH]; cbn; [done|]. destruct (same_value x k); cbn; [done|].
  rewrite IH. unfold set_has. by destruct (existsb _ _).
Qed.

(** Distinct keys find their own entries. *)
Lemma map_get_elem k v m :
  ForallOrdPairs (λ x y, same_value y x = false) m.*1 → is_Some (key_of_value k) → (k, v) ∈ m → map_get k m = Some v.
Proof.
  induction m as [|[k' w] m IH]; cbn; [set_solver|]. intros Hd Hk Hin. inversion_clear Hd as [|?? Hall Hd'].
  apply elem_of_cons in Hin as [[= -> ->]|Hin]; [by rewrite same_value_refl|].
  rewrite List.Forall_forall in Hall. rewrite (Hall k); [by apply IH|].
  apply list_elem_of_In. apply (list_elem_of_fmap_2 fst _ _ Hin).
Qed.

Lemma map_set_elem x v m kv : kv ∈ map_set x v m → kv.2 = v ∨ kv ∈ m.
Proof.
  induction m as [|[k w] m IH]; cbn; [set_solver|]. destruct (same_value x k); set_solver.
Qed.
End maps.

(** ** Deep equality is equality of property maps *)

Inductive json_same : json → json → Prop :=
| SameNull : json_same JNull JNull
| SameBool b : json_same (JBool b) (JBool b)
| SameNum x : json_same (JNum x) (JNum x)
| SameStr s : json_same (JStr s) (JStr s)
| SameArr l l' : Forall2 json_same l l' → json_same (JArr l) (JArr l')
| SameObj o o' :
    (∀ k, option_Forall2 json_same (obj_get k o) (obj_get k o')) → json_same (JObj o) (JObj o').

Lemma deep_equal_arr l l' :
  deep_equal (JArr l) (JArr l') = true ↔ Forall2 (λ v w, deep_equal v w = true) l l'.
Proof.
  cbn. revert l'. induction l as [|v l IH]; intros [|w l']; try (split; [done|inversion 1]); [done|].
  rewrite andb_true_iff, IH, Forall2_cons. done.
Qed.

Lemma deep_equal_obj o o' :
  deep_equal (JObj o) (JObj o') = true ↔
  length o = length o' ∧ Forall (λ kv, ∃ w, obj_get kv.1 o' = Some w ∧ deep_equal kv.2 w = true) o.
Proof.
  cbn. rewrite andb_true_iff, Nat.eqb_eq. apply and_iff_compat_l.
  induction o as [|[k v] o IH]; [split; [constructor|done]|]. rewrite Forall_cons, <-IH. cbn.
  destruct (obj_get k o') as [w|]; [rewrite andb_true_iff|]; naive_solver.
Qed.

(** Objects with distinct keys and as many of them: one inclusion is enough. *)
Lemma keys_included (o o' : list (jstr * json)) :
  NoDup o.*1 → NoDup o'.*1 → length o = length o' → (∀ k, k ∈ o.*1 → k ∈ o'.*1) → ∀ k, k ∈ o.*1 ↔ k ∈ o'.*1.
Proof.
  intros Ho Ho' Hlen Hsub k. assert (o.*1 ≡ₚ o'.*1) as ->; [|done].
  apply submseteq_length_Permutation; [by apply NoDup_submseteq|]. by rewrite !length_fmap, Hlen.
Qed.

Lemma same_obj_keys (R : json → json → Prop) o o' :
  (∀ k, option_Forall2 R (obj_get k o) (obj_get k o')) → ∀ k, k ∈ o.*1 ↔ k ∈ o'.*1.
Proof.
  intros HR k. specialize (HR k).
  assert (obj_get k o = None ↔ obj_get k o' = None) as Hn by (destruct HR; done).
  rewrite !obj_get_None in Hn. destruct (decide (k ∈ o.*1)), (decide (k ∈ o'.*1)); tauto.
Qed.

(** The same for objects whose values are related by [deep_equal]. *)
Lemma deep_equal_obj_maps o o' :
  obj_wf o → obj_wf o' →
  deep_equal (JObj o) (JObj o') = true ↔
  ∀ k, option_Forall2 (λ v w, deep_equal v w = true) (obj_get k o) (obj_get k o').
Proof.
  intros (Hnd & _)%obj_wf_inv (Hnd' & _)%obj_wf_inv. rewrite deep_equal_obj, Forall_forall. split.
  - intros [Hlen Hall] k.
    assert (∀ k, k ∈ o.*1 ↔ k ∈ o'.*1) as Hk.
    { apply keys_included; [done..|]. intros k' ([k1 v] & -> & Hin)%list_elem_of_fmap.
      destruct (Hall _ Hin) as (w & Hg & _). apply obj_get_Some_elem in Hg. apply (list_elem_of_fmap_2 fst _ _ Hg). }
    destruct (obj_get k o) as [v|] eqn:E.
    + apply obj_get_Some_elem in E. destruct (Hall _ E) as (w & Hg & Hd). cbn in Hg, Hd. rewrite Hg. by constructor.
    + apply obj_get_None in E. rewrite Hk in E. apply obj_get_None in E as ->. constructor.
  - intros HR. split.
    + rewrite <-(length_fmap fst o), <-(length_fmap fst o').
      apply Permutation_length, NoDup_Permutation; [done..|]. by eapply same_obj_keys.
    + intros [k v] Hin. specialize (HR k). rewrite (obj_get_NoDup k v) in HR by done.
      inversion HR as [? w Hvw|]. by exists w.
Qed.

Lemma deep_equal_same v w : json_wf v → json_wf w → deep_equal v w = true ↔ json_same v w.
Proof.
  revert w. induction v as [|b|x|s|l IH|o IH] using json_nested_ind; intros w Hv Hw.
  1-4: destruct w; cbn; try (split; [done|inversion 1]);
    rewrite ?Bool.eqb_true_iff, ?bool_decide_eq_true;
    split; [intros; subst; constructor|inversion 1; done].
  - destruct w as [| | | |l'|]; try (split; [done|inversion 1]).
    rewrite deep_equal_arr. inversion_clear Hv as [| | | |? Hl|]. inversion_clear Hw as [| | | |? Hl'|].
    trans (Forall2 json_same l l'); [|split; [by constructor|by inversion 1]].
    revert l' Hl'. induction IH as [|v l Hv IHl IHs]; intros l' Hl'; [by split; inversion 1; constructor|].
    inversion_clear Hl as [|?? Hv1 Hl1]. destruct Hl' as [|w l' Hw Hl']; [by split; inversion 1|].
    rewrite !Forall2_cons, Hv, IHs by done. done.
  - destruct w as [| | | | |o']; try (split; [done|inversion 1]).
    inversion_clear Hv as [| | | | |? Ho]. inversion_clear Hw as [| | | | |? Ho'].
    rewrite deep_equal_obj_maps by done. rewrite Forall_forall in IH.
    trans (∀ k, option_Forall2 json_same (obj_get k o) (obj_get k o')); [|split; [by constructor|by inversion 1]].
    apply forall_proper. intros k. destruct (obj_get k o) as [v|] eqn:E, (obj_get k o') as [w|] eqn:E';
      try (split; inversion 1; by constructor).
    specialize (IH _ (obj_get_Some_elem _ _ _ E) w (obj_get_wf _ _ _ Ho E) (obj_get_wf _ _ _ Ho' E')).
    split; inversion 1; constructor; by apply IH.
Qed.

#[global] Instance json_same_refl : Reflexive json_same.
Proof.
  intros v. induction v as [|b|x|s|l IH|o IH] using json_nested_ind; constructor.
  - by induction IH; constructor.
  - intros k. destruct (obj_get k o) as [v|] eqn:E; constructor.
    rewrite Forall_forall in IH. apply (IH _ (obj_get_Some_elem _ _ _ E)).
Qed.

Lemma deep_equal_refl v : json_wf v → deep_equal v v = true.
Proof. intros Hv. by apply deep_equal_same. Qed.
