(* ===== verification/ConformanceCases.v ===== *)
(** * The conformance vectors ([conformance/check.mjs], first part)

    The checker reads the registry of features and operations, every case file
    and the registry of SDKs, and collects what is wrong with them in one list
    of errors; an empty list lets it go on.  [errors] is the state of the
    monad; the sets and maps of the script are passed along. *)
From stdpp Require Import base tactics list numbers option strings sets sorting.
From S2P Require Import Prelude JsNumber JsString Json JsonFacts ClaimRef Http JsValue.
Local Open Scope Z_scope.

(** ** Files *)

(** [readFileSync(url, "utf8")]; [None] is a file that cannot be read. *)
Definition read_text (file : option bytes) : result thrown jstr :=
  utf8_decode <$> or_throw file (Thrown (js "ENOENT: no such file or directory")).

Definition readJson (file : option bytes) : result thrown json :=
  text ← read_text file;
  or_throw (json_parse text) (Thrown (js "Unexpected token in JSON")).

(** What the checker finds on disk: the two registries, the case files and the
    entries of [packages/] with whether each is a directory. *)
Record repository := {
  features_json : option bytes;
  sdks_json : option bytes;
  case_dir : list (list Z * option (list Z));
  package_dir : list (list Z * bool);
}.

(** ** Errors *)

Abbreviation checking := (eff (list (list Z)) thrown) (only parsing).

Definition report (message : jstr) : checking unit := modify (λ errors, errors ++ [message]).

(** [errors.push(message)] under a condition; the message is built only then. *)
Definition report_if (b : bool) (message : result thrown jstr) : checking unit :=
  if b then m ← pure message; report m else mret tt.

(** [`before${x}after`] *)
Definition with_value (before : string) (x : option json) (after : jstr) : result thrown jstr :=
  s ← template x;
  Ok (jq before ++ s ++ after).

(** [`case "${c.id}" (${file}): before${x}after`] *)
Definition of_case (id : option json) (file : jstr) (rest : result thrown jstr) : result thrown jstr :=
  s ← template id;
  r ← rest;
  Ok (jq "case '" ++ s ++ jq "' (" ++ file ++ js "): " ++ r).

(** ** Features *)

Fixpoint check_features (featureIds : list (option json)) (features : list json) : checking (list (option json)) :=
  match features with
  | [] => mret featureIds
  | feature :: features =>
      id ← pure (prop (Some feature) "id");
      _ ← report_if (set_has id featureIds) (with_value "duplicate feature id '" id (jq "'"));
      check_features (set_add id featureIds) features
  end.

(** ** Cases *)

Definition FIELDS : list string := ["id"; "feature"; "operation"; "input"; "expect"].

Definition PERMANENT_ERRORS : list string := ["InvalidMessageError"; "InvalidSignatureError"].

(** [raw !== null && typeof raw === "object" ? raw : {}]; an array has none of
    the fields. *)
Definition case_object (raw : json) : list (jstr * json) :=
  match raw with JObj o => o | _ => [] end.

Fixpoint check_fields (file : jstr) (i : nat) (c : list (jstr * json)) (fields : list string) : checking unit :=
  match fields with
  | [] => mret tt
  | field :: fields =>
      _ ← report_if (bool_decide (obj_get (js field) c = None))
            (Ok (js "case #" ++ dec_of_nat (Z.of_nat i) ++ js " (" ++ file ++ jq "): missing '" ++ js field ++ jq "'"));
      check_fields file i c fields
  end.

(** [x?.k] *)
Definition maybe_prop (x : option json) (k : string) : result thrown (option json) :=
  match x with None | Some JNull => Ok None | _ => prop x k end.

(** The two checks of an expected error. *)
Definition check_error (id : option json) (file : jstr) (error : option json) : checking unit :=
  cls ← pure (maybe_prop error "class");
  match cls with
  | Some (JStr name) =>
      if existsb (λ e, bool_decide (name = js e)) PERMANENT_ERRORS then
        retryable ← pure (prop error "retryable");
        report_if (match retryable with Some (JBool false) => false | _ => true end)
          (of_case id file
             (Ok (name ++ js " is permanent (docs/delivery.md, Consumer failure policy): expect.error.retryable must be false")))
      else mret tt
  | _ => report_if true (of_case id file (Ok (js "expect.error.class must be a string")))
  end.

Definition check_expect (id : option json) (file : jstr) (value : json) : checking unit :=
  let expect := nullish (Some value) (JObj []) in
  hasOk ← pure (has_key (js "ok") expect);
  hasError ← pure (has_key (js "error") expect);
  if Bool.eqb hasOk hasError then
    report_if true (of_case id file (Ok (jq "expect must have exactly one of 'ok' or 'error'")))
  else if negb hasError then mret tt
  else error ← pure (prop (Some expect) "error"); check_error id file error.

(** The map of how many cases each feature has. *)
Abbreviation counts := (list (option json * Z)) (only parsing).

Definition count_case (feature : option json) (caseCounts : counts) : counts :=
  map_set feature (default 0 (map_get feature caseCounts) + 1) caseCounts.

Section cases.
Context (featureIds operations : list (option json)).

Definition check_feature (id : option json) (file : jstr) (feature : option json) (caseCounts : counts) :
    checking counts :=
  match feature with
  | None => mret caseCounts
  | Some _ =>
      if set_has feature featureIds then mret (count_case feature caseCounts)
      else
        _ ← report_if true (of_case id file (with_value "unknown feature '" feature (jq "'")));
        mret caseCounts
  end.

Definition check_operation (id : option json) (file : jstr) (operation : option json) : checking unit :=
  match operation with
  | None => mret tt
  | Some _ =>
      report_if (negb (set_has operation operations))
        (of_case id file (with_value "unknown operation '" operation (jq "'")))
  end.

Record tally := {
  seenCaseIds : list (option json);
  caseCounts : list (option json * Z);
  caseCount : Z;
}.

(** The callback of [cases.forEach]. *)
Definition check_case (file : jstr) (i : nat) (raw : json) (t : tally) : checking tally :=
  let c := case_object raw in
  _ ← check_fields file i c FIELDS;
  match obj_get (js "id") c with
  | None => mret {| seenCaseIds := seenCaseIds t; caseCounts := caseCounts t; caseCount := caseCount t + 1 |}
  | Some v =>
      let id := Some v in
      _ ← report_if (set_has id (seenCaseIds t)) (with_value "duplicate case id '" id (jq "' (" ++ file ++ js ")"));
      counted ← check_feature id file (obj_get (js "feature") c) (caseCounts t);
      _ ← check_operation id file (obj_get (js "operation") c);
      _ ← match obj_get (js "expect") c with None => mret tt | Some value => check_expect id file value end;
      mret {| seenCaseIds := set_add id (seenCaseIds t); caseCounts := counted; caseCount := caseCount t + 1 |}
  end.

Fixpoint check_cases (file : jstr) (i : nat) (cases : list json) (t : tally) : checking tally :=
  match cases with
  | [] => mret t
  | raw :: cases => t' ← check_case file i raw t; check_cases file (S i) cases t'
  end.

(** [readJson(...).cases ?? []], which must have a [forEach]. *)
Definition cases_of (file : option bytes) : result thrown (list json) :=
  j ← readJson file;
  cs ← prop (Some j) "cases";
  match nullish cs (JArr []) with
  | JArr l => Ok l
  | _ => Err (TypeError "cases.forEach is not a function")
  end.

Fixpoint check_files (files : list (jstr * option bytes)) (t : tally) : checking tally :=
  match files with
  | [] => mret t
  | (file, content) :: files =>
      cases ← pure (cases_of content);
      t' ← check_cases file 0 cases t;
      check_files files t'
  end.
End cases.

(** ** Coverage and registration *)

Fixpoint check_covered (caseCounts : counts) (features : list json) : checking unit :=
  match features with
  | [] => mret tt
  | feature :: features =>
      id ← pure (prop (Some feature) "id");
      _ ← report_if (bool_decide (map_get id caseCounts = None)) (with_value "feature '" id (jq "' has no cases"));
      check_covered caseCounts features
  end.

(** [name in sdksFile.sdks] *)
Definition registered (sdksFile : json) (name : jstr) : result thrown bool :=
  sdks ← prop (Some sdksFile) "sdks";
  match sdks with
  | None => Err (TypeError "Cannot use 'in' operator to search in undefined")
  | Some x => has_key name x
  end.

Fixpoint check_packages (sdksFile : json) (names : list jstr) : checking unit :=
  match names with
  | [] => mret tt
  | name :: names =>
      known ← pure (registered sdksFile name);
      _ ← report_if (negb known) (Ok (js "packages/" ++ name ++ js " is not registered in conformance/sdks.json"));
      check_packages sdksFile names
  end.

Fixpoint check_registry (packageNames : list jstr) (names : list jstr) : checking unit :=
  match names with
  | [] => mret tt
  | name :: names =>
      _ ← report_if (bool_decide (name ∉ packageNames))
            (Ok (js "conformance/sdks.json registers " ++ name ++ js ", but packages/" ++ name ++ js " does not exist"));
      check_registry packageNames names
  end.

(** ** The whole validation *)

Definition ends_with (suffix s : jstr) : bool := starts_with (reverse suffix) (reverse s).

(** [readdirSync(cases).filter(...).sort()], each name with its content. *)
Definition case_files (r : repository) : list (jstr * option bytes) :=
  map (λ name, (name, obj_get name (case_dir r) ≫= id))
    (sort_strings (List.filter (ends_with (js ".json")) (case_dir r).*1)).

Definition package_names (r : repository) : list jstr :=
  (List.filter (λ entry, entry.2 && starts_with (js "sdk-") entry.1) (package_dir r)).*1.

(** [new Set(values)] *)
Definition new_set (l : list json) : list (option json) := fold_left (λ s x, set_add (Some x) s) l [].

Definition fresh_tally : tally := {| seenCaseIds := []; caseCounts := []; caseCount := 0 |}.

(** What the rest of the script uses. *)
Record validated := {
  v_features : list json;
  v_tally : tally;
  v_sdks : option json;
  v_names : list (list Z);
}.

#[global] Instance validated_inhabited : Inhabited validated :=
  populate {| v_features := []; v_tally := fresh_tally; v_sdks := None; v_names := [] |}.

(** The registries: features, operations and the file of SDKs. *)
Definition read_registries (r : repository) : result thrown (list json * list json * json) :=
  featuresFile ← readJson (features_json r);
  sdksFile ← readJson (sdks_json r);
  fs ← prop (Some featuresFile) "features";
  ops ← prop (Some featuresFile) "operations";
  operations ← iterate (Some (nullish ops (JArr [])));
  features ← iterate (Some (nullish fs (JArr [])));
  Ok (features, operations, sdksFile).

(** The features, the cases, their coverage and the packages. *)
Definition check_contents (r : repository) (features operations : list json) (sdksFile : json) : checking tally :=
  featureIds ← check_features [] features;
  t ← check_files featureIds (new_set operations) (case_files r) fresh_tally;
  _ ← check_covered (caseCounts t) features;
  _ ← check_packages sdksFile (package_names r);
  mret t.

Definition check_repository (r : repository) : checking validated :=
  '(features, operations, sdksFile) ← pure (read_registries r);
  t ← check_contents r features operations sdksFile;
  sdks ← pure (prop (Some sdksFile) "sdks");
  names ← pure (object_keys sdks);
  _ ← check_registry (package_names r) names;
  mret {| v_features := features; v_tally := t; v_sdks := sdks; v_names := names |}.

(** ** Reasoning about a list of errors

    [clean m v P]: when [m] returns, it returns [v], and it adds no error only
    if [P] holds; and if [P] holds it does return without adding one. *)
Definition clean {A} (m : checking A) (v : A) (P : Prop) : Prop :=
  (P → ∀ es, m es = (Ok v, es)) ∧
  (∀ es a es', m es = (Ok a, es') → a = v ∧ ∃ new, es' = es ++ new ∧ (new = [] → P)).

Lemma clean_ret {A} (v : A) : clean (mret v) v True.
Proof. split; [done|]. intros es a es' [= <- <-]. split; [done|]. exists []. by rewrite app_nil_r. Qed.

Lemma clean_iff {A} (m : checking A) v P Q : (P ↔ Q) → clean m v P → clean m v Q.
Proof. intros HPQ [H1 H2]. split; [intros HQ; by apply H1, HPQ|].
  intros es a es' H. destruct (H2 _ _ _ H) as (-> & new & -> & Hn). split; [done|]. exists new. tauto. Qed.

#[global] Instance clean_proper {A} (m : checking A) v : Proper (iff ==> iff) (clean m v).
Proof. intros P Q HPQ. split; apply clean_iff; [done|by symmetry]. Qed.

Lemma clean_bind {A B} (m : checking A) (f : A → checking B) v w P Q :
  clean m v P → clean (f v) w Q → clean (m ≫= f) w (P ∧ Q).
Proof.
  intros [Hm1 Hm2] [Hf1 Hf2]. unfold mbind, eff_bind. split.
  - intros [HP HQ] es. by rewrite Hm1, Hf1.
  - intros es b es'. destruct (m es) as [[a|e] es1] eqn:E; [|done]. intros Hf.
    destruct (Hm2 _ _ _ E) as (-> & n1 & -> & Hn1). destruct (Hf2 _ _ _ Hf) as (-> & n2 & -> & Hn2).
    split; [done|]. exists (n1 ++ n2). split; [by rewrite app_assoc|].
    intros [-> ->]%app_nil. auto.
Qed.

(** A step that may throw but reports nothing. *)
Lemma clean_pure {A B} (r : result thrown A) (f : A → checking B) w (P : Prop) (Q : A → Prop) :
  (∀ a, r = Ok a → clean (f a) w (Q a)) → (P ↔ ∃ a, r = Ok a ∧ Q a) → clean (pure r ≫= f) w P.
Proof.
  intros Hf HP. apply (clean_iff _ _ (∃ a, r = Ok a ∧ Q a)); [done|]. clear HP.
  unfold mbind, eff_bind, pure. destruct r as [a|e].
  - eapply clean_iff; [|by apply Hf]. naive_solver.
  - split; [by intros (? & ? & _)|done].
Qed.

Lemma clean_seq {B} (m : checking unit) (f : checking B) w P Q :
  clean m tt P → clean f w Q → clean (m ≫= λ _, f) w (P ∧ Q).
Proof. apply (clean_bind m (λ _, f)). Qed.

Lemma clean_report_if b m : clean (report_if b m) tt (b = false).
Proof.
  unfold report_if. destruct b; [|by eapply clean_iff; [|apply clean_ret]].
  split; [done|]. intros es a es'. unfold mbind, eff_bind, pure, report, modify.
  destruct m as [s|]; [|done]. intros [= <- <-]. split; [done|]. by exists [s].
Qed.

(** The errors of a checked list accumulate. *)
Lemma clean_fields file i c fields :
  clean (check_fields file i c fields) tt (Forall (λ f, is_Some (obj_get (js f) c)) fields).
Proof.
  induction fields as [|f fields IH]; cbn; [eapply clean_iff; [|apply clean_ret]; split; [by constructor|done]|].
  eapply clean_iff; [|apply clean_seq; [apply clean_report_if|exact IH]].
  rewrite Forall_cons, bool_decide_eq_false. by destruct (obj_get (js f) c); naive_solver.
Qed.

(** ** What a clean run means *)

(** Values that are pairwise different keys, and different from those seen. *)
Fixpoint fresh_in (seen l : list (option json)) : Prop :=
  match l with
  | [] => True
  | x :: l => set_has x seen = false ∧ fresh_in (set_add x seen) l
  end.

Definition distinct (l : list (option json)) : Prop := ForallOrdPairs (λ x y, same_value y x = false) l.

Lemma fresh_in_distinct seen l :
  fresh_in seen l ↔ Forall (λ x, set_has x seen = false) l ∧ distinct l.
Proof.
  revert seen. induction l as [|x l IH]; intros seen; cbn.
  { split; [by split; constructor|done]. }
  rewrite IH, Forall_cons, !Forall_forall. setoid_rewrite set_has_add. setoid_rewrite orb_false_iff.
  split.
  - intros (Hx & Hl & Hd). split; [split; [done|intros y Hy; by apply Hl]|].
    constructor; [|done]. apply List.Forall_forall. intros y Hy%list_elem_of_In. by apply Hl.
  - intros ((Hx & Hl) & Hd). inversion Hd as [|?? Hxl Hd']; subst. rewrite List.Forall_forall in Hxl.
    split; [done|]. split; [|done]. intros y Hy. split; [by apply Hl|]. by apply Hxl, list_elem_of_In.
Qed.

Lemma fresh_distinct l : fresh_in [] l ↔ distinct l.
Proof. rewrite fresh_in_distinct. split; [tauto|]. intros. split; [by apply Forall_true|done]. Qed.

Definition feature_id (f : json) : option json := match f with JObj o => obj_get (js "id") o | _ => None end.

Lemma prop_id f : prop (Some f) "id" = match f with JNull => Err (TypeError "Cannot read properties of null") | _ => Ok (feature_id f) end.
Proof. by destruct f. Qed.

Lemma prop_id_Ok f id : prop (Some f) "id" = Ok id ↔ f ≠ JNull ∧ id = feature_id f.
Proof. rewrite prop_id. destruct f; naive_solver. Qed.

Definition add_features (ids : list (option json)) (fs : list json) : list (option json) :=
  fold_left (λ s f, set_add (feature_id f) s) fs ids.

Lemma clean_features ids fs :
  clean (check_features ids fs) (add_features ids fs)
    (Forall (λ f, f ≠ JNull) fs ∧ fresh_in ids (map feature_id fs)).
Proof.
  revert ids. induction fs as [|f fs IH]; intros ids; cbn [check_features].
  { eapply clean_iff; [|apply clean_ret]. split; [by split; [constructor|]|done]. }
  apply (clean_pure _ _ _ _ (λ id, set_has id ids = false ∧
    Forall (λ f, f ≠ JNull) fs ∧ fresh_in (set_add id ids) (map feature_id fs))).
  - intros id [Hf ->]%prop_id_Ok. apply clean_seq; [apply clean_report_if|apply IH].
  - rewrite Forall_cons. setoid_rewrite prop_id_Ok. cbn. naive_solver.
Qed.

Lemma permanent_iff name :
  existsb (λ e, bool_decide (name = js e)) PERMANENT_ERRORS = true ↔ name ∈ map js PERMANENT_ERRORS.
Proof. unfold PERMANENT_ERRORS. cbn. rewrite !orb_true_iff, !bool_decide_eq_true. set_solver. Qed.

(** What the checker asks of an expected error. *)
Definition error_ok (e : json) : Prop :=
  ∃ o name, e = JObj o ∧ obj_get (js "class") o = Some (JStr name) ∧
    (name ∈ map js PERMANENT_ERRORS → obj_get (js "retryable") o = Some (JBool false)).

(** A well-formed expectation: a result or such an error, not both. *)
Definition expect_ok (value : json) : Prop :=
  ∃ o, nullish (Some value) (JObj []) = JObj o ∧
    match obj_get (js "ok") o, obj_get (js "error") o with
    | Some _, None => True
    | None, Some e => error_ok e
    | _, _ => False
    end.

Lemma pure_Ok_bind {A B} (a : A) (f : A → checking B) : pure (Ok a) ≫= f = f a.
Proof. done. Qed.

Lemma clean_Err {A B} e (f : A → checking B) w (P : Prop) : ¬ P → clean (pure (Err e) ≫= f) w P.
Proof. by split. Qed.

Lemma clean_reported b m (P : Prop) : (b = false ↔ P) → clean (report_if b m) tt P.
Proof. intros HP. eapply clean_iff; [exact HP|apply clean_report_if]. Qed.

Lemma clean_nothing (P : Prop) : P → clean (mret tt) tt P.
Proof. intros HP. eapply clean_iff; [|apply clean_ret]. done. Qed.

Lemma clean_error id file e : clean (check_error id file (Some e)) tt (error_ok e).
Proof.
  unfold error_ok, check_error. destruct e as [| | | | |o]; cbn [maybe_prop prop]; rewrite pure_Ok_bind;
    try (apply clean_reported; split; [done|by intros (? & ? & ? & _)]).
  destruct (obj_get (js "class") o) as [[| | |name| |]|] eqn:Ec;
    try (apply clean_reported; split; [done|intros (? & ? & [= <-] & ? & _); congruence]).
  destruct (existsb _ _) eqn:Ep.
  - rewrite pure_Ok_bind. apply clean_reported. apply permanent_iff in Ep. split.
    + intros Hr. exists o, name. split; [done|]. split; [done|]. intros _.
      by destruct (obj_get (js "retryable") o) as [[|[]| | | |]|].
    + intros (? & ? & [= <-] & Hc & Hr). rewrite Ec in Hc. injection Hc as <-. by rewrite (Hr Ep).
  - apply clean_nothing. exists o, name. split; [done|]. split; [done|]. intros Hp.
    apply permanent_iff in Hp. congruence.
Qed.

Lemma clean_expect id file value : clean (check_expect id file value) tt (expect_ok value).
Proof.
  unfold check_expect, expect_ok. cbv zeta.
  destruct (nullish (Some value) (JObj [])) as [| | | | |o] eqn:En; cbn [has_key];
    try (apply clean_Err; by intros (? & ? & _)).
  - rewrite !pure_Ok_bind. apply clean_reported. split; [done|by intros (? & ? & _)].
  - rewrite !pure_Ok_bind. apply (clean_iff _ _
      (match obj_get (js "ok") o, obj_get (js "error") o with
       | Some _, None => True | None, Some e => error_ok e | _, _ => False end)).
    { split; [eauto|]. by intros (? & [= <-] & ?). }
    cbn [prop]. destruct (obj_get (js "ok") o) as [v|], (obj_get (js "error") o) as [e|];
      rewrite ?bool_decide_eq_true_2, ?bool_decide_eq_false_2 by (try done; by intros []); cbn [Bool.eqb negb].
    + by apply clean_reported.
    + by apply clean_nothing.
    + rewrite pure_Ok_bind. apply clean_error.
    + by apply clean_reported.
Qed.

Section case_lemmas.
Context (featureIds operations : list (option json)).

Definition next_tally (raw : json) (t : tally) : tally :=
  let c := case_object raw in
  match obj_get (js "id") c with
  | None => {| seenCaseIds := seenCaseIds t; caseCounts := caseCounts t; caseCount := caseCount t + 1 |}
  | Some v =>
      {| seenCaseIds := set_add (Some v) (seenCaseIds t);
         caseCounts := match obj_get (js "feature") c with
                       | Some f => if set_has (Some f) featureIds then count_case (Some f) (caseCounts t) else caseCounts t
                       | None => caseCounts t
                       end;
         caseCount := caseCount t + 1 |}
  end.

(** What is asked of one case by itself. *)
Definition case_ok (raw : json) : Prop :=
  let c := case_object raw in
  Forall (λ f, is_Some (obj_get (js f) c)) FIELDS ∧
  set_has (obj_get (js "feature") c) featureIds = true ∧
  set_has (obj_get (js "operation") c) operations = true ∧
  ∃ value, obj_get (js "expect") c = Some value ∧ expect_ok value.

Definition case_id (raw : json) : option json := obj_get (js "id") (case_object raw).

Lemma clean_feature id file feature cs :
  clean (check_feature featureIds id file feature cs)
    (match feature with
     | Some f => if set_has (Some f) featureIds then count_case (Some f) cs else cs
     | None => cs
     end)
    (is_Some feature → set_has feature featureIds = true).
Proof.
  unfold check_feature. destruct feature as [f|].
  - destruct (set_has (Some f) featureIds).
    + eapply clean_iff; [|apply clean_ret]. done.
    + eapply clean_iff; [|apply clean_seq; [apply clean_report_if|apply clean_ret]].
      split; [by intros [? _]|]. intros H. by specialize (H (mk_is_Some _ f eq_refl)).
  - eapply clean_iff; [|apply clean_ret]. split; [|done]. by intros _ [].
Qed.

Lemma clean_operation id file operation :
  clean (check_operation operations id file operation) tt (is_Some operation → set_has operation operations = true).
Proof.
  unfold check_operation. destruct operation as [o|].
  - apply clean_reported. rewrite negb_false_iff. split; [done|]. intros H. by apply H.
  - apply clean_nothing. by intros [].
Qed.

Lemma clean_case file i raw t :
  clean (check_case featureIds operations file i raw t) (next_tally raw t)
    (case_ok raw ∧ set_has (case_id raw) (seenCaseIds t) = false).
Proof.
  unfold check_case, next_tally, case_ok, case_id. cbv zeta. set (c := case_object raw).
  destruct (obj_get (js "id") c) as [v|] eqn:Eid.
  - set (expectation := match obj_get (js "expect") c with None => mret tt | Some value => check_expect (Some v) file value end).
    assert (clean expectation tt (∀ value, obj_get (js "expect") c = Some value → expect_ok value)) as Hx.
    { unfold expectation. destruct (obj_get (js "expect") c) as [value|].
      - eapply clean_iff; [|apply clean_expect]. naive_solver.
      - by apply clean_nothing. }
    eapply clean_iff; [|apply clean_seq; [apply clean_fields|apply clean_seq; [apply clean_report_if|
      eapply clean_bind; [apply clean_feature|apply clean_seq; [apply clean_operation|
      apply clean_seq; [exact Hx|apply clean_ret]]]]]].
    unfold FIELDS. rewrite !Forall_cons, Eid. unfold is_Some. naive_solver.
  - eapply clean_iff; [|apply clean_seq; [apply clean_fields|apply clean_ret]].
    unfold FIELDS. rewrite !Forall_cons, Eid. unfold is_Some. naive_solver.
Qed.

Lemma next_tally_seen raw t :
  is_Some (case_id raw) → seenCaseIds (next_tally raw t) = set_add (case_id raw) (seenCaseIds t).
Proof. unfold next_tally, case_id. cbv zeta. by destruct (obj_get _ _); [|intros []]. Qed.

Lemma case_ok_id raw : case_ok raw → is_Some (case_id raw).
Proof. intros [Hf _]. by inversion Hf. Qed.

Definition tally_all (cases : list json) (t : tally) : tally := fold_left (λ t raw, next_tally raw t) cases t.

Lemma clean_cases file i cases t :
  clean (check_cases featureIds operations file i cases t) (tally_all cases t)
    (Forall case_ok cases ∧ fresh_in (seenCaseIds t) (map case_id cases)).
Proof.
  revert i t. induction cases as [|raw cases IH]; intros i t; cbn [check_cases].
  { eapply clean_iff; [|apply clean_ret]. split; [by split; [constructor|]|done]. }
  eapply clean_iff; [|eapply clean_bind; [apply clean_case|apply IH]].
  rewrite Forall_cons. cbn [map fresh_in]. split.
  - intros ((Hok & Hid) & Hall & Hf). rewrite next_tally_seen in Hf by by apply case_ok_id. done.
  - intros ((Hok & Hall) & Hid & Hf). rewrite next_tally_seen by by apply case_ok_id. done.
Qed.

(** Every case, in the order of the files. *)
Definition file_cases (content : option bytes) : list json :=
  match cases_of content with Ok l => l | Err _ => [] end.
Definition all_cases (files : list (jstr * option bytes)) : list json :=
  concat (map (λ f, file_cases f.2) files).

Lemma fresh_in_app seen l k :
  fresh_in seen (l ++ k) ↔ fresh_in seen l ∧ fresh_in (fold_left (λ s x, set_add x s) l seen) k.
Proof. revert seen. induction l as [|x l IH]; intros seen; cbn; [|rewrite IH]; naive_solver. Qed.

Lemma tally_all_seen cases t :
  Forall case_ok cases →
  seenCaseIds (tally_all cases t) = fold_left (λ s x, set_add x s) (map case_id cases) (seenCaseIds t).
Proof.
  intros Hc. revert t. induction Hc as [|raw cases Hr Hc IH]; intros t; [done|].
  unfold tally_all in *. cbn. rewrite IH. by rewrite next_tally_seen by by apply case_ok_id.
Qed.

Lemma clean_files files t :
  clean (check_files featureIds operations files t) (tally_all (all_cases files) t)
    (Forall (λ f, is_ok (cases_of f.2) = true) files ∧ Forall case_ok (all_cases files) ∧
     fresh_in (seenCaseIds t) (map case_id (all_cases files))).
Proof.
  revert t. induction files as [|[file content] files IH]; intros t; cbn [check_files].
  { eapply clean_iff; [|apply clean_ret]. split; [|done]. intros _. split; [|split]; by constructor. }
  unfold all_cases in *. cbn [map concat]. rewrite map_app, Forall_app, Forall_cons, fresh_in_app. cbn [snd].
  destruct (cases_of content) as [l|e] eqn:E; [|by apply clean_Err; intros [[? _] _]].
  assert (file_cases content = l) as -> by (unfold file_cases; by rewrite E).
  rewrite pure_Ok_bind. unfold tally_all. rewrite fold_left_app.
  eapply clean_iff; [|eapply clean_bind; [apply clean_cases|apply IH]]. cbn [is_ok]. split.
  - intros ((Hl & Hf) & Hok & Hall & Hf'). rewrite <-tally_all_seen by done. done.
  - intros ((_ & Hok) & (Hl & Hall) & Hf & Hf'). rewrite <-tally_all_seen in Hf' by done. done.
Qed.
End case_lemmas.

(** ** Counting *)

Definition case_feature (raw : json) : option json := obj_get (js "feature") (case_object raw).

(** How many cases name a feature. *)
Definition cases_for (x : option json) (cases : list json) : nat :=
  length (List.filter (λ raw, same_value x (case_feature raw)) cases).

Lemma set_has_key x l : set_has x l = true → is_Some (key_of_value x).
Proof. intros (y & _ & (c & Hc & _)%same_value_key)%set_has_true. by exists c. Qed.

Lemma next_tally_counts fids ops raw t :
  case_ok fids ops raw →
  caseCounts (next_tally fids raw t) = count_case (case_feature raw) (caseCounts t).
Proof.
  intros (Hf & Hk & _). unfold next_tally, case_feature in *. cbv zeta. unfold FIELDS in Hf.
  rewrite !Forall_cons in Hf. destruct Hf as ([v Ev] & [f Ef] & _). rewrite Ev, Ef in *. by rewrite Hk.
Qed.

Lemma tally_counts fids ops cases t x :
  Forall (case_ok fids ops) cases →
  map_get x (caseCounts (tally_all fids cases t)) =
  match cases_for x cases with
  | O => map_get x (caseCounts t)
  | n => Some (default 0 (map_get x (caseCounts t)) + Z.of_nat n)
  end.
Proof.
  intros Hc. revert t. induction Hc as [|raw cases Hr Hc IH]; intros t; [done|].
  unfold tally_all in *. cbn [fold_left]. rewrite IH. erewrite next_tally_counts by done.
  unfold count_case. rewrite map_get_set by (destruct Hr as (_ & Hk & _); by eapply set_has_key).
  unfold cases_for. cbn [List.filter]. destruct (same_value x (case_feature raw)) eqn:E; [|done].
  rewrite <-(map_get_same x (case_feature raw)) by done. cbn [length].
  destruct (length _); cbn [default]; [done|]. f_equal. cbn. lia.
Qed.

(** ** Coverage and registration *)

Lemma clean_covered cs fs :
  clean (check_covered cs fs) tt
    (Forall (λ f, f ≠ JNull) fs ∧ Forall (λ f, is_Some (map_get (feature_id f) cs)) fs).
Proof.
  induction fs as [|f fs IH]; cbn [check_covered]; [apply clean_nothing; split; constructor|].
  apply (clean_pure _ _ _ _ (λ id, is_Some (map_get id cs) ∧
    Forall (λ f, f ≠ JNull) fs ∧ Forall (λ f, is_Some (map_get (feature_id f) cs)) fs)).
  - intros id _. eapply clean_iff; [|apply clean_seq; [apply clean_report_if|exact IH]].
    rewrite bool_decide_eq_false, eq_None_not_Some. destruct (map_get id cs); naive_solver.
  - rewrite !Forall_cons. setoid_rewrite prop_id_Ok. naive_solver.
Qed.

Lemma clean_packages sf names :
  clean (check_packages sf names) tt (Forall (λ n, registered sf n = Ok true) names).
Proof.
  induction names as [|n names IH]; cbn [check_packages]; [by apply clean_nothing|].
  apply (clean_pure _ _ _ _ (λ known, known = true ∧ Forall (λ n, registered sf n = Ok true) names)).
  - intros known _. eapply clean_iff; [|apply clean_seq; [apply clean_report_if|exact IH]]. by rewrite negb_false_iff.
  - rewrite Forall_cons. naive_solver.
Qed.

Lemma clean_registry packages names :
  clean (check_registry packages names) tt (Forall (λ n, n ∈ packages) names).
Proof.
  induction names as [|n names IH]; cbn [check_registry]; [by apply clean_nothing|].
  eapply clean_iff; [|apply clean_seq; [apply clean_report_if|exact IH]].
  rewrite Forall_cons, bool_decide_eq_false. destruct (decide (n ∈ packages)); naive_solver.
Qed.

(** A decimal is no package name. *)
Lemma sdk_not_index name i :
  starts_with (js "sdk-") name = true → 0 ≤ i → name ≠ dec_of_nat i ∧ array_index name = None.
Proof.
  intros (k & ->)%starts_with_spec Hi. split; [|done].
  destruct (dec_of_nat_spec i Hi) as (_ & Hd & _). intros E. rewrite <-E in Hd. inversion Hd as [|?? Hc]. done.
Qed.

Lemma sdk_not_among name n :
  starts_with (js "sdk-") name = true → name ∉ map (λ i, dec_of_nat (Z.of_nat i)) (seq 0 n).
Proof.
  intros Hs (i & E & _)%list_elem_of_fmap. destruct (sdk_not_index name (Z.of_nat i) Hs) as [? _]; [lia|done].
Qed.

(** For the names of packages, [in] and [Object.keys] agree. *)
Lemma registered_iff sf sdks names name :
  prop (Some sf) "sdks" = Ok sdks → object_keys sdks = Ok names → starts_with (js "sdk-") name = true →
  registered sf name = Ok true ↔ name ∈ names.
Proof.
  intros Hp Hk Hs. unfold registered. rewrite Hp. cbn.
  destruct sdks as [[| | |s|l|o]|]; cbn in *; simplify_eq; try (split; [done|set_solver]).
  - split; [done|]. intros H. by apply sdk_not_among in H.
  - destruct (sdk_not_index name 0 Hs) as [_ ->]; [lia|]. split; [done|]. intros H. by apply sdk_not_among in H.
  - rewrite enumerate_perm. pose proof (obj_get_None name o) as Hn.
    destruct (obj_get name o); [rewrite bool_decide_eq_true_2 by done|rewrite bool_decide_eq_false_2 by by intros []].
    + split; [|done]. intros _. destruct (decide (name ∈ o.*1)) as [|Hni]; [done|]. by apply Hn in Hni.
    + split; [done|]. intros Hi. by destruct (proj1 Hn eq_refl).
Qed.

(** ** The contract of the conformance directory *)

Record contract (fs ops cases : list json) (packages names : list (list Z)) : Prop := {
  ct_features : Forall (λ f, f ≠ JNull) fs;
  ct_feature_ids : distinct (map feature_id fs);
  ct_cases : Forall (case_ok (map feature_id fs) (map Some ops)) cases;
  ct_case_ids : distinct (map case_id cases);
  ct_covered : Forall (λ f, (0 < cases_for (feature_id f) cases)%nat) fs;
  ct_registry : ∀ name, name ∈ packages ↔ name ∈ names;
}.

(** The features, the operations and the registered SDKs. *)
Definition registry_of (r : repository) : result thrown (list json * list json * list jstr) :=
  '(features, operations, sdksFile) ← read_registries r;
  sdks ← prop (Some sdksFile) "sdks";
  names ← object_keys sdks;
  Ok (features, operations, names).

Lemma clean_passes {A} (m : checking A) v P : clean m v P → (∃ a, m [] = (Ok a, [])) ↔ P.
Proof.
  intros [H1 H2]. split; [|by eauto]. intros [a Ha]. destruct (H2 _ _ _ Ha) as (_ & new & E & Hn).
  by apply Hn.
Qed.

Lemma set_has_fold {A} (f : A → option json) x l s :
  set_has x (fold_left (λ s a, set_add (f a) s) l s) = set_has x s || set_has x (map f l).
Proof.
  revert s. induction l as [|a l IH]; intros s; cbn [fold_left map]; [by rewrite orb_false_r|].
  rewrite IH, set_has_add. by rewrite <-orb_assoc.
Qed.

Lemma case_ok_ext fids fids' ops ops' raw :
  (∀ x, set_has x fids = set_has x fids') → (∀ x, set_has x ops = set_has x ops') →
  case_ok fids ops raw ↔ case_ok fids' ops' raw.
Proof. intros Hf Ho. unfold case_ok. cbv zeta. by rewrite Hf, Ho. Qed.

Lemma package_names_sdk r name : name ∈ package_names r → starts_with (js "sdk-") name = true.
Proof.
  unfold package_names. intros ([n d] & -> & H)%list_elem_of_fmap. apply list_elem_of_In, List.filter_In in H as [_ H].
  cbn in *. by bool_inv.
Qed.

Definition tally_of (r : repository) (fs : list json) : tally :=
  tally_all (add_features [] fs) (all_cases (case_files r)) fresh_tally.

(** The registry is only half checked by then. *)
Definition unregistered_ok (r : repository) (fs ops : list json) (sdksFile : json) : Prop :=
  let cases := all_cases (case_files r) in
  Forall (λ f, is_ok (cases_of f.2) = true) (case_files r) ∧
  Forall (λ f, f ≠ JNull) fs ∧ distinct (map feature_id fs) ∧
  Forall (case_ok (map feature_id fs) (map Some ops)) cases ∧ distinct (map case_id cases) ∧
  Forall (λ f, (0 < cases_for (feature_id f) cases)%nat) fs ∧
  Forall (λ n, registered sdksFile n = Ok true) (package_names r).

Lemma clean_contents r fs ops sf : clean (check_contents r fs ops sf) (tally_of r fs) (unregistered_ok r fs ops sf).
Proof.
  eapply clean_iff; [|eapply clean_bind; [apply clean_features|eapply clean_bind; [apply clean_files|
    apply clean_seq; [apply clean_covered|apply clean_seq; [apply clean_packages|apply clean_ret]]]]].
  unfold unregistered_ok. cbv zeta. rewrite !fresh_distinct.
  assert (∀ raw, case_ok (add_features [] fs) (new_set ops) raw ↔ case_ok (map feature_id fs) (map Some ops) raw) as Hok.
  { intros raw. apply case_ok_ext; intros x; [apply (set_has_fold feature_id)|apply (set_has_fold Some)]. }
  assert (∀ l, Forall (case_ok (add_features [] fs) (new_set ops)) l ↔
               Forall (case_ok (map feature_id fs) (map Some ops)) l) as Hall by (intros l; by apply Forall_iff).
  rewrite <-Hall. set (cases := all_cases (case_files r)).
  assert (Forall (case_ok (add_features [] fs) (new_set ops)) cases →
    Forall (λ f, is_Some (map_get (feature_id f) (caseCounts (tally_all (add_features [] fs) cases fresh_tally)))) fs ↔
    Forall (λ f, (0 < cases_for (feature_id f) cases)%nat) fs) as Hcount.
  { intros Hc. apply Forall_iff. intros f. rewrite (tally_counts _ (new_set ops)) by done.
    destruct (cases_for _ _); cbn; split; intros H; try lia; [by destruct H|by eexists]. }
  tauto.
Qed.

(** The registry check completes the other one. *)
Lemma contract_split r fs ops sf sdks names :
  prop (Some sf) "sdks" = Ok sdks → object_keys sdks = Ok names →
  (unregistered_ok r fs ops sf ∧ Forall (λ n, n ∈ package_names r) names) ↔
  Forall (λ f, is_ok (cases_of f.2) = true) (case_files r) ∧
  contract fs ops (all_cases (case_files r)) (package_names r) names.
Proof.
  intros Hp Hk. unfold unregistered_ok. cbv zeta.
  assert (Forall (λ n, registered sf n = Ok true) (package_names r) ↔ Forall (λ n, n ∈ names) (package_names r)) as ->.
  { rewrite !Forall_forall. apply forall_proper. intros n.
    split; intros H Hn; specialize (H Hn); eapply registered_iff; eauto using package_names_sdk. }
  rewrite !(Forall_forall (λ n, n ∈ _)). split.
  - intros (? & ?). split; [tauto|]. split; try tauto. intros name. split; [|by auto]. naive_solver.
  - intros (? & []). naive_solver.
Qed.

Lemma validated_contract r :
  (∃ v, check_repository r [] = (Ok v, [])) ↔
  ∃ fs ops names, registry_of r = Ok (fs, ops, names) ∧
    Forall (λ f, is_ok (cases_of f.2) = true) (case_files r) ∧
    contract fs ops (all_cases (case_files r)) (package_names r) names.
Proof.
  unfold check_repository, registry_of.
  destruct (read_registries r) as [[[fs ops] sf]|e]; [|split; [by intros []|by intros (? & ? & ? & ? & _)]].
  rewrite pure_Ok_bind. cbn [mbind result_bind].
  destruct (prop (Some sf) "sdks") as [sdks|e] eqn:Es; cbn [mbind result_bind].
  2:{ rewrite clean_passes by (eapply clean_bind; [apply clean_contents|apply (clean_Err _ _ inhabitant False); tauto]).
      naive_solver. }
  destruct (object_keys sdks) as [names|e] eqn:Ek; cbn [mbind result_bind].
  2:{ rewrite clean_passes by (eapply clean_bind; [apply clean_contents|];
        rewrite pure_Ok_bind, Ek; apply (clean_Err _ _ inhabitant False); tauto).
      naive_solver. }
  rewrite clean_passes by (eapply clean_bind; [apply clean_contents|];
    rewrite pure_Ok_bind, Ek, pure_Ok_bind; apply clean_seq; [apply clean_registry|apply clean_ret]).
  trans (unregistered_ok r fs ops sf ∧ Forall (λ n, n ∈ package_names r) names); [tauto|].
  rewrite contract_split by done. naive_solver.
Qed.

(** [C24] The validation passes exactly on directories that meet the contract:
    the registries and case files can be read, feature ids and case ids are
    distinct, every case has its five fields, a registered feature and operation
    and a well-formed expectation (permanent errors not retryable), every
    feature has a case, and the SDK packages are the registered SDKs. *)
Theorem conformance_validated_iff r :
  (∃ v, check_repository r [] = (Ok v, [])) ↔
  ∃ fs ops names, registry_of r = Ok (fs, ops, names) ∧
    Forall (λ f, is_ok (cases_of f.2) = true) (case_files r) ∧
    contract fs ops (all_cases (case_files r)) (package_names r) names.
Proof. apply validated_contract. Qed.

Lemma tally_all_count fids cases t :
  caseCount (tally_all fids cases t) = caseCount t + Z.of_nat (length cases).
Proof.
  revert t. induction cases as [|raw cases IH]; intros t; unfold tally_all in *; cbn; [lia|].
  rewrite IH. unfold next_tally. cbv zeta. destruct (obj_get _ _); cbn; lia.
Qed.

(** What a validation that returns has read and counted. *)
Lemma check_repository_returns r es v es' :
  check_repository r es = (Ok v, es') →
  ∃ ops sf, read_registries r = Ok (v_features v, ops, sf) ∧ v_tally v = tally_of r (v_features v) ∧
    prop (Some sf) "sdks" = Ok (v_sdks v) ∧ object_keys (v_sdks v) = Ok (v_names v) ∧
    (es' = es → unregistered_ok r (v_features v) ops sf).
Proof.
  unfold check_repository. destruct (read_registries r) as [[[fs ops] sf]|e]; [|done]. rewrite pure_Ok_bind.
  unfold mbind at 1, eff_bind at 1. destruct (clean_contents r fs ops sf) as [_ Hc].
  destruct (check_contents r fs ops sf es) as [[t|e] es1] eqn:E1; [|done].
  destruct (Hc _ _ _ E1) as (-> & n1 & -> & Hn1).
  destruct (prop (Some sf) "sdks") as [sdks|e] eqn:Es; [|done]. rewrite pure_Ok_bind.
  destruct (object_keys sdks) as [names|e] eqn:Ek; [|done]. rewrite pure_Ok_bind.
  unfold mbind, eff_bind. destruct (clean_registry (package_names r) names) as [_ Hr].
  destruct (check_registry _ names _) as [[[]|e] es2] eqn:E2; [|done]. intros [= <- <-].
  destruct (Hr _ _ _ E2) as (_ & n2 & -> & _). exists ops, sf. split_and!; try done.
  intros E. cbn. apply Hn1. rewrite <-app_assoc in E. apply (f_equal length) in E.
  rewrite !length_app in E. destruct n1; [done|]. cbn in E. lia.
Qed.

(** The numbers the checker prints are the numbers of cases: in total, and
    for every feature of a valid directory. *)
Theorem conformance_counts r v :
  check_repository r [] = (Ok v, []) →
  caseCount (v_tally v) = Z.of_nat (length (all_cases (case_files r))) ∧
  ∀ f, f ∈ v_features v →
    map_get (feature_id f) (caseCounts (v_tally v)) =
    Some (Z.of_nat (cases_for (feature_id f) (all_cases (case_files r)))).
Proof.
  intros H. destruct (check_repository_returns _ _ _ _ H) as (ops & sf & _ & -> & _ & _ & Hok).
  specialize (Hok eq_refl) as (_ & _ & _ & Hc & _ & Hpos & _). unfold tally_of. split.
  { by rewrite tally_all_count. }
  intros f Hf. rewrite Forall_forall in Hpos. specialize (Hpos f Hf).
  rewrite (tally_counts _ (new_set ops)).
  - destruct (cases_for _ _); [lia|]. done.
  - eapply Forall_impl; [exact Hc|]. intros raw. cbn. intros Hr.
    eapply case_ok_ext; [..|exact Hr]; intros x; [apply (set_has_fold feature_id)|apply (set_has_fold Some)].
Qed.

Module Samples.
Definition features : jstr :=
  jq "{'operations':['parse_claim_ref'],'features':[{'id':'claim_ref.parse'},{'id':'message'}]}".
Definition sdks : jstr := jq "{'sdks':{'sdk-go':{'run':['go','test']},'sdk-typescript':{'run':['npm','t']}}}".
Definition good_case (id feature : string) : string :=
  "{'id':'" +:+ id +:+ "','feature':'" +:+ feature +:+ "','operation':'parse_claim_ref','input':{},'expect':{'error':{'class':'InvalidMessageError','retryable':false}}}".
Definition repo (cases : string) : repository :=
  {| features_json := Some features; sdks_json := Some sdks;
     case_dir := [(js "b.json", Some (jq ("{'cases':[" +:+ cases +:+ "]}"))); (js "notes.md", None);
                  (js "a.json", Some (jq ("{'cases':[" +:+ good_case "c1" "message" +:+ "]}")))];
     package_dir := [(js "ankusa", true); (js "sdk-typescript", true); (js "sdk-go", true)] |}.

Definition good : repository := repo (good_case "c2" "claim_ref.parse").

(** A repeated id, and an expected permanent error that may be retried. *)
Example bad_cases :
  (check_repository (repo (good_case "c1" "claim_ref.parse" +:+
     ",{'id':'c3','feature':'x','operation':'parse_claim_ref','expect':{'error':{'class':'InvalidSignatureError','retryable':true}}}")) []).2
  = [jq "duplicate case id 'c1' (b.json)"; jq "case #1 (b.json): missing 'input'";
     jq "case 'c3' (b.json): unknown feature 'x'";
     jq "case 'c3' (b.json): InvalidSignatureError is permanent (docs/delivery.md, Consumer failure policy): expect.error.retryable must be false"].
Proof. by vm_compute. Qed.

Lemma good_checked : ∃ v, check_repository good [] = (Ok v, []).
Proof. eexists. vm_compute. reflexivity. Qed.

Lemma conformance_counts_witness :
  ∃ v, caseCount (v_tally v) = 2 ∧ length (v_features v) = 2%nat ∧
    ∀ f, f ∈ v_features v →
      map_get (feature_id f) (caseCounts (v_tally v)) =
      Some (Z.of_nat (cases_for (feature_id f) (all_cases (case_files good)))).
Proof.
  assert (check_repository good [] = (Ok (match (check_repository good []).1 with Ok v => v | Err _ => inhabitant end), []))
    as H by by vm_compute.
  eexists. split; [apply (conformance_counts good _ H)|]. split; [by vm_compute|]. apply (conformance_counts good _ H).
Defined.
End Samples.
