(* ===== verification/ConformanceProducer.v ===== *)
(** * The producer vectors ([conformance/check.mjs], second part)

    [cases/producer.json] is written by a generator of the server package; the
    checker runs it into a temporary directory and compares.  Running [mix] is
    the class [Mix]; the state is the trace of what was done, since a temporary
    directory must go away whatever happens. *)
From stdpp Require Import base tactics list numbers option strings sets.
From S2P Require Import Prelude JsNumber JsString Json JsonFacts ClaimRef Http JsValue ConformanceCases.
Local Open Scope Z_scope.

(** ** Running the generator *)

(** The [error] and [status] of a [spawnSync] result. *)
Record spawn_result := {
  sr_error : option (list Z);
  sr_status : option Z;
}.

Inductive producer_event :=
| MakeTemp (dir : list Z)
| RunMix (args : list (list Z))
| RemoveTemp (dir : list Z).

(** [mix] as a function of what was done before, and the file it leaves. *)
Class Mix := {
  mix : list producer_event → list (list Z) → spawn_result;
  generated_file : option (list Z);
}.

Definition mix_failed (r : spawn_result) : bool :=
  match sr_error r with
  | Some _ => true
  | None => negb (bool_decide (sr_status r = Some 0))
  end.

(** [`\`mix ${args[0]}\` in packages/ankusa failed (...)`] *)
Definition mix_problem (args : list (list Z)) (r : spawn_result) : jstr :=
  js "`mix " ++ default (js "undefined") (head args) ++ js "` in packages/ankusa failed (" ++
  match sr_error r with
  | Some message => message
  | None => js "exit " ++ match sr_status r with Some z => dec_of_Z z | None => js "null" end
  end ++ js ")".

Definition mix_steps (generatedFile : jstr) : list (list (list Z)) :=
  [ [js "local.hex"; js "--force"; js "--if-missing"];
    [js "local.rebar"; js "--force"; js "--if-missing"];
    [js "deps.get"; js "--check-locked"];
    [js "ankusa.conformance.gen"; js "--out"; generatedFile] ].

(** ** Differences between two vectors *)

(** The names every object inherits, and those every array does. *)
Definition OBJECT_PROTOTYPE : list string :=
  ["constructor"; "__defineGetter__"; "__defineSetter__"; "hasOwnProperty"; "__lookupGetter__"; "__lookupSetter__";
   "isPrototypeOf"; "propertyIsEnumerable"; "toString"; "valueOf"; "__proto__"; "toLocaleString"].
Definition ARRAY_PROTOTYPE : list string :=
  ["at"; "concat"; "copyWithin"; "fill"; "find"; "findIndex"; "findLast"; "findLastIndex"; "lastIndexOf"; "pop";
   "push"; "reverse"; "shift"; "unshift"; "slice"; "sort"; "splice"; "includes"; "indexOf"; "join"; "keys";
   "entries"; "values"; "forEach"; "filter"; "flat"; "flatMap"; "map"; "every"; "some"; "reduce"; "reduceRight";
   "toReversed"; "toSorted"; "toSpliced"; "with"; "length"].

Definition named (key : jstr) (names : list string) : bool := existsb (λ n, bool_decide (key = js n)) names.

(** The own property of a value; [length] is one of an array. *)
Definition own_value (key : jstr) (x : json) : option json :=
  match x with
  | JObj o => obj_get key o
  | JArr l =>
      if bool_decide (key = js "length") then Some (JNum (num_of_Z (Z.of_nat (length l))))
      else i ← array_index key; l !! Z.to_nat i
  | JStr s =>
      i ← array_index key; c ← s !! Z.to_nat i; Some (JStr [c])
  | _ => None
  end.

(** [key in x] *)
Definition key_in (key : jstr) (x : json) : result thrown bool :=
  let own := bool_decide (is_Some (own_value key x)) in
  match x with
  | JObj _ => Ok (own || named key OBJECT_PROTOTYPE)
  | JArr _ => Ok (own || named key ARRAY_PROTOTYPE || named key OBJECT_PROTOTYPE)
  | _ => Err (TypeError "Cannot use 'in' operator to search in a primitive")
  end.

(** [!isDeepStrictEqual(now[key], before[key])]: an inherited property is a
    function or a prototype, equal to no parsed value. *)
Definition differs (key : jstr) (now before : json) : bool :=
  negb (deep_equal_opt (own_value key now) (own_value key before)).

Fixpoint filter_keys (p : jstr → result thrown bool) (keys : list jstr) : result thrown (list jstr) :=
  match keys with
  | [] => Ok []
  | key :: keys => b ← p key; rest ← filter_keys p keys; Ok (if b : bool then key :: rest else rest)
  end.

(** [JSON.parse(vector.input.message)] *)
Definition vector_message (vector : json) : result thrown json :=
  input ← prop (Some vector) "input";
  message ← prop input "message";
  text ← template message;
  or_throw (json_parse text) (Thrown (js "Unexpected token in JSON")).

Definition join_strings (sep : string) (l : list jstr) : jstr :=
  match l with [] => [] | s :: l => s ++ concat (map (λ t, js sep ++ t) l) end.

(** The keys only the first has, only the second has, and those that differ. *)
Definition message_keys (now before : json) : result thrown (list jstr * list jstr * list jstr) :=
  nowKeys ← object_keys (Some now);
  added ← filter_keys (λ key, negb <$> key_in key before) nowKeys;
  beforeKeys ← object_keys (Some before);
  removed ← filter_keys (λ key, negb <$> key_in key now) beforeKeys;
  changed ← filter_keys (λ key, both ← key_in key before; Ok (both && differs key now before)) nowKeys;
  Ok (added, removed, changed).

Definition part (label : string) (keys : list jstr) : list jstr :=
  match keys with [] => [] | _ => [js label ++ join_strings ", " keys] end.

Definition describeDifference (generated checkedIn : json) : result thrown jstr :=
  match (now ← vector_message generated; before ← vector_message checkedIn; Ok (now, before)) with
  | Err _ => Ok (js "its message is not JSON")
  | Ok (now, before) =>
      '(added, removed, changed) ← message_keys now before;
      let parts := part "message keys added: " added ++ part "message keys removed: " removed ++
                   part "message keys changed: " changed in
      Ok (join_strings "; " (match parts with [] => [js "the expected decode result differs"] | _ => parts end))
  end.

(** ** Comparing the files *)

Abbreviation vectors := (list (option json * json)) (only parsing).

(** [new Map(cases.map((c) => [c.id, c]))] *)
Fixpoint vector_map (m : vectors) (cases : list json) : result thrown vectors :=
  match cases with
  | [] => Ok m
  | c :: cases => id ← prop (Some c) "id"; vector_map (map_set id c m) cases
  end.

Definition read_vectors (file : option bytes) : result thrown vectors :=
  j ← readJson file;
  cs ← prop (Some j) "cases";
  match cs with
  | Some (JArr l) => vector_map [] l
  | _ => Err (TypeError "cases.map is not a function")
  end.

Fixpoint missing_from (other : vectors) (text : string) (ids : list (option json)) : result thrown (list jstr) :=
  match ids with
  | [] => Ok []
  | id :: ids =>
      here ← match map_get id other with
             | Some _ => Ok []
             | None => m ← with_value "producer vector '" id (jq text); Ok [m]
             end;
      rest ← missing_from other text ids;
      Ok (here ++ rest)
  end.

Fixpoint stale_vectors (checkedIn generated : vectors) : result thrown (list jstr) :=
  match generated with
  | [] => Ok []
  | (id, vector) :: generated =>
      let old := map_get id checkedIn in
      here ← (if truthy old && negb (deep_equal_opt (Some vector) old) then
                s ← template id;
                d ← describeDifference vector (default JNull old);
                Ok [jq "producer vector '" ++ s ++ jq "' is stale: " ++ d]
              else Ok []);
      rest ← stale_vectors checkedIn generated;
      Ok (here ++ rest)
  end.

Definition compare_vectors (generatedText checkedInText : option bytes) : result thrown (list jstr) :=
  generated ← read_vectors generatedText;
  checkedIn ← read_vectors checkedInText;
  missing ← missing_from checkedIn "' is generated but missing from cases/producer.json" generated.*1;
  extra ← missing_from generated "' is in cases/producer.json but no longer generated" checkedIn.*1;
  stale ← stale_vectors checkedIn generated;
  let problems := missing ++ extra ++ stale in
  match problems with
  | [] =>
      g ← read_text generatedText;
      c ← read_text checkedInText;
      Ok (if bool_decide (g = c) then [] else [js "cases/producer.json is not byte-identical to the generated file"])
  | _ => Ok problems
  end.

(** ** The whole comparison *)

Section producer.
Context {generator : Mix}.

Definition run_mix (args : list (list Z)) : eff (list producer_event) thrown spawn_result := λ trace,
  (Ok (mix trace args), trace ++ [RunMix args]).

(** The loop over the commands, left at the first failure. *)
Fixpoint run_steps (steps : list (list (list Z))) : eff (list producer_event) thrown (option jstr) :=
  match steps with
  | [] => mret None
  | args :: steps =>
      result ← run_mix args;
      if mix_failed result then mret (Some (mix_problem args result)) else run_steps steps
  end.

(** [try { m } finally { cleanup }] *)
Definition finally {S E A} (m : eff S E A) (cleanup : S → S) : eff S E A := λ s,
  let '(r, s') := m s in (r, cleanup s').

Definition producerVectorProblems (dir : jstr) (checkedIn : option bytes) :
    eff (list producer_event) thrown (list jstr) :=
  _ ← modify (λ trace, trace ++ [MakeTemp dir]);
  finally
    (problem ← run_steps (mix_steps (dir ++ js "/producer.json"));
     match problem with
     | Some p => mret [p]
     | None => pure (compare_vectors generated_file checkedIn)
     end)
    (λ trace, trace ++ [RemoveTemp dir]).

(** ** The temporary directory *)

Lemma run_steps_trace steps trace :
  ∃ r k, run_steps steps trace = (Ok r, trace ++ map RunMix (take k steps)) ∧
    (r = None → k = length steps).
Proof.
  revert trace. induction steps as [|args steps IH]; intros trace; cbn [run_steps].
  { exists None, 0%nat. cbn. by rewrite app_nil_r. }
  unfold mbind, eff_bind, run_mix. destruct (mix_failed _).
  - eexists _, 1%nat. by split.
  - destruct (IH (trace ++ [RunMix args])) as (r & k & -> & Hk). exists r, (S k). cbn. rewrite <-app_assoc.
    split; [done|]. intros Hr. by rewrite Hk.
Qed.

(** The temporary directory is removed last, on every path: whether a
    command fails, a file cannot be read or parsed, or the comparison throws;
    and the commands run are the first ones of the list, in order. *)
Theorem producer_temp_removed dir checkedIn trace :
  ∃ r k, producerVectorProblems dir checkedIn trace =
    (r, trace ++ [MakeTemp dir] ++ map RunMix (take k (mix_steps (dir ++ js "/producer.json"))) ++ [RemoveTemp dir]).
Proof.
  unfold producerVectorProblems, finally, modify, mbind, eff_bind.
  destruct (run_steps_trace (mix_steps (dir ++ js "/producer.json")) (trace ++ [MakeTemp dir])) as (r & k & E & _).
  rewrite E. exists (match r with Some p => Ok [p] | None => compare_vectors generated_file checkedIn end), k.
  destruct r; cbn; by rewrite <-!app_assoc.
Qed.

(** All commands succeed. *)
Fixpoint steps_succeed (steps : list (list (list Z))) (trace : list producer_event) : bool :=
  match steps with
  | [] => true
  | args :: steps => negb (mix_failed (mix trace args)) && steps_succeed steps (trace ++ [RunMix args])
  end.

Lemma run_steps_None steps trace :
  (∃ trace', run_steps steps trace = (Ok None, trace')) ↔ steps_succeed steps trace = true.
Proof.
  revert trace. induction steps as [|args steps IH]; intros trace; cbn [run_steps steps_succeed]; [split; [done|by eexists]|].
  unfold mbind, eff_bind, run_mix. destruct (mix_failed _); [|exact (IH _)]. split; [by intros []|done].
Qed.
End producer.

(** ** Comparing a file with itself *)

Lemma distinct_snoc l x : distinct l → set_has x l = false → distinct (l ++ [x]).
Proof.
  induction 1 as [|y l Hy Hl IH]; cbn; [by repeat constructor|]. intros [Hxy Hx]%orb_false_iff.
  constructor; [|by apply IH]. apply List.Forall_app. by repeat constructor.
Qed.

Lemma vector_map_distinct cases m m' : distinct m.*1 → vector_map m cases = Ok m' → distinct m'.*1.
Proof.
  revert m. induction cases as [|c cases IH]; intros m Hm; cbn [vector_map]; [by intros [= <-]|].
  intros H. ok_inv. eapply IH; [|done]. rewrite map_set_keys.
  destruct (set_has _ _) eqn:E; [done|by apply distinct_snoc].
Qed.

Lemma vector_map_values (P : json → Prop) cases m m' :
  Forall P cases → Forall (λ kv, P kv.2) m → vector_map m cases = Ok m' → Forall (λ kv, P kv.2) m'.
Proof.
  intros Hc. revert m. induction Hc as [|c cases Hc Hcs IH]; intros m Hm; cbn [vector_map]; [by intros [= <-]|].
  intros H. ok_inv. eapply IH; [|done]. apply Forall_forall. rewrite Forall_forall in Hm.
  intros kv [->|Hin]%map_set_elem; auto.
Qed.

Lemma read_vectors_ok file bs m :
  file = Some bs → Forall byte_ok bs → read_vectors file = Ok m →
  distinct m.*1 ∧ Forall (λ kv, json_wf kv.2) m.
Proof.
  intros -> Hbs H. unfold read_vectors, readJson, read_text in H. cbn [or_throw fmap result_fmap] in H. ok_inv.
  apply json_parse_wf in H0; [|by apply utf8_decode_units].
  destruct x as [| | | | |o]; cbn [prop] in H1; ok_inv; try done. inversion_clear H0 as [| | | | |? Ho].
  destruct (obj_get (js "cases") o) as [[| | | |l|]|] eqn:El; try done.
  pose proof (obj_get_wf _ _ _ Ho El) as Hl. inversion_clear Hl as [| | | |? Hl'|].
  split; [eapply vector_map_distinct; [|done]; constructor|by eapply vector_map_values].
Qed.

(** A set of vectors whose ids can be looked up. *)
Definition ids_keyed (m : vectors) : Prop := Forall (λ kv, is_Some (key_of_value kv.1)) m.

Lemma missing_from_self m text ids :
  Forall (λ id, is_Some (map_get id m)) ids → missing_from m text ids = Ok [].
Proof. induction 1 as [|id ids [v Hv] _ IH]; cbn; [done|]. rewrite Hv. cbn. by rewrite IH. Qed.

Lemma stale_self m gen :
  Forall (λ kv, map_get kv.1 m = Some kv.2 ∧ json_wf kv.2) gen → stale_vectors m gen = Ok [].
Proof.
  induction 1 as [|[id v] gen [Hv Hw] _ IH]; cbn [stale_vectors]; [done|]. cbv zeta. cbn in Hv, Hw. rewrite Hv.
  cbn [deep_equal_opt]. rewrite deep_equal_refl by done. rewrite andb_false_r. cbn. by rewrite IH.
Qed.

Lemma compare_vectors_iff bs m checkedIn :
  Forall byte_ok bs → read_vectors (Some bs) = Ok m → ids_keyed m →
  compare_vectors (Some bs) checkedIn = Ok [] ↔ read_text checkedIn = read_text (Some bs).
Proof.
  intros Hbs Hm Hk. destruct (read_vectors_ok _ _ _ eq_refl Hbs Hm) as [Hd Hw]. unfold compare_vectors. split.
  - intros H. rewrite Hm in H. cbn [mbind result_bind] in H. ok_inv.
    destruct (_ ++ _ ++ _) in H; [|done]. destruct (read_text (Some bs)); cbn in H; [|done].
    destruct (read_text checkedIn); cbn in H; [|done]. case_bool_decide; [by subst|done].
  - intros E. assert (read_vectors checkedIn = Ok m) as Hc.
    { rewrite <-Hm. unfold read_vectors, readJson. by rewrite E. }
    rewrite Hm, Hc. cbn [mbind result_bind].
    assert (Forall (λ kv, map_get kv.1 m = Some kv.2 ∧ json_wf kv.2) m) as Hself.
    { unfold ids_keyed in Hk. rewrite Forall_forall in Hk, Hw. apply Forall_forall. intros [k v] Hin.
      split; [|by apply (Hw _ Hin)]. by apply map_get_elem; [| apply (Hk _ Hin)|]. }
    assert (Forall (λ id, is_Some (map_get id m)) m.*1) as Hids.
    { apply Forall_fmap. eapply Forall_impl; [exact Hself|]. intros kv [Hkv _]. cbn. by rewrite Hkv. }
    rewrite !missing_from_self by done. cbn [mbind result_bind]. rewrite stale_self by done. cbn [mbind result_bind app].
    rewrite E. cbn. by rewrite bool_decide_eq_true_2.
Qed.

(** A file of vectors: an object whose [cases] are an array without [null] in
    which every [id] is found again by a lookup, so it is no object or array. *)
Definition vector_file (text : jstr) : Prop :=
  ∃ o l, json_parse text = Some (JObj o) ∧ obj_get (js "cases") o = Some (JArr l) ∧
    Forall (λ c, c ≠ JNull ∧ is_Some (key_of_value (feature_id c))) l.

Lemma vector_map_keyed cases m :
  ids_keyed m →
  (∃ m', vector_map m cases = Ok m' ∧ ids_keyed m') ↔
  Forall (λ c, c ≠ JNull ∧ is_Some (key_of_value (feature_id c))) cases.
Proof.
  unfold ids_keyed. assert (∀ m : vectors, Forall (λ kv, is_Some (key_of_value kv.1)) m ↔
    Forall (λ k, is_Some (key_of_value k)) m.*1) as Hfst by (intros; by rewrite Forall_fmap).
  assert (∀ cs m m', vector_map m cs = Ok m' → Forall (λ kv, is_Some (key_of_value kv.1)) m' →
    Forall (λ kv, is_Some (key_of_value kv.1)) m) as Hback.
  { induction cs as [|c cs IH]; intros m1 m2; cbn [vector_map]; [by intros [= <-]|]. intros H Hm2. ok_inv.
    apply (IH _ _ H) in Hm2. rewrite Hfst in Hm2 |- *. rewrite map_set_keys in Hm2. destruct (set_has _ _); [done|].
    by apply Forall_app in Hm2 as [? _]. }
  revert m. induction cases as [|c cases IH]; intros m Hm; cbn [vector_map]; [split; [constructor|eauto]|].
  rewrite Forall_cons, prop_id. split.
  - intros (m' & H & Hm'). destruct c; try done; cbn [mbind result_bind] in H; pose proof (Hback _ _ _ H Hm') as Hs;
      (rewrite <-(IH _ Hs); split; [|by eauto]); rewrite Hfst, map_set_keys in Hs;
      (split; [done|]); (destruct (set_has _ _) eqn:E; [by eapply set_has_key|]);
      apply Forall_app in Hs as [_ Hs]; by inversion_clear Hs.
  - intros [[Hn Hk] Hc]. assert (Forall (λ kv, is_Some (key_of_value kv.1)) (map_set (feature_id c) c m)) as Hs.
    { rewrite Hfst, map_set_keys. rewrite Hfst in Hm. destruct (set_has _ _); [done|]. apply Forall_app. by repeat constructor. }
    apply (IH _ Hs) in Hc. by destruct c.
Qed.

Lemma read_vectors_iff bs :
  (∃ m, read_vectors (Some bs) = Ok m ∧ ids_keyed m) ↔ vector_file (utf8_decode bs).
Proof.
  unfold read_vectors, vector_file, readJson, read_text. cbn [or_throw fmap result_fmap mbind result_bind].
  destruct (json_parse (utf8_decode bs)) as [x|]; cbn [or_throw mbind result_bind]; [|split; [by intros (? & ? & _)|by intros (? & ? & ? & _)]].
  destruct x as [| | | | |o]; cbn [prop mbind result_bind]; try (split; [by intros (? & ? & _)|by intros (? & ? & ? & _)]).
  destruct (obj_get (js "cases") o) as [[| | | |l|]|] eqn:El;
    try (split; [by intros (? & ? & _)|by intros (? & ? & [= <-] & ? & _); simplify_eq]).
  rewrite (vector_map_keyed l []) by constructor. split; [by eauto|]. intros (? & l' & [= <-] & Hl & ?). by simplify_eq.
Qed.

Lemma missing_from_none other text ids :
  missing_from other text ids = Ok [] → Forall (λ id, is_Some (key_of_value id)) ids.
Proof.
  induction ids as [|id ids IH]; cbn [missing_from]; [done|]. intros H. ok_inv.
  destruct (map_get id other) as [v|] eqn:Eg; [|ok_inv; by destruct x0]. ok_inv.
  constructor; [|by apply IH; destruct x0]. clear -Eg. induction other as [|[k w] other IH]; cbn in Eg; [done|].
  destruct (same_value id k) eqn:E; [|by apply IH]. apply same_value_key in E as (c & Hc & _). by exists c.
Qed.

Section verdict.
Context {generator : Mix}.

(** Every command of the generator ran and exited with status 0. *)
Definition mix_runs (dir : jstr) : Prop :=
  let steps := mix_steps (dir ++ js "/producer.json") in
  ∀ i args, steps !! i = Some args →
    let result := mix (MakeTemp dir :: map RunMix (take i steps)) args in
    sr_error result = None ∧ sr_status result = Some 0.

(** The commands ran, and the file they left is a file of vectors with the very
    text of the checked-in one. *)
Definition producer_matches (dir : jstr) (checkedIn : option bytes) : Prop :=
  mix_runs dir ∧
  ∃ new old, generated_file = Some new ∧ checkedIn = Some old ∧
    utf8_decode new = utf8_decode old ∧ vector_file (utf8_decode new).

Lemma mix_failed_false res : mix_failed res = false ↔ sr_error res = None ∧ sr_status res = Some 0.
Proof. unfold mix_failed. destruct (sr_error res); [naive_solver|]. rewrite negb_false_iff, bool_decide_eq_true. tauto. Qed.

Lemma steps_succeed_iff steps trace :
  steps_succeed steps trace = true ↔
  ∀ i args, steps !! i = Some args → mix_failed (mix (trace ++ map RunMix (take i steps)) args) = false.
Proof.
  revert trace. induction steps as [|args steps IH]; intros trace; cbn [steps_succeed]; [split; [by intros _ []|done]|].
  rewrite andb_true_iff, negb_true_iff, IH. split.
  - intros [H1 H2] [|i] args'; cbn; [intros [= <-]; by rewrite app_nil_r|]. intros Hi. specialize (H2 i args' Hi).
    by rewrite <-app_assoc in H2.
  - intros H. split; [specialize (H 0%nat args eq_refl); by rewrite app_nil_r in H|].
    intros i args' Hi. rewrite <-app_assoc. exact (H (S i) args' Hi).
Qed.

Lemma compare_vectors_exact checkedIn :
  (∀ bs, generated_file = Some bs → Forall byte_ok bs) →
  compare_vectors generated_file checkedIn = Ok [] ↔
  ∃ new old, generated_file = Some new ∧ checkedIn = Some old ∧
    utf8_decode new = utf8_decode old ∧ vector_file (utf8_decode new).
Proof.
  intros Hbytes. destruct generated_file as [new|]; [|split; [done|by intros (? & ? & ? & _)]].
  specialize (Hbytes new eq_refl). trans (∃ m, (read_vectors (Some new) = Ok m ∧ ids_keyed m) ∧ read_text checkedIn = read_text (Some new)).
  - split.
    + intros H. assert (∃ m, read_vectors (Some new) = Ok m ∧ ids_keyed m) as (m & Hm & Hk).
      { unfold compare_vectors in H. destruct (read_vectors (Some new)) as [m|] eqn:Hm; [|done].
        cbn [mbind result_bind] in H. ok_inv. exists m. split; [done|]. apply (Forall_fmap fst (λ k, is_Some (key_of_value k))).
        destruct x0; [by eapply missing_from_none|done]. }
      exists m. split; [done|]. by apply (compare_vectors_iff new m).
    + intros (m & [Hm Hk] & E). by apply (compare_vectors_iff new m).
  - split.
    + intros (m & Hm & E). destruct checkedIn as [old|]; [|done]. injection E as E. exists new, old.
      split; [done|]. split; [done|]. split; [done|]. apply read_vectors_iff. by exists m.
    + intros (? & old & [= <-] & -> & E & [m Hm]%read_vectors_iff). exists m. split; [done|].
      unfold read_text. cbn. by rewrite E.
Qed.

(** The verdict is identity of the two texts: the check finds no problem
    exactly if every command succeeded and the file the generator left is a
    file of vectors with the text of the checked-in one; the comparison of
    single vectors only explains a difference. *)
Lemma producer_passes dir checkedIn :
  (∀ bs, generated_file = Some bs → Forall byte_ok bs) →
  (producerVectorProblems dir checkedIn []).1 = Ok [] ↔ producer_matches dir checkedIn.
Proof.
  intros Hb. unfold producer_matches, mix_runs. cbv zeta.
  assert (∀ i args, mix_failed (mix ([MakeTemp dir] ++ map RunMix (take i (mix_steps (dir ++ js "/producer.json")))) args) = false ↔
    sr_error (mix (MakeTemp dir :: map RunMix (take i (mix_steps (dir ++ js "/producer.json")))) args) = None ∧
    sr_status (mix (MakeTemp dir :: map RunMix (take i (mix_steps (dir ++ js "/producer.json")))) args) = Some 0) as Hf
    by (intros; apply mix_failed_false).
  setoid_rewrite <-Hf. rewrite <-steps_succeed_iff, <-run_steps_None, <-compare_vectors_exact by done.
  unfold producerVectorProblems, finally, modify, mbind, eff_bind. cbn [app].
  destruct (run_steps_trace (mix_steps (dir ++ js "/producer.json")) [MakeTemp dir]) as (r & k & E & _).
  rewrite E. destruct r as [p|]; cbn [fst].
  - split; [done|]. by intros [[? ?] _].
  - unfold pure. cbn [fst]. split; [intros H; split; [eauto|done]|by intros [_ ?]].
Qed.
End verdict.

(** ** What a difference report says *)

Lemma filter_keys_total (p : jstr → bool) keys : filter_keys (λ k, Ok (p k)) keys = Ok (List.filter p keys).
Proof. induction keys as [|k keys IH]; cbn; [done|]. rewrite IH. cbn. by destruct (p k). Qed.

Lemma own_value_obj k o : is_Some (own_value k (JObj o)) ↔ k ∈ o.*1.
Proof.
  cbn. pose proof (obj_get_None k o) as Hn. rewrite eq_None_not_Some in Hn.
  destruct (decide (k ∈ o.*1)), (obj_get k o); naive_solver.
Qed.

Definition added_key (b : list (jstr * json)) (k : jstr) : bool :=
  negb (bool_decide (is_Some (own_value k (JObj b))) || named k OBJECT_PROTOTYPE).
Definition changed_key (n b : list (jstr * json)) (k : jstr) : bool :=
  (bool_decide (is_Some (own_value k (JObj b))) || named k OBJECT_PROTOTYPE) && differs k (JObj n) (JObj b).

Lemma message_keys_obj n b :
  message_keys (JObj n) (JObj b) =
  Ok (List.filter (added_key b) (enumerate n).*1, List.filter (added_key n) (enumerate b).*1,
      List.filter (changed_key n b) (enumerate n).*1).
Proof.
  unfold message_keys. cbn [object_keys mbind result_bind key_in fmap result_fmap].
  rewrite (filter_keys_total (added_key b)). cbn [mbind result_bind].
  rewrite (filter_keys_total (added_key n)). cbn [mbind result_bind].
  by rewrite (filter_keys_total (changed_key n b)).
Qed.

Lemma filter_nil_iff {A} (p : A → bool) l : List.filter p l = [] ↔ ∀ x, x ∈ l → p x = false.
Proof.
  induction l as [|a l IH]; cbn; [set_solver|]. destruct (p a) eqn:E.
  - split; [done|]. intros H. specialize (H a). rewrite E in H. discriminate H. set_solver.
  - rewrite IH. split; [|set_solver]. intros H x [->|Hx]%elem_of_cons; auto.
Qed.

(** No key is reported exactly when the two messages are the same object. *)
Lemma message_keys_none n b :
  obj_wf n → obj_wf b → (∀ k, k ∈ b.*1 → named k OBJECT_PROTOTYPE = false) →
  message_keys (JObj n) (JObj b) = Ok ([], [], []) ↔ json_same (JObj n) (JObj b).
Proof.
  intros Hn Hb Hproto. rewrite message_keys_obj.
  rewrite <-deep_equal_same, deep_equal_obj_maps by (done || by constructor).
  trans ((∀ k, k ∈ n.*1 → added_key b k = false ∧ changed_key n b k = false) ∧
         (∀ k, k ∈ b.*1 → added_key n k = false)).
  { assert (∀ (o : list (jstr * json)) k, k ∈ (enumerate o).*1 ↔ k ∈ o.*1) as He
      by (intros; by rewrite enumerate_perm).
    assert (∀ a c d : list jstr, Ok (E := thrown) (a, c, d) = Ok ([], [], []) ↔ a = [] ∧ c = [] ∧ d = []) as ->
      by naive_solver.
    rewrite !filter_nil_iff. setoid_rewrite He. split.
    - intros (Ha & Hr & Hc). split; [|done]. auto.
    - intros [Hac Hr]. split_and!; [|done|]; intros k Hk; by apply Hac. }
  unfold added_key, changed_key, differs. cbn [own_value]. split.
  - intros [Hnk Hbk] k. pose proof (own_value_obj k n) as On. pose proof (own_value_obj k b) as Ob.
    cbn [own_value] in On, Ob. specialize (Hnk k). specialize (Hbk k). specialize (Hproto k).
    destruct (obj_get k n) as [v|] eqn:En, (obj_get k b) as [w|] eqn:Eb; [| | |constructor].
    + destruct Hnk as [_ Hc]; [by apply On|]. constructor. rewrite bool_decide_eq_true_2 in Hc by done.
      cbn in Hc. by apply negb_false_iff in Hc.
    + destruct Hnk as [Ha Hc]; [by apply On|].
      rewrite !bool_decide_eq_false_2 in Ha, Hc by (by intros []). by destruct (named k OBJECT_PROTOTYPE).
    + rewrite Hproto, bool_decide_eq_false_2 in Hbk by (by apply Ob || by intros []).
      by specialize (Hbk (proj1 Ob (mk_is_Some _ _ eq_refl))).
  - intros HR. split; intros k Hk; specialize (HR k); apply own_value_obj in Hk; cbn [own_value] in Hk.
    + destruct Hk as [v Ev]. rewrite Ev in HR. inversion HR as [? w Hvw E1 E2|]; subst. rewrite Ev.
      rewrite !bool_decide_eq_true_2 by done. cbn. by rewrite Hvw.
    + destruct Hk as [w Ew]. rewrite Ew in HR. inversion HR as [v ? Hvw E1 E2|]; subst. done.
Qed.

Lemma join_part_head label keys rest :
  part label keys = [] ∨ ∃ t, join_strings "; " (part label keys ++ rest) = js label ++ t.
Proof.
  destruct keys as [|k keys]; [by left|]. right. cbn [part app]. unfold join_strings at 1.
  rewrite <-app_assoc. eauto.
Qed.

(** A difference report is right: of two message objects it blames the
    expected result exactly when the messages are the same object (keys in any
    order, nested values included); otherwise it names keys that were added,
    removed or changed.  (No removed key may have an inherited name.) *)
Theorem difference_explained generated checkedIn n b :
  vector_message generated = Ok (JObj n) → vector_message checkedIn = Ok (JObj b) → obj_wf n → obj_wf b →
  (∀ k, k ∈ b.*1 → named k OBJECT_PROTOTYPE = false) →
  ∃ s, describeDifference generated checkedIn = Ok s ∧
    (s = js "the expected decode result differs" ↔ json_same (JObj n) (JObj b)).
Proof.
  intros Hn Hb Hwn Hwb Hp. unfold describeDifference. rewrite Hn, Hb. cbn [mbind result_bind].
  pose proof (message_keys_none n b Hwn Hwb Hp) as Hk. rewrite message_keys_obj in Hk |- *.
  cbn [mbind result_bind]. cbv zeta.
  set (a := List.filter (added_key b) _) in *. set (r := List.filter (added_key n) _) in *.
  set (c := List.filter (changed_key n b) _) in *.
  eexists. split; [reflexivity|]. rewrite <-Hk. clearbody a r c. clear.
  trans (a = [] ∧ r = [] ∧ c = []); [|split; [by intros (-> & -> & ->)|by intros [=]]].
  destruct a as [|k a]; [|split; [|by intros [? _]]].
  - destruct r as [|k r]; [|split; [|by intros (_ & ? & _)]].
    + destruct c as [|k c]; [done|]. split; [|by intros (_ & _ & ?)]. cbn [part app].
      intros E. by injection E.
    + cbn [part app]. intros E. destruct (join_part_head "message keys removed: " (k :: r) (part "message keys changed: " c)) as [|[t Ht]]; [done|].
      cbn [part app] in Ht. rewrite Ht in E. done.
  - cbn [part app]. intros E.
    destruct (join_part_head "message keys added: " (k :: a) (part "message keys removed: " r ++ part "message keys changed: " c)) as [|[t Ht]]; [done|].
    cbn [part app] in Ht. rewrite Ht in E. done.
Qed.

Module Samples.
Definition healthy (content : jstr) : Mix :=
  {| mix := λ _ _, {| sr_error := None; sr_status := Some 0 |}; generated_file := Some content |}.
Definition offline : Mix :=
  {| mix := λ _ args, {| sr_error := None; sr_status := Some (if bool_decide (head args = Some (js "deps.get")) then 1 else 0) |};
     generated_file := None |}.

(** Escaped quotes make the message a string inside the vector. *)
Definition vector (id message : string) : string :=
  "{'id':'" +:+ id +:+ "','input':{'message':'" +:+ message +:+ "'},'expect':{}}".
Definition file (vectors : string) : jstr := jq ("{'cases':[" +:+ vectors +:+ "]}").

Example reports :
  (producerVectorProblems (generator := offline) (js "/tmp/p") None []).1 =
    Ok [js "`mix deps.get` in packages/ankusa failed (exit 1)"] ∧
  (producerVectorProblems (generator := healthy (file (vector "a" "{\'v\':1,\'id\':\'x\'}"))) (js "/tmp/p")
     (Some (file (vector "a" "{\'id\':\'y\',\'size\':0}" +:+ "," +:+ vector "b" "1"))) []).1 =
    Ok [jq "producer vector 'b' is in cases/producer.json but no longer generated";
        jq "producer vector 'a' is stale: message keys added: v; message keys removed: size; message keys changed: id"] ∧
  (producerVectorProblems (generator := healthy (file (vector "a" "0"))) (js "/tmp/p")
     (Some (file (vector "a" "0" +:+ " "))) []).1 =
    Ok [js "cases/producer.json is not byte-identical to the generated file"].
Proof. by vm_compute. Qed.

Lemma all_bytes bs : forallb (λ b, (0 <=? b) && (b <? 256)) bs = true → Forall byte_ok bs.
Proof.
  rewrite forallb_Forall_iff. intros H. eapply Forall_impl; [exact H|]. intros b Hb. cbv beta in Hb. bool_inv. unfold byte_ok. lia.
Qed.

Definition one : jstr := file (vector "a" "{\'v\':1}").

Example healthy_matches : producer_matches (generator := healthy one) (js "/tmp/p") (Some one).
Proof.
  apply (producer_passes (generator := healthy one)); [|by vm_compute]. intros bs [= <-].
  apply all_bytes. vm_compute. reflexivity.
Qed.

Lemma difference_explained_witness :
  ∃ s, describeDifference (JObj [(js "input", JObj [(js "message", JStr (jq "{'v':1,'id':'x'}"))])])
                          (JObj [(js "input", JObj [(js "message", JStr (jq "{'id':'x','v':1}"))])]) = Ok s ∧
    (s = js "the expected decode result differs" ↔
     json_same (JObj [(js "v", JNum (num_of_Z 1)); (js "id", JStr (js "x"))])
               (JObj [(js "id", JStr (js "x")); (js "v", JNum (num_of_Z 1))])).
Proof.
  apply difference_explained; [vm_compute; reflexivity..| | |].
  - repeat constructor; try (unfold unit_ok; lia); set_solver.
  - repeat constructor; try (unfold unit_ok; lia); set_solver.
  - intros k Hk. cbn in Hk. repeat (apply elem_of_cons in Hk as [->|Hk]; [by vm_compute|]). by apply elem_of_nil in Hk.
Defined.
End Samples.
