(* ===== verification/SdkPool.v ===== *)
(** * Running the SDKs ([conformance/check.mjs], third part)

    A bounded number of runners share a queue of SDK names: each takes a name,
    runs its commands one after another until one fails, records the exit code
    and comes back for the next.  JavaScript runs one callback at a time, so the
    pool is a step relation whose steps are the turns of the runners; when a
    child process ends, and how, is up to the environment. *)
From stdpp Require Import base tactics list numbers option strings sets relations.
From S2P Require Import Prelude JsNumber JsString Json Env JsonFacts ClaimRef Http JsValue ConformanceCases.
Local Open Scope Z_scope.

(** ** How many runners *)

(** [Number(x) || 4], where an unset variable is [undefined]. *)
Definition jobs (CONFORMANCE_JOBS : option jstr) : num :=
  match CONFORMANCE_JOBS with
  | None => num_of_Z 4
  | Some s => if truthy (Some (JNum (js_number s))) then js_number s else num_of_Z 4
  end.

(** [Math.min] and [Math.max] of two numbers that are neither [NaN] nor zeros of
    different signs. *)
Definition num_min (a b : num) : num := if num_lt b a then b else a.
Definition num_max (a b : num) : num := if num_lt a b then b else a.

Definition CONCURRENCY (CONFORMANCE_JOBS : option jstr) (availableParallelism : Z) : num :=
  num_max (num_of_Z 1) (num_min (jobs CONFORMANCE_JOBS) (num_of_Z availableParallelism)).

(** The length an array is made with: the integer part, not below zero. *)
Definition num_length (x : num) : nat :=
  match x with
  | SpecFloat.S754_finite false m e => Z.to_nat (if 0 <=? e then Z.pos m * 2 ^ e else Z.pos m / 2 ^ (- e))
  | _ => 0%nat
  end.

Definition runner_count (CONFORMANCE_JOBS : option jstr) (availableParallelism : Z) (queue : nat) : nat :=
  num_length (num_min (CONCURRENCY CONFORMANCE_JOBS availableParallelism) (num_of_Z (Z.of_nat queue))).

(** ** The commands of an SDK *)

(** [const { setup = [], run } = sdksFile.sdks[name]; [...setup, run]] *)
Definition sdk_commands (spec : option json) : result thrown (list (option json)) :=
  setup ← prop spec "setup";
  run ← prop spec "run";
  cs ← match setup with None => Ok [] | Some _ => iterate setup end;
  Ok (map Some cs ++ [run]).

Definition has_nul (x : json) : bool := match x with JStr s => bool_decide (0 ∈ s) | _ => false end.

(** [const [command, ...args] = c; spawn(command, args)], whose arguments Node
    checks before it starts anything. *)
Definition spawnable (c : option json) : result thrown (jstr * list json) :=
  words ← iterate c;
  match words with
  | JStr (x :: s) :: args =>
      _ ← require (negb (existsb has_nul words)) (Thrown (js "must be a string without null bytes"));
      Ok (x :: s, args)
  | _ => Err (TypeError "The file argument must be of type string")
  end.

(** How a child ends: it could not be started, or it closed with a status or by
    a signal. *)
Inductive child_event :=
| ChildError
| ChildClosed (status : option Z) (signal : option (list Z)).

(** [status ?? (signal ? 1 : 0)], and [1] for an error. *)
Definition exit_code (e : child_event) : Z :=
  match e with
  | ChildError => 1
  | ChildClosed (Some status) _ => status
  | ChildClosed None (Some (_ :: _)) => 1
  | ChildClosed None _ => 0
  end.

(** ** One SDK by itself *)

(** Which child it is: the SDK, the command and the commands still to come. *)
Record child := { ch_sdk : list Z; ch_command : list Z * list json; ch_rest : list (option json) }.

Section sequential.
Context (spec : list Z → option json) (ending : child → child_event).

Fixpoint run_commands (name : jstr) (commands : list (option json)) : result thrown Z :=
  match commands with
  | [] => Ok 0
  | c :: rest =>
      x ← spawnable c;
      let code := exit_code (ending {| ch_sdk := name; ch_command := x; ch_rest := rest |}) in
      if code =? 0 then run_commands name rest else Ok code
  end.

Definition runSdk (name : jstr) : result thrown Z :=
  commands ← sdk_commands (spec name);
  run_commands name commands.
End sequential.

(** ** The pool *)

Inductive runner :=
| Idle
| Running (c : child)
| Finished.

(** [Crashed] is a rejection of [Promise.all], which ends the script. *)
Inductive pool :=
| Pool (queue : list (list Z)) (runners : list runner) (results : list (list Z * Z))
| Crashed (t : thrown).

Section pool.
Context (spec : list Z → option json).

(** Runner [i] starts a command. *)
Definition start_command (i : nat) (name : jstr) (c : option json) (rest : list (option json))
    (queue : list jstr) (rs : list runner) (results : list (jstr * Z)) : pool :=
  match spawnable c with
  | Ok x => Pool queue (<[i := Running {| ch_sdk := name; ch_command := x; ch_rest := rest |}]> rs) results
  | Err t => Crashed t
  end.

(** [while (queue.length > 0) { const name = queue.shift(); ... runSdk(name) }] *)
Definition loop_turn (i : nat) (queue : list jstr) (rs : list runner) (results : list (jstr * Z)) : pool :=
  match queue with
  | [] => Pool [] (<[i := Finished]> rs) results
  | name :: queue =>
      match sdk_commands (spec name) with
      | Err t => Crashed t
      | Ok [] => Pool queue (<[i := Idle]> rs) (obj_set name 0 results)
      | Ok (c :: rest) => start_command i name c rest queue rs results
      end
  end.

(** The child of runner [i] ended: on to the next command, or
    [results.set(name, code)]. *)
Definition child_ended (i : nat) (c : child) (e : child_event)
    (queue : list jstr) (rs : list runner) (results : list (jstr * Z)) : pool :=
  let code := exit_code e in
  match ch_rest c with
  | next :: rest =>
      if code =? 0 then start_command i (ch_sdk c) next rest queue rs results
      else Pool queue (<[i := Idle]> rs) (obj_set (ch_sdk c) code results)
  | [] => Pool queue (<[i := Idle]> rs) (obj_set (ch_sdk c) code results)
  end.

Context (ends : child → child_event → Prop).

Inductive step : pool → pool → Prop :=
| step_loop i queue rs results :
    rs !! i = Some Idle → step (Pool queue rs results) (loop_turn i queue rs results)
| step_child i c e queue rs results :
    rs !! i = Some (Running c) → ends c e →
    step (Pool queue rs results) (child_ended i c e queue rs results).

(** [Array.from({ length }, async () => ...)]: every runner starts at its loop. *)
Definition start (names : list jstr) (k : nat) : pool := Pool names (replicate k Idle) [].

Definition final (p : pool) : Prop :=
  match p with
  | Pool _ rs _ => Forall (λ r, r = Finished) rs
  | Crashed _ => True
  end.
End pool.

(** ** The report *)

(** One line per SDK and the exit status. *)
Definition result_line (results : list (jstr * Z)) (name : jstr) : jstr :=
  let code := default 0 (obj_get name results) in
  name ++ (if code =? 0 then js "  pass" else js "  FAIL (exit " ++ dec_of_Z code ++ js ")").

Definition failed (results : list (jstr * Z)) : bool :=
  existsb (λ name, negb (default 0 (obj_get name results) =? 0)) (sort_strings results.*1).

Definition report_pool (results : list (jstr * Z)) : list jstr * Z :=
  (map (result_line results) (sort_strings results.*1), if failed results then 1 else 0).

(** A rejected top-level await is status 1. *)
Definition exit_status (p : pool) : Z :=
  match p with Pool _ _ results => (report_pool results).2 | Crashed _ => 1 end.

(** ** Lists of runners *)

Lemma insert_split {A} (l : list A) i old :
  l !! i = Some old → ∃ l1 l2, l = l1 ++ old :: l2 ∧ ∀ x, <[i := x]> l = l1 ++ x :: l2.
Proof.
  intros Hi. exists (take i l), (drop (S i) l). split; [by rewrite take_drop_middle|].
  intros x. rewrite insert_take_drop by by eapply lookup_lt_Some. done.
Qed.

Definition running (rs : list runner) : list jstr :=
  omap (λ r, match r with Running c => Some (ch_sdk c) | _ => None end) rs.

Section facts.
Context (spec : list Z → option json) (ends : child → child_event → Prop).

(** How many commands an SDK has. *)
Definition sdk_size (name : jstr) : nat := match sdk_commands (spec name) with Ok cs => length cs | Err _ => 0 end.

(** What every step does, in one place: a runner changes, a name may leave the
    queue and a result may be recorded. *)
Inductive change : runner → list jstr → runner → list jstr → option (jstr * Z) → Prop :=
| change_stop : change Idle [] Finished [] None
| change_take name queue c :
    ch_sdk c = name → (length (ch_rest c) < sdk_size name)%nat → change Idle (name :: queue) (Running c) queue None
| change_next c c' queue :
    ch_sdk c' = ch_sdk c → (length (ch_rest c') < length (ch_rest c))%nat →
    change (Running c) queue (Running c') queue None
| change_result c queue code :
    change (Running c) queue Idle queue (Some (ch_sdk c, code)).

Definition record (o : option (jstr * Z)) (results : list (jstr * Z)) : list (jstr * Z) :=
  match o with Some (name, code) => obj_set name code results | None => results end.

Lemma sdk_commands_run s cs : sdk_commands s = Ok cs → cs ≠ [].
Proof. unfold sdk_commands. intros. ok_inv. by intros [_ ?]%app_nil. Qed.

Lemma step_cases p p' :
  step spec ends p p' →
  ∃ queue l1 old l2 results, p = Pool queue (l1 ++ old :: l2) results ∧ old ≠ Finished ∧
    ((∃ t, p' = Crashed t) ∨
     ∃ queue' new o, p' = Pool queue' (l1 ++ new :: l2) (record o results) ∧ change old queue new queue' o).
Proof.
  destruct 1 as [i queue rs results Hi|i c e queue rs results Hi He];
    destruct (insert_split rs i _ Hi) as (l1 & l2 & -> & Hins).
  - exists queue, l1, Idle, l2, results. split; [done|]. split; [done|]. unfold loop_turn.
    destruct queue as [|name queue]; [right; eexists [], _, None; rewrite Hins; split; [done|constructor]|].
    destruct (sdk_commands (spec name)) as [[|c rest]|t] eqn:Ec; [by apply sdk_commands_run in Ec| |by left; eauto].
    unfold start_command. destruct (spawnable c) as [x|t]; [|by left; eauto].
    right. rewrite Hins. eexists _, _, None. split; [done|]. constructor; [done|]. unfold sdk_size. rewrite Ec. cbn. lia.
  - exists queue, l1, (Running c), l2, results. split; [done|]. split; [done|]. unfold child_ended. cbv zeta.
    destruct (ch_rest c) as [|next rest] eqn:Er.
    { right. rewrite Hins. eexists _, _, (Some (ch_sdk c, exit_code e)). split; [done|constructor]. }
    destruct (exit_code e =? 0).
    + unfold start_command. destruct (spawnable next) as [x|t]; [|by left; eauto].
      right. rewrite Hins. eexists _, _, None. split; [done|]. constructor; [done|]. rewrite Er. cbn. lia.
    + right. rewrite Hins. eexists _, _, (Some (ch_sdk c, exit_code e)). split; [done|constructor].
Qed.

(** ** Accounting *)

(** Every SDK is queued, running or done, once. *)
Record pool_inv (names : list jstr) (k : nat) (queue : list jstr) (rs : list runner) (results : list (jstr * Z)) :
    Prop := {
  pi_names : queue ++ running rs ++ results.*1 ≡ₚ names;
  pi_runners : length rs = k;
  pi_finished : Finished ∈ rs → queue = [];
}.

Definition reachable_inv (names : list jstr) (k : nat) (p : pool) : Prop :=
  match p with Pool queue rs results => pool_inv names k queue rs results | Crashed _ => True end.

Lemma running_split l1 r l2 : running (l1 ++ r :: l2) = running l1 ++ running [r] ++ running l2.
Proof. unfold running. by rewrite omap_app, (omap_app _ [r] l2). Qed.

Lemma running_Idle : running [Idle] = [].
Proof. done. Qed.
Lemma running_Finished : running [Finished] = [].
Proof. done. Qed.
Lemma running_Running c : running [Running c] = [ch_sdk c].
Proof. done. Qed.

Lemma step_inv names k p p' :
  NoDup names → step spec ends p p' → reachable_inv names k p → reachable_inv names k p'.
Proof.
  intros Hnd Hs. destruct (step_cases p p' Hs) as (q & l1 & old & l2 & res & -> & Hold & Hnew).
  intros [Hn Hl Hf]. destruct Hnew as [[t ->]|(q' & new & o & -> & Hc)]; [done|]. cbn [reachable_inv].
  split.
  - rewrite running_split in Hn. rewrite running_split. destruct Hc as [|name q c E _|c c' q E _|c q code].
    + done.
    + rewrite running_Running, E. rewrite running_Idle in Hn. rewrite <-Hn. cbn. solve_Permutation.
    + by rewrite running_Running, E, <-running_Running.
    + cbn [record]. rewrite running_Idle. rewrite running_Running in Hn. rewrite obj_set_fresh.
      * rewrite fmap_app, <-Hn. cbn. solve_Permutation.
      * intros Hin. rewrite <-Hn in Hnd. rewrite !NoDup_app in Hnd. set_solver.
  - rewrite <-Hl, !length_app. done.
  - intros Hin. assert (new ≠ Finished → q = []) as Hq by (intros; apply Hf; set_solver).
    destruct Hc as [|name q c E _|c c' q E _|c q code]; [done|..]; specialize (Hq ltac:(done)); done.
Qed.

Lemma start_inv names k : NoDup names → reachable_inv names k (start names k).
Proof.
  intros _. split; [|by rewrite length_replicate|by intros [? _]%elem_of_replicate].
  assert (running (replicate k Idle) = []) as -> by (induction k; done). by rewrite !app_nil_r.
Qed.

Lemma reachable_invariant names k p :
  NoDup names → rtc (step spec ends) (start names k) p → reachable_inv names k p.
Proof.
  intros Hnd Hr. pose proof (start_inv names k Hnd) as Hi. revert Hi.
  induction Hr as [p|p1 p2 p3 Hs _ IH]; [done|]. intros Hi. apply IH. by eapply step_inv.
Qed.

(** The pool accounts for every SDK: at any moment each registered SDK is
    either still queued, being run by one runner, or done with one recorded
    result, never two of these and never none; and no more children run than
    there are runners. *)
Theorem pool_accounts names k queue rs results :
  NoDup names → rtc (step spec ends) (start names k) (Pool queue rs results) →
  queue ++ running rs ++ results.*1 ≡ₚ names ∧ (length (running rs) ≤ k)%nat.
Proof.
  intros Hnd Hr. destruct (reachable_invariant _ _ _ Hnd Hr) as [Hn Hl _]. split; [done|].
  rewrite <-Hl. unfold running. clear. induction rs as [|[] rs IH]; cbn; lia.
Qed.

(** ** Termination *)

Definition runner_size (r : runner) : nat :=
  match r with Idle => 1 | Running c => 2 + length (ch_rest c) | Finished => 0 end.

(** An upper bound on the steps left. *)
Definition pool_size (p : pool) : nat :=
  match p with
  | Pool queue rs _ => sum_list_with (λ n, 2 + sdk_size n) queue + sum_list_with runner_size rs
  | Crashed _ => 0
  end%nat.

Lemma step_size p p' : step spec ends p p' → (pool_size p' < pool_size p)%nat.
Proof.
  intros Hs. destruct (step_cases p p' Hs) as (q & l1 & old & l2 & res & -> & Hold & Hnew).
  destruct Hnew as [[t ->]|(q' & new & o & -> & Hc)]; cbn [pool_size];
    rewrite !sum_list_with_app; cbn [sum_list_with].
  - destruct old; [..|done]; cbn [runner_size]; lia.
  - destruct Hc as [|name q c E Hc|c c' q E Hc|c q code]; cbn [sum_list_with runner_size]; lia.
Qed.

(** [C28] The pool stops: every run of the pool is finite, whatever the order in
    which children end and however they end; from its start it takes at most
    two steps per SDK, one per command and one per runner. *)
Theorem pool_terminates names k n p :
  nsteps (step spec ends) n (start names k) p →
  (n ≤ sum_list_with (λ name, 2 + sdk_size name) names + k)%nat.
Proof.
  assert (∀ q, nsteps (step spec ends) n q p → (n + pool_size p ≤ pool_size q)%nat) as Hn.
  { induction n as [|n IH]; intros q Hs; inversion_clear Hs as [|? q1 q2 q3 H1 H2]; [lia|].
    apply step_size in H1. apply IH in H2. lia. }
  intros Hs%Hn. cbn [start pool_size] in Hs.
  assert (sum_list_with runner_size (replicate k Idle) = k) as Hk by (clear; induction k; cbn in *; lia). lia.
Qed.

(** ** Completion *)

Lemma final_results names k queue rs results :
  (names ≠ [] → 0 < k)%nat → pool_inv names k queue rs results → final (Pool queue rs results) →
  queue = [] ∧ results.*1 ≡ₚ names.
Proof.
  intros Hk [Hn Hl Hf] Hfin. cbn in Hfin.
  assert (running rs = []) as Hr.
  { clear -Hfin. induction Hfin as [|r rs -> _ IH]; done. }
  rewrite Hr in Hn. assert (queue = []) as ->; [|done].
  destruct rs as [|r rs]; [|apply Hf; inversion_clear Hfin; subst; left].
  destruct queue as [|name queue]; [done|]. cbn in Hl. subst k.
  assert (names ≠ []) as Hne; [|specialize (Hk Hne); lia].
  intros ->. by apply Permutation_nil_r in Hn.
Qed.

Lemma pool_progress p : (∀ c, ∃ e, ends c e) → ¬ final p → ∃ p', step spec ends p p'.
Proof.
  intros He Hnf. destruct p as [queue rs results|t]; [|by destruct Hnf].
  apply not_Forall_Exists in Hnf; [|intros []; [by right|by right|by left]].
  apply Exists_exists in Hnf as (r & Hin & Hr'). apply list_elem_of_lookup in Hin as [i Hi].
  destruct r as [|c|]; [..|by destruct Hr']; [by eexists; apply step_loop|].
  destruct (He c) as [e Hce]. eexists. by apply step_child.
Qed.

Lemma final_dec p : Decision (final p).
Proof.
  destruct p as [queue rs results|t]; cbn; [|by left]. apply Forall_dec. intros []; [by right|by right|by left].
Qed.

Lemma pool_runs p : (∀ c, ∃ e, ends c e) → ∃ p', rtc (step spec ends) p p' ∧ final p'.
Proof.
  intros He. remember (pool_size p) as n eqn:Hn. revert p Hn.
  induction (lt_wf n) as [n _ IH]. intros p ->. destruct (final_dec p) as [Hf|Hf]; [by exists p|].
  destruct (pool_progress p He Hf) as [p1 Hs]. destruct (IH _ (step_size _ _ Hs) p1 eq_refl) as (p' & Hr & Hf').
  exists p'. split; [by eapply rtc_l|done].
Qed.

(** [C25] The pool never gets stuck: if every child process ends, then from any
    state the pool reaches, it goes on until every runner has finished or the
    script crashed; and when they have finished, every registered SDK has
    exactly one recorded result. *)
Theorem pool_completes names k p :
  NoDup names → (names ≠ [] → 0 < k)%nat → (∀ c, ∃ e, ends c e) →
  rtc (step spec ends) (start names k) p →
  (¬ final p → ∃ p', step spec ends p p') ∧
  (final p → match p with Pool _ _ results => results.*1 ≡ₚ names | Crashed _ => True end).
Proof.
  intros Hnd Hk He Hr. split.
  - by apply pool_progress.
  - intros Hf. pose proof (reachable_invariant _ _ _ Hnd Hr) as Hi. destruct p as [queue rs results|t]; [|done].
    by eapply final_results.
Qed.
End facts.

(** ** The same as one SDK after another *)

Section sequential_facts.
Context (spec : list Z → option json) (ending : child → child_event).

(** What is left of [runSdk] while a child runs. *)
Definition pending (c : child) : result thrown Z :=
  let code := exit_code (ending c) in
  if code =? 0 then run_commands ending (ch_sdk c) (ch_rest c) else Ok code.

Definition agrees (names : list jstr) (p : pool) : Prop :=
  match p with
  | Pool queue rs results =>
      (∀ name, name ∈ queue → name ∈ names) ∧
      (∀ c, Running c ∈ rs → ch_sdk c ∈ names ∧ runSdk spec ending (ch_sdk c) = pending c) ∧
      (∀ name code, (name, code) ∈ results → runSdk spec ending name = Ok code)
  | Crashed t => ∃ name, name ∈ names ∧ runSdk spec ending name = Err t
  end.

Lemma obj_set_elem {A} (k : jstr) (v : A) o kv : kv ∈ obj_set k v o → kv = (k, v) ∨ kv ∈ o.
Proof. induction o as [|[k' v'] o IH]; cbn; [set_solver|]. case_decide; set_solver. Qed.

Lemma elem_insert {A} (l : list A) i x y : y ∈ <[i := x]> l → y = x ∨ y ∈ l.
Proof.
  intros [j Hj]%list_elem_of_lookup. apply list_lookup_insert_Some in Hj as [(_ & -> & _)|[_ Hj]]; [by left|].
  right. by eapply list_elem_of_lookup_2.
Qed.

(** Recording what [runSdk] returns, or starting its next command, agrees. *)
Lemma agrees_record names queue rs results i name code :
  agrees names (Pool queue rs results) → runSdk spec ending name = Ok code →
  agrees names (Pool queue (<[i := Idle]> rs) (obj_set name code results)).
Proof.
  intros (Hq & Hr & Hres) Hrun. split; [done|]. split.
  - intros c [|Hin]%elem_insert; [done|by apply Hr].
  - intros n z [[= -> ->]|Hin]%obj_set_elem; [done|by apply Hres].
Qed.

Lemma agrees_start names queue rs results i name c rest :
  agrees names (Pool queue rs results) → name ∈ names →
  runSdk spec ending name = run_commands ending name (c :: rest) →
  agrees names (start_command i name c rest queue rs results).
Proof.
  intros (Hq & Hr & Hres) Hn Hrun. cbn [run_commands] in Hrun. unfold start_command.
  destruct (spawnable c) as [x|t]; [|by exists name]. split; [done|]. split; [|done].
  intros c' [[= ->]|Hin]%elem_insert; [|by apply Hr]. split; [done|]. cbn [ch_sdk]. rewrite Hrun. done.
Qed.

Lemma step_agrees names p p' :
  step spec (λ c e, e = ending c) p p' → agrees names p → agrees names p'.
Proof.
  destruct 1 as [i queue rs results Hi|i c e queue rs results Hi ->]; intros Hag;
    pose proof Hag as (Hq & Hr & Hres).
  - unfold loop_turn. destruct queue as [|name queue].
    { split; [done|]. split; [|done]. intros c [|Hin]%elem_insert; [done|by apply Hr]. }
    assert (name ∈ names) as Hn by (apply Hq; left).
    assert (agrees names (Pool queue rs results)) as Hag' by (split; [set_solver|done]).
    destruct (sdk_commands (spec name)) as [cs|t] eqn:Ec;
      [|exists name; split; [done|]; unfold runSdk; by rewrite Ec].
    assert (runSdk spec ending name = run_commands ending name cs) as Hrun by (unfold runSdk; by rewrite Ec).
    destruct cs as [|c rest]; [by apply agrees_record|by apply agrees_start].
  - destruct (Hr c) as [Hn Hp]; [by eapply list_elem_of_lookup_2|]. unfold pending in Hp. cbv zeta in Hp.
    unfold child_ended. cbv zeta. destruct (ch_rest c) as [|next rest] eqn:Er.
    { apply agrees_record; [done|]. rewrite Hp. destruct (Z.eqb_spec (exit_code (ending c)) 0) as [->|]; done. }
    destruct (exit_code (ending c) =? 0); [by apply agrees_start|by apply agrees_record].
Qed.

Lemma reachable_agrees names k p :
  rtc (step spec (λ c e, e = ending c)) (start names k) p → agrees names p.
Proof.
  intros Hr. assert (agrees names (start names k)) as Hi.
  { split; [done|]. split; [|set_solver]. by intros c [? _]%elem_of_replicate. }
  revert Hi. induction Hr as [|p1 p2 p3 Hs _ IH]; [done|]. intros Hi. apply IH. by eapply step_agrees.
Qed.

(** Running the SDKs one after another. *)
Definition sdk_passes (name : jstr) : bool :=
  match runSdk spec ending name with Ok code => code =? 0 | Err _ => false end.
Definition sequential_status (names : list jstr) : Z := if forallb sdk_passes names then 0 else 1.
Definition sequential_line (name : jstr) : jstr :=
  let code := match runSdk spec ending name with Ok code => code | Err _ => 1 end in
  name ++ (if code =? 0 then js "  pass" else js "  FAIL (exit " ++ dec_of_Z code ++ js ")").

Lemma results_lookup names results name :
  NoDup names → results.*1 ≡ₚ names → (∀ n code, (n, code) ∈ results → runSdk spec ending n = Ok code) →
  name ∈ names → ∃ code, obj_get name results = Some code ∧ runSdk spec ending name = Ok code.
Proof.
  intros Hnd Hp Hres Hn. rewrite <-Hp in Hn. apply list_elem_of_fmap in Hn as ([n code] & -> & Hin).
  exists code. split; [|by apply Hres]. apply obj_get_NoDup; [by rewrite Hp|done].
Qed.

Lemma sequential_status_0 names :
  sequential_status names = 0 ↔ ∀ name, name ∈ names → runSdk spec ending name = Ok 0.
Proof.
  unfold sequential_status. trans (forallb sdk_passes names = true); [by destruct (forallb _ _)|].
  rewrite forallb_Forall_iff, Forall_forall. apply forall_proper. intros name. unfold sdk_passes.
  destruct (runSdk spec ending name) as [z|]; [rewrite Z.eqb_eq|]; naive_solver.
Qed.

Lemma failed_sequential names results :
  NoDup names → results.*1 ≡ₚ names → (∀ n code, (n, code) ∈ results → runSdk spec ending n = Ok code) →
  failed results = negb (forallb sdk_passes names).
Proof.
  intros Hnd Hp Hres. unfold failed. rewrite Hp.
  assert (∀ name, name ∈ names → negb (default 0 (obj_get name results) =? 0) = negb (sdk_passes name)) as Hn.
  { intros name Hn. destruct (results_lookup names results name) as (code & Hg & Hrun); [done..|].
    unfold sdk_passes. by rewrite Hg, Hrun. }
  apply eq_true_iff_eq. rewrite existsb_exists, negb_true_iff. split.
  - intros (name & Hin%list_elem_of_In & Hf). rewrite sort_strings_perm in Hin. rewrite Hn in Hf by done.
    destruct (forallb sdk_passes names) eqn:E; [|done]. rewrite forallb_Forall_iff, Forall_forall in E. by rewrite E in Hf.
  - intros E. assert (¬ Forall (λ n, sdk_passes n = true) names) as Hnf by (rewrite <-forallb_Forall_iff; congruence).
    apply not_Forall_Exists in Hnf; [|solve_decision]. apply Exists_exists in Hnf as (name & Hin & Hx).
    exists name. split; [apply list_elem_of_In; by rewrite sort_strings_perm|]. rewrite Hn by done.
    apply negb_true_iff, not_true_iff_false, Hx.
Qed.

Lemma pool_sequential names k p :
  NoDup names → (names ≠ [] → 0 < k)%nat →
  rtc (step spec (λ c e, e = ending c)) (start names k) p → final p →
  exit_status p = sequential_status names ∧
  match p with
  | Pool _ _ results => report_pool results = (map sequential_line (sort_strings names), sequential_status names)
  | Crashed _ => ∃ name, name ∈ names ∧ is_ok (runSdk spec ending name) = false
  end.
Proof.
  intros Hnd Hk Hr Hf. pose proof (reachable_agrees _ _ _ Hr) as Hag.
  pose proof (reachable_invariant _ _ _ _ _ Hnd Hr) as Hi. destruct p as [queue rs results|t].
  - destruct Hag as (_ & _ & Hres). destruct (final_results _ _ _ _ _ Hk Hi Hf) as [_ Hp].
    assert (report_pool results = (map sequential_line (sort_strings names), sequential_status names)) as E;
      [|cbn [exit_status]; by rewrite E].
    unfold report_pool. rewrite Hp. f_equal.
    + apply map_ext_in. intros name Hn. apply list_elem_of_In in Hn. rewrite sort_strings_perm in Hn.
      destruct (results_lookup names results name) as (code & Hg & Hrun); [done..|].
      unfold result_line, sequential_line. by rewrite Hg, Hrun.
    + unfold sequential_status. rewrite (failed_sequential names) by done. by destruct (forallb _ _).
  - destruct Hag as (name & Hn & Ht). split; [|exists name; by rewrite Ht].
    cbn. unfold sequential_status. destruct (forallb sdk_passes names) eqn:E; [|done].
    rewrite forallb_Forall_iff, Forall_forall in E. specialize (E name Hn). unfold sdk_passes in E. by rewrite Ht in E.
Qed.

(** [C13] Running the SDKs side by side changes neither the verdict nor the
    report: however many runners there are and in whatever order the children
    end, a finished pool reports, line by line, what running the SDKs one after
    another would, and the exit status is the same, a script that crashes on a
    malformed registration included. *)
Theorem pool_is_sequential names k p :
  NoDup names → (names ≠ [] → 0 < k)%nat →
  rtc (step spec (λ c e, e = ending c)) (start names k) p → final p →
  exit_status p = sequential_status names ∧
  match p with
  | Pool _ _ results => report_pool results = (map sequential_line (sort_strings names), sequential_status names)
  | Crashed _ => ∃ name, name ∈ names ∧ is_ok (runSdk spec ending name) = false
  end.
Proof. apply pool_sequential. Qed.
End sequential_facts.

(** ** Bounds *)

Lemma num_min_of_Z a b : safe a → safe b → num_min (num_of_Z a) (num_of_Z b) = num_of_Z (Z.min a b).
Proof.
  intros. unfold num_min. rewrite num_lt_of_Z by done. destruct (Z.ltb_spec b a); f_equal; lia.
Qed.

Lemma num_max_of_Z a b : safe a → safe b → num_max (num_of_Z a) (num_of_Z b) = num_of_Z (Z.max a b).
Proof.
  intros. unfold num_max. rewrite num_lt_of_Z by done. destruct (Z.ltb_spec a b); f_equal; lia.
Qed.

Lemma num_length_value x v : num_value x = Some v → 0 ≤ v → num_length x = Z.to_nat v.
Proof.
  destruct x as [s|s| |s m e]; [by intros [= <-]|done|done|]. unfold num_value, num_length. intros Hv Hpos.
  assert (∃ a, 0 ≤ a ∧ v = (if s then - a else a) ∧
    (if 0 <=? e then Z.pos m * 2 ^ e else Z.pos m / 2 ^ (- e)) = a) as (a & Ha & -> & E).
  { destruct (Z.leb_spec 0 e); [|destruct (_ =? 0)]; simplify_eq/=; eexists; (split; [|done]).
    - apply Z.mul_nonneg_nonneg; [lia|]. apply Z.pow_nonneg. lia.
    - apply Z.div_pos; [lia|]. apply Z.pow_pos_nonneg; lia. }
  rewrite E. destruct s; [|done]. by rewrite Z2Nat.nonpos by lia.
Qed.

Lemma num_length_of_Z z : 0 ≤ z → safe z → num_length (num_of_Z z) = Z.to_nat z.
Proof. intros Hz Hs. apply num_length_value; [by apply num_value_of_Z|done]. Qed.

(** The number of jobs asked for: the decimal in the variable, four when it is
    unset, empty, zero or no number. *)
Lemma truthy_of_Z z : safe z → truthy (Some (JNum (num_of_Z z))) = negb (z =? 0).
Proof. intros Hz. rewrite num_of_Z_canon by done. by destruct z. Qed.

Definition asked (CONFORMANCE_JOBS : option jstr) (k : Z) : Prop :=
  match CONFORMANCE_JOBS with
  | None => k = 4
  | Some s => (truthy (Some (JNum (js_number s))) = false ∧ k = 4) ∨ (s = dec_of_Z k ∧ 1 ≤ k)
  end.

Lemma jobs_asked v k : asked v k → safe k → jobs v = num_of_Z k ∧ 1 ≤ k.
Proof.
  unfold asked, jobs. intros Hk Hs. destruct v as [s|]; [|by subst].
  destruct Hk as [[-> ->]|[-> Hk]]; [done|]. rewrite js_number_dec, truthy_of_Z by (done || lia).
  rewrite (proj2 (Z.eqb_neq k 0)) by lia. done.
Qed.

Lemma runner_count_asked v k cores (queue : nat) :
  asked v k → safe k → 1 ≤ cores → safe cores → safe (Z.of_nat queue) →
  Z.of_nat (runner_count v cores queue) = Z.min (Z.min k cores) (Z.of_nat queue) ∧
  (queue ≠ 0 → 0 < runner_count v cores queue)%nat.
Proof.
  intros Ha Hk Hc Hcs Hq. destruct (jobs_asked v k Ha Hk) as [Hj Hk1].
  unfold runner_count, CONCURRENCY. rewrite Hj.
  assert (safe 1) by (unfold safe; lia). assert (safe (Z.min k cores)) by (unfold safe in *; lia).
  rewrite num_min_of_Z, num_max_of_Z by done. rewrite num_min_of_Z by (done || unfold safe in *; lia).
  rewrite num_length_of_Z by (unfold safe in *; lia). lia.
Qed.

(** Whatever the variable says, there is a runner for a queue that is not
    empty. *)
Lemma above_one_length x : normal x → num_lt (num_of_Z 1) x = true → x ≠ SpecFloat.S754_infinity false → (0 < num_length x)%nat.
Proof.
  intros Hx Hlt Hinf. change (num_of_Z 1) with (SpecFloat.S754_finite false 4503599627370496 (-52)) in Hlt.
  unfold num_lt, SpecFloat.SFltb in Hlt. destruct x as [s|[]| |[] m e]; try done; cbn [SpecFloat.SFcompare] in Hlt.
  cbn [normal] in Hx. assert (-52 ≤ e ∧ 2 ^ 52 ≤ Z.pos m) as [He Hm].
  { destruct (Z.compare_spec (-52) e) as [<-|He|He]; [|lia|done].
    destruct (Pos.compare_cont Eq 4503599627370496 m) eqn:Em; try done.
    apply (Pos.compare_lt_iff 4503599627370496 m) in Em. lia. }
  cbn [num_length]. destruct (Z.leb_spec 0 e).
  - assert (0 < 2 ^ e) by lia. nia.
  - assert (1 ≤ Z.pos m / 2 ^ (- e)); [|lia]. apply Z.div_le_lower_bound; [lia|].
    assert (2 ^ (- e) ≤ 2 ^ 52) by (apply Z.pow_le_mono_r; lia). lia.
Qed.

Lemma runner_count_pos v cores (queue : nat) :
  safe (Z.of_nat queue) → queue ≠ 0%nat → (0 < runner_count v cores queue)%nat.
Proof.
  intros Hs Hq. unfold runner_count, CONCURRENCY. set (x := num_min (jobs v) _).
  assert (normal x) as Hx.
  { unfold x, num_min. destruct (num_lt _ _); [apply num_of_Z_normal|]. unfold jobs.
    destruct v as [s|]; [|apply num_of_Z_normal]. destruct (truthy _); [apply js_number_normal|apply num_of_Z_normal]. }
  unfold num_min at 1. destruct (num_lt (num_of_Z (Z.of_nat queue)) _) eqn:Elt; [rewrite num_length_of_Z by (done || lia); lia|].
  unfold num_max in *. destruct (num_lt (num_of_Z 1) x) eqn:E1; [|by vm_compute]. apply above_one_length; [done|done|].
  intros ->. rewrite num_of_Z_canon in Elt by done. destruct (Z.of_nat queue) eqn:E; [lia| |lia]. by vm_compute in Elt.
Qed.

(** The pool has as many runners as jobs were asked for (four by default),
    but no more than processors or SDKs; at least one when there is an SDK to
    run. *)
Theorem runner_count_bounds v k cores (queue : nat) :
  asked v k → safe k → 1 ≤ cores → safe cores → safe (Z.of_nat queue) →
  Z.of_nat (runner_count v cores queue) = Z.min (Z.min k cores) (Z.of_nat queue) ∧
  (queue ≠ 0 → 0 < runner_count v cores queue)%nat.
Proof. apply runner_count_asked. Qed.

(** ** Runs

    Which runner moves next, as a list of their numbers. *)
Section runs.
Context (spec : list Z → option json) (ending : child → child_event).

Definition move (i : nat) (p : pool) : option pool :=
  match p with
  | Pool queue rs results =>
      match rs !! i with
      | Some Idle => Some (loop_turn spec i queue rs results)
      | Some (Running c) => Some (child_ended i c (ending c) queue rs results)
      | _ => None
      end
  | Crashed _ => None
  end.

Fixpoint moves (schedule : list nat) (p : pool) : option pool :=
  match schedule with
  | [] => Some p
  | i :: schedule => p' ← move i p; moves schedule p'
  end.

Lemma moves_reach schedule p p' :
  moves schedule p = Some p' → rtc (step spec (λ c e, e = ending c)) p p'.
Proof.
  revert p. induction schedule as [|i schedule IH]; intros p; cbn; [by intros [= ->]|].
  destruct (move i p) as [p1|] eqn:E; [|done]. cbn. intros H. eapply rtc_l; [|by apply IH].
  unfold move in E. destruct p as [queue rs results|t]; [|done].
  destruct (rs !! i) as [[|c|]|] eqn:Ei; simplify_eq; by econstructor.
Qed.
End runs.

Module Samples.
(** Three SDKs: the second command of one fails, one has no set-up. *)
Definition registry : list (jstr * json) :=
  match json_parse (jq "{'sdk-a':{'setup':[['make','deps']],'run':['make','test']},'sdk-b':{'run':['b','t']},'sdk-c':{'setup':[],'run':['c']}}") with
  | Some (JObj o) => o
  | _ => []
  end.
Definition spec (name : jstr) : option json := obj_get name registry.
Definition names : list jstr := sort_strings registry.*1.

(** The tests of [sdk-a] fail, everything else succeeds. *)
Definition ending (c : child) : child_event :=
  match ch_command c with
  | (_, [JStr word]) => ChildClosed (Some (if bool_decide (word = js "test") then 2 else 0)) None
  | _ => ChildClosed (Some 0) None
  end.

(** Two runners, [sdk-c] overtaking [sdk-a]. *)
Definition schedule : list nat := [0; 1; 1; 1; 0; 1; 1; 0; 0]%nat.
Definition last : pool := default (Crashed (Thrown [])) (moves spec ending schedule (start names 2)).

Example side_by_side :
  exit_status last = 1 ∧
  match last with Pool _ _ results => (report_pool results).1 | Crashed _ => [] end =
    map js ["sdk-a  FAIL (exit 2)"; "sdk-b  pass"; "sdk-c  pass"].
Proof. by vm_compute. Qed.

(** A registration without [run] crashes the script. *)
Example malformed :
  sdk_commands (Some (JObj [])) = Ok [None] ∧ is_ok (spawnable None) = false ∧
  is_ok (runSdk (λ _, Some (JObj [])) ending (js "sdk-a")) = false.
Proof. by vm_compute. Qed.

Lemma names_NoDup : NoDup names.
Proof. apply (bool_decide_unpack (NoDup names)). by vm_compute. Qed.

Lemma last_reached : rtc (step spec (λ c e, e = ending c)) (start names 2) last.
Proof. apply (moves_reach spec ending schedule). by vm_compute. Qed.

Lemma pool_accounts_witness :
  ∃ queue rs results,
    Pool queue rs results = last ∧ queue ++ running rs ++ results.*1 ≡ₚ names ∧ (length (running rs) ≤ 2)%nat.
Proof.
  pose proof last_reached as H. destruct last as [queue rs results|t] eqn:E; [|by vm_compute in E].
  exists queue, rs, results. split; [done|].
  apply (pool_accounts spec (λ c e, e = ending c) names 2 queue rs results); [apply names_NoDup|exact H].
Defined.

Lemma pool_terminates_witness :
  nsteps (step spec (λ c e, e = ending c)) 1 (start names 2)
    (loop_turn spec 0 names [Idle; Idle] []) ∧
  (1 ≤ sum_list_with (λ name, 2 + sdk_size spec name) names + 2)%nat.
Proof.
  assert (nsteps (step spec (λ c e, e = ending c)) 1 (start names 2) (loop_turn spec 0 names [Idle; Idle] [])) as H
    by (eapply nsteps_l; [by apply (step_loop spec _ 0 names [Idle; Idle] [])|constructor]).
  split; [exact H|]. apply (pool_terminates spec (λ c e, e = ending c) names 2 1 _ H).
Defined.

Lemma pool_completes_witness :
  (¬ final last → ∃ p', step spec (λ c e, e = ending c) last p') ∧
  (final last → match last with Pool _ _ results => results.*1 ≡ₚ names | Crashed _ => True end).
Proof.
  apply (pool_completes spec (λ c e, e = ending c) names 2 last);
    [apply names_NoDup|lia|by eexists|apply last_reached].
Defined.

Lemma pool_is_sequential_witness :
  exit_status last = sequential_status spec ending names ∧
  match last with
  | Pool _ _ results =>
      report_pool results = (map (sequential_line spec ending) (sort_strings names), sequential_status spec ending names)
  | Crashed _ => ∃ name, name ∈ names ∧ is_ok (runSdk spec ending name) = false
  end.
Proof.
  apply (pool_is_sequential spec ending names 2 last); [apply names_NoDup|lia|apply last_reached|].
  vm_compute. by repeat constructor.
Defined.

Lemma runner_count_bounds_witness :
  Z.of_nat (runner_count (Some (js "2")) 8 9) = Z.min (Z.min 2 8) 9 ∧
  (9 ≠ 0 → 0 < runner_count (Some (js "2")) 8 9)%nat.
Proof.
  apply (runner_count_bounds (Some (js "2")) 2 8 9); [right; split; [reflexivity|lia]|unfold safe; lia..].
Defined.
End Samples.
