(* ===== verification/Conformance.v ===== *)
(** * The conformance check ([conformance/check.mjs]) as a whole

    The script validates the directory, compares the producer vectors and runs
    the SDKs, each part only if the one before it found nothing wrong.  The
    first two are functions; the third is a run of the pool. *)
From stdpp Require Import base tactics list numbers option strings sets relations.
From S2P Require Import Prelude JsNumber JsString Json Env JsonFacts ClaimRef Http JsValue.
From S2P Require Import ConformanceCases ConformanceProducer SdkPool.
Local Open Scope Z_scope.

(** [process.env.GITHUB_ACTIONS === "true" ? "::error::" : ""] *)
Definition prefix (GITHUB_ACTIONS : option jstr) : jstr :=
  if bool_decide (GITHUB_ACTIONS = Some (js "true")) then js "::error::" else [].

(** The summary of the cases. *)
Definition feature_line (t : tally) (feature : json) : result thrown jstr :=
  id ← prop (Some feature) "id";
  s ← template id;
  Ok (js "  " ++ s ++ js "  " ++ dec_of_Z (default 0 (map_get id (caseCounts t)))).

(** The lines printed, and the exception that stopped the printing. *)
Fixpoint feature_lines (t : tally) (features : list json) : list jstr * option thrown :=
  match features with
  | [] => ([], None)
  | f :: features =>
      match feature_line t f with
      | Err e => ([], Some e)
      | Ok l => let '(ls, e) := feature_lines t features in (l :: ls, e)
      end
  end.

Definition summary (v : validated) : list jstr * option thrown :=
  let '(lines, e) := feature_lines (v_tally v) (v_features v) in
  ((dec_of_nat (Z.of_nat (length (v_features v))) ++ js " features, " ++
    dec_of_Z (caseCount (v_tally v)) ++ js " cases") :: lines, e).

(** What the script has printed when it stops before the pool, or starts it. *)
Inductive phase :=
| Stopped (lines : list (list Z)) (status : Z)
| Started (lines : list (list Z)) (v : validated).

(** What follows the comparison of the producer vectors, after [lines]. *)
Definition report_producer (p : jstr) (lines : list jstr) (v : validated) (problems : result thrown (list jstr)) : phase :=
  match problems with
  | Err _ => Stopped lines 1
  | Ok [] => Started (lines ++ [js "producer vectors  match Sink.Message.encode/3"]) v
  | Ok problems =>
      Stopped (lines ++ map (app p) problems ++
        [p ++ js "Ankusa.Sink.Message.encode/3 no longer matches conformance/cases/producer.json: run `mix ankusa.conformance.gen` in packages/ankusa, commit the result, and make every SDK decode it."]) 1
  end.

Section script.
Context {generator : Mix}.
Context (r : repository) (GITHUB_ACTIONS CONFORMANCE_JOBS : option (list Z)) (cores : Z) (dir : list Z).

(** The vectors in the repository. *)
Definition checked_in : option bytes := obj_get (js "producer.json") (case_dir r) ≫= id.

(** An uncaught exception is status 1. *)
Definition prepare : phase :=
  let p := prefix GITHUB_ACTIONS in
  match check_repository r [] with
  | (Err _, _) => Stopped [] 1
  | (Ok v, []) =>
      match summary v with
      | (lines, Some _) => Stopped lines 1
      | (lines, None) => report_producer p lines v (producerVectorProblems dir checked_in []).1
      end
  | (Ok _, errors) => Stopped (map (app p) errors) 1
  end.

(** [sdksFile.sdks[name]] *)
Definition sdk_spec (v : validated) (name : jstr) : option json := v_sdks v ≫= own_value name.

Definition sdk_queue (v : validated) : list jstr := sort_strings (v_names v).

Context (ending : child → child_event).

(** The script exits with a status. *)
Inductive exits : Z → Prop :=
| exits_early lines status : prepare = Stopped lines status → exits status
| exits_pool lines v p :
    prepare = Started lines v →
    rtc (step (sdk_spec v) (λ c e, e = ending c))
      (start (sdk_queue v) (runner_count CONFORMANCE_JOBS cores (length (sdk_queue v)))) p →
    final p → exits (exit_status p).
End script.

(** ** What a passing check means *)

Lemma template_key x : is_Some (key_of_value x) → is_ok (template x) = true.
Proof. by destruct x as [[]|]; intros []. Qed.

Lemma feature_lines_ok t features :
  Forall (λ f, f ≠ JNull) features → Forall (λ f, is_Some (key_of_value (feature_id f))) features →
  (feature_lines t features).2 = None.
Proof.
  intros Hn. induction Hn as [|f features Hf Hn IH]; intros Hk; [done|]. inversion_clear Hk as [|?? Hf' Hk'].
  cbn [feature_lines]. unfold feature_line. rewrite (proj2 (prop_id_Ok f (feature_id f))) by done.
  cbn [mbind result_bind]. apply template_key in Hf'. destruct (template (feature_id f)); [|done].
  cbn [mbind result_bind]. specialize (IH Hk'). by destruct (feature_lines t features).
Qed.

Lemma cases_for_key x cases : (0 < cases_for x cases)%nat → is_Some (key_of_value x).
Proof.
  unfold cases_for. destruct (List.filter _ cases) as [|raw l] eqn:E; cbn; [lia|]. intros _.
  pose proof (List.filter_In (λ raw, same_value x (case_feature raw)) raw cases) as Hf. rewrite E in Hf.
  destruct Hf as [Hf _]. destruct Hf as [_ H]; [by left|].
  apply same_value_key in H as (c & Hc & _). by exists c.
Qed.

(** A valid directory can be summarised. *)
Lemma summary_ok r v : check_repository r [] = (Ok v, []) → (summary v).2 = None.
Proof.
  intros H. destruct (check_repository_returns _ _ _ _ H) as (ops & sf & _ & _ & _ & _ & Hok).
  specialize (Hok eq_refl) as (_ & Hn & _ & _ & _ & Hc & _).
  pose proof (feature_lines_ok (v_tally v) (v_features v) Hn) as Hl. unfold summary.
  destruct (feature_lines _ _). cbn in *. apply Hl.
  eapply Forall_impl; [exact Hc|]. intros f. apply cases_for_key.
Qed.

(** Packages and registered SDKs are the same names. *)
Lemma validated_names r v :
  check_repository r [] = (Ok v, []) → ∀ name, name ∈ package_names r ↔ name ∈ v_names v.
Proof.
  intros H. destruct (check_repository_returns _ _ _ _ H) as (ops & sf & Hr & _ & Hs & Hk & _).
  destruct (proj1 (validated_contract r)) as (fs & ops' & names & Hreg & _ & Hc); [by exists v|].
  unfold registry_of in Hreg. rewrite Hr in Hreg. cbn [mbind result_bind] in Hreg. rewrite Hs in Hreg.
  cbn [mbind result_bind] in Hreg. rewrite Hk in Hreg. cbn in Hreg. injection Hreg as <- <- <-. apply Hc.
Qed.

Lemma decimals_NoDup n : NoDup (map (λ i, dec_of_nat (Z.of_nat i)) (seq 0 n)).
Proof.
  apply NoDup_fmap_2; [|apply NoDup_seq]. intros i j E. apply (f_equal dec_value) in E.
  rewrite !(proj1 (dec_of_nat_spec _ (Nat2Z.is_nonneg _))) in E. lia.
Qed.

Lemma object_keys_NoDup x names : (∀ v, x = Some v → json_wf v) → object_keys x = Ok names → NoDup names.
Proof.
  intros Hx. destruct x as [[| | |s|l|o]|]; cbn; intros [= <-]; try constructor; try apply decimals_NoDup.
  specialize (Hx _ eq_refl). inversion_clear Hx as [| | | | |? Ho]. apply enumerate_keys_NoDup. by apply obj_wf_inv.
Qed.

Lemma validated_NoDup r v :
  (∀ bs, sdks_json r = Some bs → Forall byte_ok bs) → check_repository r [] = (Ok v, []) → NoDup (sdk_queue v).
Proof.
  intros Hbs H. destruct (check_repository_returns _ _ _ _ H) as (ops & sf & Hr & _ & Hs & Hk & _).
  unfold sdk_queue. rewrite sort_strings_perm. eapply object_keys_NoDup; [|done]. intros x Hx.
  unfold read_registries in Hr. destruct (sdks_json r) as [bs|] eqn:Hb; [|by ok_inv].
  specialize (Hbs bs eq_refl). ok_inv.
  assert (json_wf sf) as Hsf.
  { unfold readJson, read_text in H1. cbn [or_throw fmap result_fmap] in H1. ok_inv.
    eapply json_parse_wf; [done|by apply utf8_decode_units]. }
  rewrite Hx in Hs. destruct sf as [| | | | |o]; cbn [prop] in Hs; ok_inv; try done.
  inversion_clear Hsf as [| | | | |? Ho]. by eapply obj_get_wf.
Qed.

(** The directory meets the contract of the validation, and [sdks] is what
    [sdks.json] registers. *)
Definition directory_ok (r : repository) (sdks : option json) : Prop :=
  ∃ fs ops sdksFile names, read_registries r = Ok (fs, ops, sdksFile) ∧
    prop (Some sdksFile) "sdks" = Ok sdks ∧ object_keys sdks = Ok names ∧
    Forall (λ f, is_ok (cases_of f.2) = true) (case_files r) ∧
    contract fs ops (all_cases (case_files r)) (package_names r) names.

Lemma directory_ok_iff r sdks :
  directory_ok r sdks ↔ ∃ v, check_repository r [] = (Ok v, []) ∧ v_sdks v = sdks.
Proof.
  pose proof (validated_contract r) as Hv. unfold registry_of in Hv. split.
  - intros (fs & ops & sf & names & Hr & Hs & Hk & Hc & Hcon).
    destruct (proj2 Hv) as [v Hok].
    { exists fs, ops, names. rewrite Hr. cbn [mbind result_bind]. rewrite Hs. cbn [mbind result_bind].
      rewrite Hk. by split. }
    exists v. split; [done|]. destruct (check_repository_returns _ _ _ _ Hok) as (ops' & sf' & Hr' & _ & Hs' & _). congruence.
  - intros (v & Hok & <-). destruct (check_repository_returns _ _ _ _ Hok) as (ops & sf & Hr & _ & Hs & Hk & _).
    destruct (proj1 Hv) as (fs & ops' & names & Hreg & Hc & Hcon); [by exists v|].
    rewrite Hr in Hreg. cbn [mbind result_bind] in Hreg. rewrite Hs in Hreg. cbn [mbind result_bind] in Hreg.
    rewrite Hk in Hreg. cbn in Hreg. injection Hreg as <- <- <-. by exists (v_features v), ops, sf, (v_names v).
Qed.

(** Every command of the SDK is a command, and its child ends with status 0. *)
Definition sdk_runs (spec : option json) (ending : child → child_event) (name : jstr) : Prop :=
  ∃ commands, sdk_commands spec = Ok commands ∧
    ∀ before c rest, commands = before ++ c :: rest →
      ∃ x, spawnable c = Ok x ∧ exit_code (ending {| ch_sdk := name; ch_command := x; ch_rest := rest |}) = 0.

Lemma run_commands_0 ending name commands :
  run_commands ending name commands = Ok 0 ↔
  ∀ before c rest, commands = before ++ c :: rest →
    ∃ x, spawnable c = Ok x ∧ exit_code (ending {| ch_sdk := name; ch_command := x; ch_rest := rest |}) = 0.
Proof.
  induction commands as [|c commands IH]; cbn [run_commands]; [split; [by intros _ [] ? ?|done]|]. split.
  - intros H. ok_inv. destruct (Z.eqb_spec (exit_code (ending {| ch_sdk := name; ch_command := x; ch_rest := commands |})) 0)
      as [E|E]; [|congruence]. intros [|c' before] c0 rest; cbn; intros [= -> ->]; [by exists x|]. by eapply IH.
  - intros H. destruct (H [] c commands eq_refl) as (x & -> & E). cbn [mbind result_bind]. rewrite E. cbn.
    apply IH. intros before c' rest ->. by apply (H (c :: before)).
Qed.

Lemma runSdk_0 spec ending name : runSdk spec ending name = Ok 0 ↔ sdk_runs (spec name) ending name.
Proof.
  unfold runSdk, sdk_runs. destruct (sdk_commands (spec name)) as [cs|]; cbn [mbind result_bind]; [|naive_solver].
  rewrite run_commands_0. naive_solver.
Qed.

Section passes.
Context {generator : Mix}.
Context (r : repository) (GITHUB_ACTIONS CONFORMANCE_JOBS : option (list Z)) (cores : Z) (dir : list Z).
Context (ending : child → child_event).

(** The script goes on to the SDKs exactly when the first two parts are clean;
    it stops with status 1 otherwise. *)
Lemma prepare_cases :
  (∃ lines, prepare r GITHUB_ACTIONS dir = Stopped lines 1) ∨
  ∃ lines v, prepare r GITHUB_ACTIONS dir = Started lines v ∧ check_repository r [] = (Ok v, []) ∧
    (producerVectorProblems dir (checked_in r) []).1 = Ok [].
Proof.
  unfold prepare. cbv zeta. destruct (check_repository r []) as [[v|t] [|e es]]; [|by left; eexists..].
  destruct (summary v) as [lines [e|]]; [by left; eexists|]. unfold report_producer.
  destruct (producerVectorProblems _ _ _) as [[[|p ps]|t] tr]; cbn [fst]; [|by left; eexists..].
  right. by eexists _, v.
Qed.

Lemma prepare_started v :
  check_repository r [] = (Ok v, []) → (producerVectorProblems dir (checked_in r) []).1 = Ok [] →
  ∃ lines, prepare r GITHUB_ACTIONS dir = Started lines v.
Proof.
  intros Hv Hp. unfold prepare. cbv zeta. pose proof (summary_ok r v Hv) as Hs. rewrite Hv.
  destruct (summary v) as [lines [e|]]; [done|]. rewrite Hp. by eexists.
Qed.

(** The two files hold bytes, and [sdks.json] registers fewer than [2^53] SDKs. *)
Hypothesis sdks_bytes : ∀ bs, sdks_json r = Some bs → Forall byte_ok bs.
Hypothesis generated_bytes : ∀ bs, generated_file = Some bs → Forall byte_ok bs.
Hypothesis few_sdks : ∀ v, check_repository r [] = (Ok v, []) → safe (Z.of_nat (length (sdk_queue v))).

Lemma pool_exit v p :
  check_repository r [] = (Ok v, []) →
  rtc (step (sdk_spec v) (λ c e, e = ending c))
    (start (sdk_queue v) (runner_count CONFORMANCE_JOBS cores (length (sdk_queue v)))) p → final p →
  exit_status p = sequential_status (sdk_spec v) ending (sdk_queue v).
Proof.
  intros Hv Hr Hf. eapply pool_sequential; [by eapply validated_NoDup| |done|done].
  intros Hne. apply runner_count_pos; [by apply few_sdks|]. by destruct (sdk_queue v).
Qed.

Lemma exits_cases status :
  exits r GITHUB_ACTIONS CONFORMANCE_JOBS cores dir ending status →
  status = 1 ∨
  ∃ v, check_repository r [] = (Ok v, []) ∧ (producerVectorProblems dir (checked_in r) []).1 = Ok [] ∧
    status = sequential_status (sdk_spec v) ending (sdk_queue v).
Proof.
  destruct 1 as [lines status Hp|lines v p Hp Hr Hf];
    destruct prepare_cases as [[l E]|(l & v' & E & Hv & Hpr)]; rewrite E in Hp; simplify_eq; [by left|].
  right. exists v. split; [done|]. split; [done|]. by apply pool_exit.
Qed.

Lemma all_pass v :
  check_repository r [] = (Ok v, []) →
  sequential_status (sdk_spec v) ending (sdk_queue v) = 0 ↔
  ∀ name, name ∈ package_names r → sdk_runs (v_sdks v ≫= own_value name) ending name.
Proof.
  intros Hv. rewrite sequential_status_0. apply forall_proper. intros name.
  rewrite (validated_names r v Hv name), runSdk_0. unfold sdk_queue. by rewrite sort_strings_perm.
Qed.

(** [C15] The whole check: it exits with status 0 exactly when the directory
    meets the contract of the validation, every command of the generator
    succeeded and left a file of vectors with the very text of the checked-in
    one, and every command of every SDK package can be started and ends with
    status 0; any other outcome, exceptions included, is status 1.  This holds
    for any value of [CONFORMANCE_JOBS], any number of processors and any order
    in which children end, for fewer than [2^53] registered SDKs. *)
Theorem conformance_passes_iff :
  (exits r GITHUB_ACTIONS CONFORMANCE_JOBS cores dir ending 0 ↔
   ∃ sdks, directory_ok r sdks ∧ producer_matches dir (checked_in r) ∧
     ∀ name, name ∈ package_names r → sdk_runs (sdks ≫= own_value name) ending name) ∧
  ∀ status, exits r GITHUB_ACTIONS CONFORMANCE_JOBS cores dir ending status → status = 0 ∨ status = 1.
Proof.
  setoid_rewrite <-(producer_passes dir (checked_in r) generated_bytes). setoid_rewrite directory_ok_iff. split; [split|].
  - intros [?|(v & Hv & Hp & Hs)]%exits_cases; [done|]. exists (v_sdks v). rewrite <-all_pass by done. by eauto.
  - intros (sdks & (v & Hv & <-) & Hp & Hall). destruct (prepare_started v Hv Hp) as [lines Hs].
    destruct (pool_runs (sdk_spec v) (λ c e, e = ending c)
      (start (sdk_queue v) (runner_count CONFORMANCE_JOBS cores (length (sdk_queue v))))) as (p & Hr & Hf); [by eexists|].
    rewrite <-(proj2 (all_pass v Hv) Hall), <-(pool_exit v p) by done. by eapply exits_pool.
  - intros status [->|(v & _ & _ & ->)]%exits_cases; [by right|]. unfold sequential_status. destruct (forallb _ _); auto.
Qed.
End passes.

Module Samples.
Definition cases (c : string) : jstr := jq ("{'cases':[" +:+ c +:+ "]}").
Definition producer : jstr := cases (ConformanceCases.Samples.good_case "p1" "message").
Definition repo : repository :=
  {| features_json := Some ConformanceCases.Samples.features; sdks_json := Some ConformanceCases.Samples.sdks;
     case_dir := [(js "producer.json", Some producer);
                  (js "claim_ref.json", Some (cases (ConformanceCases.Samples.good_case "c1" "claim_ref.parse")))];
     package_dir := [(js "sdk-typescript", true); (js "sdk-go", true)] |}.
Definition passing (c : child) : child_event := ChildClosed (Some 0) None.

Definition checked : validated :=
  match (check_repository repo []).1 with Ok v => v | Err _ => inhabitant end.

Lemma checked_ok : check_repository repo [] = (Ok checked, []).
Proof. by vm_compute. Qed.

Example printed_summary :
  summary checked = (map js ["2 features, 2 cases"; "  claim_ref.parse  1"; "  message  1"], None).
Proof. by vm_compute. Qed.

Lemma conformance_passes_iff_witness :
  exits (generator := ConformanceProducer.Samples.healthy producer) repo None (Some (js "2.5")) 8 (js "/tmp/p") passing 0.
Proof.
  apply (conformance_passes_iff (generator := ConformanceProducer.Samples.healthy producer) repo None (Some (js "2.5")) 8
           (js "/tmp/p") passing).
  - intros bs [= <-]. apply ConformanceProducer.Samples.all_bytes. vm_compute. reflexivity.
  - intros bs [= <-]. apply ConformanceProducer.Samples.all_bytes. vm_compute. reflexivity.
  - intros v Hv. rewrite checked_ok in Hv. injection Hv as <-. vm_compute. done.
  - exists (v_sdks checked). split; [apply directory_ok_iff; exists checked; split; [apply checked_ok|reflexivity]|]. split.
    + apply (producer_passes (generator := ConformanceProducer.Samples.healthy producer)); [|vm_compute; reflexivity].
      intros bs [= <-]. apply ConformanceProducer.Samples.all_bytes. vm_compute. reflexivity.
    + intros name Hn. apply (runSdk_0 (λ n, v_sdks checked ≫= own_value n)). vm_compute in Hn.
      repeat (apply elem_of_cons in Hn as [->|Hn]; [vm_compute; reflexivity|]). by apply elem_of_nil in Hn.
Defined.
End Samples.
