(* ===== verification/ClaimCheck.v ===== *)
(** * The claim-check client ([claim-check/client.ts])

    [redeem] fetches the bytes behind a claim-check reference and checks them
    against the digest the message carries; [health] probes the gateway. *)
From stdpp Require Import base tactics list numbers option strings sets.
From S2P Require Import Prelude JsNumber JsString Regex Base64 Sha256 Json ClaimRef Http.
Local Open Scope Z_scope.

Record ClaimCheckClientOptions := {
  baseUrl : jstr;
  cc_headers : list (jstr * jstr);
  timeoutMs : option num;
}.

(** The [createClient] call, and the deadline of every call. *)
Definition claim_check_http (o : ClaimCheckClientOptions) : client_config :=
  {| cfg_baseUrl := baseUrl o; cfg_headers := cc_headers o; cfg_redirect_manual := true |}.
Definition claim_check_timeout (o : ClaimCheckClientOptions) : num := default (num_of_Z 10000) (timeoutMs o).

(** [http.GET("/v1/claims/{tenant_id}/{claim_id}", ...)] *)
Definition claim_call (o : ClaimCheckClientOptions) (parsed : ParsedClaimRef) : call :=
  {| c_method := GET;
     c_template := js "/v1/claims/{tenant_id}/{claim_id}";
     c_path := [(js "tenant_id", tenantId parsed); (js "claim_id", claimId parsed)];
     c_query := match proof parsed with
                | Some (e, s) => Some [(js "exp", JStr e); (js "sig", JStr s)]
                | None => None
                end;
     c_body := None;
     c_parseAs := AsArrayBuffer;
     c_timeout := claim_check_timeout o |}.

Definition claim_name (parsed : ParsedClaimRef) : jstr := tenantId parsed ++ js "/" ++ claimId parsed.

Definition with_status (before : string) (status : Z) (body : json) : jstr :=
  js before ++ dec_of_Z status ++ js "): " ++ json_stringify body.

Section client.
Context {crypto : Crypto} {net : OpenApiFetch} (o : ClaimCheckClientOptions).

(** What [fetchBytes] makes of the answer. *)
Definition judge_answer (parsed : ParsedClaimRef) (a : outcome bytes) : result claim_check_error bytes :=
  match a with
  | Rejected err =>
      Err (ClaimCheckUnavailableError (js "claim-check gateway unreachable: " ++ thrown_message err) (Some err))
  | Answered data errorBody status =>
      if status =? 404 then Err (ClaimNotFoundError (js "claim not found: " ++ claim_name parsed))
      else
        let body := error_body errorBody in
        if (status =? 408) || (status =? 429) then
          Err (ClaimCheckUnavailableError (with_status "claim-check gateway busy (" status body) None)
        else if is_4xx status then
          Err (ClaimRejectedError (with_status "claim-check rejected redeem (" status body) status body)
        else if negb (status =? 200) then
          Err (ClaimCheckUnavailableError (with_status "claim-check gateway error (" status body) None)
        else Ok (default [] data)
  end.

Definition fetchBytes (parsed : ParsedClaimRef) : http claim_check_error bytes :=
  a ← perform (claim_check_http o) (claim_call o parsed);
  lift (judge_answer parsed a).

Definition verifyIntegrity (parsed : ParsedClaimRef) (expectedSha256 : jstr) (bs : bytes) :
    result claim_check_error unit :=
  require (bool_decide (sha256_hex bs = expectedSha256))
    (ClaimIntegrityError (js "claim sha256 mismatch for " ++ claim_name parsed)).

Definition redeem (ref sha256 : jstr) : http claim_check_error bytes :=
  parsed ← lift (parseClaimRef ref);
  _ ← lift (require (re_test SHA256_PATTERN sha256)
              (InvalidClaimRefError (js "invalid claim sha256: " ++ sha256)));
  bs ← fetchBytes parsed;
  _ ← lift (verifyIntegrity parsed sha256 bs);
  mret bs.

(** [http.GET("/health", ...)] *)
Definition health_call : call :=
  {| c_method := GET; c_template := js "/health"; c_path := []; c_query := None; c_body := None;
     c_parseAs := AsJson; c_timeout := claim_check_timeout o |}.

Definition health : http claim_check_error json :=
  a ← perform (claim_check_http o) health_call;
  lift match a with
       | Rejected err =>
           Err (ClaimCheckUnavailableError (js "claim-check gateway unreachable: " ++ thrown_message err) (Some err))
       | Answered data _ status =>
           match data with
           | Some d => if status =? 200 then Ok d else
               Err (ClaimCheckUnavailableError
                      (js "claim-check gateway health check failed (" ++ dec_of_Z status ++ js ")") None)
           | None =>
               Err (ClaimCheckUnavailableError
                      (js "claim-check gateway health check failed (" ++ dec_of_Z status ++ js ")") None)
           end
       end.

(** The client as an object of two operations. *)
Record ClaimCheckClient := {
  client_redeem : jstr → jstr → http claim_check_error bytes;
  client_health : http claim_check_error json;
}.

Definition createClaimCheckClient : ClaimCheckClient :=
  {| client_redeem := redeem; client_health := health |}.

(** ** Properties *)

(** What the gateway says about a claim, as a consumer sorts it. *)
Inductive gateway_verdict :=
| Body (bs : bytes)
| Gone
| Refused (status : Z) (body : json)
| Busy.

Definition gateway_says (a : outcome bytes) : gateway_verdict :=
  match a with
  | Rejected _ => Busy
  | Answered data error status =>
      if bool_decide (status = 200) then Body (default [] data)
      else if bool_decide (status = 404) then Gone
      else if bool_decide (status ∈ [408; 429]) then Busy
      else if bool_decide (400 ≤ status < 500) then Refused status (error_body error)
      else Busy
  end.

Lemma judge_answer_spec parsed a :
  match gateway_says a with
  | Body bs => judge_answer parsed a = Ok bs
  | Gone => judge_answer parsed a = Err (ClaimNotFoundError (js "claim not found: " ++ claim_name parsed))
  | Refused status body =>
      judge_answer parsed a = Err (ClaimRejectedError (with_status "claim-check rejected redeem (" status body) status body)
  | Busy => ∃ m c, judge_answer parsed a = Err (ClaimCheckUnavailableError m c)
  end.
Proof.
  destruct a as [err|data error status]; cbn [gateway_says judge_answer]; [eauto|]. unfold is_4xx.
  destruct (decide (status = 200)) as [->|H200]; [by rewrite !bool_decide_eq_true_2|].
  destruct (decide (status = 404)) as [->|H404]; [by rewrite bool_decide_eq_false_2, bool_decide_eq_true_2|].
  rewrite (bool_decide_eq_false_2 _ H200), (bool_decide_eq_false_2 _ H404), (proj2 (Z.eqb_neq _ _) H404),
    (proj2 (Z.eqb_neq _ _) H200). cbn [negb].
  destruct (decide (status ∈ [408; 429])) as [Hb|Hb].
  { rewrite bool_decide_eq_true_2 by done. apply elem_of_cons in Hb as [->|Hb]; [cbn; eauto|].
    apply list_elem_of_singleton in Hb as ->. cbn. eauto. }
  rewrite (bool_decide_eq_false_2 _ Hb).
  assert (status ≠ 408 ∧ status ≠ 429) as [H408 H429] by set_solver.
  rewrite (proj2 (Z.eqb_neq _ _) H408), (proj2 (Z.eqb_neq _ _) H429). cbn [orb].
  case_bool_decide as H4.
  - rewrite (proj2 (Z.leb_le _ _)), (proj2 (Z.ltb_lt _ _)) by lia. done.
  - destruct (Z.leb_spec 400 status), (Z.ltb_spec status 500); cbn [andb]; eauto; lia.
Qed.

(** A redeem with well-formed arguments, in one equation. *)
Lemma redeem_valid r sha h :
  valid_ref r → re_test SHA256_PATTERN sha = true →
  redeem (format_ref r) sha h =
  (bs ← judge_answer (parsed r) (send (claim_check_http o) h (claim_call o (parsed r)));
   _ ← verifyIntegrity (parsed r) sha bs; Ok bs, h ++ [claim_call o (parsed r)]).
Proof.
  intros Hr Hs. unfold redeem, lift, mbind, http_bind. rewrite parseClaimRef_format, Hs by done.
  cbn [require]. unfold fetchBytes, perform, mbind, http_bind, lift.
  cbn [claim_call c_parseAs parsed_body].
  destruct (judge_answer _ _) as [bs|e]; cbn; [|done]. by destruct (verifyIntegrity _ _ _).
Qed.

Lemma redeem_invalid ref sha h :
  (∀ r, valid_ref r → ref ≠ format_ref r) ∨ re_test SHA256_PATTERN sha = false →
  ∃ m, redeem ref sha h = (Err (InvalidClaimRefError m), h).
Proof.
  intros Hinv. unfold redeem, lift, mbind, http_bind.
  destruct (parseClaimRef ref) as [p|e] eqn:Ep.
  - destruct Hinv as [Hinv| ->]; [|cbn; eauto].
    apply parseClaimRef_Ok in Ep as (r & Hr & -> & _). by destruct (Hinv r).
  - apply parseClaimRef_Err in Ep as [-> _]. eauto.
Qed.

Lemma redeem_cases ref sha :
  (∃ r, valid_ref r ∧ ref = format_ref r ∧ re_test SHA256_PATTERN sha = true) ∨
  ((∀ r, valid_ref r → ref ≠ format_ref r) ∨ re_test SHA256_PATTERN sha = false).
Proof.
  destruct (re_test SHA256_PATTERN sha); [|by right; right].
  destruct (parseClaimRef ref) as [p|e] eqn:Ep.
  - apply parseClaimRef_Ok in Ep as (r & Hr & -> & _). eauto.
  - right; left. by apply parseClaimRef_Err in Ep as [_ ?].
Qed.

Lemma redeem_digest ref sha h bs h' : redeem ref sha h = (Ok bs, h') → sha256_hex bs = sha.
Proof.
  intros Hr. destruct (redeem_cases ref sha) as [(r & Hv & -> & Hs)|Hinv].
  - rewrite redeem_valid in Hr by done. injection Hr as Hr _. ok_inv.
    unfold verifyIntegrity in *. ok_inv. by bool_inv.
  - by destruct (redeem_invalid ref sha h Hinv) as [m E]; rewrite E in Hr.
Qed.

(** [C6] Whatever the gateway answers, the bytes [redeem] returns have the
    digest the caller asked for, and they came from exactly one call: the
    [GET] of the reference's own tenant and claim, with a v2 reference's expiry
    and signature in the query. *)
Theorem redeem_integrity ref sha h bs h' :
  redeem ref sha h = (Ok bs, h') →
  sha256_hex bs = sha ∧
  ∃ r, valid_ref r ∧ ref = format_ref r ∧ h' = h ++ [claim_call o (parsed r)].
Proof.
  intros Hr. destruct (redeem_cases ref sha) as [(r & Hv & -> & Hs)|Hinv].
  - rewrite redeem_valid in Hr by done. injection Hr as Hr <-. ok_inv.
    unfold verifyIntegrity in *. ok_inv. bool_inv. eauto 10.
  - by destruct (redeem_invalid ref sha h Hinv) as [m E]; rewrite E in Hr.
Qed.

(** Nothing is sent for a malformed reference or digest: the call is
    refused with a non-retryable [InvalidClaimRefError] before any request. *)
Theorem redeem_validates_first ref sha h :
  (∀ r, valid_ref r → ref ≠ format_ref r) ∨ re_test SHA256_PATTERN sha = false →
  ∃ e, redeem ref sha h = (Err e, h) ∧ retryable e = false.
Proof. intros Hinv. destruct (redeem_invalid ref sha h Hinv) as [m ->]. eauto. Qed.

(** The error a consumer should see for a verdict and the bytes' digest. *)
Definition redeem_verdict (sha : jstr) (a : outcome bytes) : result bool bytes :=
  match gateway_says a with
  | Body bs => if bool_decide (sha256_hex bs = sha) then Ok bs else Err false
  | Gone | Refused _ _ => Err false
  | Busy => Err true
  end.

(** The result of a redeem with the error reduced to its [retryable] bit. *)
Definition retry_view (r : result claim_check_error bytes) : result bool bytes :=
  match r with Ok bs => Ok bs | Err e => Err (retryable e) end.

(** [C16] For a well-formed reference and digest, [redeem] sends one call and
    sorts its outcome into bytes, dead-letter or retry: bytes for a [200] whose
    body has the digest; retry when the call never completed or the status is
    [408], [429] or neither [200] nor a [4xx]; dead-letter otherwise (a [404],
    another [4xx], a body with another digest).  The last class holds [401] and
    [403] too, which the gateway's own interface description wants retried once
    the reader's credential is fixed, not dead-lettered. *)
Theorem redeem_sorts r sha h :
  valid_ref r → re_test SHA256_PATTERN sha = true →
  let c := claim_call o (parsed r) in
  retry_view (redeem (format_ref r) sha h).1 = redeem_verdict sha (send (claim_check_http o) h c) ∧
  (redeem (format_ref r) sha h).2 = h ++ [c].
Proof.
  intros Hv Hs. cbv zeta. rewrite redeem_valid by done. split; [|done]. cbn [fst].
  unfold redeem_verdict. pose proof (judge_answer_spec (parsed r) (send (claim_check_http o) h (claim_call o (parsed r)))) as Hj.
  destruct (gateway_says _); [..|destruct Hj as (m & c & Hj)]; rewrite Hj; cbn; try done.
  unfold verifyIntegrity. by destruct (bool_decide _).
Qed.

(** A health probe makes one call and answers only for a [200] with a
    body; every other outcome is a retryable error. *)
Theorem health_probe h :
  (health h).2 = h ++ [health_call] ∧
  match (health h).1 with
  | Ok d => ∃ e, send (claim_check_http o) h health_call = Answered (Some d) e 200
  | Err e => retryable e = true
  end.
Proof.
  unfold health, perform, lift, mbind, http_bind. cbn [health_call c_parseAs parsed_body fst snd].
  split; [done|]. destruct (send _ _ _) as [err|[d|] e status] eqn:Es; try done. cbn.
  destruct (Z.eqb_spec status 200) as [->|]; [|done]. eauto.
Qed.
End client.

(** ** Witnesses *)

Module Samples.
#[local] Existing Instance NodeCrypto.

Definition options : ClaimCheckClientOptions :=
  {| baseUrl := js "http://localhost:4001"; cc_headers := []; timeoutMs := None |}.
(** The digest of [hi]. *)
Definition digest : jstr := js "8f434346648f6b96df89dda901c5176b10a6d83961dd3c1ac88b59b2dc327aa4".

Definition gateway (status : Z) : OpenApiFetch := fixed_transport status None None (Some [104; 105]) None.

Definition acme_ref : claim_ref := ClaimRef (js "acme") (js "01M39VMD8RA3C5HR4RBV67Y002") None.

Lemma acme_valid : valid_ref acme_ref.
Proof.
  split; [|split; [|done]].
  - split; [apply (bool_decide_unpack _); by vm_compute|cbn; lia].
  - eexists 48, _. split; [reflexivity|]. split; [done|].
    split; [apply (bool_decide_unpack _); by vm_compute|done].
Qed.

Lemma redeem_integrity_witness : sha256_hex [104; 105] = digest.
Proof.
  apply (redeem_integrity (net := gateway 200) options sample_ref digest [] [104; 105]
           [claim_call options (parsed acme_ref)]).
  by vm_compute.
Defined.

Lemma redeem_validates_first_witness :
  ∃ e, redeem (net := gateway 200) options sample_ref (js "abc") [] = (Err e, []) ∧ retryable e = false.
Proof.
  apply (redeem_validates_first (net := gateway 200) options sample_ref (js "abc") []).
  right. by vm_compute.
Defined.

Lemma redeem_sorts_witness :
  retry_view (redeem (net := gateway 429) options (format_ref acme_ref) digest []).1 = Err true.
Proof.
  destruct (redeem_sorts (net := gateway 429) options acme_ref digest [] acme_valid) as [E _];
    [by vm_compute|]. rewrite E. by vm_compute.
Defined.

Example redeem_vectors :
  map (λ s, retry_view (redeem (net := gateway s) options sample_ref digest []).1) [200; 404; 403; 503; 302; 204]
  = [Ok [104; 105]; Err false; Err false; Err true; Err true; Err true].
Proof. by vm_compute. Qed.
End Samples.
