(* ===== verification/AdminClient.v ===== *)
(** * The admin client ([admin/client.ts], [admin/errors.ts])

    Every operation but [health] is one call through [request], which sorts the
    answer by its status. *)
From stdpp Require Import base tactics list numbers option strings.
From S2P Require Import Prelude JsNumber JsString Json ClaimRef Http.
Local Open Scope Z_scope.

(** ** Errors *)

Inductive admin_error : Type :=
| RoleNotEnabledError (message : jstr) (role : option json)
| AdminRejectedError (message : jstr) (status : Z) (code : option json) (scope : option json)
| AdminUnavailableError (message : jstr) (cause : option thrown).

Definition admin_retryable (e : admin_error) : bool :=
  match e with
  | RoleNotEnabledError _ _ | AdminRejectedError _ _ _ _ => false
  | AdminUnavailableError _ _ => true
  end.

(** What an operation rejects with: an [AdminError], or the [TypeError] of
    printing a [role] that is an object with its own [toString]. *)
Inductive admin_failure : Type :=
| AdminError (e : admin_error)
| AdminTypeError.

(** ** Operations *)

Record AdminClientOptions := {
  admin_baseUrl : jstr;
  admin_headers : list (jstr * jstr);
  admin_timeoutMs : option num;
}.

Definition admin_http (o : AdminClientOptions) : client_config :=
  {| cfg_baseUrl := admin_baseUrl o; cfg_headers := admin_headers o; cfg_redirect_manual := true |}.
Definition admin_timeout (o : AdminClientOptions) : num := default (num_of_Z 10000) (admin_timeoutMs o).

(** [`role not enabled${e.role ? `: ${e.role}` : ""}`] *)
Definition role_message (role : option json) : option jstr :=
  if truthy role then (λ s, js "role not enabled: " ++ s) <$> (role ≫= json_display)
  else Some (js "role not enabled").

(** What [request] makes of an outcome. *)
Definition judge {A} (a : outcome A) : result admin_failure (option A) :=
  match a with
  | Rejected err =>
      Err (AdminError (AdminUnavailableError (js "admin gateway unreachable: " ++ thrown_message err) (Some err)))
  | Answered data error status =>
      if is_2xx status then Ok data
      else
        let body := error_body error in
        let e := body_fields body in
        if (status =? 409) && is_string "role_not_enabled" (obj_get (js "error") e) then
          match role_message (obj_get (js "role") e) with
          | Some m => Err (AdminError (RoleNotEnabledError m (obj_get (js "role") e)))
          | None => Err AdminTypeError
          end
        else if is_4xx status then
          Err (AdminError (AdminRejectedError
            (js "admin rejected (" ++ dec_of_Z status ++ js "): " ++ json_stringify body)
            status (obj_get (js "error") e) (nullish_to_none (obj_get (js "scope") e))))
        else
          Err (AdminError (AdminUnavailableError
            (js "admin gateway error (" ++ dec_of_Z status ++ js "): " ++ json_stringify body) None))
  end.

Section client.
Context {net : OpenApiFetch} (o : AdminClientOptions).

Definition request (c : call) : http admin_failure (option (parsed_body (c_parseAs c))) :=
  a ← perform (admin_http o) c;
  lift (judge a).

Definition admin_call (m : http_method) (template : string) (path : list (jstr * jstr))
    (query : option (list (jstr * json))) (body : option json) (p : parse_as) : call :=
  {| c_method := m; c_template := js template; c_path := path; c_query := query; c_body := body;
     c_parseAs := p; c_timeout := admin_timeout o |}.

Definition health : http admin_failure json :=
  a ← perform (admin_http o) (admin_call GET "/health" [] None None AsJson);
  lift match a with
       | Rejected err =>
           Err (AdminError (AdminUnavailableError (js "admin gateway unreachable: " ++ thrown_message err) (Some err)))
       | Answered (Some d) _ status =>
           if status =? 200 then Ok d else
             Err (AdminError (AdminUnavailableError
                    (js "admin gateway health check failed (" ++ dec_of_Z status ++ js ")") None))
       | Answered None _ status =>
           Err (AdminError (AdminUnavailableError
                  (js "admin gateway health check failed (" ++ dec_of_Z status ++ js ")") None))
       end.

Definition metrics : http admin_failure (option jstr) :=
  request (admin_call GET "/metrics" [] None None AsText).

Definition config : http admin_failure (option json) :=
  request (admin_call GET "/v1/config" [] None None AsJson).

Definition listDeadLetters (params : option (list (jstr * json))) : http admin_failure (option json) :=
  request (admin_call GET "/v1/dlq" [] params None AsJson).

Definition createReplay (spec : json) : http admin_failure (option json) :=
  request (admin_call POST "/v1/replays" [] None (Some spec) AsJson).

Definition getReplay (id : jstr) : http admin_failure (option json) :=
  request (admin_call GET "/v1/replays/{id}" [(js "id", id)] None None AsJson).

Definition listReplays : http admin_failure (option json) :=
  request (admin_call GET "/v1/replays" [] None None AsJson).

Definition updateReplay (id : jstr) (patch : json) : http admin_failure (option json) :=
  request (admin_call PATCH "/v1/replays/{id}" [(js "id", id)] None (Some patch) AsJson).

Definition listQuarantined (params : option (list (jstr * json))) : http admin_failure (option json) :=
  request (admin_call GET "/v1/quarantine" [] params None AsJson).

Definition listAudit (params : option (list (jstr * json))) : http admin_failure (option json) :=
  request (admin_call GET "/v1/audit" [] params None AsJson).

(** ** The client as a whole *)

(** One use of the client that [createAdminClient] returns. *)
Inductive admin_op : Type :=
| Metrics
| Config
| ListDeadLetters (params : option (list (jstr * json)))
| CreateReplay (spec : json)
| GetReplay (id : jstr)
| ListReplays
| UpdateReplay (id : jstr) (patch : json)
| ListQuarantined (params : option (list (jstr * json)))
| ListAudit (params : option (list (jstr * json))).

(** Only a [metrics] answer is text. *)
Definition admin_result (op : admin_op) : Type :=
  match op with Metrics => list Z | _ => json end.

Definition run (op : admin_op) : http admin_failure (option (admin_result op)) :=
  match op with
  | Metrics => metrics
  | Config => config
  | ListDeadLetters p => listDeadLetters p
  | CreateReplay s => createReplay s
  | GetReplay i => getReplay i
  | ListReplays => listReplays
  | UpdateReplay i p => updateReplay i p
  | ListQuarantined p => listQuarantined p
  | ListAudit p => listAudit p
  end.

(** ** Properties *)

(** The caller's three questions: was it done, was it refused, or is it worth
    asking again. *)
Inductive admin_verdict (A : Type) : Type :=
| Done (data : option A)
| WrongNode (role : option json)
| Denied (status : Z) (code scope : option json)
| AskAgain.
#[global] Arguments Done {A} data.
#[global] Arguments WrongNode {A} role.
#[global] Arguments Denied {A} status code scope.
#[global] Arguments AskAgain {A}.

Definition role_disabled (error : option json) : bool :=
  match error with
  | Some (JObj e) => is_string "role_not_enabled" (obj_get (js "error") e)
  | _ => false
  end.

Definition field_of (error : option json) (key : string) : option json :=
  match error with Some (JObj e) => obj_get (js key) e | _ => None end.

Definition admin_says {A} (a : outcome A) : admin_verdict A :=
  match a with
  | Rejected _ => AskAgain
  | Answered data error status =>
      if bool_decide (200 ≤ status < 300) then Done data
      else if bool_decide (400 ≤ status < 500) then
        if bool_decide (status = 409) && role_disabled error then WrongNode (field_of error "role")
        else Denied status (field_of error "error") (nullish_to_none (field_of error "scope"))
      else AskAgain
  end.

(** A result as the caller reads it; a [TypeError] has no reading. *)
Definition admin_reads {A} (r : result admin_failure (option A)) : option (admin_verdict A) :=
  match r with
  | Ok d => Some (Done d)
  | Err (AdminError (RoleNotEnabledError _ role)) => Some (WrongNode role)
  | Err (AdminError (AdminRejectedError _ s c sc)) => Some (Denied s c sc)
  | Err (AdminError (AdminUnavailableError _ _)) => Some AskAgain
  | Err AdminTypeError => None
  end.

Lemma body_fields_get error key : obj_get (js key) (body_fields (error_body error)) = field_of error key.
Proof. by destruct error as [[]|]. Qed.

Lemma role_disabled_spec error :
  is_string "role_not_enabled" (obj_get (js "error") (body_fields (error_body error)))
  = role_disabled error.
Proof. by destruct error as [[]|]. Qed.

Lemma judge_says {A} (a : outcome A) :
  admin_reads (judge a) = Some (admin_says a) ∨
  (judge a = Err AdminTypeError ∧
   ∃ data error o, a = Answered data error 409 ∧ role_disabled error = true ∧
     field_of error "role" = Some o ∧ json_display o = None).
Proof.
  destruct a as [err|data error status]; [by left|]. cbn [judge admin_says]. unfold is_2xx, is_4xx.
  rewrite role_disabled_spec, !body_fields_get, !status_range.
  case_bool_decide as H2; [by left|].
  destruct (Z.eqb_spec status 409) as [->|H409]; cbn [andb].
  - rewrite !(bool_decide_eq_true_2 (400 ≤ 409 < 500)), (bool_decide_eq_true_2 (409 = 409)) by lia. cbn [andb].
    destruct (role_disabled error) eqn:Hr; [|by left]. unfold role_message.
    destruct (truthy (field_of error "role")) eqn:Ht; [|by left].
    destruct (field_of error "role") as [r|] eqn:Hf; [|done]. cbn.
    destruct (json_display r) eqn:Hd; [by left|]. right. eauto 10.
  - rewrite (bool_decide_eq_false_2 (status = 409)) by done. cbn [andb]. left. by case_bool_decide.
Qed.

Lemma request_run c h :
  request c h = (judge (send (admin_http o) h c), h ++ [c]).
Proof. done. Qed.

(** [C33] Every request through the admin client makes exactly one call and
    reports it by its status: done for a [2xx], the disabled role for a [409]
    that says [role_not_enabled], refused for every other [4xx] (with the
    body's code and scope), and retryable for anything else or when no answer
    came. (The role of a [409] must be printable: an object with its own
    [toString] is a [TypeError].) *)
Theorem admin_request_sorts c h :
  (∀ d e r, send (admin_http o) h c = Answered d e 409 → field_of e "role" = Some r → is_Some (json_display r)) →
  admin_reads (request c h).1 = Some (admin_says (send (admin_http o) h c)) ∧
  (request c h).2 = h ++ [c].
Proof.
  intros Hd. rewrite request_run. cbn [fst snd]. split; [|done].
  destruct (judge_says (send (admin_http o) h c)) as [?|(_ & d & e & r & Ea & _ & Er & Hn)]; [done|].
  rewrite Ea in Hd. destruct (Hd _ _ _ eq_refl Er). congruence.
Qed.

(** The call of an operation: its method, path template and parameters. *)
Definition call_of (op : admin_op) : call :=
  match op with
  | Metrics => admin_call GET "/metrics" [] None None AsText
  | Config => admin_call GET "/v1/config" [] None None AsJson
  | ListDeadLetters p => admin_call GET "/v1/dlq" [] p None AsJson
  | CreateReplay s => admin_call POST "/v1/replays" [] None (Some s) AsJson
  | GetReplay i => admin_call GET "/v1/replays/{id}" [(js "id", i)] None None AsJson
  | ListReplays => admin_call GET "/v1/replays" [] None None AsJson
  | UpdateReplay i p => admin_call PATCH "/v1/replays/{id}" [(js "id", i)] None (Some p) AsJson
  | ListQuarantined p => admin_call GET "/v1/quarantine" [] p None AsJson
  | ListAudit p => admin_call GET "/v1/audit" [] p None AsJson
  end.

Lemma run_trace op h : (run op h).2 = h ++ [call_of op].
Proof. by destruct op. Qed.

(** Running a list of operations, whatever each of them returns. *)
Fixpoint run_all (ops : list admin_op) (h : list call) : list call :=
  match ops with
  | [] => h
  | op :: ops => run_all ops (run op h).2
  end.

(** A sequence of admin operations sends one call per operation, in order,
    and the call identifies the operation: two sequences that send the same
    calls are the same sequence. *)
Theorem admin_trace ops h :
  run_all ops h = h ++ map call_of ops ∧
  ∀ ops', run_all ops' h = run_all ops h → ops' = ops.
Proof.
  assert (∀ l k, run_all l k = k ++ map call_of l) as Hrun.
  { induction l as [|op l IH]; intros k; cbn; [by rewrite app_nil_r|].
    by rewrite IH, run_trace, <-app_assoc. }
  split; [done|]. intros ops'. rewrite !Hrun. intros E%app_inv_head. revert ops' E.
  induction ops as [|op ops IH]; intros [|op' ops'] E; try done.
  cbn in E. injection E as E1 E2. rewrite (IH ops' E2). f_equal.
  destruct op, op'; first [discriminate E1 | injection E1; intros; by subst | done].
Qed.

(** The admin health probe makes one call and answers only for a [200]
    with a body; every other outcome is a retryable [AdminUnavailableError]. *)
Theorem admin_health_probe h :
  let c := admin_call GET "/health" [] None None AsJson in
  (health h).2 = h ++ [c] ∧
  match (health h).1 with
  | Ok d => ∃ e, send (admin_http o) h c = Answered (Some d) e 200
  | Err e => ∃ m cause, e = AdminError (AdminUnavailableError m cause)
  end.
Proof.
  cbv zeta. unfold health, perform, lift, mbind, http_bind. cbn [admin_call c_parseAs parsed_body fst snd].
  split; [done|]. destruct (send _ _ _) as [err|[d|] e status] eqn:Es; cbn; eauto.
  destruct (Z.eqb_spec status 200) as [->|]; eauto.
Qed.
End client.

Module Samples.
Definition options : AdminClientOptions :=
  {| admin_baseUrl := js "http://localhost:4002"; admin_headers := []; admin_timeoutMs := Some (num_of_Z 500) |}.

Definition node (status : Z) : OpenApiFetch :=
  fixed_transport status (Some (JObj [])) (Some []) None
    (Some (JObj [(js "error", JStr (js "role_not_enabled")); (js "role", JStr (js "dlq"))])).

Lemma admin_request_sorts_witness :
  admin_reads (createReplay (net := node 409) options JNull []).1 = Some (WrongNode (Some (JStr (js "dlq")))).
Proof.
  destruct (admin_request_sorts (net := node 409) options
              (admin_call options POST "/v1/replays" [] None (Some JNull) AsJson) []) as [E _].
  - intros d e r [= <- <-] [= <-]. by eexists.
  - etransitivity; [exact E|]. by vm_compute.
Defined.

Example admin_vectors :
  map (λ s, match (config (net := node s) options []).1 with
            | Ok _ => None | Err (AdminError e) => Some (admin_retryable e) | Err AdminTypeError => None end)
    [200; 404; 503; 302] = [None; Some false; Some true; Some true].
Proof. by vm_compute. Qed.
End Samples.
