(* ===== verification/RoutesClient.v ===== *)
(** * The routes client ([routes/client.ts], [routes/errors.ts])

    Management of route definitions: each operation is one call through
    [request]; the ones that name a route refuse an id a URL parser would
    normalize away before any call. *)
From stdpp Require Import base tactics list numbers option strings.
From S2P Require Import Prelude JsNumber JsString Json ClaimRef Http.
Local Open Scope Z_scope.

(** ** Errors *)

(** A value a caller passes where a string is expected; [None] is [undefined]. *)
Abbreviation unknown := (option json) (only parsing).

Record routes_rejection := {
  rr_message : jstr;
  rr_status : Z;
  rr_code : option json;
  rr_field : option json;
  rr_conflicting_id : option json;
  rr_max_routes : option json;
  rr_scope : option json;
}.

Inductive routes_error : Type :=
| RouteNotFoundError (message : jstr)
| InvalidRouteIdError (message : jstr) (id : unknown)
| RoutesRejectedError (r : routes_rejection)
| RoutesUnavailableError (message : jstr) (cause : option thrown).

Definition routes_retryable (e : routes_error) : bool :=
  match e with
  | RouteNotFoundError _ | InvalidRouteIdError _ _ | RoutesRejectedError _ => false
  | RoutesUnavailableError _ _ => true
  end.

(** What an operation rejects with: a [RoutesError], or the [TypeError] of
    printing an error body's field that is an object with its own [toString]. *)
Inductive routes_failure : Type :=
| RoutesError (e : routes_error)
| RoutesTypeError.

(** [new InvalidRouteIdError(id)] *)
Definition invalid_route_id (i : unknown) : routes_error :=
  InvalidRouteIdError
    (js "invalid route id: " ++ match i with Some x => json_stringify x | None => js "undefined" end) i.

(** [message ?? `routes rejected (${status})${code ? `: ${code}` : ""}`] *)
Definition rejection_message (status : Z) (code message : option json) : option jstr :=
  match nullish_to_none message with
  | Some m => json_display m
  | None =>
      let head := js "routes rejected (" ++ dec_of_Z status ++ js ")" in
      if truthy code then (λ s, head ++ js ": " ++ s) <$> (code ≫= json_display) else Some head
  end.

(** ** Operations *)

Record RoutesClientOptions := {
  routes_baseUrl : jstr;
  routes_headers : list (jstr * jstr);
  routes_timeoutMs : option num;
}.

Definition routes_http (o : RoutesClientOptions) : client_config :=
  {| cfg_baseUrl := routes_baseUrl o; cfg_headers := routes_headers o; cfg_redirect_manual := true |}.
Definition routes_timeout (o : RoutesClientOptions) : num := default (num_of_Z 10000) (routes_timeoutMs o).

Definition INVALID_ROUTE_IDS : list jstr := [[]; js "."; js ".."].

Definition assertRouteId (i : unknown) : result routes_failure jstr :=
  match i with
  | Some (JStr s) =>
      if bool_decide (s ∈ INVALID_ROUTE_IDS) then Err (RoutesError (invalid_route_id i)) else Ok s
  | _ => Err (RoutesError (invalid_route_id i))
  end.

Definition rejected (status : Z) (body : json) : routes_failure :=
  let e := body_fields body in
  match rejection_message status (obj_get (js "error") e) (obj_get (js "message") e) with
  | None => RoutesTypeError
  | Some m => RoutesError (RoutesRejectedError
      {| rr_message := m; rr_status := status; rr_code := obj_get (js "error") e;
         rr_field := obj_get (js "field") e; rr_conflicting_id := obj_get (js "conflicting_id") e;
         rr_max_routes := obj_get (js "max_routes") e; rr_scope := nullish_to_none (obj_get (js "scope") e) |})
  end.

(** What [request] makes of an outcome. *)
Definition judge {A} (a : outcome A) : result routes_failure (option A) :=
  match a with
  | Rejected err =>
      Err (RoutesError (RoutesUnavailableError (js "routes gateway unreachable: " ++ thrown_message err) (Some err)))
  | Answered data error status =>
      if is_2xx status then Ok data
      else
        let body := error_body error in
        if status =? 404 then Err (RoutesError (RouteNotFoundError (js "route not found")))
        else if is_4xx status then Err (rejected status body)
        else Err (RoutesError (RoutesUnavailableError
               (js "routes gateway error (" ++ dec_of_Z status ++ js "): " ++ json_stringify body) None))
  end.

Section client.
Context {net : OpenApiFetch} (o : RoutesClientOptions).

Definition request (c : call) : http routes_failure (option (parsed_body (c_parseAs c))) :=
  a ← perform (routes_http o) c;
  lift (judge a).

Definition routes_call (m : http_method) (template : string) (path : list (jstr * jstr))
    (query : option (list (jstr * json))) (body : option json) : call :=
  {| c_method := m; c_template := js template; c_path := path; c_query := query; c_body := body;
     c_parseAs := AsJson; c_timeout := routes_timeout o |}.

Definition health : http routes_failure json :=
  a ← perform (routes_http o) (routes_call GET "/health" [] None None);
  lift match a with
       | Rejected err =>
           Err (RoutesError (RoutesUnavailableError (js "routes gateway unreachable: " ++ thrown_message err) (Some err)))
       | Answered (Some d) _ status =>
           if status =? 200 then Ok d else
             Err (RoutesError (RoutesUnavailableError
                    (js "routes gateway health check failed (" ++ dec_of_Z status ++ js ")") None))
       | Answered None _ status =>
           Err (RoutesError (RoutesUnavailableError
                  (js "routes gateway health check failed (" ++ dec_of_Z status ++ js ")") None))
       end.

Definition listRoutes (params : option (list (jstr * json))) : http routes_failure (option json) :=
  request (routes_call GET "/admin/routes" [] params None).

Definition createRoute (input : json) : http routes_failure (option json) :=
  request (routes_call POST "/admin/routes" [] None (Some input)).

Definition getRoute (i : unknown) : http routes_failure (option json) :=
  s ← lift (assertRouteId i);
  request (routes_call GET "/admin/routes/{id}" [(js "id", s)] None None).

Definition replaceRoute (i : unknown) (input : json) : http routes_failure (option json) :=
  s ← lift (assertRouteId i);
  request (routes_call PUT "/admin/routes/{id}" [(js "id", s)] None (Some input)).

Definition updateRoute (i : unknown) (patch : json) : http routes_failure (option json) :=
  s ← lift (assertRouteId i);
  request (routes_call PATCH "/admin/routes/{id}" [(js "id", s)] None (Some patch)).

(** The answer's data is dropped: [Promise<void>]. *)
Definition deleteRoute (i : unknown) : http routes_failure unit :=
  s ← lift (assertRouteId i);
  _ ← request (routes_call DELETE "/admin/routes/{id}" [(js "id", s)] None None);
  mret tt.

Definition getIpRules : http routes_failure (option json) :=
  request (routes_call GET "/admin/ip-rules" [] None None).

Definition putIpRules (rules : json) : http routes_failure (option json) :=
  request (routes_call PUT "/admin/ip-rules" [] None (Some rules)).

Definition testRoute (req : json) : http routes_failure (option json) :=
  request (routes_call POST "/admin/routes/test" [] None (Some req)).

(** ** The client as a whole *)

(** One use of the client that [createRoutesClient] returns. *)
Inductive routes_op : Type :=
| ListRoutes (params : option (list (jstr * json)))
| CreateRoute (input : json)
| GetRoute (i : unknown)
| ReplaceRoute (i : unknown) (input : json)
| UpdateRoute (i : unknown) (patch : json)
| DeleteRoute (i : unknown)
| GetIpRules
| PutIpRules (rules : json)
| TestRoute (req : json).

(** What the operation returned; a deletion returns nothing. *)
Definition run (op : routes_op) : http routes_failure (option json) :=
  match op with
  | ListRoutes p => listRoutes p
  | CreateRoute i => createRoute i
  | GetRoute i => getRoute i
  | ReplaceRoute i x => replaceRoute i x
  | UpdateRoute i x => updateRoute i x
  | DeleteRoute i => _ ← deleteRoute i; mret None
  | GetIpRules => getIpRules
  | PutIpRules x => putIpRules x
  | TestRoute x => testRoute x
  end.

(** ** Properties *)

(** The id an operation names, if it names a route. *)
Definition named_id (op : routes_op) : option unknown :=
  match op with
  | GetRoute i | ReplaceRoute i _ | UpdateRoute i _ | DeleteRoute i => Some i
  | _ => None
  end.

(** An id that addresses one route: a string a URL parser keeps. *)
Definition addresses_route (i : unknown) : Prop :=
  ∃ s, i = Some (JStr s) ∧ s ≠ [] ∧ s ≠ js "." ∧ s ≠ js "..".

Lemma assertRouteId_Ok i s : assertRouteId i = Ok s ↔ i = Some (JStr s) ∧ addresses_route i.
Proof.
  unfold assertRouteId, addresses_route, INVALID_ROUTE_IDS. destruct i as [[| | |t| |]|]; try naive_solver.
  case_bool_decide as Ht; rewrite !elem_of_cons, elem_of_nil in Ht; split.
  - done.
  - intros ([= ->] & u & [= <-] & ? & ? & ?). by destruct Ht as [?|[?|[?|?]]].
  - intros [= <-]. split; [done|]. exists t. split_and!; [done|..]; intros ->; tauto.
  - by intros ([= ->] & _).
Qed.

Lemma assertRouteId_cases i :
  (∃ s, assertRouteId i = Ok s ∧ i = Some (JStr s) ∧ addresses_route i) ∨
  (assertRouteId i = Err (RoutesError (invalid_route_id i)) ∧ ¬ addresses_route i).
Proof.
  destruct (assertRouteId i) as [s|e] eqn:E.
  - left. exists s. split; [done|]. by apply assertRouteId_Ok.
  - right. split.
    + unfold assertRouteId in E. repeat case_match; by simplify_eq.
    + intros Ha. pose proof Ha as (s & -> & _). by rewrite (proj2 (assertRouteId_Ok _ s)) in E.
Qed.

(** An operation that names a route: no call for an id that addresses none,
    else one call with that id as its path parameter. *)
Lemma route_call_sent op i h :
  named_id op = Some i →
  (¬ addresses_route i ∧ run op h = (Err (RoutesError (invalid_route_id i)), h)) ∨
  (addresses_route i ∧ ∃ s c, i = Some (JStr s) ∧ (run op h).2 = h ++ [c] ∧ c_path c = [(js "id", s)] ∧
     c_template c = js "/admin/routes/{id}" ∧ c_query c = None).
Proof.
  intros Hop. destruct (assertRouteId_cases i) as [(s & Ea & -> & Ha)|[Ea Ha]].
  - right. split; [done|]. exists s.
    destruct op; try discriminate Hop; injection Hop as ->;
      [exists (routes_call GET "/admin/routes/{id}" [(js "id", s)] None None)
      |exists (routes_call PUT "/admin/routes/{id}" [(js "id", s)] None (Some input))
      |exists (routes_call PATCH "/admin/routes/{id}" [(js "id", s)] None (Some patch))
      |exists (routes_call DELETE "/admin/routes/{id}" [(js "id", s)] None None)]; (split; [done|]);
      (split; [|by split_and!]);
      cbn [run]; unfold getRoute, replaceRoute, updateRoute, deleteRoute, mbind, http_bind, lift; rewrite Ea; [done..|].
    unfold request, perform, lift, mbind, http_bind. by destruct (judge (send _ _ (routes_call DELETE _ _ _ _))).
  - left. split; [done|].
    destruct op; try discriminate Hop; injection Hop as ->; cbn [run]; unfold getRoute, replaceRoute, updateRoute, deleteRoute,
      mbind, http_bind, lift; by rewrite Ea.
Qed.

(** An operation that names a route whose id addresses nothing (not a
    string, empty, [.] or [..]) sends no call and raises a non-retryable
    [InvalidRouteIdError]; every other operation sends exactly one call, and
    when it names a route that id is the call's only path parameter. *)
Theorem routes_id_guard op h :
  match named_id op with
  | Some i =>
      (¬ addresses_route i ∧ run op h = (Err (RoutesError (invalid_route_id i)), h)) ∨
      (addresses_route i ∧ ∃ s c, i = Some (JStr s) ∧ (run op h).2 = h ++ [c] ∧ c_path c = [(js "id", s)] ∧
         c_template c = js "/admin/routes/{id}")
  | None => ∃ c, (run op h).2 = h ++ [c] ∧ c_path c = []
  end.
Proof.
  destruct (named_id op) as [i|] eqn:Hop.
  - destruct (route_call_sent op i h Hop) as [?|(Ha & s & c & -> & Hc & Hp & Ht & _)]; [by left|].
    right. split; [done|]. by exists s, c.
  - destruct op; try done; by eexists.
Qed.

(** What the listener says, as the caller sorts it. *)
Inductive routes_verdict (A : Type) : Type :=
| Done (data : option A)
| NoSuchRoute
| Denied (status : Z) (code field conflicting max_routes scope : option json)
| Garbled
| AskAgain.
#[global] Arguments Done {A} data.
#[global] Arguments NoSuchRoute {A}.
#[global] Arguments Denied {A} status code field conflicting max_routes scope.
#[global] Arguments Garbled {A}.
#[global] Arguments AskAgain {A}.

Definition said (error : option json) (key : string) : option json :=
  match error with Some (JObj e) => obj_get (js key) e | _ => None end.

(** The field of an error body that is put in the error's text: its message, or
    without one its error code, if that is truthy. *)
Definition printed_field (error : option json) : option json :=
  match said error "message" with
  | None | Some JNull => if truthy (said error "error") then said error "error" else None
  | message => message
  end.

(** That field has no text: it is, or an array in it holds, an object with a
    [toString] of its own, which JSON cannot make a function. *)
Definition garbled (error : option json) : bool :=
  match printed_field error with
  | Some x => match json_display x with None => true | Some _ => false end
  | None => false
  end.

Definition routes_says {A} (a : outcome A) : routes_verdict A :=
  match a with
  | Rejected _ => AskAgain
  | Answered data error status =>
      if bool_decide (200 ≤ status < 300) then Done data
      else if bool_decide (status = 404) then NoSuchRoute
      else if bool_decide (400 ≤ status < 500) then
        if garbled error then Garbled else
        Denied status (said error "error") (said error "field") (said error "conflicting_id")
          (said error "max_routes") (nullish_to_none (said error "scope"))
      else AskAgain
  end.

Definition routes_reads {A} (r : result routes_failure (option A)) : option (routes_verdict A) :=
  match r with
  | Ok d => Some (Done d)
  | Err (RoutesError (RouteNotFoundError _)) => Some NoSuchRoute
  | Err (RoutesError (RoutesRejectedError r)) =>
      Some (Denied (rr_status r) (rr_code r) (rr_field r) (rr_conflicting_id r) (rr_max_routes r) (rr_scope r))
  | Err (RoutesError (RoutesUnavailableError _ _)) => Some AskAgain
  | Err RoutesTypeError => Some Garbled
  | Err (RoutesError (InvalidRouteIdError _ _)) => None
  end.

Lemma said_get error key : obj_get (js key) (body_fields (error_body error)) = said error key.
Proof. by destruct error as [[]|]. Qed.

Lemma rejected_reads {A} error status :
  routes_reads (A := A) (Err (rejected status (error_body error))) =
  Some (if garbled error then Garbled else
    Denied status (said error "error") (said error "field") (said error "conflicting_id")
      (said error "max_routes") (nullish_to_none (said error "scope"))).
Proof.
  assert (printed_field error = match nullish_to_none (said error "message") with
    | Some m => Some m | None => if truthy (said error "error") then said error "error" else None end) as E
    by (unfold printed_field; by destruct (said error "message") as [[]|]).
  unfold rejected, garbled. rewrite !said_get, E. unfold rejection_message.
  destruct (nullish_to_none (said error "message")) as [m|]; [by destruct (json_display m)|].
  destruct (truthy (said error "error")) eqn:Et; [|done].
  destruct (said error "error") as [c|]; [|done]. cbn. by destruct (json_display c).
Qed.

(** [C32] Every request through the routes client makes exactly one call and
    reports it by its status: done for a [2xx], not found for a [404], refused
    for every other [4xx] with the details of the body, and retryable for
    anything else or when no answer came.  The one exception is a [4xx] whose
    body's [message], or without one whose [error], has no text (an object with
    a [toString] of its own): then the request throws a [TypeError], which is no
    [RoutesError], instead of reporting the refusal. *)
Theorem routes_request_sorts c h :
  routes_reads (request c h).1 = Some (routes_says (send (routes_http o) h c)) ∧
  (request c h).2 = h ++ [c].
Proof.
  split; [|done]. unfold request, perform, lift, mbind, http_bind. cbn [fst].
  destruct (send (routes_http o) h c) as [err|d e s]; [done|].
  cbn [judge routes_says]. unfold is_2xx, is_4xx.
  rewrite !status_range, eqb_decide. repeat case_bool_decide; try done. by rewrite rejected_reads.
Qed.

(** The routes health probe makes one call and answers only for a [200]
    with a body; every other outcome is a retryable [RoutesUnavailableError]. *)
Theorem routes_health_probe h :
  let c := routes_call GET "/health" [] None None in
  (health h).2 = h ++ [c] ∧
  match (health h).1 with
  | Ok d => ∃ e, send (routes_http o) h c = Answered (Some d) e 200
  | Err e => ∃ m cause, e = RoutesError (RoutesUnavailableError m cause)
  end.
Proof.
  cbv zeta. unfold health, perform, lift, mbind, http_bind. cbn [routes_call c_parseAs parsed_body fst snd].
  split; [done|]. destruct (send _ _ _) as [err|[d|] e status] eqn:Es; cbn; eauto.
  destruct (Z.eqb_spec status 200) as [->|]; eauto.
Qed.
End client.

Module Samples.
Definition options : RoutesClientOptions :=
  {| routes_baseUrl := js "http://localhost:4003"; routes_headers := []; routes_timeoutMs := None |}.

Definition listener (status : Z) : OpenApiFetch :=
  fixed_transport status (Some (JObj [])) None None
    (Some (JObj [(js "error", JStr (js "duplicate_route")); (js "conflicting_id", JStr (js "r1"))])).

(** A [409] is sorted; one whose [message] is an object with a [toString] is
    not. *)
Definition garbling : OpenApiFetch :=
  fixed_transport 409 None None None (Some (JObj [(js "message", JObj [(js "toString", JStr (js "x"))])])).

Example routes_sorted :
  routes_reads (createRoute (net := listener 409) options JNull []).1 =
    Some (Denied 409 (Some (JStr (js "duplicate_route"))) None (Some (JStr (js "r1"))) None None) ∧
  routes_reads (createRoute (net := garbling) options JNull []).1 = Some Garbled.
Proof. by vm_compute. Qed.

Example routes_vectors :
  (getRoute (net := listener 200) options (Some (JStr (js ".."))) []).2 = [] ∧
  length (getRoute (net := listener 200) options (Some (JStr (js "r1"))) []).2 = 1%nat ∧
  match (createRoute (net := listener 409) options JNull []).1 with
  | Err (RoutesError (RoutesRejectedError r)) => rr_message r = js "routes rejected (409): duplicate_route"
  | _ => False
  end.
Proof. by vm_compute. Qed.
End Samples.
