(* ===== verification/Targets.v ===== *)
(** * Where the clients' requests go

    The resources the three clients address, once their calls are turned into
    URLs and the platform's parser has resolved dot segments: a redeem asks for
    the path its reference spells, an operation on a route asks for that route
    and the guard on ids refuses exactly the ids that would ask for something
    else, and an operation on a replay job, which has no such guard, does not
    always ask for the job. *)
From stdpp Require Import base tactics list numbers option strings sets.
From S2P Require Import Prelude JsNumber JsString Regex Base64 Sha256 Json ClaimRef Http Url ClaimCheck AdminClient RoutesClient.
Local Open Scope Z_scope.

(** ** Paths by their segments *)

Definition slashed (segments : list jstr) : jstr := segments ≫= λ s, 47 :: s.

Definition plain_segment (s : jstr) : Prop := 47 ∉ s ∧ s ∉ single_dots ∧ s ∉ double_dots.

#[global] Instance plain_segment_dec s : Decision (plain_segment s).
Proof. unfold plain_segment. apply _. Defined.

Lemma slashed_join l : slashed l = join_with 47 ([] :: l).
Proof.
  destruct l as [|s l]; [done|]. cbn. f_equal. revert s. induction l as [|t l IH]; intros s; cbn.
  - by rewrite app_nil_r.
  - f_equal. f_equal. apply IH.
Qed.

Lemma slashed_snoc l e : slashed (l ++ [e]) = slashed l ++ 47 :: e.
Proof. unfold slashed. rewrite bind_app. cbn. by rewrite app_nil_r. Qed.

Lemma split_slashed l : Forall (λ s, 47 ∉ s) l → split_on 47 (slashed l) = [] :: l.
Proof. intros Hl. rewrite slashed_join. apply split_join; [done|]. constructor; [apply not_elem_of_nil|done]. Qed.

Lemma path_state_plain pre acc rest :
  Forall plain_segment pre → path_state acc (pre ++ rest) = path_state (reverse pre ++ acc) rest.
Proof.
  intros Hpre. revert acc. induction Hpre as [|s pre (_ & H1 & H2) _ IH]; intros acc; [done|].
  cbn [app path_state]. rewrite !bool_decide_eq_false_2 by done. rewrite IH, reverse_cons, <-app_assoc. done.
Qed.

(** The last segment of a path, after segments that are no dots. *)
Lemma pathname_last pre p e :
  Forall plain_segment (pre ++ [p]) → 47 ∉ e →
  pathname (slashed (pre ++ [p]) ++ 47 :: e) =
  if bool_decide (e ∈ double_dots) then slashed (pre ++ [[]])
  else slashed (pre ++ [p; if bool_decide (e ∈ single_dots) then [] else e]).
Proof.
  intros Hpre He. unfold pathname. rewrite <-slashed_snoc, split_slashed.
  2: { apply Forall_app. split; [|by constructor]. eapply Forall_impl; [exact Hpre|]. by intros s [? _]. }
  cbn [tail]. rewrite path_state_plain, app_nil_r, reverse_snoc by done. cbn [path_state tail app].
  case_bool_decide as H2; cbn [path_state]; [by rewrite reverse_cons, reverse_involutive|].
  case_bool_decide; cbn [path_state]; by rewrite !reverse_cons, reverse_involutive, <-app_assoc.
Qed.

Lemma pathname_plain l : Forall plain_segment l → pathname (slashed l) = slashed l.
Proof.
  intros Hl. unfold pathname. rewrite split_slashed by (eapply Forall_impl; [exact Hl|]; by intros s [? _]).
  cbn [tail]. rewrite <-(app_nil_r l), path_state_plain, !app_nil_r by done. cbn. by rewrite reverse_involutive.
Qed.

Lemma word_plain s : Forall (λ c, cls_word c = true) s → plain_segment s.
Proof.
  intros Hs. rewrite Forall_forall in Hs.
  assert (∀ d, d ∈ s → d ≠ 46 ∧ d ≠ 37 ∧ d ≠ 47) as Hd.
  { intros d Hin. specialize (Hs d Hin). split_and!; intros ->; by vm_compute in Hs. }
  split; [intros Hin; by destruct (Hd _ Hin) as (_ & _ & ?)|]. unfold double_dots, single_dots. cbn [mbind list_bind app].
  rewrite !elem_of_cons, !elem_of_nil. split; intros Hin; repeat (destruct Hin as [->|Hin]); try done;
    refine (_ (Hd _ (list_elem_of_here _ _))); vm_compute; naive_solver.
Qed.

(** A dot segment stands for one or two dots. *)
Lemma single_dots_decode e : e ∈ single_dots → utf8_decode (percent_decode e) = js ".".
Proof. unfold single_dots. rewrite !elem_of_cons, elem_of_nil. intros [->|[->|[->|[]]]]; by vm_compute. Qed.

Lemma double_dots_decode e : e ∈ double_dots → utf8_decode (percent_decode e) = js "..".
Proof.
  unfold double_dots, single_dots. cbn [mbind list_bind app]. rewrite !elem_of_cons, elem_of_nil.
  intros Hd. repeat (destruct Hd as [->|Hd]; [by vm_compute|]). done.
Qed.

(** Where a string ends up as the last segment of a path. *)
Lemma pathname_encoded pre p s :
  Forall plain_segment (pre ++ [p]) → Forall unit_ok s → well_formed s = true →
  ∃ e, encodeURIComponent s = Some e ∧ 47 ∉ e ∧ utf8_decode (percent_decode e) = s ∧
    pathname (slashed (pre ++ [p]) ++ 47 :: e) =
    if bool_decide (s = js "..") then slashed (pre ++ [[]])
    else if bool_decide (s = js ".") then slashed (pre ++ [p; []])
    else slashed (pre ++ [p; e]).
Proof.
  intros Hpre Hs Hw. destruct (encodeURIComponent_spec s Hs Hw) as (e & Ee & He & Hd).
  exists e. split; [done|]. split; [done|]. split; [done|]. rewrite pathname_last by done.
  destruct (decide (s = js "..")) as [E2|N2].
  { assert (encodeURIComponent (js "..") = Some (js "..")) as E' by by vm_compute.
    rewrite E2, E' in Ee. injection Ee as <-. by rewrite !bool_decide_eq_true_2 by (done || by vm_compute; left). }
  rewrite (bool_decide_eq_false_2 (s = _)) by done.
  rewrite bool_decide_eq_false_2 by (intros H%double_dots_decode; congruence).
  destruct (decide (s = js ".")) as [E1|N1].
  { assert (encodeURIComponent (js ".") = Some (js ".")) as E' by by vm_compute.
    rewrite E1, E' in Ee. injection Ee as <-. by rewrite !bool_decide_eq_true_2 by (done || left). }
  rewrite !bool_decide_eq_false_2; [done|done|]. intros H%single_dots_decode. congruence.
Qed.

(** ** The targets of calls *)

Section targets.
Context {url : CallUrl}.

(** A call whose template ends in one parameter and that has no query. *)
Lemma last_param_target c pre p name s :
  split_on 47 (c_template c) = [] :: pre ++ [p; 123 :: name ++ [125]] →
  Forall (λ w, plain_segment w ∧ placeholder w = None) (pre ++ [p]) →
  c_path c = [(name, s)] → c_query c = None → Forall unit_ok s → well_formed s = true →
  ∃ e, encodeURIComponent s = Some e ∧ 47 ∉ e ∧ utf8_decode (percent_decode e) = s ∧
    target c = Some (if bool_decide (s = js "..") then slashed (pre ++ [[]])
                     else if bool_decide (s = js ".") then slashed (pre ++ [p; []])
                     else slashed (pre ++ [p; e])).
Proof.
  intros Ht Hpre Hp Hq Hs Hw.
  assert (Forall plain_segment (pre ++ [p])) as Hplain by (eapply Forall_impl; [exact Hpre|]; by intros w []).
  destruct (pathname_encoded pre p s Hplain Hs Hw) as (e & Ee & He & Hd & Hpath). exists e.
  split; [done|]. split; [done|]. split; [done|].
  rewrite target_simple by (unfold plain_query; by rewrite Hq).
  unfold simple_target, fill_template. rewrite Ht, Hp, Hq.
  assert (∀ l, Forall (λ w, plain_segment w ∧ placeholder w = None) l →
    mapM (fill_segment [(name, s)]) (l ++ [123 :: name ++ [125]]) = Some (l ++ [e])) as Hfill.
  { induction 1 as [|w l [_ Hw'] _ IH]; cbn [app mapM].
    - assert (fill_segment [(name, s)] (123 :: name ++ [125]) = Some e) as ->; [|done].
      unfold fill_segment, placeholder. rewrite reverse_snoc. cbn [mbind option_bind]. rewrite reverse_involutive.
      cbn [param]. by rewrite decide_True by done.
    - assert (fill_segment [(name, s)] w = Some w) as -> by (unfold fill_segment; by rewrite Hw').
      cbn [mbind option_bind]. by rewrite IH. }
  assert (mapM (fill_segment [(name, s)]) ([] :: pre ++ [p; 123 :: name ++ [125]]) = Some ([] :: pre ++ [p; e])) as ->.
  { specialize (Hfill (pre ++ [p]) Hpre). rewrite <-!app_assoc in Hfill. cbn [app] in Hfill.
    cbn [mapM]. by rewrite Hfill. }
  cbn [fmap option_fmap option_map mbind option_bind]. change (form_query None) with (Some (@nil Z)). cbn [mbind option_bind].
  rewrite app_nil_r, <-slashed_join. f_equal. rewrite <-Hpath, <-slashed_snoc, <-app_assoc. done.
Qed.

Lemma routes_target c s :
  c_template c = js "/admin/routes/{id}" → c_path c = [(js "id", s)] → c_query c = None →
  Forall unit_ok s → well_formed s = true →
  ∃ e, encodeURIComponent s = Some e ∧ 47 ∉ e ∧ utf8_decode (percent_decode e) = s ∧
    target c = Some (if bool_decide (s = js "..") then js "/admin/"
                     else if bool_decide (s = js ".") then js "/admin/routes/"
                     else js "/admin/routes/" ++ e).
Proof.
  intros Ht Hp Hq Hs Hw.
  destruct (last_param_target c [js "admin"] (js "routes") (js "id") s) as (e & Ee & He & Hd & ->); try done.
  - by rewrite Ht.
  - by vm_compute; repeat constructor; set_solver.
  - exists e. split; [done|]. split; [done|]. split; [done|]. repeat case_bool_decide; cbn; by rewrite ?app_nil_r.
Qed.

Lemma replays_target c s :
  c_template c = js "/v1/replays/{id}" → c_path c = [(js "id", s)] → c_query c = None →
  Forall unit_ok s → well_formed s = true →
  ∃ e, encodeURIComponent s = Some e ∧ 47 ∉ e ∧ utf8_decode (percent_decode e) = s ∧
    target c = Some (if bool_decide (s = js "..") then js "/v1/"
                     else if bool_decide (s = js ".") then js "/v1/replays/"
                     else js "/v1/replays/" ++ e).
Proof.
  intros Ht Hp Hq Hs Hw.
  destruct (last_param_target c [js "v1"] (js "replays") (js "id") s) as (e & Ee & He & Hd & ->); try done.
  - by rewrite Ht.
  - by vm_compute; repeat constructor; set_solver.
  - exists e. split; [done|]. split; [done|]. split; [done|]. repeat case_bool_decide; cbn; by rewrite ?app_nil_r.
Qed.
End targets.

Lemma word_query k w : word w → query_part (k, JStr w) = Some (Some (k ++ js "=" ++ w)).
Proof. intros Hw. unfold query_part. cbn. by rewrite encodeURIComponent_word. Qed.

Lemma claim_target o t c pr :
  word t → word c → match pr with Some (e, s) => word e ∧ word s | None => True end →
  simple_target (claim_call o (parsed (ClaimRef t c pr))) = Some (path (parsed (ClaimRef t c pr))).
Proof.
  intros Ht Hc Hpr. unfold simple_target.
  assert (fill_template (c_template (claim_call o (parsed (ClaimRef t c pr)))) (c_path (claim_call o (parsed (ClaimRef t c pr))))
    = Some (slashed [js "v1"; js "claims"; t; c])) as ->.
  { unfold fill_template. cbn [claim_call c_template c_path parsed tenantId claimId ref_tenant ref_claim].
    change (split_on 47 _) with [[]; js "v1"; js "claims"; js "{tenant_id}"; js "{claim_id}"].
    set (ps := [(js "tenant_id", t); (js "claim_id", c)]). cbn [mapM].
    change (fill_segment ps []) with (Some (@nil Z)). change (fill_segment ps (js "v1")) with (Some (js "v1")).
    change (fill_segment ps (js "claims")) with (Some (js "claims")).
    change (fill_segment ps (js "{tenant_id}")) with (encodeURIComponent t).
    change (fill_segment ps (js "{claim_id}")) with (encodeURIComponent c).
    rewrite !encodeURIComponent_word by done. cbn [mbind option_bind mret option_ret fmap option_fmap option_map].
    by rewrite slashed_join. }
  cbn [mbind option_bind]. rewrite pathname_plain.
  2: { repeat constructor; try (by apply word_plain); by vm_compute; set_solver. }
  assert (form_query (c_query (claim_call o (parsed (ClaimRef t c pr)))) =
    Some match pr with Some (e, s) => js "?exp=" ++ e ++ js "&sig=" ++ s | None => [] end) as ->.
  { destruct pr as [[e s]|]; [|done]. destruct Hpr as [He Hs]. unfold form_query.
    change (default [] _) with [(js "exp", JStr e); (js "sig", JStr s)].
    assert (mapM query_part [(js "exp", JStr e); (js "sig", JStr s)] =
      Some [Some (js "exp" ++ js "=" ++ e); Some (js "sig" ++ js "=" ++ s)]) as ->
      by (cbn [mapM]; by rewrite !word_query by done).
    cbn. by rewrite ?app_nil_r, <-?app_assoc. }
  cbn [mbind option_bind]. f_equal. unfold parsed. cbn [path ref_tenant ref_claim ref_proof]. unfold claim_path.
  destruct pr as [[e s]|]; cbn; by rewrite ?app_nil_r, <-?app_assoc.
Qed.

(** ** What is asked for *)

(** A path of one more segment than [base], from which a server reads [s]. *)
Definition names_in (base s t : jstr) : Prop :=
  ∃ e, t = base ++ e ∧ e ≠ [] ∧ 47 ∉ e ∧ utf8_decode (percent_decode e) = s.

Section requests.
Context {crypto : Crypto} {net : OpenApiFetch} {url : CallUrl}.

(** Between two lists of calls lies one, for the target [t]. *)
Definition asks_for (h h' : list call) (t : jstr) : Prop := ∃ c, h' = h ++ [c] ∧ target c = Some t.

(** [C20] The guard on route ids is exact.  An operation that names a route by a
    string either sends one request, for the path [/admin/routes/] and one more
    segment from which a server reads that very string; or it sends none, and
    then the request for that id would have gone to [/admin/] or to the
    collection [/admin/routes/], after the URL parser resolved its dots.  Ids
    with a lone surrogate, which cannot be percent-encoded, are left out. *)
Theorem route_guard_exact (o : RoutesClientOptions) op s h :
  named_id op = Some (Some (JStr s)) → Forall unit_ok s → well_formed s = true →
  (∃ t, asks_for h (RoutesClient.run o op h).2 t ∧ names_in (js "/admin/routes/") s t) ∨
  ((RoutesClient.run o op h).2 = h ∧
   ∀ c, c_template c = js "/admin/routes/{id}" → c_path c = [(js "id", s)] → c_query c = None →
     target c ∈ [Some (js "/admin/"); Some (js "/admin/routes/")]).
Proof.
  intros Hop Hs Hw.
  destruct (route_call_sent o op _ h Hop) as [[Ha ->]|((s' & [= <-] & H0 & H1 & H2) & ? & c & [= <-] & Hc & Hp & Ht & Hq)].
  - right. split; [done|]. intros c Ht Hp Hq. destruct (routes_target c s Ht Hp Hq Hs Hw) as (e & Ee & _ & _ & ->).
    case_bool_decide as H2; [by left|]. case_bool_decide as H1; [by right; left|].
    destruct (decide (s = [])) as [->|H0]; [|destruct Ha; by exists s]. injection Ee as <-. by right; left.
  - left. destruct (routes_target c s Ht Hp Hq Hs Hw) as (e & _ & He & Hd & E).
    rewrite !bool_decide_eq_false_2 in E by done. eexists. split; [by exists c|]. exists e.
    split_and!; try done. intros ->. by apply H0.
Qed.

(** [C36] An operation on a replay job always sends its one request, and for
    every id but three the request is for the path [/v1/replays/] and one
    segment that spells the id.  The other three are not refused: the empty id
    and [.] ask for [/v1/replays/], the list of jobs, and [..] asks for [/v1/].
    Ids with a lone surrogate, which cannot be percent-encoded, are left out. *)
Theorem replay_requests (o : AdminClientOptions) op s h :
  (op = GetReplay s ∨ ∃ patch, op = UpdateReplay s patch) → Forall unit_ok s → well_formed s = true →
  ∃ t, asks_for h (AdminClient.run o op h).2 t ∧
    if bool_decide (s = js "..") then t = js "/v1/"
    else if bool_decide (s = [] ∨ s = js ".") then t = js "/v1/replays/"
    else names_in (js "/v1/replays/") s t.
Proof.
  intros Hop Hs Hw.
  assert (c_template (call_of o op) = js "/v1/replays/{id}" ∧ c_path (call_of o op) = [(js "id", s)] ∧
          c_query (call_of o op) = None) as (Ht & Hp & Hq) by (destruct Hop as [->|[patch ->]]; done).
  destruct (replays_target _ s Ht Hp Hq Hs Hw) as (e & Ee & He & Hd & E).
  eexists. split; [exists (call_of o op); split; [apply run_trace|exact E]|].
  case_bool_decide; [done|]. destruct (decide (s = [])) as [->|H0].
  - injection Ee as <-. by rewrite (bool_decide_eq_true_2 (_ ∨ _)) by (by left).
  - rewrite (bool_decide_ext (s = [] ∨ s = js ".") (s = js ".")) by naive_solver.
    case_bool_decide; [done|]. exists e. split_and!; try done. intros ->. by apply H0.
Qed.

(** [C19] A redeem asks for the path its reference spells: for every reference
    [parseClaimRef] accepts, the one request [redeem] makes has exactly the
    target [ParsedClaimRef.path] announces, query included. *)
Theorem redeem_target (o : ClaimCheckClientOptions) ref sha p h :
  parseClaimRef ref = Ok p → re_test SHA256_PATTERN sha = true →
  asks_for h (redeem o ref sha h).2 (path p).
Proof.
  intros Hp Hsha. apply parseClaimRef_Ok in Hp as (r & Hr & -> & ->).
  exists (claim_call o (parsed r)). split; [by rewrite redeem_valid|].
  destruct r as [t c pr]. pose proof Hr as (Ht & Hc & Hpr). cbn [ref_tenant ref_claim ref_proof] in *.
  rewrite target_simple by (by destruct pr as [[]|]; repeat constructor). apply claim_target; auto with ankusa.
  destruct pr as [[e s]|]; [|done]. destruct Hpr. auto with ankusa.
Qed.
End requests.

Module Samples.
#[local] Existing Instance NodeCrypto.

(** The documented serialization itself. *)
#[local] Instance simple_urls : CallUrl := {| target := simple_target; target_simple := λ c _, eq_refl |}.

Example encoded_route :
  target (routes_call RoutesClient.Samples.options GET "/admin/routes/{id}" [(js "id", js "a/b?c#d e%")] None None)
  = Some (js "/admin/routes/a%2Fb%3Fc%23d%20e%25").
Proof. by vm_compute. Qed.

Lemma route_guard_exact_witness :
  (∃ t, asks_for [] (RoutesClient.run (net := RoutesClient.Samples.listener 200) RoutesClient.Samples.options
             (GetRoute (Some (JStr (js "a b")))) []).2 t ∧ names_in (js "/admin/routes/") (js "a b") t) ∨
  ((RoutesClient.run (net := RoutesClient.Samples.listener 200) RoutesClient.Samples.options
      (GetRoute (Some (JStr (js "a b")))) []).2 = [] ∧
   ∀ c, c_template c = js "/admin/routes/{id}" → c_path c = [(js "id", js "a b")] → c_query c = None →
     target c ∈ [Some (js "/admin/"); Some (js "/admin/routes/")]).
Proof.
  apply (route_guard_exact (net := RoutesClient.Samples.listener 200) RoutesClient.Samples.options
           (GetRoute (Some (JStr (js "a b")))) (js "a b") []); [reflexivity| |reflexivity].
  repeat constructor; lia.
Defined.

(** Asking for the replay job [..] asks for [/v1/]. *)
Lemma replay_requests_witness :
  asks_for [] (AdminClient.run (net := AdminClient.Samples.node 200) AdminClient.Samples.options (GetReplay (js "..")) []).2
    (js "/v1/").
Proof.
  destruct (replay_requests (net := AdminClient.Samples.node 200) AdminClient.Samples.options
              (GetReplay (js "..")) (js "..") []) as (t & Hc & Ht);
    [by left|repeat constructor; lia|reflexivity|].
  rewrite bool_decide_eq_true_2 in Ht by reflexivity. subst t. exact Hc.
Defined.

Lemma redeem_target_witness :
  asks_for [] (redeem (net := ClaimCheck.Samples.gateway 200) ClaimCheck.Samples.options
          (js "urn:ankusa:claim:v1:acme:01M39VMD8RA3C5HR4RBV67Y002") ClaimCheck.Samples.digest []).2
    (js "/v1/claims/acme/01M39VMD8RA3C5HR4RBV67Y002").
Proof.
  apply (redeem_target (net := ClaimCheck.Samples.gateway 200) ClaimCheck.Samples.options
           (js "urn:ankusa:claim:v1:acme:01M39VMD8RA3C5HR4RBV67Y002") ClaimCheck.Samples.digest
           {| tenantId := js "acme"; claimId := js "01M39VMD8RA3C5HR4RBV67Y002";
              path := js "/v1/claims/acme/01M39VMD8RA3C5HR4RBV67Y002"; proof := None |} []);
    vm_compute; reflexivity.
Defined.
End Samples.
