(* ===== verification/JetstreamWorker.v ===== *)
(** * The JetStream worker ([examples/jetstream-k8s/consumer/src/worker.ts])

    A queue consumer built on the SDK.  Each message is decoded, its body
    resolved, its processing announced to a ledger, and the message settled:
    acknowledged, terminated after a copy went to the dead-letter stream, or
    given back for redelivery.  NATS is outside the repository: it is the class
    [Nats], whose answers may depend on everything that happened before. *)
From stdpp Require Import base tactics list numbers option strings sets gmap.
From S2P Require Import Prelude JsNumber JsString Regex Sha256 Json Env ClaimRef Headers Message MessageFacts Http ClaimCheck.
Local Open Scope Z_scope.

(** ** State *)

(** What the worker reads of a delivered message. *)
Record JsMsg := {
  seq : Z;
  data : bytes;
  deliveryCount : Z;
}.

Record stream_config := {
  sc_name : jstr;
  sc_subjects : list jstr;
  sc_num_replicas : num;
  sc_max_bytes : num;
  sc_max_age : option num;
  sc_workqueue : bool;
  sc_discard_new : bool;
}.

Record consumer_config := {
  cc_ack_wait : num;
  cc_max_deliver : Z;
  cc_max_ack_pending : Z;
  (** What [add] says besides: durable name, explicit acks, filter subject. *)
  cc_durable : option (jstr * jstr);
}.

(** Everything the worker does outside itself, with the outcome of what can
    fail ([true] when it succeeded). *)
Inductive js_event :=
| AddStream (c : stream_config) (ok : bool)
| UpdateStream (name : jstr) (c : stream_config) (ok : bool)
| AddConsumer (stream : jstr) (c : consumer_config) (ok : bool)
| UpdateConsumer (stream consumer : jstr) (c : consumer_config) (ok : bool)
| Request (subject : jstr) (payload : json) (ok : bool)
| Publish (subject : jstr) (payload : bytes) (headers : list (jstr * jstr)) (ok : bool)
| Slept (ms : num)
| Ack (seq : Z)
| Term (seq : Z) (reason : jstr)
| Nak (seq : Z) (delay : Z).

(** The idempotency memory in insertion order, the claim-check calls made, and
    the events, oldest first. *)
Record js_state := {
  seen : list jstr;
  calls : list call;
  events : list js_event;
}.

Inductive js_error :=
| BadMessage (e : InvalidMessageError)
| BadClaim (e : claim_check_error)
| Elsewhere (t : thrown).

(** [(err as Error).message] *)
Definition error_message (e : js_error) : jstr :=
  match e with
  | BadMessage e => im_message e
  | BadClaim e => claim_error_message e
  | Elsewhere t => thrown_message t
  end.

Abbreviation worker A := (eff js_state js_error A) (only parsing).

Class Nats := {
  nc_request : list js_event → jstr → json → Z → option thrown;
  js_publish : list js_event → jstr → bytes → list (jstr * jstr) → option thrown;
  streams_add : list js_event → stream_config → option thrown;
  streams_update : list js_event → jstr → stream_config → option thrown;
  consumers_add : list js_event → jstr → consumer_config → option thrown;
  consumers_update : list js_event → jstr → jstr → consumer_config → option thrown;
  date_now : list js_event → num;
}.

Definition emit (e : js_event) (s : js_state) : js_state :=
  {| seen := seen s; calls := calls s; events := events s ++ [e] |}.

(** An effect that may fail: record it with its outcome, then throw. *)
Definition attempt (outcome : list js_event → option thrown) (e : bool → js_event) : worker unit := λ s,
  match outcome (events s) with
  | None => (Ok tt, emit (e true) s)
  | Some t => (Err (Elsewhere t), emit (e false) s)
  end.

Definition perform_event (e : js_event) : worker unit := modify (emit e).

(** ** The idempotency memory *)

Definition DEDUPE_CAP : Z := 20000.

(** [seen.add(key)], then drop the oldest key of an overfull set. *)
Definition add_key (key : jstr) (l : list jstr) : list jstr :=
  if bool_decide (key ∈ l) then l else l ++ [key].

Definition remember (key : jstr) (l : list jstr) : list jstr :=
  let l' := add_key key l in
  if Z.of_nat (length l') >? DEDUPE_CAP then tail l' else l'.

Section worker.
Context {crypto : Crypto} {net : OpenApiFetch} {nats : Nats}.

(** The environment of the process. *)
Context (claimCheck : ClaimCheckClientOptions).
Context (STREAM CONSUMER SUBJECT_FILTER CONSUMED_SUBJECT DLQ_STREAM DLQ_SUBJECT POD_NAME : jstr).
Context (STREAM_REPLICAS STREAM_MAX_BYTES WORK_MS : num).

(** ** Topology *)

Definition NANOS_PER_MS : num := num_of_Z 1000000.

Definition streamConfig : stream_config :=
  {| sc_name := STREAM; sc_subjects := [SUBJECT_FILTER]; sc_num_replicas := STREAM_REPLICAS;
     sc_max_bytes := STREAM_MAX_BYTES; sc_max_age := None; sc_workqueue := true; sc_discard_new := true |}.

Definition dlqConfig : stream_config :=
  {| sc_name := DLQ_STREAM; sc_subjects := [DLQ_SUBJECT]; sc_num_replicas := STREAM_REPLICAS;
     sc_max_bytes := num_of_Z (64 * 1024 * 1024);
     sc_max_age := Some (num_mul (num_of_Z (24 * 60 * 60 * 1000)) NANOS_PER_MS);
     sc_workqueue := false; sc_discard_new := false |}.

Definition consumerConfig : consumer_config :=
  {| cc_ack_wait := num_mul (num_of_Z 30000) NANOS_PER_MS; cc_max_deliver := -1; cc_max_ack_pending := 200;
     cc_durable := None |}.

Definition durableConfig : consumer_config :=
  {| cc_ack_wait := cc_ack_wait consumerConfig; cc_max_deliver := cc_max_deliver consumerConfig;
     cc_max_ack_pending := cc_max_ack_pending consumerConfig; cc_durable := Some (CONSUMER, SUBJECT_FILTER) |}.

(** [try { add } catch { try { update } catch { log } }] *)
Definition ensure (add update : worker unit) : worker unit :=
  catch add (λ _, catch update (λ _, mret tt)).

Definition topology : worker unit :=
  _ ← ensure (attempt (λ h, streams_add h streamConfig) (AddStream streamConfig))
             (attempt (λ h, streams_update h STREAM streamConfig) (UpdateStream STREAM streamConfig));
  _ ← ensure (attempt (λ h, streams_add h dlqConfig) (AddStream dlqConfig))
             (attempt (λ h, streams_update h DLQ_STREAM dlqConfig) (UpdateStream DLQ_STREAM dlqConfig));
  ensure (attempt (λ h, consumers_add h STREAM durableConfig) (AddConsumer STREAM durableConfig))
         (attempt (λ h, consumers_update h STREAM CONSUMER consumerConfig) (UpdateConsumer STREAM CONSUMER consumerConfig)).

(** ** Handling one message *)

Inductive via := ViaInline | ViaClaim.
Definition via_text (x : via) : jstr := match x with ViaInline => js "inline" | ViaClaim => js "claim" end.

(** A call of the claim-check client inside the worker. *)
Definition with_client {A} (m : http claim_check_error A) : worker A := λ s,
  let '(r, h) := m (calls s) in
  (match r with Ok a => Ok a | Err e => Err (BadClaim e) end,
   {| seen := seen s; calls := h; events := events s |}).

Definition resolveBody (msg : Message) : worker via :=
  match msg_body msg with
  | Some _ => mret ViaInline
  | None =>
      match claim msg, msg_sha256 msg with
      | Some (c :: ref), Some (d :: sha) =>
          _ ← with_client (redeem claimCheck (c :: ref) (d :: sha));
          mret ViaClaim
      | _, _ => throw (BadClaim (InvalidClaimRefError (js "claim message has no claim/sha256")))
      end
  end.

(** The ledger entry [announce] sends. *)
Definition announcement (msg : Message) (key : jstr) (x : via) (duplicate : bool) (now : num) : json :=
  JObj [ (js "hook_id", JStr (msg_id msg)); (js "idempotency_key", JStr key);
         (js "dedupe_key", json_opt (dedupe_key msg)); (js "source_id", JStr (source_id msg));
         (js "size", JNum (size msg)); (js "via", JStr (via_text x)); (js "consumer", JStr POD_NAME);
         (js "received_at", JNum (received_at msg)); (js "consumed_at", JNum now);
         (js "latency_ms", JNum (num_sub now (received_at msg))); (js "duplicate", JBool duplicate) ].

Definition announce (msg : Message) (key : jstr) (x : via) (duplicate : bool) : worker unit := λ s,
  let payload := announcement msg key x duplicate (date_now (events s)) in
  attempt (λ h, nc_request h CONSUMED_SUBJECT payload 2000) (Request CONSUMED_SUBJECT payload) s.

Definition dlq_headers (m : JsMsg) (reason : jstr) : list (jstr * jstr) :=
  [ (js "Dlq-Reason", take 200 reason); (js "Dlq-Consumer", POD_NAME);
    (js "Dlq-Stream-Seq", dec_of_Z (seq m)) ].

Definition deadLetter (m : JsMsg) (reason : jstr) : worker unit :=
  let h := dlq_headers m reason in
  _ ← attempt (λ ev, js_publish ev DLQ_SUBJECT (data m) h) (Publish DLQ_SUBJECT (data m) h);
  perform_event (Term (seq m) reason).

Definition permanent (err : js_error) : bool :=
  match err with
  | BadMessage _ => true
  | BadClaim (InvalidClaimRefError _) => true
  | BadClaim e => negb (retryable e)
  | Elsewhere _ => false
  end.

Definition nak_delay (m : JsMsg) : Z := Z.min 10000 (1000 * deliveryCount m).

Definition fail (m : JsMsg) (err : js_error) : worker unit :=
  let give_back := perform_event (Nak (seq m) (nak_delay m)) in
  if permanent err
  then catch (deadLetter m (error_message err)) (λ _, give_back)
  else give_back.

Definition decode (m : JsMsg) : worker Message :=
  pure (match decodeMessage (PBytes (data m)) with Ok msg => Ok msg | Err e => Err (BadMessage e) end).

Definition try_handle (m : JsMsg) : worker unit :=
  msg ← decode m;
  let key := idempotencyKey (HookMessage msg) false in
  known ← gets (λ s, bool_decide (key ∈ seen s));
  if known : bool then
    _ ← announce msg key (match msg_body msg with Some _ => ViaInline | None => ViaClaim end) true;
    perform_event (Ack (seq m))
  else
    x ← resolveBody msg;
    _ ← perform_event (Slept WORK_MS);
    _ ← announce msg key x false;
    _ ← modify (λ s, {| seen := remember key (seen s); calls := calls s; events := events s |});
    perform_event (Ack (seq m)).

Definition handle (m : JsMsg) : worker unit := catch (try_handle m) (fail m).

(** [for await (const m of messages) await handle(m)] *)
Fixpoint consume (ms : list JsMsg) : worker unit :=
  match ms with
  | [] => mret tt
  | m :: ms => _ ← handle m; consume ms
  end.

(** ** What handling a message may do

    The promise of the worker for one delivery, as a relation between the
    states before and after. *)

(** The body of the message is at hand, after the claim-check calls [h'] when
    [h] were made before: it came inline, or it was redeemed with the reference
    and the digest the message carries. *)
Definition body_resolved (msg : Message) (x : via) (h h' : list call) : Prop :=
  match x with
  | ViaInline => is_Some (msg_body msg) ∧ h' = h
  | ViaClaim => msg_body msg = None ∧ ∃ ref bs, claim msg = Some ref ∧ msg_sha256 msg = Some (sha256_hex bs) ∧
      redeem claimCheck ref (sha256_hex bs) h = (Ok bs, h')
  end.

Definition body_via (msg : Message) : via :=
  match msg_body msg with Some _ => ViaInline | None => ViaClaim end.

Definition key_of (msg : Message) : jstr := idempotencyKey (HookMessage msg) false.

(** The ledger's answer to an announcement of the hook after [evs]. *)
Definition ledger_answer (evs : list js_event) (payload : json) : option thrown :=
  nc_request evs CONSUMED_SUBJECT payload 2000.

(** Why a message cannot be processed in the state [s]: the error, what was
    done before it, and the claim-check calls made by then. *)
Inductive fails (m : JsMsg) (s : js_state) : js_error → list js_event → list call → Prop :=
| Undecodable e :
    decodeMessage (PBytes (data m)) = Err e →
    fails m s (BadMessage e) [] (calls s)
| UnansweredAgain msg p t :
    decodeMessage (PBytes (data m)) = Ok msg →
    key_of msg ∈ seen s →
    p = announcement msg (key_of msg) (body_via msg) true (date_now (events s)) →
    ledger_answer (events s) p = Some t →
    fails m s (Elsewhere t) [Request CONSUMED_SUBJECT p false] (calls s)
| Unreferenced msg :
    decodeMessage (PBytes (data m)) = Ok msg →
    key_of msg ∉ seen s →
    msg_body msg = None →
    default [] (claim msg) = [] ∨ default [] (msg_sha256 msg) = [] →
    fails m s (BadClaim (InvalidClaimRefError (js "claim message has no claim/sha256"))) [] (calls s)
| Unredeemed msg ref sha e h :
    decodeMessage (PBytes (data m)) = Ok msg →
    key_of msg ∉ seen s →
    msg_body msg = None →
    claim msg = Some ref → msg_sha256 msg = Some sha →
    redeem claimCheck ref sha (calls s) = (Err e, h) →
    fails m s (BadClaim e) [] h
| Unanswered msg x h p t :
    decodeMessage (PBytes (data m)) = Ok msg →
    key_of msg ∉ seen s →
    body_resolved msg x (calls s) h →
    p = announcement msg (key_of msg) x false (date_now (events s ++ [Slept WORK_MS])) →
    ledger_answer (events s ++ [Slept WORK_MS]) p = Some t →
    fails m s (Elsewhere t) [Slept WORK_MS; Request CONSUMED_SUBJECT p false] h.

(** No later delivery can do better: the message is not one, or the SDK says of
    the claim's error that it is not retryable. *)
Definition hopeless (err : js_error) : Prop :=
  match err with
  | BadMessage _ => True
  | BadClaim e => retryable e = false
  | Elsewhere _ => False
  end.

(** The dead-letter stream's answer to the message, failing with [err] after
    [evs]. *)
Definition dlq_answer (evs : list js_event) (m : JsMsg) (err : js_error) : option thrown :=
  js_publish evs DLQ_SUBJECT (data m) (dlq_headers m (error_message err)).

Inductive js_step (m : JsMsg) (s : js_state) : js_state → Prop :=
| Duplicate msg p s' :
    decodeMessage (PBytes (data m)) = Ok msg →
    key_of msg ∈ seen s →
    p = announcement msg (key_of msg) (body_via msg) true (date_now (events s)) →
    ledger_answer (events s) p = None →
    seen s' = seen s → calls s' = calls s →
    events s' = events s ++ [Request CONSUMED_SUBJECT p true; Ack (seq m)] →
    js_step m s s'
| Processed msg x p s' :
    decodeMessage (PBytes (data m)) = Ok msg →
    key_of msg ∉ seen s →
    body_resolved msg x (calls s) (calls s') →
    p = announcement msg (key_of msg) x false (date_now (events s ++ [Slept WORK_MS])) →
    ledger_answer (events s ++ [Slept WORK_MS]) p = None →
    seen s' = remember (key_of msg) (seen s) →
    events s' = events s ++ [Slept WORK_MS; Request CONSUMED_SUBJECT p true; Ack (seq m)] →
    js_step m s s'
| DeadLettered err pre s' :
    fails m s err pre (calls s') → hopeless err →
    dlq_answer (events s ++ pre) m err = None →
    seen s' = seen s →
    events s' = events s ++ pre ++
      [Publish DLQ_SUBJECT (data m) (dlq_headers m (error_message err)) true; Term (seq m) (error_message err)] →
    js_step m s s'
| GivenBack err pre s' :
    fails m s err pre (calls s') → ¬ hopeless err →
    seen s' = seen s →
    events s' = events s ++ pre ++ [Nak (seq m) (nak_delay m)] →
    js_step m s s'
| NotStored err pre t s' :
    fails m s err pre (calls s') → hopeless err →
    dlq_answer (events s ++ pre) m err = Some t →
    seen s' = seen s →
    events s' = events s ++ pre ++
      [Publish DLQ_SUBJECT (data m) (dlq_headers m (error_message err)) false; Nak (seq m) (nak_delay m)] →
    js_step m s s'.

Lemma permanent_hopeless err : permanent err = true ↔ hopeless err.
Proof. destruct err as [e|[]|t]; cbn; rewrite ?negb_true_iff; done. Qed.

(** Failing a message whose handling got as far as [s1]. *)
Lemma fail_step m err s s1 pre :
  fails m s err pre (calls s1) → seen s1 = seen s → events s1 = events s ++ pre →
  ∃ s', fail m err s1 = (Ok tt, s') ∧ js_step m s s'.
Proof.
  intros Hf Hseen Hev. unfold fail. destruct (permanent err) eqn:Hp.
  - apply permanent_hopeless in Hp.
    unfold catch, deadLetter, attempt, perform_event, modify, mbind, eff_bind. rewrite Hev.
    destruct (js_publish _ _ _ _) as [t|] eqn:Ep; (eexists; split; [done|]).
    + eapply NotStored; cbn; [done|done|done|done|]. by rewrite Hev, <-!app_assoc.
    + eapply DeadLettered; cbn; [done|done|done|done|]. by rewrite Hev, <-!app_assoc.
  - eexists; split; [done|]. eapply GivenBack; cbn; [done| |done|by rewrite Hev, <-!app_assoc].
    by rewrite <-permanent_hopeless, Hp.
Qed.

(** Why a body cannot be resolved, after [h'] calls. *)
Definition unresolved (msg : Message) (err : js_error) (h h' : list call) : Prop :=
  msg_body msg = None ∧
  (((default [] (claim msg) = [] ∨ default [] (msg_sha256 msg) = []) ∧ h' = h ∧
    err = BadClaim (InvalidClaimRefError (js "claim message has no claim/sha256"))) ∨
   ∃ ref sha e, claim msg = Some ref ∧ msg_sha256 msg = Some sha ∧ redeem claimCheck ref sha h = (Err e, h') ∧
     err = BadClaim e).

Lemma resolveBody_spec msg s :
  match resolveBody msg s with
  | (r, s') => seen s' = seen s ∧ events s' = events s ∧
      match r with
      | Ok x => body_resolved msg x (calls s) (calls s')
      | Err err => unresolved msg err (calls s) (calls s')
      end
  end.
Proof.
  unfold resolveBody, unresolved. destruct (msg_body msg) as [b|] eqn:Eb; cbn.
  { split_and!; try done; cbn; by rewrite Eb. }
  destruct (claim msg) as [[|c ref]|] eqn:Ec, (msg_sha256 msg) as [[|d sha]|] eqn:Esha; cbn; eauto 10.
  unfold mbind, eff_bind, with_client.
  destruct (redeem claimCheck (c :: ref) (d :: sha) (calls s)) as [[bs|e] h] eqn:Er; cbn.
  - pose proof (redeem_digest _ _ _ _ _ _ Er) as Hbs. split_and!; try done.
    exists (c :: ref), bs. by rewrite Hbs.
  - split_and!; try done. right. by exists (c :: ref), (d :: sha), e.
Qed.

Lemma announce_spec msg key x dup s :
  let p := announcement msg key x dup (date_now (events s)) in
  announce msg key x dup s =
    match ledger_answer (events s) p with
    | None => (Ok tt, emit (Request CONSUMED_SUBJECT p true) s)
    | Some t => (Err (Elsewhere t), emit (Request CONSUMED_SUBJECT p false) s)
    end.
Proof. done. Qed.

Lemma handle_step m s : ∃ s', handle m s = (Ok tt, s') ∧ js_step m s s'.
Proof.
  unfold handle, catch, try_handle, decode, pure. unfold mbind at 1, eff_bind at 1.
  destruct (decodeMessage (PBytes (data m))) as [msg|e] eqn:Ed.
  2: { apply (fail_step m (BadMessage e) s s []); [by constructor|done|by rewrite app_nil_r]. }
  cbv zeta. fold (key_of msg) (body_via msg). unfold gets. unfold mbind at 1, eff_bind at 1.
  case_bool_decide as Hk.
  - unfold mbind, eff_bind. rewrite announce_spec. cbv zeta.
    destruct (ledger_answer _ _) as [t|] eqn:El.
    + eapply fail_step; [cbn [calls emit]; by eapply UnansweredAgain|done|done].
    + eexists. split; [done|]. by eapply Duplicate; cbn; try done; rewrite <-app_assoc.
  - unfold mbind at 1, eff_bind at 1. pose proof (resolveBody_spec msg s) as Hr.
    destruct (resolveBody msg s) as [[x|err] s1]; destruct Hr as (Hs1 & He1 & Hr).
    2: { apply (fail_step m err s s1 []); [|done|by rewrite He1, app_nil_r].
         destruct Hr as (Hb & [(Hn & -> & ->)|(ref & sha & e & Hc & Hd & Hrd & ->)]).
         - by eapply Unreferenced.
         - by eapply Unredeemed. }
    unfold mbind, eff_bind. cbn [perform_event modify]. rewrite announce_spec. cbv zeta. cbn [events emit]. rewrite He1.
    destruct (ledger_answer _ _) as [t|] eqn:El.
    + eapply fail_step; [cbn [calls emit]; by eapply Unanswered|done|]. cbn [events emit]. by rewrite He1, <-!app_assoc.
    + eexists. split; [done|]. eapply Processed; cbn [seen calls events emit]; try done; [by rewrite Hs1|].
      by rewrite He1, <-!app_assoc.
Qed.

(** [C8] Handling a message always returns, and what it does is fixed by why.
    A known hook whose announcement the ledger answers is acknowledged; a new
    hook whose body is resolved and whose announcement is answered is
    remembered and acknowledged; otherwise the message fails, with the error of
    the step that failed.  It is copied with that error to the dead-letter
    stream and terminated exactly when the error is hopeless (not a message, or
    a claim error the SDK calls not retryable) and the stream takes it, and
    given back with a delay in every other case.  Only a processed hook is
    added to the memory. *)
Theorem js_handle_refines m s : ∃ s', handle m s = (Ok tt, s') ∧ js_step m s s'.
Proof. apply handle_step. Qed.

(** *** Settlement *)

(** The message an event settles. *)
Definition settles (e : js_event) : option Z :=
  match e with Ack q | Term q _ | Nak q _ => Some q | _ => None end.

Lemma fails_unsettled m s err pre h : fails m s err pre h → Forall (λ e, settles e = None) pre.
Proof. destruct 1; by repeat constructor. Qed.

(** What the worker did for one delivery: nothing that settles a message, then
    one settlement of that very message.  It is acknowledged only directly
    after the ledger replied to an announcement of its hook, and terminated
    only directly after the dead-letter stream stored its data with its
    sequence number and the reason. *)
Definition justified (m : JsMsg) (evs : list js_event) : Prop :=
  ∃ pre e, evs = pre ++ [e] ∧ Forall (λ x, settles x = None) pre ∧ settles e = Some (seq m) ∧
  match e with
  | Ack _ => ∃ b msg x dup now, decodeMessage (PBytes (data m)) = Ok msg ∧
      pre = b ++ [Request CONSUMED_SUBJECT (announcement msg (key_of msg) x dup now) true]
  | Term _ r => ∃ b, pre = b ++ [Publish DLQ_SUBJECT (data m) (dlq_headers m r) true]
  | Nak _ delay => delay = nak_delay m
  | _ => False
  end.

Lemma step_justified m s s' : js_step m s s' → ∃ evs, events s' = events s ++ evs ∧ justified m evs.
Proof.
  destruct 1 as [msg p s' Hd _ -> _ _ _ E|msg x p s' Hd _ _ -> _ _ E|err pre s' Hf%fails_unsettled _ _ _ E
    |err pre s' Hf%fails_unsettled _ _ E|err pre t s' Hf%fails_unsettled _ _ _ E]; (eexists; split; [exact E|]).
  - eexists [_], _. split; [done|]. split; [by repeat constructor|]. split; [done|]. by eexists [], _, _, _, _.
  - eexists [_; _], _. split; [done|]. split; [by repeat constructor|]. split; [done|]. by eexists [_], _, _, _, _.
  - eexists (pre ++ [_]), _. rewrite <-app_assoc. split; [done|]. rewrite Forall_app, Forall_singleton. by eauto.
  - exists pre. by eexists.
  - eexists (pre ++ [_]), _. rewrite <-app_assoc. split; [done|]. by rewrite Forall_app, Forall_singleton.
Qed.

(** The events of a run, delivery by delivery. *)
Lemma consume_justified ms s :
  ∃ s' segs, consume ms s = (Ok tt, s') ∧ events s' = events s ++ concat segs ∧ Forall2 justified ms segs.
Proof.
  revert s; induction ms as [|m ms IH]; intros s; cbn [consume].
  - exists s, []. split; [done|]. split; [by rewrite app_nil_r|constructor].
  - destruct (handle_step m s) as (s1 & E & (evs & He & Hj)%step_justified).
    destruct (IH s1) as (s2 & segs & E2 & He2 & Hs). exists s2, (evs :: segs).
    unfold mbind, eff_bind. rewrite E, E2. split; [done|]. split; [|by constructor].
    by rewrite He2, He, <-app_assoc.
Qed.



(** *** Nothing is lost *)

(** [C3] Nothing is lost: whatever the broker, the ledger and the gateway do, a
    run from a fresh worker is one stretch of events per delivered message, in
    order, and each stretch ends in the one settlement of its own message: an
    acknowledgement directly after the ledger replied to an announcement of the
    hook that message decodes to, a termination directly after the dead-letter
    stream stored that message's data with its sequence number and the reason,
    or its return to the stream for redelivery. *)
Theorem js_nothing_lost ms :
  ∃ s' segs, consume ms {| seen := []; calls := []; events := [] |} = (Ok tt, s') ∧
    events s' = concat segs ∧ Forall2 justified ms segs.
Proof. apply consume_justified. Qed.

(** *** The memory *)

Definition memory_ok (l : list jstr) : Prop := NoDup l ∧ Z.of_nat (length l) ≤ DEDUPE_CAP.

Lemma remember_ok key l :
  memory_ok l → memory_ok (remember key l) ∧ key ∈ remember key l ∧
  (key ∉ l → ∃ k, l ++ [key] = k ++ remember key l ∧ (length k ≤ 1)%nat).
Proof.
  intros [Hnd Hlen]. unfold remember, add_key. case_bool_decide as Hk.
  - rewrite Z.gtb_ltb, (proj2 (Z.ltb_ge _ _)) by lia. done.
  - assert (NoDup (l ++ [key])) as Hnd' by (apply NoDup_app; split_and!; [done|set_solver|apply NoDup_singleton]).
    rewrite Z.gtb_ltb, length_app, Nat2Z.inj_add. cbn [length].
    destruct (Z.ltb_spec DEDUPE_CAP (Z.of_nat (length l) + Z.of_nat 1)).
    + destruct l as [|x l]; [cbn in *; unfold DEDUPE_CAP in *; lia|]. cbn [app tail].
      cbn in Hnd'. apply NoDup_cons in Hnd' as [_ Hnd']. split; [split; [done|]|split].
      * rewrite length_app. cbn in *. lia.
      * set_solver.
      * intros _. by exists [x].
    + split; [split; [done|rewrite length_app; cbn; lia]|split; [set_solver|]]. intros _. exists []. split; [done|cbn; lia].
Qed.

Lemma step_memory m s s' : memory_ok (seen s) → js_step m s s' → memory_ok (seen s').
Proof.
  intros Hm. destruct 1 as [msg p s' _ _ _ _ E _ _|msg x p s' _ _ _ _ _ E _|err pre s' _ _ _ E _
    |err pre s' _ _ E _|err pre t s' _ _ _ E _]; rewrite E; try done. by apply remember_ok.
Qed.

(** [C34] The idempotency memory of a worker never holds a key twice nor more
    than 20000 keys, in every run from a fresh worker; a remembered key is in
    it, and adding a new key drops at most the oldest one. *)
Theorem js_memory_bounded ms key :
  ∃ s', consume ms {| seen := []; calls := []; events := [] |} = (Ok tt, s') ∧ memory_ok (seen s') ∧
    key ∈ remember key (seen s') ∧
    (key ∉ seen s' → ∃ k, seen s' ++ [key] = k ++ remember key (seen s') ∧ (length k ≤ 1)%nat).
Proof.
  assert (∀ ms s, memory_ok (seen s) → ∃ s', consume ms s = (Ok tt, s') ∧ memory_ok (seen s')) as Hc.
  { clear ms. induction ms as [|m ms IH]; intros s Ha; cbn [consume]; [by exists s|].
    destruct (handle_step m s) as (s1 & E & Hst). unfold mbind, eff_bind. rewrite E.
    apply IH. by eapply step_memory. }
  destruct (Hc ms {| seen := []; calls := []; events := [] |}) as (s' & E & Hm).
  { split; [constructor|]. cbn. unfold DEDUPE_CAP. lia. }
  exists s'. split; [done|]. split; [done|]. by apply remember_ok.
Qed.

(** A hook the worker remembers is not processed again: handling another
    delivery of it makes no claim-check call, does no work and leaves the
    memory alone; the delivery is acknowledged if the ledger replies and given
    back otherwise. *)
Theorem js_duplicate_skipped m msg s :
  decodeMessage (PBytes (data m)) = Ok msg → key_of msg ∈ seen s →
  ∃ s' p ok, handle m s = (Ok tt, s') ∧ calls s' = calls s ∧ seen s' = seen s ∧
    events s' = events s ++ [Request CONSUMED_SUBJECT p ok;
                             if ok : bool then Ack (seq m) else Nak (seq m) (nak_delay m)].
Proof.
  intros Hd Hk. unfold handle, catch, try_handle, decode, pure. unfold mbind at 1, eff_bind at 1. rewrite Hd.
  cbv zeta. fold (key_of msg) (body_via msg). unfold gets. unfold mbind at 1, eff_bind at 1.
  rewrite bool_decide_eq_true_2 by done. unfold mbind, eff_bind.
  rewrite announce_spec. cbv zeta. destruct (ledger_answer _ _) as [t|]; cbn.
  - eexists _, _, false. split; [done|]. cbn. by rewrite <-app_assoc.
  - eexists _, _, true. split; [done|]. cbn. by rewrite <-app_assoc.
Qed.

(** A message that does not decode is never processed and never lost: it
    goes to the dead-letter stream with the decoder's message as its reason and
    is terminated, or, when the stream does not take it, it is given back. *)
Theorem js_poison_dead_lettered m e s :
  decodeMessage (PBytes (data m)) = Err e →
  ∃ s' ok, handle m s = (Ok tt, s') ∧ calls s' = calls s ∧ seen s' = seen s ∧
    events s' = events s ++ [Publish DLQ_SUBJECT (data m) (dlq_headers m (im_message e)) ok;
                             if ok : bool then Term (seq m) (im_message e) else Nak (seq m) (nak_delay m)] ∧
    (ok = true ↔ js_publish (events s) DLQ_SUBJECT (data m) (dlq_headers m (im_message e)) = None).
Proof.
  intros Hd. unfold handle, catch, try_handle, decode, pure. unfold mbind at 1, eff_bind at 1. rewrite Hd.
  unfold fail, catch, deadLetter, attempt, perform_event, modify, mbind, eff_bind. cbn [permanent error_message].
  destruct (js_publish _ _ _ _) as [t|].
  - eexists _, false. split; [done|]. cbn. by rewrite <-app_assoc.
  - eexists _, true. split; [done|]. cbn. by rewrite <-app_assoc.
Qed.

(** The redelivery delay grows with the delivery count and stays between
    one and ten seconds. *)
Theorem js_nak_delay_bounds m :
  1 ≤ deliveryCount m → 1000 ≤ nak_delay m ≤ 10000 ∧ (deliveryCount m ≤ 10 → nak_delay m = 1000 * deliveryCount m).
Proof. unfold nak_delay. lia. Qed.

(** *** Topology *)

(** Adding a resource, updating it only if it could not be added. *)
Definition ensured (add update : bool → js_event) (evs : list js_event) : Prop :=
  evs = [add true] ∨ ∃ ok, evs = [add false; update ok].

Lemma ensure_spec out1 out2 add update s :
  ∃ s' evs, ensure (attempt out1 add) (attempt out2 update) s = (Ok tt, s') ∧
    seen s' = seen s ∧ calls s' = calls s ∧ events s' = events s ++ evs ∧ ensured add update evs.
Proof.
  unfold ensure, catch, attempt, ensured. destruct (out1 (events s)) as [t|].
  - destruct (out2 _) as [t'|]; eexists _, [add false; update _]; (split; [done|]); cbn; rewrite <-app_assoc; eauto 10.
  - eexists _, [add true]. split; [done|]. cbn. eauto.
Qed.

(** Declaring the topology never stops the worker, whatever the broker
    answers: each of the two streams and the consumer is added, and updated
    only when it could not be added; the consumer retries without limit. *)
Theorem js_topology_total s :
  ∃ s' e1 e2 e3, topology s = (Ok tt, s') ∧ seen s' = seen s ∧ events s' = events s ++ e1 ++ e2 ++ e3 ∧
    ensured (AddStream streamConfig) (UpdateStream STREAM streamConfig) e1 ∧
    ensured (AddStream dlqConfig) (UpdateStream DLQ_STREAM dlqConfig) e2 ∧
    ensured (AddConsumer STREAM durableConfig) (UpdateConsumer STREAM CONSUMER consumerConfig) e3 ∧
    cc_max_deliver durableConfig = -1.
Proof.
  unfold topology, mbind, eff_bind.
  destruct (ensure_spec (λ h, streams_add h streamConfig) (λ h, streams_update h STREAM streamConfig)
    (AddStream streamConfig) (UpdateStream STREAM streamConfig) s) as (s1 & e1 & -> & Hs1 & _ & He1 & Hen1).
  destruct (ensure_spec (λ h, streams_add h dlqConfig) (λ h, streams_update h DLQ_STREAM dlqConfig)
    (AddStream dlqConfig) (UpdateStream DLQ_STREAM dlqConfig) s1) as (s2 & e2 & -> & Hs2 & _ & He2 & Hen2).
  destruct (ensure_spec (λ h, consumers_add h STREAM durableConfig)
    (λ h, consumers_update h STREAM CONSUMER consumerConfig)
    (AddConsumer STREAM durableConfig) (UpdateConsumer STREAM CONSUMER consumerConfig) s2)
    as (s3 & e3 & -> & Hs3 & _ & He3 & Hen3).
  exists s3, e1, e2, e3. split; [done|]. split; [congruence|].
  split; [by rewrite He3, He2, He1, <-!app_assoc|]. done.
Qed.
End worker.

(** ** The process around the loop *)

(** The settings, from the environment and the host's name. *)
Record js_settings := {
  NATS_URL : jstr;
  CLAIM_CHECK_URL : jstr;
  STREAM : jstr;
  CONSUMER : jstr;
  SUBJECT_FILTER : jstr;
  STREAM_REPLICAS : num;
  STREAM_MAX_BYTES : num;
  CONSUMED_SUBJECT : jstr;
  WORK_MS : num;
  HEALTH_PORT : num;
  POD_NAME : jstr;
  DLQ_STREAM : jstr;
  DLQ_SUBJECT : jstr;
}.

Definition js_config (env : environment) (hostname : jstr) : js_settings :=
  {| NATS_URL := env_or env "NATS_URL" (js "nats://localhost:4222");
     CLAIM_CHECK_URL := env_or env "CLAIM_CHECK_URL" (js "http://localhost:4001");
     STREAM := env_or env "STREAM" (js "ANKUSA");
     CONSUMER := env_or env "CONSUMER" (js "worker");
     SUBJECT_FILTER := env_or env "SUBJECT_FILTER" (js "ankusa.>");
     STREAM_REPLICAS := js_number (env_or env "STREAM_REPLICAS" (js "3"));
     STREAM_MAX_BYTES := js_number (env_or env "STREAM_MAX_BYTES" (dec_of_Z (640 * 1024 * 1024)));
     CONSUMED_SUBJECT := env_or env "CONSUMED_SUBJECT" (js "demo.consumed");
     WORK_MS := js_number (env_or env "WORK_MS" (js "25"));
     HEALTH_PORT := js_number (env_or env "HEALTH_PORT" (js "8080"));
     POD_NAME := env_or env "POD_NAME" hostname;
     DLQ_STREAM := env_or env "DLQ_STREAM" (js "ANKUSA_DLQ");
     DLQ_SUBJECT := env_or env "DLQ_SUBJECT" (js "dlq.ankusa") |}.

Definition claim_check_options (url : jstr) : ClaimCheckClientOptions :=
  {| baseUrl := url; cc_headers := []; timeoutMs := None |}.

(** What [main] runs over the messages delivered to it. *)
Definition main {crypto : Crypto} {net : OpenApiFetch} {nats : Nats} (c : js_settings) (ms : list JsMsg) :
    eff js_state js_error unit :=
  _ ← topology (STREAM c) (CONSUMER c) (SUBJECT_FILTER c) (DLQ_STREAM c) (DLQ_SUBJECT c)
        (STREAM_REPLICAS c) (STREAM_MAX_BYTES c);
  consume (claim_check_options (CLAIM_CHECK_URL c)) (CONSUMED_SUBJECT c) (DLQ_SUBJECT c) (POD_NAME c) (WORK_MS c) ms.

(** The answer of the health server: status and body. *)
Definition health_answer (method url : jstr) (connected : bool) : Z * option json :=
  if bool_decide (method = js "GET") && bool_decide (url = js "/health")
  then (200, Some (JObj [(js "status", JStr (js "ok")); (js "connected", JBool connected)]))
  else (404, None).

(** The [connected] flag after a status of the connection. *)
Definition on_status (connected : bool) (type : jstr) : bool :=
  let connected := if bool_decide (type = js "disconnect") then false else connected in
  if bool_decide (type = js "reconnect") then true else connected.

Inductive shutdown_event := MessagesClosed | Drained | HealthClosed | Exited.

(** The signal handler: the [stopping] flag and what it did. *)
Definition shutdown (st : bool * list shutdown_event) : bool * list shutdown_event :=
  let '(stopping, log) := st in
  if stopping then (stopping, log)
  else (true, log ++ [MessagesClosed; Drained; HealthClosed; Exited]).

(** ** A run *)

Module Samples.
#[local] Existing Instance NodeCrypto.

(** A broker that answers everything, and a ledger that does not answer the
    second request. *)
Definition is_request (e : js_event) : bool := match e with Request _ _ _ => true | _ => false end.

Definition broker : Nats :=
  {| nc_request := λ h _ _ _, if (length (List.filter is_request h) =? 1)%nat then Some (Thrown (js "timeout")) else None;
     js_publish := λ _ _ _ _, None;
     streams_add := λ _ _, Some (Thrown (js "exists")); streams_update := λ _ _ _, None;
     consumers_add := λ _ _ _, None; consumers_update := λ _ _ _ _, None;
     date_now := λ h, num_of_Z (1790345000100 + Z.of_nat (length h)) |}.
#[local] Existing Instance broker.
#[local] Instance gateway_ok : OpenApiFetch := ClaimCheck.Samples.gateway 200.

Definition subject : jstr := js "demo.consumed".
Definition dlq : jstr := js "dlq.ankusa".
Definition pod : jstr := js "pod-1".
Definition work : num := num_of_Z 25.

Definition inline (n : Z) : JsMsg :=
  {| seq := n; data := utf8_encode Vectors.inline_text; deliveryCount := 1 |}.
Definition poison (n : Z) : JsMsg := {| seq := n; data := js "nope"; deliveryCount := 1 |}.
Definition claimed (n : Z) : JsMsg :=
  {| seq := n; data := utf8_encode (Vectors.claim_text "acme"); deliveryCount := 3 |}.

Definition fresh : js_state := {| seen := []; calls := []; events := [] |}.

(** Processed; the ledger is silent for the claim, which goes back; the second
    delivery of the first hook is a duplicate; a message that is not JSON is
    dead-lettered. *)
Example run_of_four :
  omap (λ e, match e with Ack q => Some (q, 0) | Term q _ => Some (q, 1) | Nak q d => Some (q, d) | _ => None end)
    (events (consume ClaimCheck.Samples.options subject dlq pod work [inline 1; claimed 2; inline 3; poison 4] fresh).2)
  = [(1, 0); (2, 3000); (3, 0); (4, 1)].
Proof. by vm_compute. Qed.

Lemma js_duplicate_skipped_witness :
  ∃ s' p ok, handle ClaimCheck.Samples.options subject dlq pod work (inline 3)
      {| seen := [js "acme:demo:evt_1"]; calls := []; events := [] |} = (Ok tt, s') ∧ calls s' = [] ∧
    seen s' = [js "acme:demo:evt_1"] ∧
    events s' = [Request subject p ok; if ok : bool then Ack 3 else Nak 3 (nak_delay (inline 3))].
Proof.
  apply (js_duplicate_skipped ClaimCheck.Samples.options subject dlq pod work (inline 3)
           (Vectors.decoded Vectors.inline_text) {| seen := [js "acme:demo:evt_1"]; calls := []; events := [] |}).
  - by vm_compute.
  - apply (bool_decide_unpack _). by vm_compute.
Defined.

Lemma js_poison_dead_lettered_witness :
  ∃ s' ok, handle ClaimCheck.Samples.options subject dlq pod work (poison 4) fresh = (Ok tt, s') ∧ calls s' = [] ∧
    seen s' = [] ∧
    events s' = [Publish dlq (js "nope") (dlq_headers pod (poison 4) (js "invalid_json")) ok;
                 if ok : bool then Term 4 (js "invalid_json") else Nak 4 (nak_delay (poison 4))] ∧
    (ok = true ↔ js_publish [] dlq (js "nope") (dlq_headers pod (poison 4) (js "invalid_json")) = None).
Proof.
  apply (js_poison_dead_lettered ClaimCheck.Samples.options subject dlq pod work (poison 4)
           (invalid_message invalid_json None) fresh).
  by vm_compute.
Defined.

Lemma js_nak_delay_bounds_witness : 1000 ≤ nak_delay (claimed 2) ≤ 10000.
Proof. apply (js_nak_delay_bounds (claimed 2)). by vm_compute. Defined.

(** A boot with the defaults against a broker that already has the stream. *)
Example boot :
  map settles (events (main (js_config ∅ pod) [inline 1; poison 2] fresh).2) =
  [None; None; None; None; None; None; None; Some 1; None; Some 2].
Proof. by vm_compute. Qed.

Example process_examples :
  health_answer (js "GET") (js "/health") (fold_left on_status [js "disconnect"; js "ldm"; js "reconnect"] true) =
    (200, Some (JObj [(js "status", JStr (js "ok")); (js "connected", JBool true)])) ∧
  (shutdown (shutdown (false, []))).2 = [MessagesClosed; Drained; HealthClosed; Exited].
Proof. by vm_compute. Qed.
End Samples.
