(* ===== verification/JetstreamCluster.v ===== *)
(** * Replicas of the JetStream worker

    The deployment of [examples/jetstream-k8s]: any number of replicas of the
    worker share one durable consumer of a work-queue stream.  The stream keeps
    a message until it is acknowledged or terminated and delivers it as often as
    it likes, to any replica; an acknowledgement may be lost on its way; a
    replica may be killed between any two of the things it does and starts again
    with an empty memory; replicas come and go.  They share one claim-check
    gateway, whose answers may depend on every call it has received, from any
    replica, before or after a restart, or from another client.  The steps of the
    system say just that, and a replica's own step is [JetstreamWorker.handle]. *)
From stdpp Require Import base tactics list numbers option strings sets gmap.
From S2P Require Import Prelude JsNumber JsString Regex Sha256 Json Env ClaimRef Headers Message MessageFacts Http ClaimCheck JetstreamWorker.
Local Open Scope Z_scope.

(** ** The system *)

(** What a replica was delivered and has not handled yet, and its state; its
    events are the history of its place in the deployment. *)
Record replica := { inbox : list JsMsg; mind : js_state }.

(** What was published, what is left of it in the stream, the replicas, and
    the calls the gateway has received, oldest first. *)
Record cluster := Cluster {
  published : list JsMsg;
  backlog : list JsMsg;
  replicas : list replica;
  gateway : list call;
}.

Definition fresh_mind : js_state := {| seen := []; calls := []; events := [] |}.
Definition fresh_replica : replica := {| inbox := []; mind := fresh_mind |}.
Definition fresh_cluster : cluster := Cluster [] [] [] [].

(** A delivery of a message is a copy with a delivery count. *)
Definition copy (m : JsMsg) (n : Z) : JsMsg := {| seq := seq m; data := data m; deliveryCount := n |}.

(** The events that take a message off the stream. *)
Definition ends (q : Z) (e : js_event) : bool :=
  match e with Ack q' | Term q' _ => q' =? q | _ => false end.

Definition remaining (evs : list js_event) (l : list JsMsg) : list JsMsg :=
  filter (λ m, existsb (ends (seq m)) evs = false) l.

Section cluster.
Context {crypto : Crypto} {net : OpenApiFetch}.
(** Each replica has its own connection and its own name. *)
Context (nats : nat → Nats) (pod : nat → jstr) (c : js_settings).

(** The replica in place [i] handles the first message of its inbox, when the
    gateway has received the calls [h]. *)
Definition handled (i : nat) (m : JsMsg) (h : list call) (r : replica) : js_state :=
  (handle (nats := nats i) (claim_check_options (CLAIM_CHECK_URL c)) (CONSUMED_SUBJECT c) (DLQ_SUBJECT c) (pod i)
     (WORK_MS c) m {| seen := seen (mind r); calls := h; events := events (mind r) |}).2.

Definition new_events (i : nat) (m : JsMsg) (h : list call) (r : replica) : list js_event :=
  drop (length (events (mind r))) (events (handled i m h r)).

(** The replica after it was killed, having done [evs] more. *)
Definition restarted (evs : list js_event) (r : replica) : replica :=
  {| inbox := []; mind := {| seen := []; calls := []; events := events (mind r) ++ evs |} |}.

(** [l'] is [l], or what is left of it if the stream heard of [evs]. *)
Definition heard (evs : list js_event) (l l' : list JsMsg) : Prop := l' = l ∨ l' = remaining evs l.

Inductive step (s : cluster) : cluster → Prop :=
| PublishedTo m :
    seq m ∉ seq <$> published s →
    step s (Cluster (published s ++ [m]) (backlog s ++ [m]) (replicas s) (gateway s))
| ScaledUp :
    step s (Cluster (published s) (backlog s) (replicas s ++ [fresh_replica]) (gateway s))
| CalledElsewhere x :
    step s (Cluster (published s) (backlog s) (replicas s) (gateway s ++ [x]))
| DeliveredTo l1 r l2 m n :
    replicas s = l1 ++ r :: l2 → m ∈ backlog s →
    step s (Cluster (published s) (backlog s)
              (l1 ++ {| inbox := inbox r ++ [copy m n]; mind := mind r |} :: l2) (gateway s))
| HandledBy l1 r l2 m rest b s' :
    replicas s = l1 ++ r :: l2 → inbox r = m :: rest →
    s' = handled (length l1) m (gateway s) r →
    heard (new_events (length l1) m (gateway s) r) (backlog s) b →
    step s (Cluster (published s) b (l1 ++ {| inbox := rest; mind := s' |} :: l2) (calls s'))
| KilledIn l1 r l2 m rest k b h :
    replicas s = l1 ++ r :: l2 → inbox r = m :: rest →
    heard (take k (new_events (length l1) m (gateway s) r)) (backlog s) b →
    gateway s `prefix_of` h → h `prefix_of` calls (handled (length l1) m (gateway s) r) →
    step s (Cluster (published s) b (l1 ++ restarted (take k (new_events (length l1) m (gateway s) r)) r :: l2) h)
| KilledIdle l1 r l2 :
    replicas s = l1 ++ r :: l2 →
    step s (Cluster (published s) (backlog s) (l1 ++ restarted [] r :: l2) (gateway s)).

Definition reachable (s : cluster) : Prop := rtc step fresh_cluster s.

(** ** Nothing is lost *)

(** The ledger replied to an announcement of the message's hook, under its
    idempotency key; or the dead-letter stream has stored the message. *)
Definition accounted_for (m : JsMsg) (evs : list js_event) : Prop :=
  (∃ p msg x dup now, decodeMessage (PBytes (data m)) = Ok msg ∧
     Request (CONSUMED_SUBJECT c) (announcement p msg (key_of msg) x dup now) true ∈ evs) ∨
  (∃ p reason, Publish (DLQ_SUBJECT c) (data m) (dlq_headers p m reason) true ∈ evs).

Lemma accounted_for_mono m evs evs' : accounted_for m evs → (∀ e, e ∈ evs → e ∈ evs') → accounted_for m evs'.
Proof. intros [(p & msg & x & dup & now & Hd & Hin)|(p & reason & Hin)] Hsub; [left|right]; naive_solver. Qed.

Lemma accounted_for_copy m m' evs :
  seq m = seq m' → data m = data m' → accounted_for m evs → accounted_for m' evs.
Proof. intros Hq Hd. unfold accounted_for, dlq_headers. by rewrite Hq, Hd. Qed.

(** Only the last event of a list ends a message: a beginning that does is all
    of the list. *)
Lemma ends_last q l e k :
  Forall (λ x, ∀ q, ends q x = false) l → existsb (ends q) (take k (l ++ [e])) = true →
  take k (l ++ [e]) = l ++ [e] ∧ ends q e = true.
Proof.
  intros Hl. assert (∀ l', Forall (λ x, ∀ q, ends q x = false) l' → existsb (ends q) l' = false) as Hno.
  { induction 1 as [|x l' Hx _ IH]; [done|]. cbn. by rewrite Hx. }
  destruct (decide (k ≤ length l)%nat) as [Hk|Hk].
  - rewrite take_app_le by done. rewrite Hno by by apply Forall_take. done.
  - rewrite take_ge by (rewrite length_app; cbn; lia). split; [done|].
    rewrite existsb_app, Hno in * by done. cbn in *. by destruct (ends q e).
Qed.

Lemma settles_ends q e : settles e = None → ends q e = false.
Proof. by destruct e. Qed.

(** What a replica does that ends a message accounts for it. *)
Lemma handled_events i m h r k q :
  let evs := take k (new_events i m h r) in
  events (handled i m h r) = events (mind r) ++ new_events i m h r ∧
  (existsb (ends q) evs = true → q = seq m ∧ accounted_for m evs).
Proof.
  unfold new_events, handled.
  destruct (handle_step (nats := nats i) (claim_check_options (CLAIM_CHECK_URL c)) (CONSUMED_SUBJECT c) (DLQ_SUBJECT c)
              (pod i) (WORK_MS c) m {| seen := seen (mind r); calls := h; events := events (mind r) |})
    as (s' & -> & Hst).
  apply step_justified in Hst as (evs & Hev & pre & e & -> & Hpre & He & Hj). cbn [snd events] in *. rewrite Hev, drop_app_length. split; [done|]. intros Hend. apply ends_last in Hend as [-> Hend].
  2: { eapply Forall_impl; [exact Hpre|]. intros x Hx q'. by apply settles_ends. }
  destruct e as [| | | | | | |q'|q' reason|]; try discriminate Hend; apply Z.eqb_eq in Hend as ->; injection He as ->; (split; [done|]).
  - destruct Hj as (b & msg & x & dup & now & Hd & ->). left. exists (pod i), msg, x, dup, now. split; [done|]. set_solver.
  - destruct Hj as (b & ->). right. exists (pod i), reason. set_solver.
Qed.

Record cluster_inv (s : cluster) : Prop := {
  inv_seqs : NoDup (seq <$> published s);
  inv_inboxes : Forall (λ r, Forall (λ m, ∃ m0, m0 ∈ published s ∧ seq m0 = seq m ∧ data m0 = data m) (inbox r)) (replicas s);
  inv_backlog : ∀ m, m ∈ backlog s → m ∈ published s;
  inv_kept : ∀ m, m ∈ published s → m ∈ backlog s ∨ Exists (λ r, accounted_for m (events (mind r))) (replicas s);
}.

Lemma same_seq s m m' : cluster_inv s → m ∈ published s → m' ∈ published s → seq m = seq m' → m = m'.
Proof.
  intros Hi Hm Hm' Hq. apply list_elem_of_lookup in Hm as [i Ei], Hm' as [j Ej].
  assert (i = j) as <-; [|congruence]. eapply (NoDup_lookup _ _ _ (seq m) (inv_seqs s Hi)).
  - by rewrite list_lookup_fmap, Ei.
  - rewrite list_lookup_fmap, Ej. cbn. by rewrite Hq.
Qed.

(** A replica changes: its history grows, and whatever the stream drops is
    accounted for by what was added. *)
Lemma update_cluster s l1 r r' l2 b evs h :
  cluster_inv s → replicas s = l1 ++ r :: l2 →
  Forall (λ m, ∃ m0, m0 ∈ published s ∧ seq m0 = seq m ∧ data m0 = data m) (inbox r') →
  events (mind r') = events (mind r) ++ evs → heard evs (backlog s) b →
  (∀ m, m ∈ backlog s → existsb (ends (seq m)) evs = true → accounted_for m evs) →
  cluster_inv (Cluster (published s) b (l1 ++ r' :: l2) h).
Proof.
  intros Hi E Hin Hev Hheard Hacc. destruct Hi as [Hq Hb Hp Hk]. rewrite E in *.
  split; cbn [published backlog replicas]; [done| | |].
  - rewrite Forall_app, Forall_cons in *. naive_solver.
  - intros m Hm. apply Hp. destruct Hheard as [->| ->]; [done|]. by apply list_elem_of_filter in Hm as [_ ?].
  - intros m Hm. destruct (Hk m Hm) as [Hin'|Hex].
    + destruct Hheard as [->| ->]; [by left|].
      destruct (existsb (ends (seq m)) evs) eqn:Hend; [right|left; by apply list_elem_of_filter].
      apply Exists_app. right. left. eapply accounted_for_mono; [by apply Hacc|]. rewrite Hev. set_solver.
    + right. rewrite Exists_app, Exists_cons in *. destruct Hex as [?|[Hr|?]]; [by left| |by right; right].
      right. left. eapply accounted_for_mono; [exact Hr|]. rewrite Hev. set_solver.
Qed.

Lemma inbox_accounted s l1 r l2 m rest k i h m' :
  cluster_inv s → replicas s = l1 ++ r :: l2 → inbox r = m :: rest →
  m' ∈ backlog s → existsb (ends (seq m')) (take k (new_events i m h r)) = true →
  accounted_for m' (take k (new_events i m h r)).
Proof.
  intros Hi E Hin Hm' Hend. destruct (handled_events i m h r k (seq m')) as [_ Hacc].
  destruct (Hacc Hend) as [Hq Ha]. pose proof (inv_inboxes s Hi) as Hb. rewrite E, Forall_app, Forall_cons, Hin, Forall_cons in Hb.
  destruct Hb as (_ & ((m0 & Hm0 & Hq0 & Hd0) & _) & _).
  assert (m0 = m') as <- by (apply (same_seq s); [done|done|by apply Hi|congruence]).
  by eapply accounted_for_copy; [| |exact Ha].
Qed.

Lemma inbox_rest s l1 r l2 m rest :
  cluster_inv s → replicas s = l1 ++ r :: l2 → inbox r = m :: rest →
  Forall (λ m, ∃ m0, m0 ∈ published s ∧ seq m0 = seq m ∧ data m0 = data m) rest.
Proof.
  intros Hi E Hin. pose proof (inv_inboxes s Hi) as Hb.
  rewrite E, Forall_app, Forall_cons, Hin, Forall_cons in Hb. by destruct Hb as (_ & (_ & ?) & _).
Qed.

Lemma step_cluster s s' : step s s' → cluster_inv s → cluster_inv s'.
Proof.
  intros Hstep Hi. destruct Hstep as [m Hm| |x|l1 r l2 m n E Hm|l1 r l2 m rest b s' E Hin -> Hb|l1 r l2 m rest k b h E Hin Hb _ _|l1 r l2 E].
  - destruct Hi as [Hq Hb Hp Hk]. split; cbn [published backlog replicas].
    + rewrite fmap_app. apply NoDup_app. split_and!; [done| |apply NoDup_singleton]. by intros q Hq' ->%list_elem_of_singleton.
    + eapply Forall_impl; [exact Hb|]. intros r Hr. eapply Forall_impl; [exact Hr|]. intros m' (m0 & ? & ?). exists m0. set_solver.
    + set_solver.
    + intros m' [Hm'|Hm']%elem_of_app; [|left; set_solver]. destruct (Hk m' Hm'); [left; set_solver|by right].
  - destruct Hi as [Hq Hb Hp Hk]. split; cbn [published backlog replicas]; [done| |done|].
    + apply Forall_app. split; [done|]. by repeat constructor.
    + intros m Hm. rewrite Exists_app. destruct (Hk m Hm); tauto.
  - by destruct Hi.
  - eapply (update_cluster s l1 r _ l2 _ []); try done; [|by rewrite app_nil_r|by left].
    cbn [inbox]. apply Forall_app. split.
    { pose proof (inv_inboxes s Hi) as Hb. rewrite E, Forall_app, Forall_cons in Hb. by destruct Hb as (_ & ? & _). }
    constructor; [|constructor]. exists m. split; [by apply Hi|done].
  - eapply (update_cluster s l1 r _ l2); try done; [by eapply inbox_rest|by apply (handled_events _ _ _ _ 0 0)|].
    intros m' Hm' Hend. pose proof (inbox_accounted s l1 r l2 m rest (length (new_events (length l1) m (gateway s) r)) (length l1) (gateway s) m') as Ha.
    rewrite take_ge in Ha by done. by apply Ha.
  - eapply (update_cluster s l1 r _ l2); try done. intros m' Hm' Hend. by eapply inbox_accounted.
  - eapply (update_cluster s l1 r _ l2 _ []); try done. by left.
Qed.

(** [C11] Nothing is lost by the deployment: whatever the number of replicas and
    however they are killed, however often messages are delivered and to whom,
    whatever acknowledgements are lost and whatever the ledger, the dead-letter
    stream and the shared gateway answer, now or after a restart, a message that was published is still in the
    stream, or the ledger replied to some replica's announcement of its hook, or
    the dead-letter stream has stored it with its sequence number. *)
Theorem cluster_nothing_lost s m :
  reachable s → m ∈ published s →
  m ∈ backlog s ∨ ∃ r, r ∈ replicas s ∧ accounted_for m (events (mind r)).
Proof.
  intros Hr Hm.
  assert (cluster_inv s) as Hi.
  { clear Hm. unfold reachable in Hr. remember fresh_cluster as s0 eqn:E0. assert (cluster_inv s0) as H0.
    { subst s0. split; cbn; [apply NoDup_nil_2|constructor|set_solver|set_solver]. }
    clear E0. induction Hr as [|s0 s1 s Hstep _ IH]; [done|]. by eapply IH, step_cluster. }
  destruct (inv_kept s Hi m Hm) as [?|Hex]; [by left|right]. by apply Exists_exists in Hex.
Qed.
End cluster.

(** ** The backlog can always be worked off *)

Section drain.
Context {crypto : Crypto} {net : OpenApiFetch}.
Context (nats : nat → Nats) (pod : nat → jstr) (c : js_settings).

(** The ledger replies, and the dead-letter stream stores what it is sent. *)
Hypothesis ledger_replies : ∀ i h subject payload t, nc_request (Nats := nats i) h subject payload t = None.
Hypothesis dlq_stores : ∀ i h subject payload headers, js_publish (Nats := nats i) h subject payload headers = None.

(** Resolving the body of the message works or fails for good. *)
Definition settleable (m : JsMsg) : Prop :=
  ∀ msg s e s', decodeMessage (PBytes (data m)) = Ok msg →
    resolveBody (claim_check_options (CLAIM_CHECK_URL c)) msg s = (Err e, s') → permanent e = true.

Lemma settleable_ends i m h r :
  settleable m → existsb (ends (seq m)) (new_events nats pod c i m h r) = true.
Proof.
  intros Hm. unfold new_events.
  assert (∃ l e, events (handled nats pod c i m h r) = events (mind r) ++ l ++ [e] ∧ ends (seq m) e = true) as (l & e & -> & He).
  2: { rewrite drop_app_length, existsb_app. cbn. by rewrite He, orb_true_r. }
  unfold handled. set (s0 := {| seen := seen (mind r); calls := h; events := events (mind r) |}).
  change (events (mind r)) with (events s0).
  unfold handle, catch, try_handle, decode, pure. unfold mbind at 1, eff_bind at 1.
  assert (∀ s err, permanent err = true → ∃ p e, events (fail (nats := nats i) (DLQ_SUBJECT c) (pod i) m err s).2 =
    events s ++ [p; e] ∧ ends (seq m) e = true) as Hfail.
  { intros s err Hp. unfold fail. rewrite Hp. unfold catch, deadLetter, attempt, perform_event, modify, mbind, eff_bind.
    rewrite dlq_stores. cbn. eexists _, _. rewrite <-app_assoc. split; [done|]. cbn. apply Z.eqb_refl. }
  destruct (decodeMessage (PBytes (data m))) as [msg|e] eqn:Ed.
  2: { destruct (Hfail s0 (BadMessage e) eq_refl) as (p & e' & E & He). by exists [p], e'. }
  cbv zeta. unfold gets. unfold mbind at 1, eff_bind at 1. case_bool_decide as Hk.
  - unfold announce, attempt, perform_event, modify, mbind, eff_bind. rewrite ledger_replies. cbn.
    eexists [_], _. rewrite <-app_assoc. split; [done|]. cbn. apply Z.eqb_refl.
  - unfold mbind at 1, eff_bind at 1. pose proof (resolveBody_spec (claim_check_options (CLAIM_CHECK_URL c)) msg s0) as Hr.
    destruct (resolveBody _ msg s0) as [[x|err] s1] eqn:Er; destruct Hr as (_ & He1 & _).
    + unfold announce, attempt, perform_event, modify, mbind, eff_bind. cbn. rewrite ledger_replies. cbn. rewrite He1.
      eexists [_; _], _. rewrite <-!app_assoc. split; [done|]. cbn. apply Z.eqb_refl.
    + destruct (Hfail s1 err) as (p & e' & E & He); [by eapply Hm|]. rewrite E, He1. by exists [p], e'.
Qed.

Lemma remaining_subset evs l m : m ∈ remaining evs l → m ∈ l.
Proof. by intros [_ ?]%list_elem_of_filter. Qed.

(** A replica works through its inbox. *)
Lemma clear_inbox s r l2 :
  replicas s = r :: l2 →
  ∃ s' r', rtc (step nats pod c) s s' ∧ replicas s' = r' :: l2 ∧ inbox r' = [] ∧ published s' = published s ∧
    (∀ m, m ∈ backlog s' → m ∈ backlog s) ∧ (length (backlog s') ≤ length (backlog s))%nat.
Proof.
  remember (inbox r) as ms eqn:Ems. revert s r Ems. induction ms as [|m ms IH]; intros s r Ems E; [by exists s, r|].
  set (m1 := handled nats pod c 0 m (gateway s) r).
  destruct (IH (Cluster (published s) (remaining (new_events nats pod c 0 m (gateway s) r) (backlog s))
                  ({| inbox := ms; mind := m1 |} :: l2) (calls m1))
               {| inbox := ms; mind := m1 |}) as (s' & r' & Hr & E' & Hin & Hp & Hsub & Hlen); [done..|].
  exists s', r'. split.
  { eapply rtc_l; [|exact Hr]. by apply (HandledBy nats pod c s [] r l2 m ms _ m1); [..|right]. }
  split_and!; try done.
  - intros m' Hm'. by eapply remaining_subset, Hsub.
  - cbn [backlog] in Hlen. etransitivity; [exact Hlen|]. apply length_filter.
Qed.

(** [C27] The backlog can always be worked off: as long as one replica runs, the
    ledger replies, the dead-letter stream stores what it gets and no body fails
    transiently, the system can go on from any state, whatever was killed or
    lost before, until no message is left in the stream. *)
Theorem cluster_drains s :
  replicas s ≠ [] → Forall settleable (backlog s) →
  ∃ s', rtc (step nats pod c) s s' ∧ backlog s' = [] ∧ published s' = published s.
Proof.
  remember (length (backlog s)) as n eqn:En. revert s En. induction (lt_wf n) as [n _ IH]. intros s -> Hne Hset.
  destruct (replicas s) as [|r l2] eqn:E; [done|].
  destruct (clear_inbox s r l2 E) as (s1 & r1 & Hr1 & E1 & Hin1 & Hp1 & Hsub1 & Hlen1).
  destruct (backlog s1) as [|m b] eqn:Eb; [by exists s1|].
  assert (settleable m) as Hm by (rewrite Forall_forall in Hset; apply Hset, Hsub1; rewrite ?Eb; by left).
  set (r2 := {| inbox := [copy m 1]; mind := mind r1 |}). set (evs := new_events nats pod c 0 (copy m 1) (gateway s1) r2).
  set (m2 := handled nats pod c 0 (copy m 1) (gateway s1) r2).
  set (s3 := Cluster (published s1) (remaining evs (m :: b)) ({| inbox := []; mind := m2 |} :: l2) (calls m2)).
  assert (rtc (step nats pod c) s1 s3) as Hr3.
  { eapply rtc_l; [apply (DeliveredTo nats pod c s1 [] r1 l2 m 1); [done|rewrite Eb; by left]|].
    rewrite Hin1. eapply rtc_l; [|done]. rewrite Eb.
    by apply (HandledBy nats pod c (Cluster (published s1) (m :: b) (r2 :: l2) (gateway s1)) [] r2 l2 (copy m 1) [] _ m2); [..|right]. }
  assert (existsb (ends (seq m)) evs = true) as Hend by by apply (settleable_ends 0 (copy m 1) (gateway s1) r2).
  assert (length (remaining evs (m :: b)) < length (backlog s))%nat as Hlt.
  { unfold remaining. rewrite filter_cons_False by (by rewrite Hend).
    pose proof (length_filter (λ m, existsb (ends (seq m)) evs = false) b). cbn in Hlen1. lia. }
  destruct (IH _ Hlt s3 eq_refl) as (s' & Hr' & Hb' & Hp'); [done| |].
  { apply Forall_forall. intros m' Hm'%remaining_subset. rewrite Forall_forall in Hset. apply Hset, Hsub1. by rewrite ?Eb. }
  exists s'. split; [by do 2 (etransitivity; [eassumption|])|]. split; [done|]. by rewrite Hp'.
Qed.
End drain.

Module Samples.
#[local] Existing Instance NodeCrypto.
#[local] Existing Instance JetstreamWorker.Samples.gateway_ok.

Definition settings : js_settings := js_config ∅ (js "host").
Definition brokers (_ : nat) : Nats := JetstreamWorker.Samples.broker.
Definition names (i : nat) : jstr := js "pod-" ++ dec_of_Z (Z.of_nat i).

Definition first : JsMsg := JetstreamWorker.Samples.inline 1.

(** One replica works and announces the hook, is killed before it acknowledges
    it, and the message stays; it is delivered again and acknowledged. *)
Definition holding : replica := {| inbox := [copy first 1]; mind := fresh_mind |}.
Definition killed : replica := restarted (take 2 (new_events brokers names settings 0 (copy first 1) [] holding)) holding.
Definition again : replica := {| inbox := [copy first 2]; mind := mind killed |}.
Definition finished : cluster :=
  Cluster [first] (remaining (new_events brokers names settings 0 (copy first 2) [] again) [first])
    [{| inbox := []; mind := handled brokers names settings 0 (copy first 2) [] again |}]
    (calls (handled brokers names settings 0 (copy first 2) [] again)).

Lemma finished_reachable : reachable brokers names settings finished.
Proof.
  unfold reachable. eapply rtc_l; [apply (PublishedTo _ _ _ _ first), not_elem_of_nil|].
  eapply rtc_l; [apply ScaledUp|].
  eapply rtc_l; [apply (DeliveredTo _ _ _ _ [] fresh_replica [] first 1); [done|by left]|].
  eapply rtc_l; [apply (KilledIn _ _ _ _ [] holding [] (copy first 1) [] 2 [first] []); [done|done|by left|done|by apply prefix_nil]|].
  eapply rtc_l; [apply (DeliveredTo _ _ _ _ [] killed [] first 2); [done|by left]|].
  eapply rtc_l; [apply (HandledBy _ _ _ _ [] again [] (copy first 2) [] (remaining (new_events brokers names settings 0 (copy first 2) [] again) [first])
    (handled brokers names settings 0 (copy first 2) [] again)); [done|done|done|by right]|].
  done.
Qed.

(** The ledger does not answer the second announcement: the message is kept. *)
Example finished_backlog : backlog finished = [first] ∧ length (events (handled brokers names settings 0 (copy first 2) [] again)) = 5%nat.
Proof. by vm_compute. Qed.

Lemma cluster_nothing_lost_witness :
  first ∈ backlog finished ∨ ∃ r, r ∈ replicas finished ∧ accounted_for settings first (events (mind r)).
Proof. apply (cluster_nothing_lost brokers names settings finished first); [apply finished_reachable|left]. Defined.

(** A broker that answers everything. *)
Definition answering (_ : nat) : Nats :=
  {| nc_request := λ _ _ _ _, None; js_publish := λ _ _ _ _, None; streams_add := λ _ _, None;
     streams_update := λ _ _ _, None; consumers_add := λ _ _ _, None; consumers_update := λ _ _ _ _, None;
     date_now := λ h, num_of_Z (Z.of_nat (length h)) |}.

Definition waiting : cluster :=
  Cluster [first; JetstreamWorker.Samples.poison 2] [first; JetstreamWorker.Samples.poison 2] [fresh_replica] [].

Lemma cluster_drains_witness :
  ∃ s', rtc (step answering names settings) waiting s' ∧ backlog s' = [] ∧ published s' = published waiting.
Proof.
  apply (cluster_drains answering names settings); [done|done|done|].
  do 2 (apply Forall_cons; split;
    [intros msg s e s' Hd; vm_compute in Hd; first [discriminate Hd|injection Hd as <-; vm_compute; discriminate]|]).
  by apply Forall_nil.
Defined.
End Samples.
