(* ===== verification/HookMessage.v ===== *)
(** * Hook messages read without the decoder

    Three of the example workers read a queue message with [JSON.parse] and a
    type assertion, so a field may hold any JSON value or be missing.  This file
    holds what they share: reading such fields, and resolving the body, inline
    or through the claim-check client. *)
From stdpp Require Import base tactics list numbers option strings.
From S2P Require Import Prelude JsNumber JsString Regex Base64 Sha256 Json JsonFacts ClaimRef Http ClaimCheck.
Local Open Scope Z_scope.

(** What handling a message may throw. [OtherError] is any error that is
    neither the worker's own [PermanentError] nor a [ClaimCheckError]. *)
Inductive hook_error :=
| PermanentError (message : jstr)
| ClaimFailure (e : claim_check_error)
| OtherError (t : thrown).

Definition type_error (m : string) : hook_error := OtherError (Thrown (js m)).

(** [Buffer.from(x, "base64")] of a value that is no string, which the declared
    types exclude: some values are converted, the others are a [TypeError]. *)
Class BufferFrom := { buffer_from_value : json → option bytes }.

(** The properties of a parsed message; a primitive or an array has none of
    the ones the workers read, and reading one of [null] is a [TypeError]. *)
Definition hook_fields (x : json) : result hook_error (list (jstr * json)) :=
  match x with
  | JNull => Err (type_error "Cannot read properties of null")
  | JObj o => Ok o
  | _ => Ok []
  end.

Definition field (o : list (jstr * json)) (key : string) : option json := obj_get (js key) o.

(** [`${x}`] *)
Definition display (x : option json) : result hook_error jstr :=
  match x with
  | None => Ok (js "undefined")
  | Some v => or_throw (json_display v) (type_error "Cannot convert object to primitive value")
  end.

(** The first error of a list of template arguments. *)
Fixpoint displays (l : list (option json)) : result hook_error (list jstr) :=
  match l with
  | [] => Ok []
  | x :: l => s ← display x; ss ← displays l; Ok (s :: ss)
  end.

Definition map_error {E E' A} (f : E → E') (m : http E A) : http E' A := λ h,
  let '(r, h') := m h in (match r with Ok a => Ok a | Err e => Err (f e) end, h').

Section body.
Context {crypto : Crypto} {net : OpenApiFetch} {buf : BufferFrom} (claimCheck : ClaimCheckClientOptions).

(** [claimCheck.redeem(claim, sha256)], where [claim] is already a string and
    [sha256] is any truthy value. *)
Definition redeem_value (claim : jstr) (sha256 : json) : http hook_error bytes :=
  match sha256 with
  | JStr s => map_error ClaimFailure (redeem claimCheck claim s)
  | _ =>
      lift (match parseClaimRef claim with
            | Err e => Err (ClaimFailure e)
            | Ok _ => s ← display (Some sha256);
                      Err (ClaimFailure (InvalidClaimRefError (js "invalid claim sha256: " ++ s)))
            end)
  end.

(** [const { claimId } = parseClaimRef(msg.claim)], then the redeem. *)
Definition claimed_body (claim sha256 : json) : http hook_error (bytes * jstr) :=
  s ← lift (display (Some claim));
  p ← map_error ClaimFailure (lift (parseClaimRef s));
  bs ← redeem_value s sha256;
  mret (bs, js "claim:" ++ claimId p).

(** [Buffer.from(msg.body_base64 ?? "", "base64")] *)
Definition inline_body (x : option json) : result hook_error (bytes * jstr) :=
  match x with
  | None | Some JNull => Ok (buffer_from_base64 [], js "inline")
  | Some (JStr s) => Ok (buffer_from_base64 s, js "inline")
  | Some v => bs ← or_throw (buffer_from_value v) (type_error "The first argument must be of type string");
              Ok (bs, js "inline")
  end.

(** ** The digest is checked on this path too *)

Lemma map_error_Ok {E E' A} (f : E → E') (m : http E A) h a h' :
  map_error f m h = (Ok a, h') → m h = (Ok a, h').
Proof. unfold map_error. destruct (m h) as [[] ?]; naive_solver. Qed.

Lemma claimed_body_digest claim sha h bs v h' :
  claimed_body claim sha h = (Ok (bs, v), h') → sha = JStr (sha256_hex bs).
Proof.
  unfold claimed_body, lift, mbind, http_bind.
  destruct (display (Some claim)) as [s|]; [|done].
  destruct (map_error ClaimFailure (λ h, (parseClaimRef s, h)) h) as [[p|] h1]; [|done].
  destruct (redeem_value s sha h1) as [[bs'|] h2] eqn:Er; [|done]. intros [= <- <- <-].
  unfold redeem_value in Er. destruct sha as [| | |x| |];
    first [ by apply map_error_Ok, redeem_digest in Er as <-
          | unfold lift in Er; destruct (parseClaimRef s); [|done]; by destruct (display _) ].
Qed.
End body.
