(* ===== verification/SqsWorker.v ===== *)
(** * The SQS worker ([examples/kafka-sqs-consumer/worker/src/worker.ts])

    A consumer of an SQS FIFO queue: messages of one group must be processed in
    order, so a transient failure holds back the rest of the group, and a
    permanent one moves the message to the dead-letter queue at once.  SQS is
    the class [Sqs], whose answers may depend on everything that happened. *)
From stdpp Require Import base tactics list numbers option strings sets gmap.
From S2P Require Import Prelude JsNumber JsString Regex Base64 Sha256 Json JsonFacts Env ClaimRef Http JsValue ClaimCheck HookMessage.
Local Open Scope Z_scope.

(** ** State *)

(** What the worker reads of a received message.  The attributes are strings,
    the receive count too. *)
Record sqs_message := {
  Body : option jstr;
  MessageId : option jstr;
  ReceiptHandle : option jstr;
  MessageGroupId : option jstr;
  ApproximateReceiveCount : option jstr;
}.

(** What the worker puts in a [SendMessageCommand]; [failure_reason] is its one
    message attribute. *)
Record SendMessageCommand := {
  QueueUrl : jstr;
  MessageBody : option jstr;
  GroupId : option jstr;
  MessageDeduplicationId : option jstr;
  failure_reason : jstr;
}.

(** The commands sent, each with whether it succeeded: the deletion and the
    hiding of a received message of the worker's queue, and what was sent to
    another queue; and the hooks handled. *)
Inductive sqs_event :=
| Delete (m : sqs_message) (ok : bool)
| SendToDlq (c : SendMessageCommand) (ok : bool)
| Hide (m : sqs_message) (seconds : num) (ok : bool)
| Handled (m : sqs_message) (group : jstr) (body : bytes) (via : jstr).

Record sqs_state := {
  processed : list (option json);
  sqs_calls : list call;
  sqs_events : list sqs_event;
}.

Class Sqs := {
  sqs_delete : list sqs_event → sqs_message → option thrown;
  sqs_send : list sqs_event → SendMessageCommand → option thrown;
  sqs_change_visibility : list sqs_event → sqs_message → num → option thrown;
}.

Definition sqs_emit (e : sqs_event) (s : sqs_state) : sqs_state :=
  {| processed := processed s; sqs_calls := sqs_calls s; sqs_events := sqs_events s ++ [e] |}.

(** [await sqs.send(command)] *)
Definition sqs_command {E} (inject : thrown → E) (outcome : list sqs_event → option thrown)
    (e : bool → sqs_event) : eff sqs_state E unit := λ s,
  match outcome (sqs_events s) with
  | None => (Ok tt, sqs_emit (e true) s)
  | Some t => (Err (inject t), sqs_emit (e false) s)
  end.

(** ** Reading a message *)

(** [msg.v !== 1] *)
Definition is_one (x : option json) : bool :=
  match x with Some (JNum n) => num_eq n (num_of_Z 1) | _ => false end.

Definition parse (body : option jstr) : result hook_error (list (jstr * json)) :=
  match json_parse (default [] body) with
  | None => Err (PermanentError (js "message body is not JSON"))
  | Some x =>
      msg ← hook_fields x;
      _ ← (if is_one (field msg "v") then Ok tt
           else s ← display (field msg "v");
                Err (PermanentError (js "unsupported message version: " ++ s)));
      _ ← require (negb (truthy (field msg "claim") && negb (truthy (field msg "sha256"))))
            (PermanentError (js "claim message has no sha256"));
      Ok msg
  end.

Definition group_of (m : sqs_message) : jstr := default [] (MessageGroupId m).

(** The settings, from the environment. *)
Record sqs_settings := {
  QUEUE_URL : jstr;
  DLQ_URL : jstr;
  CLAIM_CHECK_URL : jstr;
}.
Existing Class sqs_settings.

Section worker.
Context {conf : sqs_settings}.
Context {crypto : Crypto} {net : OpenApiFetch} {buf : BufferFrom} {sqs : Sqs} {pow : Pow2Approx}.
Context (claimCheck : ClaimCheckClientOptions).

(** ** One message *)

Definition resolveBody (msg : list (jstr * json)) : http hook_error (bytes * jstr) :=
  match field msg "claim", field msg "sha256" with
  | Some c, Some s =>
      if truthy (Some c) && truthy (Some s) then claimed_body claimCheck c s
      else lift (inline_body (field msg "body_base64"))
  | _, _ => lift (inline_body (field msg "body_base64"))
  end.

Definition with_client {A} (m : http hook_error A) : eff sqs_state hook_error A := λ s,
  let '(r, h) := m (sqs_calls s) in
  (r, {| processed := processed s; sqs_calls := h; sqs_events := sqs_events s |}).

(** It prints the message's [id], [source_id], [tenant_id] and [size]. *)
Definition handleHook (m : sqs_message) (msg : list (jstr * json)) (group : jstr) (body : bytes) (via : jstr) :
    eff sqs_state hook_error unit :=
  _ ← pure (displays [field msg "id"; field msg "source_id"; field msg "tenant_id"; field msg "size"]);
  modify (sqs_emit (Handled m group body via)).

Definition remove {E} (inject : thrown → E) (m : sqs_message) : eff sqs_state E unit :=
  sqs_command inject (λ h, sqs_delete h m) (Delete m).

Definition deadLetter (m : sqs_message) (reason : jstr) : eff sqs_state thrown unit :=
  let command :=
    {| QueueUrl := DLQ_URL conf; MessageBody := Body m; GroupId := MessageGroupId m;
       MessageDeduplicationId := MessageId m; failure_reason := reason |} in
  _ ← sqs_command id (λ h, sqs_send h command) (SendToDlq command);
  remove id m.

(** [Math.min(30 * 2 ** (receives - 1), 900)]; [NaN] stays [NaN]. *)
Definition hidden_for (receives : num) : num :=
  let x := num_mul (num_of_Z 30) (num_pow2 (num_sub receives (num_of_Z 1))) in
  if num_lt (num_of_Z 900) x then num_of_Z 900 else x.

(** [Number(m.Attributes?.ApproximateReceiveCount ?? "1")] *)
Definition receives_of (m : sqs_message) : num := js_number (default (js "1") (ApproximateReceiveCount m)).

Definition backoff_seconds (m : sqs_message) : num := hidden_for (receives_of m).

Definition backOff (m : sqs_message) : eff sqs_state thrown unit :=
  sqs_command id (λ h, sqs_change_visibility h m (backoff_seconds m)) (Hide m (backoff_seconds m)).

(** The [try] block. *)
Definition try_message (m : sqs_message) (group : jstr) : eff sqs_state hook_error unit :=
  msg ← pure (parse (Body m));
  known ← gets (λ s, set_has (field msg "id") (processed s));
  _ ← (if known : bool then mret tt
       else
         bv ← with_client (resolveBody msg);
         _ ← handleHook m msg group bv.1 bv.2;
         modify (λ s, {| processed := set_add (field msg "id") (processed s); sqs_calls := sqs_calls s;
                         sqs_events := sqs_events s |}));
  remove OtherError m.

(** [err instanceof PermanentError || (err instanceof ClaimCheckError && !err.retryable)],
    with the message it is dead-lettered under. *)
Definition permanent (err : hook_error) : option jstr :=
  match err with
  | PermanentError m => Some m
  | ClaimFailure e => if retryable e then None else Some (claim_error_message e)
  | OtherError _ => None
  end.

(** ** A batch *)

(** The body of the loop; it returns the set of blocked groups it leaves. *)
Definition process_message (blocked : list jstr) (m : sqs_message) : eff sqs_state thrown (list jstr) :=
  let group := group_of m in
  if bool_decide (group ∈ blocked) then
    _ ← backOff m;
    mret blocked
  else λ s,
    match try_message m group s with
    | (Ok _, s') => (Ok blocked, s')
    | (Err err, s') =>
        match permanent err with
        | Some reason => (_ ← deadLetter m reason; mret blocked) s'
        | None => (_ ← backOff m; mret (group :: blocked)) s'
        end
    end.

Fixpoint process_from (blocked : list jstr) (messages : list sqs_message) : eff sqs_state thrown unit :=
  match messages with
  | [] => mret tt
  | m :: messages =>
      blocked' ← process_message blocked m;
      process_from blocked' messages
  end.

Definition processBatch (messages : list sqs_message) : eff sqs_state thrown unit := process_from [] messages.

(** The polling loop, over the batches received before it is told to stop. *)
Fixpoint poll (batches : list (list sqs_message)) : eff sqs_state thrown unit :=
  match batches with
  | [] => mret tt
  | b :: batches => _ ← processBatch b; poll batches
  end.

(** ** What happens to one message *)

(** The command sends the message, under the reason, to the dead-letter queue:
    its body, in its group, deduplicated by its own id. *)
Record copy_of (m : sqs_message) (reason : jstr) (c : SendMessageCommand) : Prop := {
  copy_queue : QueueUrl c = DLQ_URL conf;
  copy_body : MessageBody c = Body m;
  copy_group : GroupId c = MessageGroupId m;
  copy_id : MessageDeduplicationId c = MessageId m;
  copy_reason : failure_reason c = reason;
}.

(** The events of one message, by what became of it. *)
Inductive message_events (m : sqs_message) : list sqs_event → Prop :=
| Removed : message_events m [Delete m true]
| Done b v : message_events m [Handled m (group_of m) b v; Delete m true]
| DeadLettered reason c ok : copy_of m reason c → message_events m [SendToDlq c true; Delete m ok]
| DlqDown reason c : copy_of m reason c → message_events m [SendToDlq c false]
| Held pre ok :
    pre ∈ [[]; [Delete m false]] ∨ (∃ b v, pre = [Handled m (group_of m) b v; Delete m false]) →
    message_events m (pre ++ [Hide m (backoff_seconds m) ok]).

(** The ids a run of events adds to the set of processed ids. *)
Definition id_of (m : sqs_message) : option json :=
  match parse (Body m) with Ok msg => field msg "id" | Err _ => None end.

Definition is_handled (e : sqs_event) : bool := match e with Handled _ _ _ _ => true | _ => false end.
Definition is_hide (e : sqs_event) : bool := match e with Hide _ _ _ => true | _ => false end.

(** A message is deleted without being handled or dead-lettered only when its
    id was handled before; a hook is handled only when its id was not. *)
Definition known_before (m : sqs_message) (evs : list sqs_event) (s : sqs_state) : Prop :=
  (∀ ok, head evs = Some (Delete m ok) → set_has (id_of m) (processed s) = true) ∧
  (existsb is_handled evs = true → set_has (id_of m) (processed s) = false).

Lemma sqs_command_cases {E} (inject : thrown → E) out ev s :
  (∃ t, sqs_command inject out ev s = (Err (inject t), sqs_emit (ev false) s)) ∨
  sqs_command inject out ev s = (Ok tt, sqs_emit (ev true) s).
Proof. unfold sqs_command. destruct (out _); eauto. Qed.

Lemma with_client_spec {A} (c : http hook_error A) s r s' :
  with_client c s = (r, s') → processed s' = processed s ∧ sqs_events s' = sqs_events s.
Proof. unfold with_client. destruct (c _). by intros [= <- <-]. Qed.

(** The [try] block throws before anything happened, or it reaches the
    deletion of the message, having handled it first if its id is new. *)
Definition reached (m : sqs_message) (s s1 : sqs_state) (pre : list sqs_event) : Prop :=
  sqs_events s1 = sqs_events s ++ pre ∧
  ((pre = [] ∧ set_has (id_of m) (processed s) = true ∧ processed s1 = processed s) ∨
   (∃ b v, pre = [Handled m (group_of m) b v] ∧ set_has (id_of m) (processed s) = false ∧
           processed s1 = set_add (id_of m) (processed s))).

Definition tried (m : sqs_message) (s : sqs_state) (r : result hook_error unit) (s' : sqs_state) : Prop :=
  (∃ e, r = Err e ∧ sqs_events s' = sqs_events s ∧ processed s' = processed s) ∨
  (∃ s1 pre, reached m s s1 pre ∧
     ((r = Ok tt ∧ s' = sqs_emit (Delete m true) s1) ∨
      (∃ t, r = Err (OtherError t) ∧ s' = sqs_emit (Delete m false) s1))).

Lemma remove_tried m s s1 pre :
  reached m s s1 pre → ∃ r s', remove OtherError m s1 = (r, s') ∧ tried m s r s'.
Proof.
  intros Hr. unfold remove, tried.
  destruct (sqs_command_cases OtherError (λ h, sqs_delete h m) (Delete m) s1) as [[t ->]| ->]; eauto 15.
Qed.

Lemma try_message_spec m s :
  ∃ r s', try_message m (group_of m) s = (r, s') ∧ tried m s r s'.
Proof.
  unfold try_message, pure. unfold mbind at 1, eff_bind at 1.
  destruct (parse (Body m)) as [msg|e] eqn:Ep; [|unfold tried; eauto 10].
  assert (field msg "id" = id_of m) as Hid by (unfold id_of; by rewrite Ep).
  unfold gets. unfold mbind at 1, eff_bind at 1. rewrite !Hid.
  destruct (set_has (id_of m) (processed s)) eqn:Hk; unfold mbind, eff_bind.
  - apply (remove_tried m s s []). split; [by rewrite app_nil_r|eauto].
  - destruct (with_client (resolveBody msg) s) as [[[b v]|e] s1] eqn:Ew;
      apply with_client_spec in Ew as [Hp He]; [|unfold tried; eauto 10].
    unfold handleHook, pure, modify, mbind, eff_bind. cbn [fst snd].
    destruct (displays _) as [ss|e]; [|unfold tried; eauto 10].
    apply (remove_tried m s _ [Handled m (group_of m) b v]). split; cbn; [by rewrite He|].
    right. exists b, v. by rewrite Hp.
Qed.

Lemma backOff_cases m s :
  (∃ t, backOff m s = (Err t, sqs_emit (Hide m (backoff_seconds m) false) s)) ∨
  backOff m s = (Ok tt, sqs_emit (Hide m (backoff_seconds m) true) s).
Proof. apply (sqs_command_cases id). Qed.

(** What one turn of the loop does. *)
Definition turn (blocked : list jstr) (m : sqs_message) (s : sqs_state) (r : result thrown (list jstr))
    (s' : sqs_state) : Prop :=
  ∃ evs, sqs_events s' = sqs_events s ++ evs ∧ message_events m evs ∧
    processed s' = (if existsb is_handled evs then set_add (id_of m) (processed s) else processed s) ∧
    known_before m evs s ∧
    match r with
    | Ok b' => (group_of m ∈ blocked → evs = [Hide m (backoff_seconds m) true] ∧ b' = blocked) ∧
               (group_of m ∉ blocked →
                if existsb is_hide evs then b' = group_of m :: blocked else b' = blocked ∧ Delete m true ∈ evs)
    | Err _ => Delete m true ∉ evs
    end.

Lemma turn_spec blocked m s :
  ∃ r s', process_message blocked m s = (r, s') ∧ turn blocked m s r s'.
Proof.
  unfold process_message. cbv zeta. case_bool_decide as Hb.
  { unfold mbind, eff_bind.
    destruct (backOff_cases m s) as [[t ->]| ->]; eexists _, _; (split; [reflexivity|]); eexists; (split; [reflexivity|]).
    - split; [apply (Held m [] false); left; set_solver|]. by split_and!; cbn; try done; set_solver.
    - split; [apply (Held m [] true); left; set_solver|]. by split_and!; cbn; try done; set_solver. }
  destruct (try_message_spec m s) as (r & s' & -> & [(e & -> & He & Hp)|(s1 & pre & [He Hpre] & Htry)]); [rename s' into s1|].
  - destruct (permanent e) as [reason|].
    + unfold deadLetter, remove, mbind, eff_bind. set (c := {| QueueUrl := _ |}).
      assert (copy_of m reason c) as Hc by done.
      destruct (sqs_command_cases id (λ h, sqs_send h c) (SendToDlq c) s1) as [[t ->]| ->].
      * eexists _, _. split; [reflexivity|]. exists [SendToDlq c false].
        split; [cbn; by rewrite He|]. split; [by eapply DlqDown|]. split; [done|]. split; [done|]. set_solver.
      * destruct (sqs_command_cases id (λ h, sqs_delete h m) (Delete m) (sqs_emit (SendToDlq c true) s1)) as [[t ->]| ->];
          eexists _, _; (split; [reflexivity|]); eexists [SendToDlq c true; Delete m _];
          (split; [cbn; rewrite He, <-app_assoc; reflexivity|]); (split; [by eapply DeadLettered|]);
          (split; [done|]); (split; [done|]); set_solver.
    + unfold mbind, eff_bind.
      destruct (backOff_cases m s1) as [[t ->]| ->]; eexists _, _; (split; [reflexivity|]);
        eexists; (split; [cbn; rewrite He; reflexivity|]);
        (split; [apply (Held m []); left; set_solver|]); (split; [done|]); (split; [done|]); cbn; set_solver.
  - destruct Htry as [[-> ->]|[t [-> ->]]].
    + eexists _, _. split; [reflexivity|]. exists (pre ++ [Delete m true]).
      split; [cbn; by rewrite He, <-app_assoc|].
      destruct Hpre as [(-> & Hk & Hp)|(b & v & -> & Hk & Hp)]; cbn; rewrite Hp.
      * split; [constructor|]. split; [done|]. split; [split; [done|done]|]. set_solver.
      * split; [constructor|]. split; [done|]. split; [split; [done|done]|]. set_solver.
    + cbn [permanent]. unfold mbind, eff_bind.
      destruct (backOff_cases m (sqs_emit (Delete m false) s1)) as [[t' ->]| ->]; eexists _, _; (split; [reflexivity|]);
        eexists ((pre ++ [Delete m false]) ++ [Hide m (backoff_seconds m) _]);
        (split; [cbn; rewrite He, <-!app_assoc; reflexivity|]);
        destruct Hpre as [(-> & Hk & Hp)|(b & v & -> & Hk & Hp)]; cbn; rewrite Hp.
      * split; [apply (Held m [Delete m false]); left; set_solver|]. split; [done|]. split; [done|]. set_solver.
      * split; [apply (Held m [Handled m (group_of m) b v; Delete m false]); eauto|].
        split; [done|]. split; [split; [done|done]|]. set_solver.
      * split; [apply (Held m [Delete m false]); left; set_solver|]. split; [done|]. split; [done|]. set_solver.
      * split; [apply (Held m [Handled m (group_of m) b v; Delete m false]); eauto|].
        split; [done|]. split; [split; [done|done]|]. set_solver.
Qed.

(** ** Order within a group *)

(** The messages taken off the queue. *)
Definition deleted (evs : list sqs_event) : list sqs_message :=
  omap (λ e, match e with Delete m true => Some m | _ => None end) evs.

Definition of_group (g : jstr) (l : list sqs_message) : list sqs_message := filter (λ m, group_of m = g) l.

Lemma deleted_cases m evs :
  message_events m evs →
  (existsb is_hide evs = true ∧ deleted evs = []) ∨
  (existsb is_hide evs = false ∧ Delete m true ∈ evs ∧ deleted evs = [m]) ∨
  (existsb is_hide evs = false ∧ Delete m true ∉ evs ∧ deleted evs = []).
Proof.
  destruct 1 as [|b v|reason c [] Hc|reason c Hc|pre ok [Hp|(b & v & ->)]]; cbn; try (right; set_solver).
  - left. repeat (apply elem_of_cons in Hp as [->|Hp]; [done|]). by apply elem_of_nil in Hp.
  - by left.
Qed.

Lemma process_from_order messages blocked s :
  ∃ r s' evs, process_from blocked messages s = (r, s') ∧ sqs_events s' = sqs_events s ++ evs ∧
    ∀ g, of_group g (deleted evs) `prefix_of` of_group g messages ∧
         (g ∈ blocked → of_group g (deleted evs) = []).
Proof.
  revert blocked s. induction messages as [|m ms IH]; intros blocked s; cbn [process_from].
  { eexists _, s, []. split; [done|]. split; [by rewrite app_nil_r|]. intros g. split; [apply prefix_nil|done]. }
  destruct (turn_spec blocked m s) as (r & s1 & E & evs1 & He1 & Hm & _ & _ & Hr).
  unfold mbind, eff_bind. rewrite E. apply deleted_cases in Hm. destruct r as [b'|t].
  2: { eexists _, s1, evs1. split; [done|]. split; [done|]. intros g.
       assert (deleted evs1 = []) as -> by (destruct Hm as [[_ ?]|[(_ & ? & _)|(_ & _ & ?)]]; done).
       split; [apply prefix_nil|done]. }
  destruct (IH b' s1) as (r2 & s2 & evs2 & -> & He2 & Hg). eexists _, s2, (evs1 ++ evs2).
  split; [done|]. split; [by rewrite He2, He1, app_assoc|]. intros g. specialize (Hg g) as [Hpre Hbl].
  unfold deleted, of_group in *. rewrite omap_app, filter_app. rewrite filter_cons.
  destruct (decide (group_of m ∈ blocked)) as [Hin|Hin].
  - destruct Hr as [Hr _]. destruct (Hr Hin) as [-> ->]. cbn.
    destruct (decide (group_of m = g)) as [Hg'|Hg']; [|done].
    split; [|done]. rewrite Hbl by by rewrite <-Hg'. apply prefix_nil.
  - destruct Hr as [_ Hr]. specialize (Hr Hin).
    destruct Hm as [[Hh Hd]|[(Hh & Hin' & Hd)|(Hh & Hin' & Hd)]]; rewrite Hh in Hr; rewrite Hd.
    + subst b'. cbn. destruct (decide (group_of m = g)) as [Hg'|Hg'].
      * rewrite Hbl by (rewrite Hg'; left). split; [apply prefix_nil|done].
      * split; [done|]. intros Hgb. apply Hbl. by right.
    + destruct Hr as [-> _]. cbn. destruct (decide (group_of m = g)) as [Hg'|Hg'].
      * split; [by apply prefix_cons|]. intros Hgb. congruence.
      * split; [done|]. intros Hgb. by apply Hbl.
    + by destruct Hr as [_ ?].
Qed.

(** [C4] FIFO order: in every batch and for every group, the messages taken off
    the queue (processed, or moved to the dead-letter queue) are a prefix of
    the group's messages in the batch: no message overtakes an earlier one of
    its group, whatever fails and even if the worker stops half-way. *)
Theorem sqs_group_order messages s :
  ∃ r s' evs, processBatch messages s = (r, s') ∧ sqs_events s' = sqs_events s ++ evs ∧
    ∀ g, of_group g (deleted evs) `prefix_of` of_group g messages.
Proof.
  destruct (process_from_order messages [] s) as (r & s' & evs & E & He & Hg).
  exists r, s', evs. split; [done|]. split; [done|]. intros g. apply Hg.
Qed.

(** ** Nothing is lost, nothing is handled twice *)

Definition handled (evs : list sqs_event) : list sqs_message :=
  omap (λ e, match e with Handled m _ _ _ => Some m | _ => None end) evs.

(** A deletion right after the message was stored in the dead-letter queue, or
    of a message that was handled, or whose id was. *)
Definition justified (before : list sqs_event) (e : sqs_event) : Prop :=
  match e with
  | Delete m _ =>
      (∃ b reason c, copy_of m reason c ∧ before = b ++ [SendToDlq c true]) ∨
      (∃ m', m' ∈ handled before ∧ (m' = m ∨ same_value (id_of m) (id_of m') = true))
  | _ => True
  end.

Definition accounted (evs : list sqs_event) : Prop := ∀ b e a, evs = b ++ e :: a → justified b e.

(** No two handled messages have the same id. *)
Definition once (ms : list sqs_message) : Prop :=
  ∀ a m b m' c, ms = a ++ m :: b ++ m' :: c → same_value (id_of m') (id_of m) = false.

Record sqs_inv (s : sqs_state) : Prop := {
  inv_accounted : accounted (sqs_events s);
  inv_processed : ∀ x, x ∈ processed s ↔ ∃ m, m ∈ handled (sqs_events s) ∧ id_of m = x;
  inv_once : once (handled (sqs_events s));
}.

Lemma accounted_app evs new :
  accounted evs → (∀ b e a, new = b ++ e :: a → justified (evs ++ b) e) → accounted (evs ++ new).
Proof.
  intros Ha. induction new as [|x new IH] using rev_ind; intros Hnew; [by rewrite app_nil_r|].
  intros b e a E. destruct a as [|y a _] using rev_ind.
  - rewrite app_assoc in E. apply app_inj_tail in E as [<- <-]. by apply (Hnew new x []).
  - rewrite app_comm_cons, !app_assoc in E. apply app_inj_tail in E as [E _].
    refine (IH _ b e a E). intros b' e' a' ->. apply (Hnew b' e' (a' ++ [x])). by rewrite <-app_assoc.
Qed.

Lemma handled_app l k : handled (l ++ k) = handled l ++ handled k.
Proof. apply omap_app. Qed.

Lemma message_events_handled m evs :
  message_events m evs → handled evs = if existsb is_handled evs then [m] else [].
Proof.
  destruct 1 as [|b v|reason c [] Hc|reason c Hc|pre ok [Hp|(b & v & ->)]]; try done.
  repeat (apply elem_of_cons in Hp as [->|Hp]; [done|]). by apply elem_of_nil in Hp.
Qed.

Lemma once_snoc l m : once l → (∀ m', m' ∈ l → same_value (id_of m) (id_of m') = false) → once (l ++ [m]).
Proof.
  intros Ho Hm a x b y c E. destruct c as [|z c _] using rev_ind.
  - replace (a ++ x :: b ++ [y]) with ((a ++ x :: b) ++ [y]) in E by (by rewrite <-app_assoc).
    apply app_inj_tail in E as [-> ->]. apply Hm. set_solver.
  - replace (a ++ x :: b ++ y :: c ++ [z]) with ((a ++ x :: b ++ y :: c) ++ [z]) in E
      by (rewrite <-!app_assoc; cbn; by rewrite <-!app_assoc).
    apply app_inj_tail in E as [-> _]. by eapply Ho.
Qed.

(** The deletions of one message's events are justified. *)
Lemma message_events_justified m evs s b e a :
  sqs_inv s → message_events m evs → known_before m evs s →
  evs = b ++ e :: a → justified (sqs_events s ++ b) e.
Proof.
  intros Hinv Hm [Hk _] E. destruct e as [x ok| | |]; [|done..].
  assert (head evs = Some (Delete x ok) → b = [] → x = m → justified (sqs_events s ++ b) (Delete x ok)) as Hhead.
  { intros Hh -> ->. rewrite app_nil_r. right. specialize (Hk ok Hh). apply set_has_true in Hk as (y & Hy & Hs).
    apply (inv_processed s Hinv) in Hy as (m' & Hm' & <-). eauto. }
  assert (∀ g bd v, b = [Handled m g bd v] → x = m → justified (sqs_events s ++ b) (Delete x ok)) as Hafter.
  { intros g bd v -> ->. right. exists m. rewrite handled_app. set_solver. }
  destruct Hm as [|bd v|reason c ok' Hc|reason c Hc|pre ok' [Hp|(bd & v & ->)]].
  - destruct b as [|? [|]]; simplify_eq/=. by apply Hhead.
  - destruct b as [|? [|? [|]]]; simplify_eq/=. by eapply Hafter.
  - destruct b as [|? [|? [|]]]; simplify_eq/=. left. eauto.
  - destruct b as [|? [|]]; simplify_eq/=.
  - repeat (apply elem_of_cons in Hp as [->|Hp]; [|]); [..|by apply elem_of_nil in Hp].
    + destruct b as [|? [|]]; simplify_eq/=.
    + destruct b as [|? [|? [|]]]; simplify_eq/=. by apply Hhead.
  - destruct b as [|? [|? [|? [|]]]]; simplify_eq/=. by eapply Hafter.
Qed.

Lemma turn_inv blocked m s r s' : turn blocked m s r s' → sqs_inv s → sqs_inv s'.
Proof.
  intros (evs & He & Hm & Hp & Hk & _) Hinv. pose proof (message_events_handled m evs Hm) as Hh.
  assert (handled (sqs_events s') = handled (sqs_events s) ++ if existsb is_handled evs then [m] else []) as Hh'.
  { by rewrite He, handled_app, Hh. }
  split.
  - rewrite He. apply accounted_app; [apply Hinv|]. intros b e a E. by eapply message_events_justified.
  - intros x. rewrite Hp, Hh'. destruct Hk as [_ Hk]. destruct (existsb is_handled evs).
    + unfold set_add. rewrite (Hk eq_refl). rewrite elem_of_app, (inv_processed s Hinv). set_solver.
    + rewrite app_nil_r. apply Hinv.
  - rewrite Hh'. destruct Hk as [_ Hk]. destruct (existsb is_handled evs); [|rewrite app_nil_r; apply Hinv].
    apply once_snoc; [apply Hinv|]. intros m' Hm'. apply not_true_is_false. intros Hs.
    specialize (Hk eq_refl). apply not_true_iff_false in Hk. apply Hk, set_has_true.
    exists (id_of m'). split; [|done]. apply (inv_processed s Hinv). eauto.
Qed.

Lemma process_from_inv messages blocked s :
  sqs_inv s → ∃ r s', process_from blocked messages s = (r, s') ∧ sqs_inv s'.
Proof.
  revert blocked s. induction messages as [|m ms IH]; intros blocked s Hi; cbn [process_from]; [by eexists _, s|].
  destruct (turn_spec blocked m s) as (r & s1 & E & Ht). apply turn_inv in Ht; [|done].
  unfold mbind, eff_bind. rewrite E. destruct r as [b'|t]; [by apply IH|eauto].
Qed.

Lemma poll_inv batches s : sqs_inv s → ∃ r s', poll batches s = (r, s') ∧ sqs_inv s'.
Proof.
  revert s. induction batches as [|b bs IH]; intros s Hi; cbn [poll]; [by eexists _, s|].
  destruct (process_from_inv b [] s Hi) as (r & s1 & E & Hi1). unfold mbind, eff_bind, processBatch. rewrite E.
  destruct r; [by apply IH|eauto].
Qed.

Lemma fresh_inv : sqs_inv {| processed := []; sqs_calls := []; sqs_events := [] |}.
Proof.
  split; cbn.
  - intros b e a E. by destruct b.
  - set_solver.
  - intros a m b m' c E. by destruct a.
Qed.

(** [C9] Nothing is lost: in every run of the worker, over any batches and
    whatever SQS and the gateway answer, a message is deleted only right after
    its body was stored in the dead-letter queue, in its group and under its
    message id, or when it, or an earlier message with its id, was handled. *)
Theorem sqs_nothing_lost batches :
  ∃ r s', poll batches {| processed := []; sqs_calls := []; sqs_events := [] |} = (r, s') ∧
    accounted (sqs_events s').
Proof. destruct (poll_inv batches _ fresh_inv) as (r & s' & E & Hi). exists r, s'. split; [done|apply Hi]. Qed.

(** [C22] At most once per process: no two hooks a worker handles, in any run,
    have the same id. *)
Theorem sqs_handles_once batches :
  ∃ r s', poll batches {| processed := []; sqs_calls := []; sqs_events := [] |} = (r, s') ∧
    once (handled (sqs_events s')).
Proof. destruct (poll_inv batches _ fresh_inv) as (r & s' & E & Hi). exists r, s'. split; [done|apply Hi]. Qed.

(** ** Backing off *)

Definition backoff_ok (r : Z) : bool :=
  bool_decide (hidden_for (num_of_Z r) = num_of_Z (Z.min (30 * 2 ^ (r - 1)) 900)).

Lemma backoff_small : forallb backoff_ok (seqZ 1 1024) = true.
Proof. by vm_compute. Qed.

Lemma hidden_for_exact r :
  1 ≤ r < 2 ^ 53 → hidden_for (num_of_Z r) = num_of_Z (Z.min (30 * 2 ^ (r - 1)) 900).
Proof.
  intros Hr. destruct (decide (r ≤ 1024)) as [Hs|Hs].
  - pose proof backoff_small as Hf. rewrite forallb_Forall_iff, Forall_forall in Hf.
    specialize (Hf r). unfold backoff_ok in Hf. rewrite bool_decide_eq_true in Hf.
    apply Hf. apply elem_of_seqZ. lia.
  - unfold hidden_for. rewrite num_sub_of_Z by (unfold safe; lia).
    assert (num_pow2 (num_of_Z (r - 1)) = SpecFloat.S754_infinity false) as ->.
    { unfold num_pow2. rewrite num_value_of_Z by (unfold safe; lia).
      rewrite (proj2 (Z.ltb_ge (r - 1) 1024)) by lia.
      rewrite num_of_Z_canon by (unfold safe; lia). by destruct (r - 1) eqn:E; [lia| |lia]. }
    rewrite Z.min_r; [by vm_compute|].
    assert (2 ^ 10 ≤ 2 ^ (r - 1)) by (apply Z.pow_le_mono_r; lia). lia.
Qed.

(** The decimal a count is sent as is read back. *)
Lemma receives_of_decimal m r :
  ApproximateReceiveCount m = Some (dec_of_Z r) → 0 ≤ r < 2 ^ 53 → receives_of m = num_of_Z r.
Proof.
  intros Hm Hr. unfold receives_of. rewrite Hm. change (default _ (Some ?x)) with x.
  apply js_number_dec; unfold safe; lia.
Qed.

(** [C40] The visibility timeout of a message held back doubles with each
    receive from 30 seconds and never exceeds 15 minutes; it is exact for every
    receive count the service can send. *)
Theorem sqs_backoff_bounds m r :
  ApproximateReceiveCount m = Some (dec_of_Z r) → 1 ≤ r < 2 ^ 53 →
  ∃ z, backoff_seconds m = num_of_Z z ∧ 30 ≤ z ≤ 900 ∧ z = Z.min (30 * 2 ^ (r - 1)) 900.
Proof.
  intros Hm Hr. unfold backoff_seconds. rewrite (receives_of_decimal m r) by (done || lia).
  eexists. split; [by apply hidden_for_exact|]. split; [|done].
  assert (0 < 2 ^ (r - 1)) by (apply Z.pow_pos_nonneg; lia). lia.
Qed.

(** A message whose body is the JSON [null] is held back like a transient
    failure, on every receive: it is neither handled nor dead-lettered by the
    worker, and it blocks its group for the rest of the batch. *)
Theorem sqs_null_body_blocks m blocked s :
  Body m = Some (js "null") → group_of m ∉ blocked →
  ∃ r s' ok, process_message blocked m s = (r, s') ∧
    sqs_events s' = sqs_events s ++ [Hide m (backoff_seconds m) ok] ∧
    (ok = true → r = Ok (group_of m :: blocked)).
Proof.
  intros Hb Hg. unfold process_message. cbv zeta. rewrite bool_decide_eq_false_2 by done.
  unfold try_message, pure. unfold mbind at 1, eff_bind at 1. rewrite Hb.
  assert (parse (Some (js "null")) = Err (type_error "Cannot read properties of null")) as -> by by vm_compute.
  cbn [permanent type_error]. unfold mbind, eff_bind.
  destruct (backOff_cases m s) as [[t ->]| ->]; eexists _, _, _; (split; [reflexivity|]); (split; [reflexivity|]); done.
Qed.
End worker.

(** ** Settings *)

(** [required] throws on a missing setting. *)
Definition sqs_config (env : environment) : result jstr sqs_settings :=
  queue ← env_required env "SQS_QUEUE_URL";
  dlq ← env_required env "SQS_DLQ_URL";
  Ok {| QUEUE_URL := queue; DLQ_URL := dlq;
        CLAIM_CHECK_URL := env_or env "CLAIM_CHECK_URL" (js "http://localhost:4001") |}.

Module Samples.
#[local] Existing Instance NodeCrypto.

Definition strict_buffers : BufferFrom := {| buffer_from_value := λ _, None |}.
Definition queue : Sqs :=
  {| sqs_delete := λ _ _, None; sqs_send := λ _ _, None; sqs_change_visibility := λ _ _ _, None |}.
#[local] Existing Instance strict_buffers.
#[local] Existing Instance queue.
Definition integral_pow : Pow2Approx := {| pow2_approx := λ _, SpecFloat.S754_nan |}.
#[local] Existing Instance integral_pow.
Definition urls : sqs_settings :=
  {| QUEUE_URL := js "https://sqs/q.fifo"; DLQ_URL := js "https://sqs/dlq.fifo"; CLAIM_CHECK_URL := js "http://gateway" |}.
#[local] Existing Instance urls.

Definition message (handle group : string) (receives : Z) (body : jstr) : sqs_message :=
  {| Body := Some body; MessageId := Some (js handle); ReceiptHandle := Some (js handle);
     MessageGroupId := Some (js group); ApproximateReceiveCount := Some (dec_of_Z receives) |}.

Definition inline (id : string) : jstr :=
  jq ("{'v':1,'id':'" +:+ id +:+ "','source_id':'demo','tenant_id':'acme','size':2,'body_base64':'aGk='}").
Definition fat (id : string) : jstr :=
  jq ("{'v':1,'id':'" +:+ id +:+ "','source_id':'demo','claim':'urn:ankusa:claim:v1:acme:01M39VMD8RA3C5HR4RBV67Y002','sha256':'8f434346648f6b96df89dda901c5176b10a6d83961dd3c1ac88b59b2dc327aa4'}").

Definition fresh : sqs_state := {| processed := []; sqs_calls := []; sqs_events := [] |}.

Definition outline (e : sqs_event) : jstr :=
  match e with
  | Delete m _ => js "delete " ++ default [] (ReceiptHandle m)
  | SendToDlq c _ => js "dlq " ++ default [] (MessageDeduplicationId c) ++ js " " ++ failure_reason c
  | Hide m _ _ => js "hide " ++ default [] (ReceiptHandle m)
  | Handled m _ _ v => js "handle " ++ default [] (ReceiptHandle m) ++ js " " ++ v
  end.

(** The gateway is down: the fat message of group [a] and the one behind it are
    held back, group [b] goes on, a duplicate is only deleted, and a message
    that is not JSON is dead-lettered. *)
Example batch :
  map outline (sqs_events (processBatch (net := ClaimCheck.Samples.gateway 503) ClaimCheck.Samples.options
    [message "m1" "a" 1 (fat "h1"); message "m2" "b" 1 (inline "h2"); message "m3" "a" 1 (inline "h3");
     message "m4" "b" 1 (inline "h2"); message "m5" "b" 1 (js "nope")] fresh).2)
  = map js ["hide m1"; "handle m2 inline"; "delete m2"; "hide m3"; "delete m4"; "dlq m5 message body is not JSON"; "delete m5"].
Proof. by vm_compute. Qed.

Lemma sqs_backoff_bounds_witness :
  ∃ z, backoff_seconds (message "m" "a" 4 []) = num_of_Z z ∧ 30 ≤ z ≤ 900 ∧ z = Z.min (30 * 2 ^ (4 - 1)) 900.
Proof. apply (sqs_backoff_bounds (message "m" "a" 4 []) 4); [reflexivity|lia]. Defined.

Lemma sqs_null_body_blocks_witness :
  ∃ r s' ok, process_message (net := ClaimCheck.Samples.gateway 200) ClaimCheck.Samples.options []
      (message "m" "a" 1 (js "null")) fresh = (r, s') ∧
    sqs_events s' = [Hide (message "m" "a" 1 (js "null")) (backoff_seconds (message "m" "a" 1 (js "null"))) ok] ∧
    (ok = true → r = Ok [js "a"]).
Proof.
  apply (sqs_null_body_blocks (net := ClaimCheck.Samples.gateway 200) ClaimCheck.Samples.options
           (message "m" "a" 1 (js "null")) [] fresh); [reflexivity|apply not_elem_of_nil].
Defined.
End Samples.
