(* ===== verification/SqsFacts.v ===== *)
(** * What a run of the SQS worker delivers

    Two facts about whole runs of [SqsWorker]: the bytes handed to the handler
    are the ones the message announces, whoever served them, and a batch without
    transient failures is taken off the queue completely and in order. *)
From stdpp Require Import base tactics list numbers option strings sets gmap.
From S2P Require Import Prelude JsNumber JsString Regex Base64 Sha256 Json JsonFacts Env ClaimRef Http JsValue ClaimCheck HookMessage SqsWorker.
Local Open Scope Z_scope.

(** ** Triples for the worker's effects

    From a state in [P], a computation ends in [P], error or not, and the value
    it returns is in [Q]. *)
Definition triple {E A} (P : sqs_state → Prop) (c : eff sqs_state E A) (Q : A → Prop) : Prop :=
  ∀ s, P s → P (c s).2 ∧ ∀ a, (c s).1 = Ok a → Q a.

Section triples.
Context (P : sqs_state → Prop).

Lemma triple_bind {E A B} (c : eff sqs_state E A) (f : A → eff sqs_state E B) Q R :
  triple P c Q → (∀ a, Q a → triple P (f a) R) → triple P (c ≫= f) R.
Proof.
  intros Hc Hf s Hs. destruct (Hc s Hs) as [Hp Hq]. unfold mbind, eff_bind.
  destruct (c s) as [[a|e] s1]; [|done]. by apply Hf; [apply Hq|].
Qed.

Lemma triple_weaken {E A} (c : eff sqs_state E A) Q R :
  triple P c Q → (∀ a, Q a → R a) → triple P c R.
Proof. intros Hc HQ s Hs. destruct (Hc s Hs). eauto. Qed.

Lemma triple_ret {E A} (a : A) (Q : A → Prop) : Q a → triple P (mret a : eff sqs_state E A) Q.
Proof. intros Ha s Hs. split; [done|]. by intros ? [= <-]. Qed.

Lemma triple_pure {E A} (r : result E A) : triple P (pure r) (λ a, r = Ok a).
Proof. intros s Hs. by destruct r. Qed.

Lemma triple_gets {E A} (f : sqs_state → A) : triple P (gets f : eff sqs_state E A) (λ _, True).
Proof. by intros s Hs. Qed.

Lemma triple_modify {E} (f : sqs_state → sqs_state) :
  (∀ s, P s → P (f s)) → triple P (modify f : eff sqs_state E unit) (λ _, True).
Proof. intros Hf s Hs. split; [by apply Hf|done]. Qed.

Lemma triple_command {E} (inject : thrown → E) outcome ev :
  (∀ b s, P s → P (sqs_emit (ev b) s)) → triple P (sqs_command inject outcome ev) (λ _, True).
Proof. intros Hev s Hs. unfold sqs_command. destruct (outcome _); cbn; auto. Qed.
End triples.

Section integrity.
Context {conf : sqs_settings} {crypto : Crypto} {net : OpenApiFetch} {buf : BufferFrom} {sqs : Sqs} {pow : Pow2Approx}.
Context (claimCheck : ClaimCheckClientOptions).

(** ** The bodies handed over *)

(** A claim's bytes have the digest of the message and are named after its
    claim; otherwise the body is the one in the message. *)
Definition resolved_body (m : sqs_message) (body : bytes) (via : jstr) : Prop :=
  ∃ msg, parse (Body m) = Ok msg ∧
    if truthy (field msg "claim")
    then field msg "sha256" = Some (JStr (sha256_hex body)) ∧
         ∃ ref p, display (field msg "claim") = Ok ref ∧ parseClaimRef ref = Ok p ∧ via = js "claim:" ++ claimId p
    else inline_body (field msg "body_base64") = Ok (body, via).

Definition faithful (s : sqs_state) : Prop :=
  ∀ m g body via, Handled m g body via ∈ sqs_events s → g = group_of m ∧ resolved_body m body via.

Lemma claimed_body_via claim sha h bs v h' :
  claimed_body claimCheck claim sha h = (Ok (bs, v), h') →
  ∃ ref p, display (Some claim) = Ok ref ∧ parseClaimRef ref = Ok p ∧ v = js "claim:" ++ claimId p.
Proof.
  unfold claimed_body, lift, map_error, mbind, http_bind.
  destruct (display (Some claim)) as [s|]; [|done].
  destruct (parseClaimRef s) as [p|] eqn:Ep; [|done].
  destruct (redeem_value _ s sha h) as [[bs'|] h2]; [|done]. intros [= <- <- <-]. eauto.
Qed.

Lemma parse_claim_digest body msg :
  parse body = Ok msg → truthy (field msg "claim") = true → truthy (field msg "sha256") = true.
Proof.
  unfold parse. destruct (json_parse _) as [x|]; [|done].
  unfold mbind, result_bind. destruct (hook_fields x) as [o|]; [|done].
  destruct (is_one _); [|by destruct (display _)].
  unfold require. destruct (truthy (field o "claim")) eqn:Ec, (truthy (field o "sha256")) eqn:Es; cbn;
    intros [= <-]; congruence.
Qed.

Lemma sqs_resolveBody_resolved m msg h body via h' :
  parse (Body m) = Ok msg → resolveBody claimCheck msg h = (Ok (body, via), h') → resolved_body m body via.
Proof.
  intros Hp Hr. exists msg. split; [done|]. pose proof (parse_claim_digest _ _ Hp) as Hd.
  unfold resolveBody in Hr. destruct (field msg "claim") as [c|]; [|by injection Hr].
  destruct (truthy (Some c)) eqn:Ec.
  - specialize (Hd eq_refl). destruct (field msg "sha256") as [d|]; [|done]. rewrite Hd in Hr. cbn in Hr.
    split; [|by apply claimed_body_via in Hr]. apply claimed_body_digest in Hr. by subst d.
  - destruct (field msg "sha256"); by injection Hr.
Qed.

Lemma faithful_emit e s :
  (∀ m g body via, e = Handled m g body via → g = group_of m ∧ resolved_body m body via) →
  faithful s → faithful (sqs_emit e s).
Proof.
  intros He Hs m g body via Hin. cbn in Hin. apply elem_of_app in Hin as [Hin|Hin]; [by apply Hs|].
  apply list_elem_of_singleton in Hin. by apply He.
Qed.

Lemma faithful_command {E} (inject : thrown → E) outcome ev :
  (∀ b, is_handled (ev b) = false) → triple faithful (sqs_command inject outcome ev) (λ _, True).
Proof.
  intros Hev. apply triple_command. intros b s. apply faithful_emit. intros m g body via E'.
  specialize (Hev b). by rewrite E' in Hev.
Qed.

Lemma faithful_client m msg :
  parse (Body m) = Ok msg →
  triple faithful (with_client (resolveBody claimCheck msg)) (λ bv, resolved_body m bv.1 bv.2).
Proof.
  intros Hp s Hs. unfold with_client. destruct (resolveBody claimCheck msg _) as [r h] eqn:Er. cbn.
  split; [exact Hs|]. intros [b v] ->. by eapply sqs_resolveBody_resolved.
Qed.

Lemma faithful_try m : triple faithful (try_message claimCheck m (group_of m)) (λ _, True).
Proof.
  eapply triple_bind; [apply triple_pure|]. intros msg Hp.
  eapply triple_bind; [apply triple_gets|]. intros known _.
  apply (triple_bind _ _ _ (λ _, True)); [|intros _ _; by apply faithful_command].
  destruct known; [by apply triple_ret|].
  eapply triple_bind; [exact (faithful_client m msg Hp)|]. intros bv Hbv.
  apply (triple_bind _ _ _ (λ _, True)); [|intros _ _; apply triple_modify; intros s Hs; exact Hs].
  eapply triple_bind; [apply triple_pure|]. intros _ _.
  apply triple_modify. intros s. apply faithful_emit. by intros ???? [= <- <- <- <-].
Qed.

Lemma faithful_message blocked m :
  triple faithful (process_message claimCheck blocked m) (λ _, True).
Proof.
  assert (∀ b : list jstr, triple faithful (_ ← backOff m; mret b) (λ _, True)) as Hback.
  { intros b. eapply triple_bind; [by apply faithful_command|]. intros _ _. by apply triple_ret. }
  unfold process_message. cbv zeta. case_bool_decide; [apply Hback|].
  intros s Hs. destruct (faithful_try m s Hs) as [Ht _].
  destruct (try_message _ _ _ s) as [[[]|e] s1]; [done|]. cbn in Ht.
  destruct (SqsWorker.permanent e) as [reason|]; [|by apply Hback].
  refine (triple_bind faithful _ _ (λ _, True) (λ _, True) _ _ s1 Ht); [|intros _ _; by apply triple_ret].
  apply (triple_bind _ _ _ (λ _, True)); [|intros _ _]; by apply faithful_command.
Qed.

Lemma faithful_from messages blocked : triple faithful (process_from claimCheck blocked messages) (λ _, True).
Proof.
  revert blocked. induction messages as [|m ms IH]; intros blocked; [by apply triple_ret|].
  eapply triple_bind; [apply faithful_message|]. intros b _. apply IH.
Qed.

Lemma faithful_poll batches : triple faithful (poll claimCheck batches) (λ _, True).
Proof.
  induction batches as [|b bs IH]; [by apply triple_ret|].
  eapply triple_bind; [apply faithful_from|]. intros _ _. apply IH.
Qed.

(** [C23] Integrity from end to end: in every run of the worker, whatever SQS
    and the claim-check gateway answer, a body handed to the handler is the one
    its message announces: of a claim message, bytes that have the message's
    own [sha256] and are reported under the claim's id; of any other, the
    decoded [body_base64].  The handler is told the message's own group. *)
Theorem sqs_body_integrity batches m g body via :
  Handled m g body via ∈
    sqs_events (poll claimCheck batches {| processed := []; sqs_calls := []; sqs_events := [] |}).2 →
  g = group_of m ∧ resolved_body m body via.
Proof. apply (faithful_poll batches). intros ???? []%elem_of_nil. Qed.
End integrity.

(** ** A batch without transient failures *)

Section drain.
Context {conf : sqs_settings} {crypto : Crypto} {net : OpenApiFetch} {buf : BufferFrom} {sqs : Sqs} {pow : Pow2Approx}.
Context (claimCheck : ClaimCheckClientOptions).

(** Reading a message, fetching its body and printing it. *)
Definition read_hook (m : sqs_message) : http hook_error unit :=
  msg ← lift (parse (Body m));
  _ ← resolveBody claimCheck msg;
  _ ← lift (displays [field msg "id"; field msg "source_id"; field msg "tenant_id"; field msg "size"]);
  mret tt.

(** It works or fails for good, whatever was asked of the gateway before. *)
Definition settles (m : sqs_message) : Prop :=
  ∀ h, match (read_hook m h).1 with Ok _ => True | Err e => is_Some (permanent e) end.

(** SQS deletes what it is told to and stores what the dead-letter queue gets. *)
Hypothesis deletes : ∀ h m, sqs_delete h m = None.
Hypothesis stores : ∀ h c, sqs_send h c = None.

Lemma settles_try m s :
  settles m →
  match try_message claimCheck m (group_of m) s with
  | (Ok _, s') => ∃ pre, sqs_events s' = sqs_events s ++ pre ++ [Delete m true] ∧ deleted pre = []
  | (Err e, s') => is_Some (permanent e) ∧ sqs_events s' = sqs_events s
  end.
Proof.
  intros Hm. specialize (Hm (sqs_calls s)). revert Hm.
  unfold read_hook, try_message, pure, lift, gets, with_client, handleHook, remove, sqs_command, modify, pure,
    mbind, eff_bind, http_bind.
  destruct (parse (Body m)) as [msg|e]; [|done].
  destruct (set_has (field msg "id") (processed s)).
  { intros _. cbn. rewrite deletes. by exists []. }
  destruct (resolveBody claimCheck msg (sqs_calls s)) as [[bv|e] h1]; [|done].
  destruct (displays _) as [ss|e]; [|done]. intros _. cbn. rewrite deletes.
  exists [Handled m (group_of m) bv.1 bv.2]. cbn. by rewrite <-app_assoc.
Qed.

Lemma settles_message m s :
  settles m →
  ∃ s' evs, process_message claimCheck [] m s = (Ok [], s') ∧ sqs_events s' = sqs_events s ++ evs ∧ deleted evs = [m].
Proof.
  intros Hm. pose proof (settles_try m s Hm) as Ht. unfold process_message. cbv zeta.
  rewrite bool_decide_eq_false_2 by apply not_elem_of_nil.
  destruct (try_message _ _ _ s) as [[u|e] s1].
  - destruct Ht as (pre & He & Hd). exists s1, (pre ++ [Delete m true]). split_and!; [done..|].
    unfold deleted in *. by rewrite omap_app, Hd.
  - destruct Ht as [[reason ->] He]. unfold deadLetter, remove, sqs_command, mbind, eff_bind. rewrite stores, deletes.
    eexists _, [SendToDlq _ true; Delete m true]. split_and!; [done| |done].
    cbn. by rewrite He, <-app_assoc.
Qed.

Lemma drains_from messages s :
  Forall settles messages →
  ∃ s' evs, process_from claimCheck [] messages s = (Ok tt, s') ∧
    sqs_events s' = sqs_events s ++ evs ∧ deleted evs = messages.
Proof.
  intros Hms. revert s. induction Hms as [|m ms Hm _ IH]; intros s.
  { exists s, []. by rewrite app_nil_r. }
  destruct (settles_message m s Hm) as (s1 & evs1 & E1 & He1 & Hd1).
  destruct (IH s1) as (s2 & evs2 & E2 & He2 & Hd2).
  exists s2, (evs1 ++ evs2). cbn [process_from]. unfold mbind, eff_bind. rewrite E1, E2. split_and!; [done| |].
  - by rewrite He2, He1, app_assoc.
  - unfold deleted in *. by rewrite omap_app, Hd1, Hd2.
Qed.

(** [C26] Progress: when SQS carries out the deletions and the dead-letter sends
    and no message of a batch fails transiently, [processBatch] returns and has
    taken every message of the batch off the queue, in the order received; none
    is held back, however many of them fail permanently. *)
Theorem sqs_drains messages s :
  Forall settles messages →
  ∃ s' evs, processBatch claimCheck messages s = (Ok tt, s') ∧
    sqs_events s' = sqs_events s ++ evs ∧ deleted evs = messages.
Proof. apply drains_from. Qed.
End drain.

Module Samples.
#[local] Existing Instance NodeCrypto.
#[local] Existing Instance SqsWorker.Samples.strict_buffers.
#[local] Existing Instance SqsWorker.Samples.queue.
#[local] Existing Instance SqsWorker.Samples.integral_pow.
#[local] Existing Instance SqsWorker.Samples.urls.
Import SqsWorker.Samples.

(** A claim that is gone, a message that is not JSON, an inline one. *)
Definition mixed : list sqs_message :=
  [message "m1" "a" 1 (fat "h1"); message "m2" "a" 1 (js "nope"); message "m3" "a" 1 (inline "h3")].

Lemma sqs_drains_witness :
  ∃ s' evs, processBatch (net := ClaimCheck.Samples.gateway 404) ClaimCheck.Samples.options mixed fresh = (Ok tt, s') ∧
    sqs_events s' = evs ∧ deleted evs = mixed.
Proof.
  apply (sqs_drains (net := ClaimCheck.Samples.gateway 404) ClaimCheck.Samples.options); [done..|].
  do 3 (apply Forall_cons; split; [intros h; vm_compute; first [done|by eexists]|]). by apply Forall_nil.
Defined.

(** The claim's bytes are served and have the announced digest. *)
Lemma sqs_body_integrity_witness :
  group_of (message "m1" "a" 1 (fat "h1")) = js "a" ∧
  resolved_body (message "m1" "a" 1 (fat "h1")) [104; 105] (js "claim:01M39VMD8RA3C5HR4RBV67Y002").
Proof.
  assert (Handled (message "m1" "a" 1 (fat "h1")) (js "a") [104; 105] (js "claim:01M39VMD8RA3C5HR4RBV67Y002") ∈
    sqs_events (poll (net := ClaimCheck.Samples.gateway 200) ClaimCheck.Samples.options
                  [[message "m1" "a" 1 (fat "h1")]] fresh).2) as Hin by (vm_compute; left).
  split; [reflexivity|]. apply (sqs_body_integrity ClaimCheck.Samples.options _ _ _ _ _ Hin).
Defined.
End Samples.
