(* ===== verification/FleetRun.v ===== *)
(** * Concurrent handlers of the recording worker

    [examples/fleet-e2e/consumer/src/worker.ts] starts a handler for every
    delivery and does not wait for it: up to thirty-two handlers are between two
    of their [await]s at a time, and they share the table.  Here the process is
    a step relation in which any handler may take the next step; the process may
    also be killed, or lose a reply of the database after the statement ran.
    The gateway may answer a call as it likes, by everything it was asked
    before, by this process or by others.  Whatever the order of steps, every
    acknowledged hook is in the table; and without such faults the run is one of
    the sequential runs. *)
From stdpp Require Import base tactics list numbers option strings sets gmap.
From S2P Require Import Prelude JsNumber JsString Regex Base64 Sha256 Json JsonFacts Env ClaimRef Http ClaimCheck HookMessage RabbitWorker.
Local Open Scope Z_scope.

(** ** The process *)

(** Where a handler is: before its body is resolved, before its statement ran,
    before it read the reply, settled, or killed with the process. *)
Inductive phase :=
| Resolving
| Recording (msg : list (jstr * json)) (body : bytes) (via : jstr)
| Replied (r : result hook_error unit)
| Settled (st : settlement)
| Lost.

(** The handlers in the order of their deliveries, the table, the calls the
    claim-check gateway has received, and the statements that ran, in order. *)
Record fleet := Fleet {
  handlers : list (amqp_message * phase);
  rows : table;
  http_calls : list call;
  executed : list (jstr * row);
}.

Definition fresh_fleet : fleet := Fleet [] ∅ [] [].

(** [chan.ack(msg)], or the [catch] block. *)
Definition settled (r : result hook_error unit) : settlement :=
  match r with Ok _ => Acked | Err e => settle_error e end.

Definition lose (h : amqp_message * phase) : amqp_message * phase :=
  match h.2 with Settled _ => h | _ => (h.1, Lost) end.

Section fleet.
Context {crypto : Crypto} {net : OpenApiFetch} {buf : BufferFrom} {pg : PgText} (claimCheck : ClaimCheckClientOptions).

(** The statement a query ran, if it succeeded. *)
Definition ran (r : result hook_error unit) (msg : list (jstr * json)) (body : bytes) (via : jstr) : list (jstr * row) :=
  match r, new_row msg body via with Ok _, Some kr => [kr] | _, _ => [] end.

(** One step; [true] marks the two faults.  Another client of the gateway may
    call it at any time. *)
Inductive step (s : fleet) : bool → fleet → Prop :=
| Delivered m :
    step s false (Fleet (handlers s ++ [(m, Resolving)]) (rows s) (http_calls s) (executed s))
| Resolved l1 m l2 msg b v h :
    handlers s = l1 ++ (m, Resolving) :: l2 →
    fleet_resolve claimCheck m (http_calls s) = (Ok (msg, (b, v)), h) →
    step s false (Fleet (l1 ++ (m, Recording msg b v) :: l2) (rows s) h (executed s))
| Unresolved l1 m l2 e h :
    handlers s = l1 ++ (m, Resolving) :: l2 →
    fleet_resolve claimCheck m (http_calls s) = (Err e, h) →
    step s false (Fleet (l1 ++ (m, Settled (settle_error e)) :: l2) (rows s) h (executed s))
| Queried l1 m l2 msg b v err r t :
    handlers s = l1 ++ (m, Recording msg b v) :: l2 →
    record err msg b v (rows s) = (r, t) →
    step s false (Fleet (l1 ++ (m, Replied r) :: l2) t (http_calls s) (executed s ++ ran r msg b v))
| ReplyRead l1 m l2 r :
    handlers s = l1 ++ (m, Replied r) :: l2 →
    step s false (Fleet (l1 ++ (m, Settled (settled r)) :: l2) (rows s) (http_calls s) (executed s))
| ReplyLost l1 m l2 e :
    handlers s = l1 ++ (m, Replied (Ok tt)) :: l2 →
    step s true (Fleet (l1 ++ (m, Replied (Err (OtherError e))) :: l2) (rows s) (http_calls s) (executed s))
| CalledElsewhere x :
    step s false (Fleet (handlers s) (rows s) (http_calls s ++ [x]) (executed s))
| Killed :
    step s true (Fleet (map lose (handlers s)) (rows s) (http_calls s) (executed s)).

(** The states of a run; without faults if [faults] is [false]. *)
Inductive reachable (faults : bool) : fleet → Prop :=
| Started : reachable faults fresh_fleet
| Stepped s f s' : reachable faults s → step s f s' → (f = true → faults = true) → reachable faults s'.

(** ** What is recorded *)

(** The key and the id of the hook in a delivery, if it can be recorded. *)
Definition hook_of (m : amqp_message) : option (jstr * jstr) :=
  match decoded m with
  | Ok msg => (λ kr, (kr.1, ankusa_id kr.2)) <$> new_row msg [] []
  | Err _ => None
  end.

Definition hook_done (h : amqp_message * phase) : option (jstr * jstr) :=
  match h.2 with
  | Replied (Ok _) | Settled Acked => hook_of h.1
  | _ => None
  end.

(** A row that holds what a delivery announced. *)
Definition written (m : amqp_message) (k : jstr) (r : row) : Prop :=
  ∃ msg, decoded m = Ok msg ∧ resolved msg (row_body r) (row_via r) ∧ new_row msg (row_body r) (row_via r) = Some (k, r).

Definition handler_ok (h : amqp_message * phase) : Prop :=
  match h.2 with
  | Recording msg b v => decoded h.1 = Ok msg ∧ resolved msg b v
  | _ => True
  end.

Record fleet_inv (s : fleet) : Prop := {
  inv_rows : record_all (executed s) ∅ = Some (rows s);
  inv_handlers : Forall handler_ok (handlers s);
  inv_written : Forall (λ kr, ∃ m, m ∈ (handlers s).*1 ∧ written m kr.1 kr.2) (executed s);
  inv_hooks : omap hook_done (handlers s) ⊆+ (λ kr, (kr.1, ankusa_id kr.2)) <$> executed s;
}.

Lemma new_row_inv msg b v k r :
  new_row msg b v = Some (k, r) →
  row_body r = b ∧ row_via r = v ∧ first_row r ∧
  ∀ b' v', (λ kr, (kr.1, ankusa_id kr.2)) <$> new_row msg b' v' = Some (k, ankusa_id r).
Proof.
  unfold new_row. destruct (existsb _ _); [done|]. intros E. apply bind_Some in E as (k' & -> & E). apply bind_Some in E as (i & -> & E).
  apply bind_Some in E as (src & -> & E). injection E as <- <-. done.
Qed.

Lemma written_hook m k r : written m k r → hook_of m = Some (k, ankusa_id r).
Proof. intros (msg & Hd & _ & En). unfold hook_of. rewrite Hd. by apply new_row_inv in En as (_ & _ & _ & ->). Qed.

Lemma record_all_app log log' t : record_all (log ++ log') t = record_all log t ≫= record_all log'.
Proof.
  revert t. induction log as [|[k r] log IH]; intros t; [done|]. cbn [app record_all].
  destruct (upsert k r t) as [t'|]; [|done]. apply IH.
Qed.

(** A query ran its statement, or left the table alone. *)
Lemma record_cases err msg b v t r t' :
  record err msg b v t = (r, t') →
  (∃ k x, r = Ok tt ∧ new_row msg b v = Some (k, x) ∧ upsert k x t = Some t' ∧ ran r msg b v = [(k, x)]) ∨
  (∃ e, r = Err e ∧ t' = t ∧ ran r msg b v = []).
Proof.
  unfold record, ran. destruct err as [e|]; [intros [= <- <-]; eauto|].
  destruct (new_row msg b v) as [[k x]|]; [|intros [= <- <-]; eauto].
  destruct (upsert k x t) as [t1|] eqn:Eu; intros [= <- <-]; eauto 10.
Qed.

Abbreviation hooks l := ((λ kr : list Z * row, (kr.1, ankusa_id kr.2)) <$> l) (only parsing).

Lemma omap_cons_app {A B} (f : A → option B) x l : omap f (x :: l) = option_list (f x) ++ omap f l.
Proof. cbn. by destruct (f x). Qed.

(** One handler moves on, running the statements [new]. *)
Lemma update_inv s l1 m p p' l2 t h new :
  fleet_inv s → handlers s = l1 ++ (m, p) :: l2 → handler_ok (m, p') →
  record_all new (rows s) = Some t → Forall (λ kr, written m kr.1 kr.2) new →
  option_list (hook_done (m, p')) ⊆+ option_list (hook_done (m, p)) ++ hooks new →
  fleet_inv (Fleet (l1 ++ (m, p') :: l2) t h (executed s ++ new)).
Proof.
  intros [Hr Hh Hw Hs] E Hp Hnew Hwr Hsub. rewrite E in *.
  assert ((l1 ++ (m, p') :: l2).*1 = (l1 ++ (m, p) :: l2).*1) as Efst by by rewrite !fmap_app.
  split; cbn [handlers rows executed].
  - by rewrite record_all_app, Hr.
  - rewrite Forall_app, Forall_cons in *. naive_solver.
  - rewrite Efst. apply Forall_app. split; [done|]. eapply Forall_impl; [exact Hwr|]. intros kr Hkr. exists m.
    split; [|done]. rewrite fmap_app. set_solver.
  - rewrite fmap_app. rewrite omap_app, omap_cons_app in *.
    transitivity ((omap hook_done l1 ++ option_list (hook_done (m, p)) ++ omap hook_done l2) ++ hooks new);
      [|by apply submseteq_app].
    rewrite <-!app_assoc. apply submseteq_app; [done|]. rewrite (Permutation_app_comm (omap hook_done l2)).
    rewrite !app_assoc. by apply submseteq_app.
Qed.

Lemma update_inv_same s l1 m p p' l2 h :
  fleet_inv s → handlers s = l1 ++ (m, p) :: l2 → handler_ok (m, p') →
  option_list (hook_done (m, p')) ⊆+ option_list (hook_done (m, p)) →
  fleet_inv (Fleet (l1 ++ (m, p') :: l2) (rows s) h (executed s)).
Proof.
  intros Hi E Hp Hsub. rewrite <-(app_nil_r (executed s)). eapply update_inv; try done. by rewrite app_nil_r.
Qed.

Lemma resolve_Ok m h msg b v h' :
  fleet_resolve claimCheck m h = (Ok (msg, (b, v)), h') → decoded m = Ok msg ∧ resolved msg b v.
Proof.
  unfold fleet_resolve, fleet_resolveBody, lift, mbind, http_bind. destruct (decoded m) as [msg'|]; [|done].
  destruct (resolveBody claimCheck msg' h) as [[[b' v']|] h1] eqn:E; [|done].
  intros [= <- <- <- <-]. split; [done|]. by eapply resolveBody_resolved.
Qed.

Lemma lose_hooks l : omap hook_done (map lose l) ⊆+ omap hook_done l.
Proof.
  induction l as [|[m p] l IH]; [done|]. cbn [map]. rewrite !omap_cons_app.
  apply submseteq_app; [|done]. destruct p as [| | |[]|]; try done; cbn; apply submseteq_nil_l.
Qed.

Lemma fleet_step_inv s f s' : step s f s' → fleet_inv s → fleet_inv s'.
Proof.
  intros Hstep Hi. destruct Hstep as [m|l1 m l2 msg b v h E Er|l1 m l2 e h E Er|l1 m l2 msg b v err r t E Er|l1 m l2 r E|l1 m l2 e E|x|].
  - destruct Hi as [Hr Hh Hw Hs]. split; cbn [handlers rows executed]; [done| | |].
    + apply Forall_app. by split; [|repeat constructor].
    + eapply Forall_impl; [exact Hw|]. intros kr (m' & Hm & Hkr). exists m'. split; [|done]. rewrite fmap_app. set_solver.
    + by rewrite omap_app, app_nil_r.
  - eapply update_inv_same; try done. by eapply resolve_Ok.
  - eapply update_inv_same; try done. cbn. by destruct e as [|c|]; cbn; try destruct (retryable c).
  - assert (decoded m = Ok msg ∧ resolved msg b v) as [Hd Hres].
    { pose proof (inv_handlers s Hi) as Hh. rewrite E, Forall_app, Forall_cons in Hh. by destruct Hh as (_ & Hh & _). }
    destruct (record_cases _ _ _ _ _ _ _ Er) as [(k & x & -> & En & Eu & ->)|(e & -> & -> & ->)].
    + pose proof (new_row_inv _ _ _ _ _ En) as (Hb & Hv & _).
      assert (written m k x) as Hw by (exists msg; by rewrite Hb, Hv).
      eapply update_inv; try done.
      * cbn. by rewrite Eu.
      * by repeat constructor.
      * cbn. by rewrite (written_hook m k x Hw).
    + rewrite app_nil_r. eapply update_inv_same; done.
  - eapply update_inv_same; try done. destruct r as [[]|e]; [done|]. cbn. by destruct e as [|c|]; cbn; try destruct (retryable c).
  - eapply update_inv_same; try done. apply submseteq_nil_l.
  - by destruct Hi.
  - destruct Hi as [Hr Hh Hw Hs]. split; cbn [handlers rows executed]; [done| | |].
    + apply Forall_map. eapply Forall_impl; [exact Hh|]. by intros [m []].
    + assert ((map lose (handlers s)).*1 = (handlers s).*1) as ->; [|done].
      rewrite <-list_fmap_compose. apply list_fmap_ext. by intros ? [m []] _.
    + etransitivity; [apply lose_hooks|done].
Qed.

Lemma reachable_inv faults s : reachable faults s → fleet_inv s.
Proof.
  induction 1 as [|s f s' _ IH Hstep _]; [|by eapply fleet_step_inv].
  split; cbn; by constructor.
Qed.

(** ** Every acknowledged hook arrived *)

Lemma omap_submseteq {A B} (f : A → option B) l k : l ⊆+ k → omap f l ⊆+ omap f k.
Proof.
  induction 1 as [|x l k _ IH|x y l|x l k _ IH|l k j _ IH1 _ IH2]; rewrite ?omap_cons_app.
  - done.
  - by apply submseteq_app.
  - by rewrite !app_assoc, (Permutation_app_comm (option_list (f x))).
  - etransitivity; [exact IH|]. by apply submseteq_inserts_l.
  - by transitivity (omap f k).
Qed.

(** The ids among hooks with a key. *)
Definition ids_of (k : jstr) (l : list (jstr * jstr)) : list jstr :=
  omap (λ ki, if decide (ki.1 = k) then Some ki.2 else None) l.

(** The hooks of the deliveries that were acknowledged. *)
Definition acknowledged (s : fleet) : list (jstr * jstr) :=
  omap (λ h, match h.2 with Settled Acked => hook_of h.1 | _ => None end) (handlers s).

Definition delivered (s : fleet) : list amqp_message := (handlers s).*1.

Lemma acknowledged_executed s : fleet_inv s → acknowledged s ⊆+ hooks (executed s).
Proof.
  intros Hi. etransitivity; [|exact (inv_hooks s Hi)]. unfold acknowledged.
  induction (handlers s) as [|[m p] l IH]; [done|]. rewrite !omap_cons_app. apply submseteq_app; [|done].
  destruct p as [| |[]|[]|]; try done; apply submseteq_nil_l.
Qed.

Lemma ids_of_hooks k log : ids_of k (hooks log) = ankusa_id <$> of_key k log.
Proof.
  unfold ids_of, of_key. induction log as [|[k' r] log IH]; [done|]. rewrite fmap_cons, omap_cons_app, IH, filter_cons.
  cbn [fst snd]. by destruct (decide (k' = k)).
Qed.

Lemma executed_first s : fleet_inv s → Forall (λ kr, first_row kr.2) (executed s).
Proof.
  intros Hi. eapply Forall_impl; [exact (inv_written s Hi)|]. intros [k r] (m & _ & msg & _ & _ & En). cbn in *.
  by apply new_row_inv in En as (_ & _ & Hf & _).
Qed.

(** [C10] Every acknowledged hook arrived, in every run: whatever the order in
    which handlers proceed, how often the process is killed, messages are
    delivered again, statements fail or replies are lost, the row of a key
    counts at least as many deliveries as were acknowledged for it and lists
    the id of each of them; and a row lists no id twice, and none but those of
    hooks that were delivered with its key. *)
Theorem fleet_acknowledged_recorded s k :
  reachable true s →
  Z.of_nat (length (ids_of k (acknowledged s))) ≤ default 0 (deliveries <$> rows s !! k) ∧
  (∀ i, i ∈ ids_of k (acknowledged s) → ∃ r, rows s !! k = Some r ∧ i ∈ hook_ids r) ∧
  (∀ r, rows s !! k = Some r →
     NoDup (hook_ids r) ∧ ∀ i, i ∈ hook_ids r → ∃ m, m ∈ delivered s ∧ hook_of m = Some (k, i)).
Proof.
  intros Hi%reachable_inv. pose proof (table_counts _ _ k (executed_first s Hi) (inv_rows s Hi)) as Ht.
  assert (ids_of k (acknowledged s) ⊆+ ankusa_id <$> of_key k (executed s)) as Hsub.
  { rewrite <-ids_of_hooks. by apply omap_submseteq, acknowledged_executed. }
  destruct (of_key k (executed s)) as [|first rest] eqn:Ek.
  - rewrite Ht. apply submseteq_nil_r in Hsub. rewrite Hsub. split_and!; [done| |done]. intros i []%elem_of_nil.
  - destruct Ht as (r & Er & Hd & _ & Hn & Hids). rewrite Er. split_and!.
    + cbn. rewrite Hd. apply submseteq_length in Hsub. rewrite length_fmap in Hsub. lia.
    + intros i Hin. exists r. split; [done|]. apply Hids. by eapply elem_of_submseteq.
    + intros ? [= <-]. split; [done|]. intros i [x [-> Hx]]%Hids%list_elem_of_fmap.
      rewrite <-Ek in Hx. unfold of_key in Hx. apply list_elem_of_fmap in Hx as ([k' x'] & -> & Hx).
      apply list_elem_of_filter in Hx as [Hk Hx]. cbn in Hk. subst k'.
      pose proof (inv_written s Hi) as Hw. rewrite Forall_forall in Hw. destruct (Hw _ Hx) as (m & Hm & Hwr).
      exists m. split; [done|]. by apply written_hook.
Qed.
End fleet.

(** ** Runs without faults are sequential runs *)

Section linear.
Context {crypto : Crypto} {net : OpenApiFetch} {buf : BufferFrom} {pg : PgText} (claimCheck : ClaimCheckClientOptions).

(** The deliveries handled one after the other, each with what the connection
    to the database does and the calls the gateway has received by then: the
    settlements and the table. *)
Fixpoint sequential (l : list (option thrown * list call * amqp_message)) (t : table) : list settlement * table :=
  match l with
  | [] => ([], t)
  | (err, h, m) :: l =>
      let '((st, t1), _) := fleet_consume claimCheck err m t h in
      let '(sts, t2) := sequential l t1 in
      (st :: sts, t2)
  end.

(** An operation only adds to the calls. *)
Definition appends {E A} (m : http E A) : Prop := ∀ h, h `prefix_of` (m h).2.

Lemma appends_lift {E A} (r : result E A) : appends (lift r).
Proof. intros h. reflexivity. Qed.

Lemma appends_ret {E A} (a : A) : appends (mret a : http E A).
Proof. intros h. reflexivity. Qed.

Lemma appends_bind {E A B} (m : http E A) (f : A → http E B) : appends m → (∀ a, appends (f a)) → appends (m ≫= f).
Proof.
  intros Hm Hf h. specialize (Hm h). unfold mbind, http_bind. destruct (m h) as [[a|e] h1]; [|done].
  etransitivity; [exact Hm|apply Hf].
Qed.

Lemma appends_map_error {E E' A} (f : E → E') (m : http E A) : appends m → appends (map_error f m).
Proof. intros Hm h. specialize (Hm h). unfold map_error. by destruct (m h). Qed.

Lemma appends_fetch {E} ref : appends (perform (E := E) (claim_check_http claimCheck) (claim_call claimCheck ref)).
Proof. intros h. by apply prefix_app_r. Qed.

Lemma resolve_appends m : appends (fleet_resolve claimCheck m).
Proof.
  unfold fleet_resolve, fleet_resolveBody, resolveBody, claimed_body, redeem_value, redeem, fetchBytes.
  repeat first [apply appends_bind; [|intros ?] | apply appends_map_error | apply appends_lift | apply appends_ret
               | apply appends_fetch | case_match].
Qed.

(** What became of a handler, once that is decided. *)
Definition fate (h : amqp_message * phase) : option (amqp_message * settlement) :=
  match h.2 with
  | Replied r => Some (h.1, settled r)
  | Settled st => Some (h.1, st)
  | _ => None
  end.

(** A delivery's place in the sequential run: what its statement and its claim
    met, and how it was settled. *)
Abbreviation decision := (option thrown * list call * amqp_message * settlement)%type (only parsing).
Abbreviation fates d := ((λ x : decision, (x.1.2, x.2)) <$> d) (only parsing).

(** The body a handler is about to record is the one it was given when the
    gateway had received some of the calls. *)
Definition recording_ok (calls : list call) (h : amqp_message * phase) : Prop :=
  match h.2 with
  | Recording msg b v => ∃ h0, h0 `prefix_of` calls ∧ (fleet_resolve claimCheck h.1 h0).1 = Ok (msg, (b, v))
  | _ => True
  end.

Record linear_inv (s : fleet) (order : list decision) : Prop := {
  lin_run : sequential order.*1 ∅ = (order.*2, rows s);
  lin_fates : fates order ≡ₚ omap fate (handlers s);
  lin_calls : Forall (λ x, x.1.1.2 `prefix_of` http_calls s) order;
  lin_recording : Forall (recording_ok (http_calls s)) (handlers s);
  lin_alive : Forall (λ h, h.2 ≠ Lost) (handlers s);
}.

Lemma recording_mono calls calls' h : calls `prefix_of` calls' → recording_ok calls h → recording_ok calls' h.
Proof.
  destruct h as [m []]; try done. intros Hp (h0 & Hh & E). exists h0. split; [by etransitivity|done].
Qed.

Lemma sequential_snoc l err h m t :
  sequential (l ++ [(err, h, m)]) t =
  let '(sts, t1) := sequential l t in
  let '((st, t2), _) := fleet_consume claimCheck err m t1 h in
  (sts ++ [st], t2).
Proof.
  revert t. induction l as [|[[err' h'] m'] l IH]; intros t; cbn [app sequential].
  - by destruct (fleet_consume _ _ _ _ _) as [[st t2] ?].
  - destruct (fleet_consume _ err' m' t h') as [[st t1] ?]. rewrite IH.
    destruct (sequential l t1) as [sts t2]. by destruct (fleet_consume _ _ _ _ _) as [[? ?] ?].
Qed.

(** One handler moves on, its fate being decided or not. *)
Lemma update_linear s order l1 m p p' l2 t h ex new :
  linear_inv s order → handlers s = l1 ++ (m, p) :: l2 → http_calls s `prefix_of` h →
  recording_ok h (m, p') → p' ≠ Lost →
  sequential (order.*1 ++ new.*1) ∅ = (order.*2 ++ new.*2, t) →
  Forall (λ x, x.1.1.2 `prefix_of` h) new →
  option_list (fate (m, p')) ≡ₚ option_list (fate (m, p)) ++ fates new →
  linear_inv (Fleet (l1 ++ (m, p') :: l2) t h ex) (order ++ new).
Proof.
  intros [Hr Hf Hc Hrec Ha] E Hh Hp Hl Hs Hnew Hfate. rewrite E in *.
  assert (∀ l, Forall (recording_ok (http_calls s)) l → Forall (recording_ok h) l) as Hmono.
  { intros l Hall. eapply Forall_impl; [exact Hall|]. intros ?. by apply recording_mono. }
  split; cbn [handlers rows http_calls].
  - by rewrite !fmap_app.
  - rewrite fmap_app, Hf, !omap_app, !omap_cons_app, Hfate, <-!app_assoc.
    f_equiv. f_equiv. apply Permutation_app_comm.
  - apply Forall_app. split; [|done]. eapply Forall_impl; [exact Hc|]. intros x Hx. cbn in *. by transitivity (http_calls s).
  - rewrite Forall_app, Forall_cons in *. naive_solver.
  - rewrite Forall_app, Forall_cons in *. naive_solver.
Qed.

Lemma update_linear_same s order l1 m p p' l2 h ex :
  linear_inv s order → handlers s = l1 ++ (m, p) :: l2 → http_calls s `prefix_of` h →
  recording_ok h (m, p') → p' ≠ Lost → fate (m, p') = fate (m, p) →
  linear_inv (Fleet (l1 ++ (m, p') :: l2) (rows s) h ex) order.
Proof.
  intros Hi E Hh Hp Hl Hfate. rewrite <-(app_nil_r order). eapply update_linear; try done.
  - rewrite !app_nil_r. apply Hi.
  - by rewrite app_nil_r, Hfate.
Qed.

(** The moment a delivery's fate is decided is a whole sequential handling. *)
Lemma decide_linear s order err h m st t :
  linear_inv s order → (fleet_consume claimCheck err m (rows s) h).1 = (st, t) →
  sequential (order.*1 ++ [(err, h, m)]) ∅ = (order.*2 ++ [st], t).
Proof.
  intros Hi E. rewrite sequential_snoc, (lin_run s order Hi).
  destruct (fleet_consume _ err m (rows s) h) as [[st' t'] ?]. by injection E as -> ->.
Qed.

Lemma step_linear s s' order :
  step claimCheck s false s' → linear_inv s order → ∃ order', linear_inv s' order'.
Proof.
  intros Hstep Hi. inversion Hstep as
    [m|l1 m l2 msg b v h E Er|l1 m l2 e h E Er|l1 m l2 msg b v err r t E Er|l1 m l2 r E| |x|]; subst; clear Hstep.
  - exists order. destruct Hi as [Hr Hf Hc Hrec Ha]. split; cbn [handlers rows http_calls]; [done| |done| |].
    + by rewrite omap_app, app_nil_r.
    + apply Forall_app. by split; [|repeat constructor].
    + apply Forall_app. by split; [|repeat constructor].
  - pose proof (resolve_appends m (http_calls s)) as Hh. rewrite Er in Hh.
    exists order. eapply update_linear_same; try done. exists (http_calls s). cbn [fst]. by rewrite Er.
  - pose proof (resolve_appends m (http_calls s)) as Hh. rewrite Er in Hh.
    exists (order ++ [(None, http_calls s, m, settle_error e)]). eapply update_linear; try done.
    + apply (decide_linear s order None (http_calls s) m); [done|]. unfold fleet_consume. by rewrite Er.
    + by repeat constructor.
  - pose proof (lin_recording s order Hi) as Hrec. rewrite E, Forall_app, Forall_cons in Hrec.
    destruct Hrec as (_ & (h0 & Hh0 & Er0) & _). cbn [fst] in Er0.
    exists (order ++ [(err, h0, m, settled r)]). eapply update_linear; try done.
    + apply (decide_linear s order err h0 m); [done|]. unfold fleet_consume.
      destruct (fleet_resolve claimCheck m h0) as [r' ?]. cbn [fst] in Er0. rewrite Er0. cbn [fst snd]. rewrite Er.
      by destruct r.
    + by repeat constructor.
  - exists order. by eapply update_linear_same.
  - exists order. destruct Hi as [Hr Hf Hc Hrec Ha]. split; cbn [handlers rows http_calls]; try done.
    + eapply Forall_impl; [exact Hc|]. intros y Hy. by apply prefix_app_r.
    + eapply Forall_impl; [exact Hrec|]. intros h. apply recording_mono. by apply prefix_app_r.
Qed.

(** [C14] Concurrency is harmless: when the process is not killed and no reply is
    lost, any run that has settled all its deliveries, in whatever order its
    handlers proceeded, settled each of them as, and left the table that, some
    order of handling the deliveries one after the other would have; each
    delivery meets the gateway as it was at some moment of the run, after the
    calls it had received by then. *)
Theorem fleet_linearizable s :
  reachable claimCheck false s → Forall (λ h, ∃ st, h.2 = Settled st) (handlers s) →
  ∃ order : list (option thrown * list call * amqp_message * settlement),
    handlers s ≡ₚ (λ x, (x.1.2, Settled x.2)) <$> order ∧
    Forall (λ x, x.1.1.2 `prefix_of` http_calls s) order ∧
    sequential order.*1 ∅ = (order.*2, rows s).
Proof.
  intros Hr Hdone.
  assert (∃ order, linear_inv s order) as [order Hi].
  { clear Hdone. induction Hr as [|s f s' _ [order IH] Hstep Hf]; [exists []; by split; repeat constructor|].
    destruct f; [by specialize (Hf eq_refl)|]. by eapply step_linear. }
  exists order. split_and!; [|apply Hi..].
  trans ((λ x : amqp_message * settlement, (x.1, Settled x.2)) <$> fates order).
  2: { by rewrite <-list_fmap_compose. }
  rewrite (lin_fates s order Hi). clear -Hdone. induction Hdone as [|[m p] l [st Hst] _ IH]; [done|].
  cbn in Hst. subst p. rewrite omap_cons_app. cbn. by f_equiv.
Qed.
End linear.

(** ** Playing a schedule *)

(** Which handler goes on, by its place among the deliveries. *)
Inductive move :=
| DeliverMove (m : amqp_message)
| ResolveMove (i : nat)
| QueryMove (i : nat) (err : option thrown)
| ReadMove (i : nat)
| LoseMove (i : nat) (e : thrown)
| KillMove.

Definition is_fault (mv : move) : bool := match mv with LoseMove _ _ | KillMove => true | _ => false end.

Section play.
Context {crypto : Crypto} {net : OpenApiFetch} {buf : BufferFrom} {pg : PgText} (claimCheck : ClaimCheckClientOptions).

Definition with_phase (i : nat) (p : phase) (m : amqp_message) (s : fleet) : list (amqp_message * phase) :=
  take i (handlers s) ++ (m, p) :: drop (S i) (handlers s).

Definition play_move (mv : move) (s : fleet) : option fleet :=
  match mv with
  | DeliverMove m => Some (Fleet (handlers s ++ [(m, Resolving)]) (rows s) (http_calls s) (executed s))
  | ResolveMove i =>
      match handlers s !! i with
      | Some (m, Resolving) =>
          match fleet_resolve claimCheck m (http_calls s) with
          | (Ok (msg, (b, v)), h) => Some (Fleet (with_phase i (Recording msg b v) m s) (rows s) h (executed s))
          | (Err e, h) => Some (Fleet (with_phase i (Settled (settle_error e)) m s) (rows s) h (executed s))
          end
      | _ => None
      end
  | QueryMove i err =>
      match handlers s !! i with
      | Some (m, Recording msg b v) =>
          let '(r, t) := record err msg b v (rows s) in
          Some (Fleet (with_phase i (Replied r) m s) t (http_calls s) (executed s ++ ran r msg b v))
      | _ => None
      end
  | ReadMove i =>
      match handlers s !! i with
      | Some (m, Replied r) =>
          Some (Fleet (with_phase i (Settled (settled r)) m s) (rows s) (http_calls s) (executed s))
      | _ => None
      end
  | LoseMove i e =>
      match handlers s !! i with
      | Some (m, Replied (Ok _)) =>
          Some (Fleet (with_phase i (Replied (Err (OtherError e))) m s) (rows s) (http_calls s) (executed s))
      | _ => None
      end
  | KillMove => Some (Fleet (map lose (handlers s)) (rows s) (http_calls s) (executed s))
  end.

Lemma play_move_step mv s s' : play_move mv s = Some s' → step claimCheck s (is_fault mv) s'.
Proof.
  unfold play_move, with_phase. destruct mv as [m|i|i err|i|i e|].
  - intros [= <-]. constructor.
  - destruct (handlers s !! i) as [[m []]|] eqn:Ei; try done. apply take_drop_middle in Ei.
    destruct (fleet_resolve _ _ _) as [[[msg [b v]]|e] h] eqn:Er; intros [= <-];
      [by eapply Resolved|by eapply Unresolved].
  - destruct (handlers s !! i) as [[m []]|] eqn:Ei; try done. apply take_drop_middle in Ei.
    destruct (record _ _ _ _ _) as [r t] eqn:Er. intros [= <-]. by eapply Queried.
  - destruct (handlers s !! i) as [[m []]|] eqn:Ei; try done. apply take_drop_middle in Ei.
    intros [= <-]. by eapply ReplyRead.
  - destruct (handlers s !! i) as [[m [| |[[]|]| |]]|] eqn:Ei; try done. apply take_drop_middle in Ei.
    intros [= <-]. by eapply ReplyLost.
  - intros [= <-]. constructor.
Qed.

Fixpoint play (mvs : list move) (s : fleet) : option fleet :=
  match mvs with
  | [] => Some s
  | mv :: mvs => s1 ← play_move mv s; play mvs s1
  end.

Lemma play_reachable mvs faults s s' :
  reachable claimCheck faults s → play mvs s = Some s' → (existsb is_fault mvs = true → faults = true) →
  reachable claimCheck faults s'.
Proof.
  revert s. induction mvs as [|mv mvs IH]; intros s Hr; cbn [play existsb]; [by intros [= <-]|].
  intros (s1 & E1 & E)%bind_Some Hf. apply play_move_step in E1. refine (IH s1 _ E _).
  - eapply Stepped; [done|done|]. intros Hmv. apply Hf. by rewrite Hmv.
  - intros Hmvs. apply Hf. by rewrite Hmvs, orb_true_r.
Qed.
End play.

Module Samples.
#[local] Existing Instance NodeCrypto.
#[local] Existing Instance RabbitWorker.Samples.strict_buffers.
#[local] Existing Instance RabbitWorker.Samples.plain_pg.
#[local] Existing Instance RabbitWorker.Samples.gateway_ok.
Import RabbitWorker.Samples.

(** Two hooks of one key, the second recorded first, the first given up by a
    kill after its statement ran and delivered again. *)
Definition bumpy : list move :=
  [ DeliverMove (hook "h1" "k1"); DeliverMove (hook "h2" "k1"); ResolveMove 0; ResolveMove 1; QueryMove 1 None;
    QueryMove 0 None; ReadMove 1; KillMove; DeliverMove (hook "h1" "k1"); ResolveMove 2; QueryMove 2 None; ReadMove 2 ].

Definition bumpy_end : fleet := default fresh_fleet (play ClaimCheck.Samples.options bumpy fresh_fleet).

Example bumpy_rows :
  match rows bumpy_end !! js "k1" with
  | Some r => deliveries r = 3 ∧ hook_ids r = [js "h2"; js "h1"]
  | None => False
  end ∧ acknowledged bumpy_end = [(js "k1", js "h2"); (js "k1", js "h1")].
Proof. by vm_compute. Qed.

Lemma fleet_acknowledged_recorded_witness :
  2 ≤ default 0 (deliveries <$> rows bumpy_end !! js "k1").
Proof.
  apply (fleet_acknowledged_recorded ClaimCheck.Samples.options bumpy_end (js "k1")).
  apply (play_reachable ClaimCheck.Samples.options bumpy true fresh_fleet); [constructor|by vm_compute|done].
Defined.

(** Interleaved handlers, a message that is not JSON among them, no fault. *)
Definition calm : list move :=
  [ DeliverMove (hook "h1" "k1"); DeliverMove garbage; DeliverMove (hook "h2" "k1"); ResolveMove 2; ResolveMove 0;
    QueryMove 2 None; ResolveMove 1; QueryMove 0 (Some (Thrown (js "connection refused"))); ReadMove 0; ReadMove 2 ].

Definition calm_end : fleet := default fresh_fleet (play ClaimCheck.Samples.options calm fresh_fleet).

Lemma fleet_linearizable_witness :
  ∃ order : list (option thrown * list call * amqp_message * settlement),
    handlers calm_end ≡ₚ (λ x, (x.1.2, Settled x.2)) <$> order ∧
    Forall (λ x, x.1.1.2 `prefix_of` http_calls calm_end) order ∧
    sequential ClaimCheck.Samples.options order.*1 ∅ = (order.*2, rows calm_end).
Proof.
  apply (fleet_linearizable ClaimCheck.Samples.options).
  - apply (play_reachable ClaimCheck.Samples.options calm false fresh_fleet); [constructor|by vm_compute|by vm_compute].
  - vm_compute. repeat (constructor; [by eexists|]). constructor.
Defined.
End Samples.
