(* ===== verification/EventRouting.v ===== *)
(** * The event-routing example ([examples/event-routing])

    An HTTP receiver of signed deliveries ([receiver/src/receiver.ts]) and a
    Kafka consumer ([worker/src/worker.ts]), both thin users of the SDK. *)
From stdpp Require Import base tactics list numbers option strings gmap.
From S2P Require Import Prelude JsNumber JsString Base64 Sha256 Json Env Headers Signature Message.
Local Open Scope Z_scope.

(** ** The receiver *)

Record http_request := {
  rq_method : jstr;
  rq_url : jstr;
  rq_headers : list (jstr * header_value);
  rq_chunks : list bytes;
}.

(** The answer's status, and the line logged for it. *)
Definition answer : Type := Z * option jstr.

(** A header value where a template literal prints it: an array is joined by
    commas. *)
Definition header_text (h : header_value) : jstr :=
  match h with
  | HUndefined => js "null"
  | HValue s => s
  | HValues l => join_with 44 l
  end.

(** [req.headers["x-ankusa-event-type"] ?? "null"] *)
Definition event_type_text (hs : list (jstr * header_value)) : jstr :=
  header_text (default HUndefined (obj_get (js "x-ankusa-event-type") hs)).

Section receiver.
Context {lower : LowerCase} {crypto : Crypto}.
(** [SINK_WHSEC], and the clock at the request. *)
Context (secret : jstr) (clock : num).

Definition options (r : http_request) : ReceiveDeliveryOptions :=
  {| r_headers := HRecord (rq_headers r); r_body := PBytes (concat (rq_chunks r));
     r_secrets := Some (OneSecret secret); r_allowUnsigned := None; r_toleranceSeconds := None; r_now := None |}.

(** [error instanceof InvalidSignatureError], [error instanceof MissingHookIdError] *)
Definition is_signature_error (e : receive_error) : option InvalidSignatureError :=
  match e with ReceiveSignature e => Some e | _ => None end.
Definition is_missing_id_error (e : receive_error) : bool :=
  match e with ReceiveMissingId _ => true | _ => false end.

(** The [end] handler; [None] is the rethrow of any other error. *)
Definition on_end (r : http_request) : option answer :=
  if bool_decide (rq_method r ≠ js "POST") || bool_decide (rq_url r ≠ js "/invoices") then Some (404, None)
  else
    match receiveDelivery clock (options r) with
    | Ok d =>
        Some (204, Some (js "received id=" ++ id (delivery d) ++ js " source=" ++ source (delivery d) ++
          js " event_type=" ++ event_type_text (rq_headers r) ++
          js " verified=" ++ (if verified d then js "true" else js "false") ++
          js " body=" ++ utf8_decode (concat (rq_chunks r))))
    | Err error =>
        match is_signature_error error with
        | Some e => Some (401, Some (js "refused: " ++ message e))
        | None => if is_missing_id_error error then Some (400, None) else None
        end
    end.

(** The process refuses to start without a secret. *)
Definition starts (env : option jstr) : option jstr :=
  match env with Some (c :: s) => Some (c :: s) | _ => None end.

(** [C37] The receiver answers every request, and accepts ([204]) exactly the
    [POST /invoices] whose signature under its secret is genuine at the clock
    and that names its hook; it logs such a delivery as verified. Everything
    else is refused by status: [404] for another route, [401] for a signature,
    [400] for a missing id. *)
Theorem receiver_answers r :
  headers_wf (HRecord (rq_headers r)) →
  ∃ status line, on_end r = Some (status, line) ∧ status ∈ [204; 400; 401; 404] ∧
    (status = 204 ↔ rq_method r = js "POST" ∧ rq_url r = js "/invoices" ∧
       (∃ v, genuine clock (verify_options (options r)) v) ∧ is_ok (parseHeaders (HRecord (rq_headers r))) = true) ∧
    (status = 404 ↔ ¬ (rq_method r = js "POST" ∧ rq_url r = js "/invoices")).
Proof.
  intros Hwf. unfold on_end. destruct (decide (rq_method r = js "POST" ∧ rq_url r = js "/invoices")) as [[Hm Hu]|Hn].
  2: { exists 404, None. split; [|split; [set_solver|split; [|done]]].
       - destruct (bool_decide _) eqn:E1; [done|]. destruct (bool_decide (rq_url r ≠ _)) eqn:E2; [done|].
         apply bool_decide_eq_false in E1, E2. exfalso. apply Hn. by split; apply dec_stable.
       - split; [done|]. naive_solver. }
  rewrite !bool_decide_eq_false_2 by (intros Hne; by apply Hne). cbn [orb].
  setoid_rewrite <-(verifySignature_Ok clock (verify_options (options r))); [|done].
  assert (receiveDelivery clock (options r) =
    match verifySignature clock (verify_options (options r)) with
    | Ok _ => match parseHeaders (HRecord (rq_headers r)) with
              | Ok h => Ok {| delivery := h; verified := true |}
              | Err e => Err (ReceiveMissingId e)
              end
    | Err e => Err (ReceiveSignature e)
    end) as ->.
  { unfold receiveDelivery. cbn [options r_secrets secret_items r_headers]. by destruct (verifySignature _ _). }
  destruct (verifySignature clock _) as [v|e]; [destruct (parseHeaders _) as [h|e]|];
    eexists _, _; (split; [done|]); (split; [set_solver|]); (split; [|split; [done|intros Hno; by destruct Hno]]); split;
    try done.
  - intros _. split_and!; eauto.
  - by intros (_ & _ & _ & Hok).
  - by intros (_ & _ & [v Hv] & _).
Qed.
End receiver.

(** ** The Kafka worker *)

Section worker.
Context {crypto : Crypto}.

(** [eachMessage]: nothing for a tombstone, else the line it prints, or the
    error it hands to the Kafka client. *)
Definition eachMessage (topic : jstr) (value : option bytes) : result InvalidMessageError (option jstr) :=
  match value with
  | None => Ok None
  | Some v =>
      hook ← decodeMessage (PBytes v);
      let body := match msg_body hook with None => js "(claim)" | Some b => utf8_decode b end in
      Ok (Some (js "received topic=" ++ topic ++ js " id=" ++ msg_id hook ++
                js " event_type=" ++ default (js "null") (event_type hook) ++ js " body=" ++ body))
  end.
End worker.

Definition topics : list jstr := [js "events.invoice.paid"; js "events.other"].

(** [(process.env.KAFKA_BROKERS ?? "redpanda:9092").split(",")] *)
Definition brokers (env : environment) : list jstr := split_on 44 (env_or env "KAFKA_BROKERS" (js "redpanda:9092")).

Inductive kafka_command :=
| Connect
| Subscribe (topic : jstr) (fromBeginning : bool)
| Run.

(** What [main] asks of the consumer, in order. *)
Definition kafka_setup : list kafka_command := [Connect] ++ map (λ t, Subscribe t true) topics ++ [Run].

Module Samples.
#[local] Existing Instance AsciiKelvin.
#[local] Existing Instance NodeCrypto.

Definition request (url : string) : http_request :=
  {| rq_method := js "POST"; rq_url := js url;
     rq_headers := [(js "x-ankusa-id", HValue (js "01a0")); (js "x-ankusa-source", HValue (js "demo"));
       (js "webhook-id", HValue (js "msg_p5jXN8AQM9LWM0D4loKWxJek")); (js "webhook-timestamp", HValue (js "1614265330"));
       (js "webhook-signature", HValue Vector.entry); (js "x-ankusa-event-type", HValue (js "invoice.paid"))];
     rq_chunks := [js "{"; drop 1 Vector.sample_text] |}.

Example receiver_vectors :
  (fst <$> on_end Vector.secret (num_of_Z 1614265330) (request "/invoices")) = Some 204 ∧
  (fst <$> on_end Vector.other_secret (num_of_Z 1614265330) (request "/invoices")) = Some 401 ∧
  (fst <$> on_end Vector.secret (num_of_Z 1614265330) (request "/other")) = Some 404.
Proof. by vm_compute. Qed.

Lemma receiver_answers_witness :
  ∃ status line, on_end Vector.secret (num_of_Z 1614265330) (request "/invoices") = Some (status, line) ∧
    status ∈ [204; 400; 401; 404] ∧
    (status = 204 ↔ rq_method (request "/invoices") = js "POST" ∧ rq_url (request "/invoices") = js "/invoices" ∧
       (∃ v, genuine (num_of_Z 1614265330) (verify_options (options Vector.secret (request "/invoices"))) v) ∧
       is_ok (parseHeaders (HRecord (rq_headers (request "/invoices")))) = true) ∧
    (status = 404 ↔ ¬ (rq_method (request "/invoices") = js "POST" ∧ rq_url (request "/invoices") = js "/invoices")).
Proof.
  apply (receiver_answers Vector.secret (num_of_Z 1614265330) (request "/invoices")).
  intros s Hs. vm_compute in Hs. injection Hs as <-. apply (bool_decide_unpack _). by vm_compute.
Defined.

Example kafka_line :
  eachMessage (js "events.other") (Some (utf8_encode
    (jq "{'v':1,'id':'01a0','source_id':'demo','received_at':1,'size':2,'body_base64':'aGk='}")))
  = Ok (Some (js "received topic=events.other id=01a0 event_type=null body=hi")).
Proof. by vm_compute. Qed.
End Samples.
