(* ===== verification/ControlPanel.v ===== *)
(** * The control panel's page ([control_panel/assets/js/app.js])

    The script of the demo's LiveView page: a progress bar while a page loads
    and, in development, clicks that open an editor while [c] or [d] is held.
    Every live-reload attachment adds listeners with a variable of their own;
    the browser calls listeners in the order they were added until one stops
    the propagation. *)
From stdpp Require Import base tactics list numbers option strings.
From S2P Require Import Prelude JsNumber JsString.
Local Open Scope Z_scope.

Inductive page_event :=
| PageLoadingStart
| PageLoadingStop
| Attached (reloader : nat)
| KeyDown (key : list Z)
| KeyUp
| Click (target : nat).

Inductive page_action :=
| TopbarShow (delay : Z)
| TopbarHide
| EnableServerLogs (reloader : nat)
| PreventDefault
| OpenEditorAtCaller (reloader target : nat)
| OpenEditorAtDef (reloader target : nat).

(** The listeners of one attachment; [None] is a [keyDown] that is [undefined]
    or [null]. *)
Record listener := { l_reloader : nat; l_keyDown : option (list Z) }.

Record page := { listeners : list listener; liveReloader : option nat }.

Section page.
(** [process.env.NODE_ENV === "development"], fixed when the script is built. *)
Context (development : bool).

(** What the script does when it is loaded, in order. *)
Inductive boot_action :=
| NewLiveSocket (path : jstr) (longPollFallbackMs : Z) (csrf_token : option jstr)
| TopbarConfig (barColor shadowColor : jstr)
| Listen (event : jstr)
| Connect
| ExposeLiveSocket.

(** [meta] is the page's [csrf-token] element, if there is one, with its
    [content] attribute, if it has one; without the element the script throws a
    [TypeError] before it does anything. *)
Definition boot (meta : option (option jstr)) : result jstr (list boot_action) :=
  match meta with
  | None => Err (js "Cannot read properties of null (reading 'getAttribute')")
  | Some token =>
      Ok ([ NewLiveSocket (js "/live") 2500 token; TopbarConfig (js "#29d") (js "rgba(0, 0, 0, .3)");
            Listen (js "phx:page-loading-start"); Listen (js "phx:page-loading-stop"); Connect; ExposeLiveSocket ] ++
          if development then [Listen (js "phx:live_reload:attached")] else [])
  end.

Definition fresh_page : page := {| listeners := []; liveReloader := None |}.

Definition set_key (key : option jstr) (l : listener) : listener := {| l_reloader := l_reloader l; l_keyDown := key |}.

(** The click listeners; one that acts calls [stopImmediatePropagation]. *)
Fixpoint on_click (target : nat) (ls : list listener) : list page_action :=
  match ls with
  | [] => []
  | l :: ls =>
      if bool_decide (l_keyDown l = Some (js "c")) then [PreventDefault; OpenEditorAtCaller (l_reloader l) target]
      else if bool_decide (l_keyDown l = Some (js "d")) then [PreventDefault; OpenEditorAtDef (l_reloader l) target]
      else on_click target ls
  end.

Definition dispatch (e : page_event) (p : page) : page * list page_action :=
  match e with
  | PageLoadingStart => (p, [TopbarShow 300])
  | PageLoadingStop => (p, [TopbarHide])
  | Attached r =>
      if development then
        ({| listeners := listeners p ++ [{| l_reloader := r; l_keyDown := None |}]; liveReloader := Some r |},
         [EnableServerLogs r])
      else (p, [])
  | KeyDown key => ({| listeners := map (set_key (Some key)) (listeners p); liveReloader := liveReloader p |}, [])
  | KeyUp => ({| listeners := map (set_key None) (listeners p); liveReloader := liveReloader p |}, [])
  | Click target => (p, on_click target (listeners p))
  end.

Fixpoint page_after (evs : list page_event) (p : page) : page :=
  match evs with [] => p | e :: evs => page_after evs (dispatch e p).1 end.

(** ** What a click does *)

(** The key that is held after a history: the last one pressed, unless a key
    was released since. *)
Definition press (held : option jstr) (e : page_event) : option jstr :=
  match e with KeyDown key => Some key | KeyUp => None | _ => held end.
Definition held (evs : list page_event) : option jstr := fold_left press evs None.

Definition is_attached (e : page_event) : bool := match e with Attached _ => true | _ => false end.

(** The first attachment knows the held key; a later one knows it or nothing. *)
Definition listening (r : nat) (key : option jstr) (p : page) : Prop :=
  ∃ ls, listeners p = {| l_reloader := r; l_keyDown := key |} :: ls ∧
        Forall (λ l, l_keyDown l = key ∨ l_keyDown l = None) ls.

Lemma dispatch_listening r key p e : listening r key p → listening r (press key e) (dispatch e p).1.
Proof.
  intros (ls & Hl & Hls). destruct e as [| |r'|k| |t]; cbn; try by exists ls.
  - destruct development; [|by exists ls]. exists (ls ++ [{| l_reloader := r'; l_keyDown := None |}]).
    cbn. rewrite Hl. split; [done|]. apply Forall_app. split; [done|]. constructor; [by right|constructor].
  - exists (map (set_key (Some k)) ls). cbn. rewrite Hl. split; [done|]. apply Forall_forall.
    intros l (l' & -> & _)%list_elem_of_fmap. by left.
  - exists (map (set_key None) ls). cbn. rewrite Hl. split; [done|]. apply Forall_forall.
    intros l (l' & -> & _)%list_elem_of_fmap. by left.
Qed.

Lemma page_after_listening evs r key p :
  listening r key p → listening r (fold_left press evs key) (page_after evs p).
Proof.
  revert key p. induction evs as [|e evs IH]; intros key p Hp; [done|]. cbn. by apply IH, dispatch_listening.
Qed.

Lemma page_after_app evs evs' p : page_after (evs ++ evs') p = page_after evs' (page_after evs p).
Proof. revert p. induction evs as [|e evs IH]; intros p; cbn; [done|apply IH]. Qed.

Lemma no_listeners evs p :
  forallb (λ e, negb (is_attached e)) evs = true → listeners p = [] → listeners (page_after evs p) = [].
Proof.
  revert p. induction evs as [|e evs IH]; intros p; cbn [forallb page_after]; [done|].
  intros [He Hevs]%andb_true_iff Hp. apply IH; [done|]. by destruct e; cbn in *; rewrite ?Hp.
Qed.

Lemma on_click_ignored target key ls :
  key ≠ Some (js "c") → key ≠ Some (js "d") →
  Forall (λ l, l_keyDown l = key ∨ l_keyDown l = None) ls → on_click target ls = [].
Proof.
  intros Hc Hd. induction 1 as [|l ls Hl _ IH]; cbn [on_click]; [done|].
  rewrite !bool_decide_eq_false_2 by (destruct Hl as [->| ->]; done). done.
Qed.
End page.

Lemma production_listeners evs p : listeners p = [] → listeners (page_after false evs p) = [].
Proof.
  revert p. induction evs as [|e evs IH]; intros p Hp; cbn [page_after]; [done|].
  apply IH. by destruct e; cbn; rewrite ?Hp.
Qed.

(** In development a click opens one editor, through the first reloader
    attached: at the caller while [c] is held, at the definition while [d] is,
    and none otherwise, however often reloaders attach again and whatever keys
    were pressed before; in production it never opens one. *)
Theorem click_opens_one (development : bool) before r since target :
  forallb (λ e, negb (is_attached e)) before = true →
  (dispatch development (Click target)
     (page_after development (before ++ Attached r :: since) fresh_page)).2 =
  if development then
    if bool_decide (held since = Some (js "c")) then [PreventDefault; OpenEditorAtCaller r target]
    else if bool_decide (held since = Some (js "d")) then [PreventDefault; OpenEditorAtDef r target]
    else []
  else [].
Proof.
  intros Hb. cbn [dispatch snd]. destruct development.
  - rewrite page_after_app. cbn [page_after dispatch fst]. rewrite (no_listeners true before fresh_page Hb eq_refl).
    destruct (page_after_listening true since r None
      {| listeners := [{| l_reloader := r; l_keyDown := None |}]; liveReloader := Some r |}) as (ls & Hl & Hls);
      [by exists []|].
    cbn [app]. rewrite Hl. cbn [on_click l_keyDown l_reloader]. fold (held since) in *.
    do 2 (case_bool_decide; [done|]). by eapply on_click_ignored.
  - rewrite production_listeners; done.
Qed.

Module Samples.
(** The progress bar listens before the socket connects. *)
Example boot_order :
  match boot true (Some (Some (js "t0ken"))) with
  | Ok (NewLiveSocket _ _ (Some t) :: TopbarConfig _ _ :: Listen _ :: Listen _ :: Connect :: ExposeLiveSocket :: rest) =>
      t = js "t0ken" ∧ length rest = 1%nat
  | _ => False
  end ∧ boot false None = Err (js "Cannot read properties of null (reading 'getAttribute')").
Proof. by vm_compute. Qed.

Lemma click_opens_one_witness :
  (dispatch true (Click 7) (page_after true ([PageLoadingStart] ++ Attached 1 ::
     [KeyDown (js "c"); Attached 2; KeyUp; KeyDown (js "d"); Attached 3]) fresh_page)).2 =
  [PreventDefault; OpenEditorAtDef 1 7].
Proof.
  apply (click_opens_one true [PageLoadingStart] 1
           [KeyDown (js "c"); Attached 2; KeyUp; KeyDown (js "d"); Attached 3] 7). reflexivity.
Defined.
End Samples.
