(* ===== verification/VectorData.v ===== *)
(** * The repository's conformance vectors as data

    The cases of [conformance/cases/*.json], [features.json] and
    [sdks.json], one string per case with its white space removed and ['] for
    the double quote; [VectorRun] reads them. *)
From stdpp Require Import base list strings.

Definition admin_cases : list string := [
  "{'id':'admin.audit.list.ok','feature':'admin.audit','operation':'admin_audit_list','input':{'gateway':{'status':200,'body':{'json':{'entries':[{'seq':42,'at':'2026-10-18T12:00:00Z','actor':'ops@acme','remote_ip':'10.0.0.7','action':'route.update','tenant':null,'resource':'stripe','before_hash':'a1','after_hash':'b2','request_id':'req_1','result':'ok','revision':3,'detail':{}}],'next_cursor':null}}}},'expect':{'ok':{'entries':[{'seq':42,'at':'2026-10-18T12:00:00Z','actor':'ops@acme','remote_ip':'10.0.0.7','action':'route.update','tenant':null,'resource':'stripe','before_hash':'a1','after_hash':'b2','request_id':'req_1','result':'ok','revision':3,'detail':{}}],'next_cursor':null},'requests':[{'method':'GET','path':'/v1/audit'}]}}";
  "{'id':'admin.audit.list.filters_in_input_order','feature':'admin.audit','operation':'admin_audit_list','input':{'gateway':{'status':200,'body':{'json':{'entries':[],'next_cursor':null}}},'params':{'tenant':'acme','action':'source.create','limit':10,'cursor':'c1'}},'expect':{'ok':{'entries':[],'next_cursor':null},'requests':[{'method':'GET','path':'/v1/audit?tenant=acme&action=source.create&limit=10&cursor=c1'}]}}";
  "{'id':'admin.audit.forbidden_needs_tenant_star','feature':'admin.audit','operation':'admin_audit_list','input':{'gateway':{'status':403,'body':{'json':{'error':'forbidden','scope':'tenant:*'}}},'params':{'tenant':'other'}},'expect':{'error':{'class':'AdminRejectedError','retryable':false,'status':403,'code':'forbidden','scope':'tenant:*'}}}";
  "{'id':'admin.auth.bearer_header_rides','feature':'admin.operations','operation':'admin_health','input':{'client':{'headers':{'authorization':'Bearer t0k3n'}},'gateway':{'status':200,'body':{'json':{'status':'ok','instance':'default','roles':['edge']}}}},'expect':{'ok':{'status':'ok','instance':'default','roles':['edge']},'requests':[{'method':'GET','path':'/health','headers':{'authorization':'Bearer t0k3n'}}]}}";
  "{'id':'admin.auth.unauthorized','feature':'admin.errors','operation':'admin_dlq_list','input':{'gateway':{'status':401,'body':{'json':{'error':'unauthorized'}}}},'expect':{'error':{'class':'AdminRejectedError','retryable':false,'status':401,'code':'unauthorized','scope':null}}}";
  "{'id':'admin.auth.forbidden_scope','feature':'admin.errors','operation':'admin_dlq_list','input':{'gateway':{'status':403,'body':{'json':{'error':'forbidden','scope':'dlq:read'}}}},'expect':{'error':{'class':'AdminRejectedError','retryable':false,'status':403,'code':'forbidden','scope':'dlq:read'}}}";
  "{'id':'admin.health.ok','feature':'admin.operations','operation':'admin_health','input':{'gateway':{'status':200,'body':{'json':{'status':'ok','instance':'default','roles':['edge','dispatch','storage']}}}},'expect':{'ok':{'status':'ok','instance':'default','roles':['edge','dispatch','storage']},'requests':[{'method':'GET','path':'/health'}]}}";
  "{'id':'admin.metrics.ok','feature':'admin.operations','operation':'admin_metrics','input':{'gateway':{'status':200,'headers':{'content-type':'text/plain; version=0.0.4'},'body':{'text':'ankusa_ingest_requests_total{instance=\'default\'} 1\n'}}},'expect':{'ok':{'text':'ankusa_ingest_requests_total{instance=\'default\'} 1\n'},'requests':[{'method':'GET','path':'/metrics'}]}}";
  "{'id':'admin.config.ok','feature':'admin.operations','operation':'admin_config','input':{'gateway':{'status':200,'body':{'json':{'instance':'default','roles':['edge'],'port':4000}}}},'expect':{'ok':{'instance':'default','roles':['edge'],'port':4000},'requests':[{'method':'GET','path':'/v1/config'}]}}";
  "{'id':'admin.dlq.list.ok','feature':'admin.operations','operation':'admin_dlq_list','input':{'gateway':{'status':200,'body':{'json':{'total':1,'entries':[{'id':'0194f4a0-0000-7000-8000-000000000000','source_id':'demo','tenant_id':null,'seq':5,'received_at':1720000000000,'dead_lettered_at':1720000001000,'size':12,'content_type':'application/json','sink':0,'error_class':'transient','reason':'{:sink, :status, 503}'}],'next_cursor':null}}}},'expect':{'ok':{'total':1,'entries':[{'id':'0194f4a0-0000-7000-8000-000000000000','source_id':'demo','tenant_id':null,'seq':5,'received_at':1720000000000,'dead_lettered_at':1720000001000,'size':12,'content_type':'application/json','sink':0,'error_class':'transient','reason':'{:sink, :status, 503}'}],'next_cursor':null},'requests':[{'method':'GET','path':'/v1/dlq'}]}}";
  "{'id':'admin.dlq.list.filters_in_input_order','feature':'admin.operations','operation':'admin_dlq_list','input':{'gateway':{'status':200,'body':{'json':{'total':null,'entries':[],'next_cursor':null}}},'params':{'source_id':'demo','tenant':'acme','sink':1,'error_class':'throttled','since':1720000000000,'limit':10,'cursor':'c1'}},'expect':{'ok':{'total':null,'entries':[],'next_cursor':null},'requests':[{'method':'GET','path':'/v1/dlq?source_id=demo&tenant=acme&sink=1&error_class=throttled&since=1720000000000&limit=10&cursor=c1'}]}}";
  "{'id':'admin.dlq.list.unknown_total_and_next_page','feature':'admin.operations','operation':'admin_dlq_list','input':{'gateway':{'status':200,'body':{'json':{'total':null,'entries':[{'id':'0194f4a0-0000-7000-8000-000000000001','source_id':'demo','tenant_id':'acme','seq':6,'received_at':1720000000000,'dead_lettered_at':1720000002000,'size':12,'content_type':'application/json','sink':1,'error_class':'throttled','reason':'{:retry_horizon, Ankusa.Sink.Http}'},{'id':'0194f4a0-0000-7000-8000-000000000002','source_id':'demo','tenant_id':null,'seq':7,'received_at':1720000000000,'dead_lettered_at':1720000001000,'size':3,'content_type':null,'sink':null,'error_class':null,'reason':'{:sink, :status, 503}'}],'next_cursor':'c2'}}},'params':{'source_id':'demo'}},'expect':{'ok':{'total':null,'entries':[{'id':'0194f4a0-0000-7000-8000-000000000001','source_id':'demo','tenant_id':'acme','seq':6,'received_at':1720000000000,'dead_lettered_at':1720000002000,'size':12,'content_type':'application/json','sink':1,'error_class':'throttled','reason':'{:retry_horizon, Ankusa.Sink.Http}'},{'id':'0194f4a0-0000-7000-8000-000000000002','source_id':'demo','tenant_id':null,'seq':7,'received_at':1720000000000,'dead_lettered_at':1720000001000,'size':3,'content_type':null,'sink':null,'error_class':null,'reason':'{:sink, :status, 503}'}],'next_cursor':'c2'},'requests':[{'method':'GET','path':'/v1/dlq?source_id=demo'}]}}";
  "{'id':'admin.quarantine.ok','feature':'admin.operations','operation':'admin_quarantine','input':{'gateway':{'status':200,'body':{'json':{'entries':[{'id':'0194f4a0-0000-7000-8000-000000000001','source_id':'demo','received_at':1720000000000,'reason':':no_match'}]}}}},'expect':{'ok':{'entries':[{'id':'0194f4a0-0000-7000-8000-000000000001','source_id':'demo','received_at':1720000000000,'reason':':no_match'}]},'requests':[{'method':'GET','path':'/v1/quarantine'}]}}";
  "{'id':'admin.error.role_not_enabled','feature':'admin.errors','operation':'admin_dlq_list','input':{'gateway':{'status':409,'body':{'json':{'error':'role_not_enabled','role':'dispatch'}}}},'expect':{'error':{'class':'RoleNotEnabledError','retryable':false,'role':'dispatch'}}}";
  "{'id':'admin.error.unreachable','feature':'admin.errors','operation':'admin_health','input':{'gateway':{'unreachable':true}},'expect':{'error':{'class':'AdminUnavailableError','retryable':true}}}";
  "{'id':'admin.error.rejected','feature':'admin.errors','operation':'admin_dlq_list','input':{'gateway':{'status':400,'body':{'json':{'error':'invalid_filter','field':'limit','message':'must be an integer'}}}},'expect':{'error':{'class':'AdminRejectedError','retryable':false,'status':400,'code':'invalid_filter'}}}";
  "{'id':'admin.error.server_error','feature':'admin.errors','operation':'admin_dlq_list','input':{'gateway':{'status':500,'body':{'json':{'error':'internal_error'}}}},'expect':{'error':{'class':'AdminUnavailableError','retryable':true}}}";
  "{'id':'admin.error.redirect','feature':'admin.errors','operation':'admin_dlq_list','input':{'gateway':{'status':302,'headers':{'location':'http://gateway.invalid/v1/dlq'}}},'expect':{'error':{'class':'AdminUnavailableError','retryable':true}}}";
  "{'id':'admin.replay.create.ok','feature':'admin.operations','operation':'admin_replay_create','input':{'gateway':{'status':202,'body':{'json':{'id':'0194f4a0-0000-7000-8000-0000000000aa','kind':'dlq','state':'running','filter':{'source_id':'demo'},'rate':500,'max_lag_ms':2000,'created_at':1720000000000,'updated_at':1720000000000,'finished_at':null,'moved':0,'scanned':0,'skipped':0,'delivered':0,'dead':0,'error':null}}},'spec':{'kind':'dlq','source_id':'demo','rate':500}},'expect':{'ok':{'id':'0194f4a0-0000-7000-8000-0000000000aa','kind':'dlq','state':'running','filter':{'source_id':'demo'},'rate':500,'max_lag_ms':2000,'created_at':1720000000000,'updated_at':1720000000000,'finished_at':null,'moved':0,'scanned':0,'skipped':0,'delivered':0,'dead':0,'error':null},'requests':[{'method':'POST','path':'/v1/replays'}]}}";
  "{'id':'admin.replay.create.dlq_filters_and_job_id','feature':'admin.operations','operation':'admin_replay_create','input':{'gateway':{'status':202,'body':{'json':{'id':'0194f4a0-0000-7000-8000-0000000000bb','kind':'dlq','state':'running','filter':{'tenants':['acme'],'sink':1,'error_class':'throttled'},'rate':1000,'max_lag_ms':2000,'created_at':1720000000000,'updated_at':1720000000000,'finished_at':null,'moved':0,'scanned':0,'skipped':0,'delivered':0,'dead':0,'error':null}}},'spec':{'kind':'dlq','tenant':'acme','sink':1,'error_class':'throttled','job_id':'0194f4a0-0000-7000-8000-0000000000bb'}},'expect':{'ok':{'id':'0194f4a0-0000-7000-8000-0000000000bb','kind':'dlq','state':'running','filter':{'tenants':['acme'],'sink':1,'error_class':'throttled'},'rate':1000,'max_lag_ms':2000,'created_at':1720000000000,'updated_at':1720000000000,'finished_at':null,'moved':0,'scanned':0,'skipped':0,'delivered':0,'dead':0,'error':null},'requests':[{'method':'POST','path':'/v1/replays','body':{'kind':'dlq','tenant':'acme','sink':1,'error_class':'throttled','job_id':'0194f4a0-0000-7000-8000-0000000000bb'}}]}}";
  "{'id':'admin.replay.get.ok','feature':'admin.operations','operation':'admin_replay_get','input':{'gateway':{'status':200,'body':{'json':{'id':'0194f4a0-0000-7000-8000-0000000000aa','kind':'dlq','state':'running','filter':{'source_id':'demo'},'rate':500,'max_lag_ms':2000,'created_at':1720000000000,'updated_at':1720000000000,'finished_at':null,'moved':0,'scanned':0,'skipped':0,'delivered':0,'dead':0,'error':null}}},'id':'0194f4a0-0000-7000-8000-0000000000aa'},'expect':{'ok':{'id':'0194f4a0-0000-7000-8000-0000000000aa','kind':'dlq','state':'running','filter':{'source_id':'demo'},'rate':500,'max_lag_ms':2000,'created_at':1720000000000,'updated_at':1720000000000,'finished_at':null,'moved':0,'scanned':0,'skipped':0,'delivered':0,'dead':0,'error':null},'requests':[{'method':'GET','path':'/v1/replays/0194f4a0-0000-7000-8000-0000000000aa'}]}}";
  "{'id':'admin.replay.list.ok','feature':'admin.operations','operation':'admin_replay_list','input':{'gateway':{'status':200,'body':{'json':{'replays':[{'id':'0194f4a0-0000-7000-8000-0000000000aa','kind':'dlq','state':'running','filter':{'source_id':'demo'},'rate':500,'max_lag_ms':2000,'created_at':1720000000000,'updated_at':1720000000000,'finished_at':null,'moved':0,'scanned':0,'skipped':0,'delivered':0,'dead':0,'error':null}]}}}},'expect':{'ok':{'replays':[{'id':'0194f4a0-0000-7000-8000-0000000000aa','kind':'dlq','state':'running','filter':{'source_id':'demo'},'rate':500,'max_lag_ms':2000,'created_at':1720000000000,'updated_at':1720000000000,'finished_at':null,'moved':0,'scanned':0,'skipped':0,'delivered':0,'dead':0,'error':null}]},'requests':[{'method':'GET','path':'/v1/replays'}]}}";
  "{'id':'admin.replay.update.ok','feature':'admin.operations','operation':'admin_replay_update','input':{'gateway':{'status':200,'body':{'json':{'id':'0194f4a0-0000-7000-8000-0000000000aa','kind':'dlq','state':'paused','filter':{'source_id':'demo'},'rate':500,'max_lag_ms':2000,'created_at':1720000000000,'updated_at':1720000000000,'finished_at':null,'moved':0,'scanned':0,'skipped':0,'delivered':0,'dead':0,'error':null}}},'id':'0194f4a0-0000-7000-8000-0000000000aa','patch':{'state':'paused'}},'expect':{'ok':{'id':'0194f4a0-0000-7000-8000-0000000000aa','kind':'dlq','state':'paused','filter':{'source_id':'demo'},'rate':500,'max_lag_ms':2000,'created_at':1720000000000,'updated_at':1720000000000,'finished_at':null,'moved':0,'scanned':0,'skipped':0,'delivered':0,'dead':0,'error':null},'requests':[{'method':'PATCH','path':'/v1/replays/0194f4a0-0000-7000-8000-0000000000aa'}]}}";
  "{'id':'admin.replay.get.not_found','feature':'admin.errors','operation':'admin_replay_get','input':{'gateway':{'status':404,'body':{'json':{'error':'replay_not_found'}}},'id':'missing'},'expect':{'error':{'class':'AdminRejectedError','status':404,'code':'replay_not_found'}}}"
].

Definition claim_ref_cases : list string := [
  "{'id':'claim_ref.ok','feature':'claim_ref.parse','operation':'parse_claim_ref','input':{'ref':'urn:ankusa:claim:v1:acme:01M39VMD8RA3C5HR4RBV67Y002'},'expect':{'ok':{'tenant_id':'acme','claim_id':'01M39VMD8RA3C5HR4RBV67Y002','path':'/v1/claims/acme/01M39VMD8RA3C5HR4RBV67Y002'}}}";
  "{'id':'claim_ref.ok.tenant_charset','feature':'claim_ref.parse','operation':'parse_claim_ref','input':{'ref':'urn:ankusa:claim:v1:Acme_co-1:01M39VMD8RA3C5HR4RBV67Y002'},'expect':{'ok':{'tenant_id':'Acme_co-1','claim_id':'01M39VMD8RA3C5HR4RBV67Y002','path':'/v1/claims/Acme_co-1/01M39VMD8RA3C5HR4RBV67Y002'}}}";
  "{'id':'claim_ref.ok.tenant_64','feature':'claim_ref.parse','operation':'parse_claim_ref','input':{'ref':'urn:ankusa:claim:v1:aaaaaaaaaaaaaaaaaaaaaaaaaaaaaaaaaaaaaaaaaaaaaaaaaaaaaaaaaaaaaaaa:01M39VMD8RA3C5HR4RBV67Y002'},'expect':{'ok':{'tenant_id':'aaaaaaaaaaaaaaaaaaaaaaaaaaaaaaaaaaaaaaaaaaaaaaaaaaaaaaaaaaaaaaaa','claim_id':'01M39VMD8RA3C5HR4RBV67Y002','path':'/v1/claims/aaaaaaaaaaaaaaaaaaaaaaaaaaaaaaaaaaaaaaaaaaaaaaaaaaaaaaaaaaaaaaaa/01M39VMD8RA3C5HR4RBV67Y002'}}}";
  "{'id':'claim_ref.ok.max_first_char','feature':'claim_ref.parse','operation':'parse_claim_ref','input':{'ref':'urn:ankusa:claim:v1:acme:7ZZZZZZZZZZZZZZZZZZZZZZZZZ'},'expect':{'ok':{'tenant_id':'acme','claim_id':'7ZZZZZZZZZZZZZZZZZZZZZZZZZ','path':'/v1/claims/acme/7ZZZZZZZZZZZZZZZZZZZZZZZZZ'}}}";
  "{'id':'claim_ref.reject.not_a_ref','feature':'claim_ref.parse','operation':'parse_claim_ref','input':{'ref':'not-a-ref'},'expect':{'error':{'class':'InvalidClaimRefError','retryable':false}}}";
  "{'id':'claim_ref.reject.empty','feature':'claim_ref.parse','operation':'parse_claim_ref','input':{'ref':''},'expect':{'error':{'class':'InvalidClaimRefError','retryable':false}}}";
  "{'id':'claim_ref.reject.lowercase_ulid','feature':'claim_ref.parse','operation':'parse_claim_ref','input':{'ref':'urn:ankusa:claim:v1:acme:01m39vmd8ra3c5hr4rbv67y002'},'expect':{'error':{'class':'InvalidClaimRefError','retryable':false}}}";
  "{'id':'claim_ref.reject.ulid_25','feature':'claim_ref.parse','operation':'parse_claim_ref','input':{'ref':'urn:ankusa:claim:v1:acme:01M39VMD8RA3C5HR4RBV67Y00'},'expect':{'error':{'class':'InvalidClaimRefError','retryable':false}}}";
  "{'id':'claim_ref.reject.ulid_27','feature':'claim_ref.parse','operation':'parse_claim_ref','input':{'ref':'urn:ankusa:claim:v1:acme:01M39VMD8RA3C5HR4RBV67Y0020'},'expect':{'error':{'class':'InvalidClaimRefError','retryable':false}}}";
  "{'id':'claim_ref.reject.ulid_first_char_8','feature':'claim_ref.parse','operation':'parse_claim_ref','input':{'ref':'urn:ankusa:claim:v1:acme:81M39VMD8RA3C5HR4RBV67Y002'},'expect':{'error':{'class':'InvalidClaimRefError','retryable':false}}}";
  "{'id':'claim_ref.reject.forbidden_i','feature':'claim_ref.parse','operation':'parse_claim_ref','input':{'ref':'urn:ankusa:claim:v1:acme:01M39VMD8RA3C5HR4RBV67Y00I'},'expect':{'error':{'class':'InvalidClaimRefError','retryable':false}}}";
  "{'id':'claim_ref.reject.forbidden_l','feature':'claim_ref.parse','operation':'parse_claim_ref','input':{'ref':'urn:ankusa:claim:v1:acme:01M39VMD8RA3C5HR4RBV67Y00L'},'expect':{'error':{'class':'InvalidClaimRefError','retryable':false}}}";
  "{'id':'claim_ref.reject.forbidden_o','feature':'claim_ref.parse','operation':'parse_claim_ref','input':{'ref':'urn:ankusa:claim:v1:acme:01M39VMD8RA3C5HR4RBV67Y00O'},'expect':{'error':{'class':'InvalidClaimRefError','retryable':false}}}";
  "{'id':'claim_ref.reject.forbidden_u','feature':'claim_ref.parse','operation':'parse_claim_ref','input':{'ref':'urn:ankusa:claim:v1:acme:01M39VMD8RA3C5HR4RBV67Y00U'},'expect':{'error':{'class':'InvalidClaimRefError','retryable':false}}}";
  "{'id':'claim_ref.reject.extra_segment','feature':'claim_ref.parse','operation':'parse_claim_ref','input':{'ref':'urn:ankusa:claim:v1:acme:01M39VMD8RA3C5HR4RBV67Y002:extra'},'expect':{'error':{'class':'InvalidClaimRefError','retryable':false}}}";
  "{'id':'claim_ref.reject.trailing_newline','feature':'claim_ref.parse','operation':'parse_claim_ref','input':{'ref':'urn:ankusa:claim:v1:acme:01M39VMD8RA3C5HR4RBV67Y002\n'},'expect':{'error':{'class':'InvalidClaimRefError','retryable':false}}}";
  "{'id':'claim_ref.reject.tenant_dot','feature':'claim_ref.parse','operation':'parse_claim_ref','input':{'ref':'urn:ankusa:claim:v1:bad.tenant:01M39VMD8RA3C5HR4RBV67Y002'},'expect':{'error':{'class':'InvalidClaimRefError','retryable':false}}}";
  "{'id':'claim_ref.reject.tenant_65','feature':'claim_ref.parse','operation':'parse_claim_ref','input':{'ref':'urn:ankusa:claim:v1:aaaaaaaaaaaaaaaaaaaaaaaaaaaaaaaaaaaaaaaaaaaaaaaaaaaaaaaaaaaaaaaaa:01M39VMD8RA3C5HR4RBV67Y002'},'expect':{'error':{'class':'InvalidClaimRefError','retryable':false}}}";
  "{'id':'claim_ref.reject.tenant_empty','feature':'claim_ref.parse','operation':'parse_claim_ref','input':{'ref':'urn:ankusa:claim:v1::01M39VMD8RA3C5HR4RBV67Y002'},'expect':{'error':{'class':'InvalidClaimRefError','retryable':false}}}";
  "{'id':'claim_ref.reject.wrong_version','feature':'claim_ref.parse','operation':'parse_claim_ref','input':{'ref':'urn:ankusa:claim:v2:acme:01M39VMD8RA3C5HR4RBV67Y002'},'expect':{'error':{'class':'InvalidClaimRefError','retryable':false}}}";
  "{'id':'claim_ref.reject.old_format','feature':'claim_ref.parse','operation':'parse_claim_ref','input':{'ref':'urn:ankusa:claim:v1:acme:0199a1c2-7b3e-7d4a-9c1f-2e5b8a6d4f10:66:17:sha256-aaaaaaaaaaaaaaaaaaaaaaaaaaaaaaaaaaaaaaaaaaaaaaaaaaaaaaaaaaaaaaaa'},'expect':{'error':{'class':'InvalidClaimRefError','retryable':false}}}"
].

Definition claim_ref_v2_cases : list string := [
  "{'id':'claim_ref.v2.ok','feature':'claim_ref.v2','operation':'parse_claim_ref','input':{'ref':'urn:ankusa:claim:v2:acme:01M39VMD8RA3C5HR4RBV67Y002:1790345000:MAmydaNzNwA3sV38ggZG15ElUTajA8QtBkKevsaq1Ac'},'expect':{'ok':{'tenant_id':'acme','claim_id':'01M39VMD8RA3C5HR4RBV67Y002','path':'/v1/claims/acme/01M39VMD8RA3C5HR4RBV67Y002?exp=1790345000&sig=MAmydaNzNwA3sV38ggZG15ElUTajA8QtBkKevsaq1Ac'}}}";
  "{'id':'claim_ref.v2.ok.tenant_charset_and_url_alphabet','feature':'claim_ref.v2','operation':'parse_claim_ref','input':{'ref':'urn:ankusa:claim:v2:Acme_co-1:01M39VMD8RA3C5HR4RBV67Y002:1:jmB3wXSGX1X3yt-Jd3glZkze5Sdf4rgLRiK-Zi65LFI'},'expect':{'ok':{'tenant_id':'Acme_co-1','claim_id':'01M39VMD8RA3C5HR4RBV67Y002','path':'/v1/claims/Acme_co-1/01M39VMD8RA3C5HR4RBV67Y002?exp=1&sig=jmB3wXSGX1X3yt-Jd3glZkze5Sdf4rgLRiK-Zi65LFI'}}}";
  "{'id':'claim_ref.v2.ok.exp_12_digits','feature':'claim_ref.v2','operation':'parse_claim_ref','input':{'ref':'urn:ankusa:claim:v2:acme:01M39VMD8RA3C5HR4RBV67Y002:999999999999:VAZL4BgO-UzTGIqZU5-Xja93lpmSWO0j3RppRDa1vMY'},'expect':{'ok':{'tenant_id':'acme','claim_id':'01M39VMD8RA3C5HR4RBV67Y002','path':'/v1/claims/acme/01M39VMD8RA3C5HR4RBV67Y002?exp=999999999999&sig=VAZL4BgO-UzTGIqZU5-Xja93lpmSWO0j3RppRDa1vMY'}}}";
  "{'id':'claim_ref.v2.reject.no_exp_no_sig','feature':'claim_ref.v2','operation':'parse_claim_ref','input':{'ref':'urn:ankusa:claim:v2:acme:01M39VMD8RA3C5HR4RBV67Y002'},'expect':{'error':{'class':'InvalidClaimRefError','retryable':false}}}";
  "{'id':'claim_ref.v2.reject.no_sig','feature':'claim_ref.v2','operation':'parse_claim_ref','input':{'ref':'urn:ankusa:claim:v2:acme:01M39VMD8RA3C5HR4RBV67Y002:1790345000'},'expect':{'error':{'class':'InvalidClaimRefError','retryable':false}}}";
  "{'id':'claim_ref.v2.reject.extra_segment','feature':'claim_ref.v2','operation':'parse_claim_ref','input':{'ref':'urn:ankusa:claim:v2:acme:01M39VMD8RA3C5HR4RBV67Y002:1790345000:MAmydaNzNwA3sV38ggZG15ElUTajA8QtBkKevsaq1Ac:extra'},'expect':{'error':{'class':'InvalidClaimRefError','retryable':false}}}";
  "{'id':'claim_ref.v2.reject.sig_42','feature':'claim_ref.v2','operation':'parse_claim_ref','input':{'ref':'urn:ankusa:claim:v2:acme:01M39VMD8RA3C5HR4RBV67Y002:1790345000:MAmydaNzNwA3sV38ggZG15ElUTajA8QtBkKevsaq1A'},'expect':{'error':{'class':'InvalidClaimRefError','retryable':false}}}";
  "{'id':'claim_ref.v2.reject.sig_44','feature':'claim_ref.v2','operation':'parse_claim_ref','input':{'ref':'urn:ankusa:claim:v2:acme:01M39VMD8RA3C5HR4RBV67Y002:1790345000:MAmydaNzNwA3sV38ggZG15ElUTajA8QtBkKevsaq1AcA'},'expect':{'error':{'class':'InvalidClaimRefError','retryable':false}}}";
  "{'id':'claim_ref.v2.reject.sig_padded','feature':'claim_ref.v2','operation':'parse_claim_ref','input':{'ref':'urn:ankusa:claim:v2:acme:01M39VMD8RA3C5HR4RBV67Y002:1790345000:MAmydaNzNwA3sV38ggZG15ElUTajA8QtBkKevsaq1Ac='},'expect':{'error':{'class':'InvalidClaimRefError','retryable':false}}}";
  "{'id':'claim_ref.v2.reject.sig_standard_base64','feature':'claim_ref.v2','operation':'parse_claim_ref','input':{'ref':'urn:ankusa:claim:v2:acme:01M39VMD8RA3C5HR4RBV67Y002:1:jmB3wXSGX1X3yt+Jd3glZkze5Sdf4rgLRiK+Zi65LFI'},'expect':{'error':{'class':'InvalidClaimRefError','retryable':false}}}";
  "{'id':'claim_ref.v2.reject.exp_zero','feature':'claim_ref.v2','operation':'parse_claim_ref','input':{'ref':'urn:ankusa:claim:v2:acme:01M39VMD8RA3C5HR4RBV67Y002:0:MAmydaNzNwA3sV38ggZG15ElUTajA8QtBkKevsaq1Ac'},'expect':{'error':{'class':'InvalidClaimRefError','retryable':false}}}";
  "{'id':'claim_ref.v2.reject.exp_leading_zero','feature':'claim_ref.v2','operation':'parse_claim_ref','input':{'ref':'urn:ankusa:claim:v2:acme:01M39VMD8RA3C5HR4RBV67Y002:01790345000:MAmydaNzNwA3sV38ggZG15ElUTajA8QtBkKevsaq1Ac'},'expect':{'error':{'class':'InvalidClaimRefError','retryable':false}}}";
  "{'id':'claim_ref.v2.reject.exp_13_digits','feature':'claim_ref.v2','operation':'parse_claim_ref','input':{'ref':'urn:ankusa:claim:v2:acme:01M39VMD8RA3C5HR4RBV67Y002:1000000000000:MAmydaNzNwA3sV38ggZG15ElUTajA8QtBkKevsaq1Ac'},'expect':{'error':{'class':'InvalidClaimRefError','retryable':false}}}";
  "{'id':'claim_ref.v2.reject.exp_negative','feature':'claim_ref.v2','operation':'parse_claim_ref','input':{'ref':'urn:ankusa:claim:v2:acme:01M39VMD8RA3C5HR4RBV67Y002:-1:MAmydaNzNwA3sV38ggZG15ElUTajA8QtBkKevsaq1Ac'},'expect':{'error':{'class':'InvalidClaimRefError','retryable':false}}}";
  "{'id':'claim_ref.v2.reject.exp_not_digits','feature':'claim_ref.v2','operation':'parse_claim_ref','input':{'ref':'urn:ankusa:claim:v2:acme:01M39VMD8RA3C5HR4RBV67Y002:soon:MAmydaNzNwA3sV38ggZG15ElUTajA8QtBkKevsaq1Ac'},'expect':{'error':{'class':'InvalidClaimRefError','retryable':false}}}";
  "{'id':'claim_ref.v2.reject.lowercase_ulid','feature':'claim_ref.v2','operation':'parse_claim_ref','input':{'ref':'urn:ankusa:claim:v2:acme:01m39vmd8ra3c5hr4rbv67y002:1790345000:MAmydaNzNwA3sV38ggZG15ElUTajA8QtBkKevsaq1Ac'},'expect':{'error':{'class':'InvalidClaimRefError','retryable':false}}}";
  "{'id':'claim_ref.v2.reject.tenant_dot','feature':'claim_ref.v2','operation':'parse_claim_ref','input':{'ref':'urn:ankusa:claim:v2:bad.tenant:01M39VMD8RA3C5HR4RBV67Y002:1790345000:MAmydaNzNwA3sV38ggZG15ElUTajA8QtBkKevsaq1Ac'},'expect':{'error':{'class':'InvalidClaimRefError','retryable':false}}}";
  "{'id':'claim_ref.v2.reject.trailing_newline','feature':'claim_ref.v2','operation':'parse_claim_ref','input':{'ref':'urn:ankusa:claim:v2:acme:01M39VMD8RA3C5HR4RBV67Y002:1790345000:MAmydaNzNwA3sV38ggZG15ElUTajA8QtBkKevsaq1Ac\n'},'expect':{'error':{'class':'InvalidClaimRefError','retryable':false}}}";
  "{'id':'claim_ref.v2.reject.v3','feature':'claim_ref.v2','operation':'parse_claim_ref','input':{'ref':'urn:ankusa:claim:v3:acme:01M39VMD8RA3C5HR4RBV67Y002:1790345000:MAmydaNzNwA3sV38ggZG15ElUTajA8QtBkKevsaq1Ac'},'expect':{'error':{'class':'InvalidClaimRefError','retryable':false}}}";
  "{'id':'redeem.v2.ok','feature':'claim_check.redeem.signed','operation':'redeem','input':{'gateway':{'status':200,'headers':{'content-type':'application/octet-stream'},'body':{'text':'hello claim check'}},'ref':'urn:ankusa:claim:v2:acme:01M39VMD8RA3C5HR4RBV67Y002:1790345000:MAmydaNzNwA3sV38ggZG15ElUTajA8QtBkKevsaq1Ac','sha256':'8e1bed597394cf01672e49232d9929c8bc6b3d6ea4e2f489517ec88701f01581'},'expect':{'ok':{'body':{'text':'hello claim check'}},'requests':[{'method':'GET','path':'/v1/claims/acme/01M39VMD8RA3C5HR4RBV67Y002?exp=1790345000&sig=MAmydaNzNwA3sV38ggZG15ElUTajA8QtBkKevsaq1Ac'}]}}";
  "{'id':'redeem.v2.error.expired','feature':'claim_check.redeem.signed','operation':'redeem','input':{'gateway':{'status':410,'headers':{'content-type':'application/json'},'body':{'json':{'error':'ref_expired'}}},'ref':'urn:ankusa:claim:v2:acme:01M39VMD8RA3C5HR4RBV67Y002:1790345000:MAmydaNzNwA3sV38ggZG15ElUTajA8QtBkKevsaq1Ac','sha256':'8e1bed597394cf01672e49232d9929c8bc6b3d6ea4e2f489517ec88701f01581'},'expect':{'error':{'class':'ClaimRejectedError','retryable':false,'status':410,'body':{'error':'ref_expired'}}}}";
  "{'id':'redeem.v2.error.bad_signature','feature':'claim_check.redeem.signed','operation':'redeem','input':{'gateway':{'status':400,'headers':{'content-type':'application/json'},'body':{'json':{'error':'bad_signature'}}},'ref':'urn:ankusa:claim:v2:acme:01M39VMD8RA3C5HR4RBV67Y002:1790345000:MAmydaNzNwA3sV38ggZG15ElUTajA8QtBkKevsaq1Ac','sha256':'8e1bed597394cf01672e49232d9929c8bc6b3d6ea4e2f489517ec88701f01581'},'expect':{'error':{'class':'ClaimRejectedError','retryable':false,'status':400,'body':{'error':'bad_signature'}}}}";
  "{'id':'redeem.v2.error.overloaded','feature':'claim_check.redeem.signed','operation':'redeem','input':{'gateway':{'status':503,'headers':{'content-type':'application/json','retry-after':'2'},'body':{'json':{'error':'overloaded'}}},'ref':'urn:ankusa:claim:v2:acme:01M39VMD8RA3C5HR4RBV67Y002:1790345000:MAmydaNzNwA3sV38ggZG15ElUTajA8QtBkKevsaq1Ac','sha256':'8e1bed597394cf01672e49232d9929c8bc6b3d6ea4e2f489517ec88701f01581'},'expect':{'error':{'class':'ClaimCheckUnavailableError','retryable':true}}}";
  "{'id':'message.decode.claim_v2','feature':'claim_ref.v2','operation':'decode_message','input':{'message':'{\'v\':1,\'id\':\'01a0\',\'source_id\':\'demo\',\'tenant_id\':\'acme\',\'received_at\':1720000000000,\'content_type\':\'application/json\',\'size\':3145728,\'dedupe_key\':null,\'replay_id\':null,\'headers\':{},\'claim\':\'urn:ankusa:claim:v2:acme:01M39VMD8RA3C5HR4RBV67Y002:1790345000:MAmydaNzNwA3sV38ggZG15ElUTajA8QtBkKevsaq1Ac\',\'sha256\':\'2d711642b726b04401627ca9fbac32f5c8530fb1903cc4db02258717921a4881\'}'},'expect':{'ok':{'v':1,'id':'01a0','source_id':'demo','tenant_id':'acme','received_at':1720000000000,'content_type':'application/json','size':3145728,'body_base64':null,'claim':'urn:ankusa:claim:v2:acme:01M39VMD8RA3C5HR4RBV67Y002:1790345000:MAmydaNzNwA3sV38ggZG15ElUTajA8QtBkKevsaq1Ac','sha256':'2d711642b726b04401627ca9fbac32f5c8530fb1903cc4db02258717921a4881','dedupe_key':null,'replay_id':null,'idempotency_key':null,'headers':{},'verification':null,'traceparent':null,'tracestate':null,'instance':null,'region':null,'event_type':null}}}";
  "{'id':'message.reject.claim_v2_tenant_mismatch','feature':'claim_ref.v2','operation':'decode_message','input':{'message':'{\'v\':1,\'id\':\'01a0\',\'source_id\':\'demo\',\'tenant_id\':\'globex\',\'received_at\':1720000000000,\'size\':3145728,\'claim\':\'urn:ankusa:claim:v2:acme:01M39VMD8RA3C5HR4RBV67Y002:1790345000:MAmydaNzNwA3sV38ggZG15ElUTajA8QtBkKevsaq1Ac\',\'sha256\':\'2d711642b726b04401627ca9fbac32f5c8530fb1903cc4db02258717921a4881\'}'},'expect':{'error':{'class':'InvalidMessageError','retryable':false,'code':'tenant_mismatch','field':null}}}"
].

Definition failure_policy_cases : list string := [
  "{'id':'failure_policy.message.empty_input','feature':'consumer.failure_policy','operation':'decode_message','input':{'message':''},'expect':{'error':{'class':'InvalidMessageError','retryable':false,'code':'invalid_json','field':null}}}";
  "{'id':'failure_policy.message.truncated_json','feature':'consumer.failure_policy','operation':'decode_message','input':{'message':'{\'v\':1,\'id\':\'01a0\',\'source_id\':\'demo\',\'received_at\':1720000000000,\'size\':5,\'body_base64\':\'aGVs'},'expect':{'error':{'class':'InvalidMessageError','retryable':false,'code':'invalid_json','field':null}}}";
  "{'id':'failure_policy.message.future_version','feature':'consumer.failure_policy','operation':'decode_message','input':{'message':'{\'v\':3,\'id\':\'01a0\',\'source_id\':\'demo\',\'received_at\':1720000000000,\'size\':5,\'body_base64\':\'aGVsbG8=\'}'},'expect':{'error':{'class':'InvalidMessageError','retryable':false,'code':'unsupported_version','field':null}}}";
  "{'id':'failure_policy.message.not_an_object','feature':'consumer.failure_policy','operation':'decode_message','input':{'message':'[1,2,3]'},'expect':{'error':{'class':'InvalidMessageError','retryable':false,'code':'not_an_object','field':null}}}";
  "{'id':'failure_policy.message.invalid_field','feature':'consumer.failure_policy','operation':'decode_message','input':{'message':'{\'v\':1,\'id\':\'\',\'source_id\':\'demo\',\'received_at\':1720000000000,\'size\':5,\'body_base64\':\'aGVsbG8=\'}'},'expect':{'error':{'class':'InvalidMessageError','retryable':false,'code':'invalid_field','field':'id'}}}";
  "{'id':'failure_policy.lifecycle.empty_input','feature':'consumer.failure_policy','operation':'decode_lifecycle','input':{'event':''},'expect':{'error':{'class':'InvalidMessageError','retryable':false,'code':'invalid_json','field':null}}}";
  "{'id':'failure_policy.lifecycle.future_specversion','feature':'consumer.failure_policy','operation':'decode_lifecycle','input':{'event':'{\'specversion\':\'2.0\',\'id\':\'e1\',\'source\':\'urn:ankusa:instance:default\',\'type\':\'io.ankusa.source.created\',\'subject\':\'acme.stripe\',\'time\':\'2026-10-25T09:30:00Z\'}'},'expect':{'error':{'class':'InvalidMessageError','retryable':false,'code':'unsupported_version','field':null}}}";
  "{'id':'failure_policy.lifecycle.not_an_object','feature':'consumer.failure_policy','operation':'decode_lifecycle','input':{'event':'\'io.ankusa.source.created\''},'expect':{'error':{'class':'InvalidMessageError','retryable':false,'code':'not_an_object','field':null}}}";
  "{'id':'failure_policy.delivery.bad_signature','feature':'consumer.failure_policy','operation':'receive_delivery','input':{'headers':{'x-ankusa-id':'01a0','webhook-id':'msg_p5jXN8AQM9LWM0D4loKWxJek','webhook-timestamp':'1614265330','webhook-signature':'v1,AAAAAAAAAAAAAAAAAAAAAAAAAAAAAAAAAAAAAAAAAAA='},'body':{'text':'{\'test\': 2432232314}'},'receiver':{'secrets':['whsec_MfKQ9r8GKYqrTwjUPD8ILPZIo2LaLaSw']},'now':1614265330},'expect':{'error':{'class':'InvalidSignatureError','retryable':false,'code':'no_matching_signature','field':'webhook-signature'}}}"
].

Definition health_cases : list string := [
  "{'id':'health.ok','feature':'claim_check.health','operation':'health','input':{'gateway':{'status':200,'headers':{'content-type':'application/json'},'body':{'json':{'status':'ok'}}}},'expect':{'ok':{'status':'ok'},'requests':[{'method':'GET','path':'/health'}]}}";
  "{'id':'health.error.service_unavailable','feature':'claim_check.health','operation':'health','input':{'gateway':{'status':503,'headers':{'content-type':'application/json'},'body':{'json':{'status':'unavailable'}}}},'expect':{'error':{'class':'ClaimCheckUnavailableError','retryable':true}}}";
  "{'id':'health.error.non_json','feature':'claim_check.health','operation':'health','input':{'gateway':{'status':200,'headers':{'content-type':'text/plain'},'body':{'text':'ok'}}},'expect':{'error':{'class':'ClaimCheckUnavailableError','retryable':true}}}";
  "{'id':'health.error.non_200_success','feature':'claim_check.health','operation':'health','input':{'gateway':{'status':201,'headers':{'content-type':'application/json'},'body':{'json':{'status':'ok'}}}},'expect':{'error':{'class':'ClaimCheckUnavailableError','retryable':true}}}";
  "{'id':'health.error.unreachable','feature':'claim_check.health','operation':'health','input':{'gateway':{'unreachable':true}},'expect':{'error':{'class':'ClaimCheckUnavailableError','retryable':true}}}";
  "{'id':'health.client.headers','feature':'claim_check.client.headers','operation':'health','input':{'gateway':{'status':200,'headers':{'content-type':'application/json'},'body':{'json':{'status':'ok'}}},'client':{'headers':{'authorization':'Bearer t0k3n'}}},'expect':{'ok':{'status':'ok'},'requests':[{'method':'GET','path':'/health','headers':{'authorization':'Bearer t0k3n'}}]}}";
  "{'id':'health.client.timeout','feature':'claim_check.client.timeout','operation':'health','input':{'gateway':{'status':200,'headers':{'content-type':'application/json'},'body':{'json':{'status':'ok'}},'delay_ms':1000},'client':{'timeout_ms':200}},'expect':{'error':{'class':'ClaimCheckUnavailableError','retryable':true}}}"
].

Definition lifecycle_cases : list string := [
  "{'id':'lifecycle.decode.source_created','feature':'lifecycle.decode','operation':'decode_lifecycle','input':{'event':'{\'specversion\':\'1.0\',\'id\':\'0193a2b4-7c2e-7000-8000-00000000a001\',\'source\':\'urn:ankusa:instance:default\',\'type\':\'io.ankusa.source.created\',\'subject\':\'acme.stripe\',\'time\':\'2026-10-25T09:30:00.123Z\',\'datacontenttype\':\'application/json\',\'data\':{\'id\':\'acme.stripe\',\'tenant_id\':\'acme\',\'verifier\':{\'type\':\'hmac\'}},\'revision\':1,\'actor\':\'system\',\'instance\':\'default\',\'sequence\':\'42\'}'},'expect':{'ok':{'specversion':'1.0','id':'0193a2b4-7c2e-7000-8000-00000000a001','source':'urn:ankusa:instance:default','type':'io.ankusa.source.created','subject':'acme.stripe','time':'2026-10-25T09:30:00.123Z','datacontenttype':'application/json','data':{'id':'acme.stripe','tenant_id':'acme','verifier':{'type':'hmac'}},'revision':1,'actor':'system','instance':'default','sequence':'42','replayid':null,'traceparent':null,'tracestate':null}}}";
  "{'id':'lifecycle.decode.route_updated_replayed_traced','feature':'lifecycle.decode','operation':'decode_lifecycle','input':{'event':'{\'specversion\':\'1.0\',\'id\':\'0193a2b4-7c2e-7000-8000-00000000a002\',\'source\':\'urn:ankusa:instance:default\',\'type\':\'io.ankusa.route.updated\',\'subject\':\'route_1\',\'time\':\'2026-10-25T09:30:00.123Z\',\'datacontenttype\':\'application/json\',\'data\':{\'id\':\'route_1\',\'tenant_id\':\'acme\'},\'revision\':3,\'actor\':\'system\',\'instance\':\'default\',\'sequence\':\'43\',\'replayid\':\'rpl_1\',\'traceparent\':\'00-4bf92f3577b34da6a3ce929d0e0e4736-00f067aa0ba902b7-01\',\'tracestate\':\'vendor=1\'}'},'expect':{'ok':{'specversion':'1.0','id':'0193a2b4-7c2e-7000-8000-00000000a002','source':'urn:ankusa:instance:default','type':'io.ankusa.route.updated','subject':'route_1','time':'2026-10-25T09:30:00.123Z','datacontenttype':'application/json','data':{'id':'route_1','tenant_id':'acme'},'revision':3,'actor':'system','instance':'default','sequence':'43','replayid':'rpl_1','traceparent':'00-4bf92f3577b34da6a3ce929d0e0e4736-00f067aa0ba902b7-01','tracestate':'vendor=1'}}}";
  "{'id':'lifecycle.decode.instance_restored','feature':'lifecycle.decode','operation':'decode_lifecycle','input':{'event':'{\'specversion\':\'1.0\',\'id\':\'0193a2b4-7c2e-7000-8000-00000000a003\',\'source\':\'urn:ankusa:instance:default\',\'type\':\'io.ankusa.instance.restored\',\'subject\':\'default\',\'time\':\'2026-10-25T09:30:00.123Z\',\'datacontenttype\':\'application/json\',\'data\':{\'incarnation\':\'a1b2c3\',\'restored_sequence\':40},\'actor\':\'system\',\'instance\':\'default\',\'sequence\':\'41\'}'},'expect':{'ok':{'specversion':'1.0','id':'0193a2b4-7c2e-7000-8000-00000000a003','source':'urn:ankusa:instance:default','type':'io.ankusa.instance.restored','subject':'default','time':'2026-10-25T09:30:00.123Z','datacontenttype':'application/json','data':{'incarnation':'a1b2c3','restored_sequence':40},'revision':null,'actor':'system','instance':'default','sequence':'41','replayid':null,'traceparent':null,'tracestate':null}}}";
  "{'id':'lifecycle.decode.tenant_deleted','feature':'lifecycle.decode','operation':'decode_lifecycle','input':{'event':'{\'specversion\':\'1.0\',\'id\':\'0193a2b4-7c2e-7000-8000-00000000a004\',\'source\':\'urn:ankusa:instance:default\',\'type\':\'io.ankusa.tenant.deleted\',\'subject\':\'acme\',\'time\':\'2026-10-25T09:30:00.123Z\',\'datacontenttype\':\'application/json\',\'data\':{\'tenant\':\'acme\'},\'actor\':\'system\',\'instance\':\'default\',\'sequence\':\'44\'}'},'expect':{'ok':{'specversion':'1.0','id':'0193a2b4-7c2e-7000-8000-00000000a004','source':'urn:ankusa:instance:default','type':'io.ankusa.tenant.deleted','subject':'acme','time':'2026-10-25T09:30:00.123Z','datacontenttype':'application/json','data':{'tenant':'acme'},'revision':null,'actor':'system','instance':'default','sequence':'44','replayid':null,'traceparent':null,'tracestate':null}}}";
  "{'id':'lifecycle.decode.unknown_keys_and_type_ignored','feature':'lifecycle.decode','operation':'decode_lifecycle','input':{'event':'{\'specversion\':\'1.0\',\'id\':\'0193a2b4-7c2e-7000-8000-00000000a001\',\'source\':\'urn:ankusa:instance:default\',\'type\':\'io.ankusa.source.archived\',\'subject\':\'acme.stripe\',\'time\':\'2026-10-25T09:30:00.123Z\',\'datacontenttype\':\'application/json\',\'data\':{\'id\':\'acme.stripe\',\'tenant_id\':\'acme\',\'verifier\':{\'type\':\'hmac\'}},\'revision\':1,\'actor\':\'system\',\'instance\':\'default\',\'sequence\':\'42\',\'extension_field\':{\'nested\':[1,2]},\'dataschema\':\'urn:x\'}'},'expect':{'ok':{'specversion':'1.0','id':'0193a2b4-7c2e-7000-8000-00000000a001','source':'urn:ankusa:instance:default','type':'io.ankusa.source.archived','subject':'acme.stripe','time':'2026-10-25T09:30:00.123Z','datacontenttype':'application/json','data':{'id':'acme.stripe','tenant_id':'acme','verifier':{'type':'hmac'}},'revision':1,'actor':'system','instance':'default','sequence':'42','replayid':null,'traceparent':null,'tracestate':null}}}";
  "{'id':'lifecycle.decode.data_absent_minimal','feature':'lifecycle.decode','operation':'decode_lifecycle','input':{'event':'{\'specversion\':\'1.0\',\'id\':\'e1\',\'source\':\'urn:ankusa:instance:default\',\'type\':\'io.ankusa.source.deleted\',\'subject\':\'acme.stripe\',\'time\':\'2026-10-25T09:30:00Z\'}'},'expect':{'ok':{'specversion':'1.0','id':'e1','source':'urn:ankusa:instance:default','type':'io.ankusa.source.deleted','subject':'acme.stripe','time':'2026-10-25T09:30:00Z','datacontenttype':null,'data':null,'revision':null,'actor':null,'instance':null,'sequence':null,'replayid':null,'traceparent':null,'tracestate':null}}}";
  "{'id':'lifecycle.decode.null_optionals','feature':'lifecycle.decode','operation':'decode_lifecycle','input':{'event':'{\'specversion\':\'1.0\',\'id\':\'0193a2b4-7c2e-7000-8000-00000000a001\',\'source\':\'urn:ankusa:instance:default\',\'type\':\'io.ankusa.source.created\',\'subject\':\'acme.stripe\',\'time\':\'2026-10-25T09:30:00.123Z\',\'datacontenttype\':null,\'data\':null,\'revision\':null,\'actor\':null,\'instance\':null,\'sequence\':null,\'replayid\':null,\'traceparent\':null,\'tracestate\':null}'},'expect':{'ok':{'specversion':'1.0','id':'0193a2b4-7c2e-7000-8000-00000000a001','source':'urn:ankusa:instance:default','type':'io.ankusa.source.created','subject':'acme.stripe','time':'2026-10-25T09:30:00.123Z','datacontenttype':null,'data':null,'revision':null,'actor':null,'instance':null,'sequence':null,'replayid':null,'traceparent':null,'tracestate':null}}}";
  "{'id':'lifecycle.reject.invalid_json','feature':'lifecycle.decode','operation':'decode_lifecycle','input':{'event':'not json'},'expect':{'error':{'class':'InvalidMessageError','retryable':false,'code':'invalid_json','field':null}}}";
  "{'id':'lifecycle.reject.not_an_object','feature':'lifecycle.decode','operation':'decode_lifecycle','input':{'event':'[1,2,3]'},'expect':{'error':{'class':'InvalidMessageError','retryable':false,'code':'not_an_object','field':null}}}";
  "{'id':'lifecycle.reject.old_specversion','feature':'lifecycle.decode','operation':'decode_lifecycle','input':{'event':'{\'specversion\':\'0.3\',\'id\':\'0193a2b4-7c2e-7000-8000-00000000a001\',\'source\':\'urn:ankusa:instance:default\',\'type\':\'io.ankusa.source.created\',\'subject\':\'acme.stripe\',\'time\':\'2026-10-25T09:30:00.123Z\',\'datacontenttype\':\'application/json\',\'data\':{\'id\':\'acme.stripe\',\'tenant_id\':\'acme\',\'verifier\':{\'type\':\'hmac\'}},\'revision\':1,\'actor\':\'system\',\'instance\':\'default\',\'sequence\':\'42\'}'},'expect':{'error':{'class':'InvalidMessageError','retryable':false,'code':'unsupported_version','field':null}}}";
  "{'id':'lifecycle.reject.missing_specversion','feature':'lifecycle.decode','operation':'decode_lifecycle','input':{'event':'{\'id\':\'0193a2b4-7c2e-7000-8000-00000000a001\',\'source\':\'urn:ankusa:instance:default\',\'type\':\'io.ankusa.source.created\',\'subject\':\'acme.stripe\',\'time\':\'2026-10-25T09:30:00.123Z\',\'datacontenttype\':\'application/json\',\'data\':{\'id\':\'acme.stripe\',\'tenant_id\':\'acme\',\'verifier\':{\'type\':\'hmac\'}},\'revision\':1,\'actor\':\'system\',\'instance\':\'default\',\'sequence\':\'42\'}'},'expect':{'error':{'class':'InvalidMessageError','retryable':false,'code':'unsupported_version','field':null}}}";
  "{'id':'lifecycle.reject.missing_id','feature':'lifecycle.decode','operation':'decode_lifecycle','input':{'event':'{\'specversion\':\'1.0\',\'source\':\'urn:ankusa:instance:default\',\'type\':\'io.ankusa.source.created\',\'subject\':\'acme.stripe\',\'time\':\'2026-10-25T09:30:00.123Z\',\'datacontenttype\':\'application/json\',\'data\':{\'id\':\'acme.stripe\',\'tenant_id\':\'acme\',\'verifier\':{\'type\':\'hmac\'}},\'revision\':1,\'actor\':\'system\',\'instance\':\'default\',\'sequence\':\'42\'}'},'expect':{'error':{'class':'InvalidMessageError','retryable':false,'code':'invalid_field','field':'id'}}}";
  "{'id':'lifecycle.reject.empty_subject','feature':'lifecycle.decode','operation':'decode_lifecycle','input':{'event':'{\'specversion\':\'1.0\',\'id\':\'0193a2b4-7c2e-7000-8000-00000000a001\',\'source\':\'urn:ankusa:instance:default\',\'type\':\'io.ankusa.source.created\',\'subject\':\'\',\'time\':\'2026-10-25T09:30:00.123Z\',\'datacontenttype\':\'application/json\',\'data\':{\'id\':\'acme.stripe\',\'tenant_id\':\'acme\',\'verifier\':{\'type\':\'hmac\'}},\'revision\':1,\'actor\':\'system\',\'instance\':\'default\',\'sequence\':\'42\'}'},'expect':{'error':{'class':'InvalidMessageError','retryable':false,'code':'invalid_field','field':'subject'}}}";
  "{'id':'lifecycle.reject.type_not_string','feature':'lifecycle.decode','operation':'decode_lifecycle','input':{'event':'{\'specversion\':\'1.0\',\'id\':\'0193a2b4-7c2e-7000-8000-00000000a001\',\'source\':\'urn:ankusa:instance:default\',\'type\':5,\'subject\':\'acme.stripe\',\'time\':\'2026-10-25T09:30:00.123Z\',\'datacontenttype\':\'application/json\',\'data\':{\'id\':\'acme.stripe\',\'tenant_id\':\'acme\',\'verifier\':{\'type\':\'hmac\'}},\'revision\':1,\'actor\':\'system\',\'instance\':\'default\',\'sequence\':\'42\'}'},'expect':{'error':{'class':'InvalidMessageError','retryable':false,'code':'invalid_field','field':'type'}}}";
  "{'id':'lifecycle.reject.time_missing','feature':'lifecycle.decode','operation':'decode_lifecycle','input':{'event':'{\'specversion\':\'1.0\',\'id\':\'0193a2b4-7c2e-7000-8000-00000000a001\',\'source\':\'urn:ankusa:instance:default\',\'type\':\'io.ankusa.source.created\',\'subject\':\'acme.stripe\',\'datacontenttype\':\'application/json\',\'data\':{\'id\':\'acme.stripe\',\'tenant_id\':\'acme\',\'verifier\':{\'type\':\'hmac\'}},\'revision\':1,\'actor\':\'system\',\'instance\':\'default\',\'sequence\':\'42\'}'},'expect':{'error':{'class':'InvalidMessageError','retryable':false,'code':'invalid_field','field':'time'}}}";
  "{'id':'lifecycle.reject.data_not_object','feature':'lifecycle.decode','operation':'decode_lifecycle','input':{'event':'{\'specversion\':\'1.0\',\'id\':\'0193a2b4-7c2e-7000-8000-00000000a001\',\'source\':\'urn:ankusa:instance:default\',\'type\':\'io.ankusa.source.created\',\'subject\':\'acme.stripe\',\'time\':\'2026-10-25T09:30:00.123Z\',\'datacontenttype\':\'application/json\',\'data\':[1],\'revision\':1,\'actor\':\'system\',\'instance\':\'default\',\'sequence\':\'42\'}'},'expect':{'error':{'class':'InvalidMessageError','retryable':false,'code':'invalid_field','field':'data'}}}";
  "{'id':'lifecycle.reject.revision_string','feature':'lifecycle.decode','operation':'decode_lifecycle','input':{'event':'{\'specversion\':\'1.0\',\'id\':\'0193a2b4-7c2e-7000-8000-00000000a001\',\'source\':\'urn:ankusa:instance:default\',\'type\':\'io.ankusa.source.created\',\'subject\':\'acme.stripe\',\'time\':\'2026-10-25T09:30:00.123Z\',\'datacontenttype\':\'application/json\',\'data\':{\'id\':\'acme.stripe\',\'tenant_id\':\'acme\',\'verifier\':{\'type\':\'hmac\'}},\'revision\':\'3\',\'actor\':\'system\',\'instance\':\'default\',\'sequence\':\'42\'}'},'expect':{'error':{'class':'InvalidMessageError','retryable':false,'code':'invalid_field','field':'revision'}}}";
  "{'id':'lifecycle.reject.revision_zero','feature':'lifecycle.decode','operation':'decode_lifecycle','input':{'event':'{\'specversion\':\'1.0\',\'id\':\'0193a2b4-7c2e-7000-8000-00000000a001\',\'source\':\'urn:ankusa:instance:default\',\'type\':\'io.ankusa.source.created\',\'subject\':\'acme.stripe\',\'time\':\'2026-10-25T09:30:00.123Z\',\'datacontenttype\':\'application/json\',\'data\':{\'id\':\'acme.stripe\',\'tenant_id\':\'acme\',\'verifier\':{\'type\':\'hmac\'}},\'revision\':0,\'actor\':\'system\',\'instance\':\'default\',\'sequence\':\'42\'}'},'expect':{'error':{'class':'InvalidMessageError','retryable':false,'code':'invalid_field','field':'revision'}}}";
  "{'id':'lifecycle.reject.actor_not_string','feature':'lifecycle.decode','operation':'decode_lifecycle','input':{'event':'{\'specversion\':\'1.0\',\'id\':\'0193a2b4-7c2e-7000-8000-00000000a001\',\'source\':\'urn:ankusa:instance:default\',\'type\':\'io.ankusa.source.created\',\'subject\':\'acme.stripe\',\'time\':\'2026-10-25T09:30:00.123Z\',\'datacontenttype\':\'application/json\',\'data\':{\'id\':\'acme.stripe\',\'tenant_id\':\'acme\',\'verifier\':{\'type\':\'hmac\'}},\'revision\':1,\'actor\':1,\'instance\':\'default\',\'sequence\':\'42\'}'},'expect':{'error':{'class':'InvalidMessageError','retryable':false,'code':'invalid_field','field':'actor'}}}";
  "{'id':'lifecycle.reject.sequence_number','feature':'lifecycle.decode','operation':'decode_lifecycle','input':{'event':'{\'specversion\':\'1.0\',\'id\':\'0193a2b4-7c2e-7000-8000-00000000a001\',\'source\':\'urn:ankusa:instance:default\',\'type\':\'io.ankusa.source.created\',\'subject\':\'acme.stripe\',\'time\':\'2026-10-25T09:30:00.123Z\',\'datacontenttype\':\'application/json\',\'data\':{\'id\':\'acme.stripe\',\'tenant_id\':\'acme\',\'verifier\':{\'type\':\'hmac\'}},\'revision\':1,\'actor\':\'system\',\'instance\':\'default\',\'sequence\':5}'},'expect':{'error':{'class':'InvalidMessageError','retryable':false,'code':'invalid_field','field':'sequence'}}}";
  "{'id':'lifecycle.reject.sequence_not_decimal','feature':'lifecycle.decode','operation':'decode_lifecycle','input':{'event':'{\'specversion\':\'1.0\',\'id\':\'0193a2b4-7c2e-7000-8000-00000000a001\',\'source\':\'urn:ankusa:instance:default\',\'type\':\'io.ankusa.source.created\',\'subject\':\'acme.stripe\',\'time\':\'2026-10-25T09:30:00.123Z\',\'datacontenttype\':\'application/json\',\'data\':{\'id\':\'acme.stripe\',\'tenant_id\':\'acme\',\'verifier\':{\'type\':\'hmac\'}},\'revision\':1,\'actor\':\'system\',\'instance\':\'default\',\'sequence\':\'4a\'}'},'expect':{'error':{'class':'InvalidMessageError','retryable':false,'code':'invalid_field','field':'sequence'}}}";
  "{'id':'lifecycle.reject.traceparent_not_string','feature':'lifecycle.decode','operation':'decode_lifecycle','input':{'event':'{\'specversion\':\'1.0\',\'id\':\'0193a2b4-7c2e-7000-8000-00000000a001\',\'source\':\'urn:ankusa:instance:default\',\'type\':\'io.ankusa.source.created\',\'subject\':\'acme.stripe\',\'time\':\'2026-10-25T09:30:00.123Z\',\'datacontenttype\':\'application/json\',\'data\':{\'id\':\'acme.stripe\',\'tenant_id\':\'acme\',\'verifier\':{\'type\':\'hmac\'}},\'revision\':1,\'actor\':\'system\',\'instance\':\'default\',\'sequence\':\'42\',\'traceparent\':1}'},'expect':{'error':{'class':'InvalidMessageError','retryable':false,'code':'invalid_field','field':'traceparent'}}}";
  "{'id':'lifecycle.reject.first_failure_wins','feature':'lifecycle.decode','operation':'decode_lifecycle','input':{'event':'{\'specversion\':\'1.0\',\'id\':\'\',\'source\':\'urn:ankusa:instance:default\',\'type\':\'io.ankusa.source.created\',\'subject\':\'acme.stripe\',\'time\':\'2026-10-25T09:30:00.123Z\',\'datacontenttype\':\'application/json\',\'data\':{\'id\':\'acme.stripe\',\'tenant_id\':\'acme\',\'verifier\':{\'type\':\'hmac\'}},\'revision\':\'x\',\'actor\':\'system\',\'instance\':\'default\',\'sequence\':\'42\'}'},'expect':{'error':{'class':'InvalidMessageError','retryable':false,'code':'invalid_field','field':'id'}}}";
  "{'id':'lifecycle.decode.source_deleted_last_state','feature':'lifecycle.decode','operation':'decode_lifecycle','input':{'event':'{\'specversion\':\'1.0\',\'id\':\'0193a2b4-7c2e-7000-8000-00000000a005\',\'source\':\'urn:ankusa:instance:default\',\'type\':\'io.ankusa.source.deleted\',\'subject\':\'acme.stripe\',\'time\':\'2026-10-25T09:31:00.456Z\',\'datacontenttype\':\'application/json\',\'data\':{\'id\':\'acme.stripe\',\'tenant_id\':\'acme\',\'verifier\':{\'scheme\':\'hmac\',\'secret\':\'[REDACTED]\'}},\'revision\':3,\'actor\':\'admin\',\'instance\':\'default\',\'sequence\':\'45\'}'},'expect':{'ok':{'specversion':'1.0','id':'0193a2b4-7c2e-7000-8000-00000000a005','source':'urn:ankusa:instance:default','type':'io.ankusa.source.deleted','subject':'acme.stripe','time':'2026-10-25T09:31:00.456Z','datacontenttype':'application/json','data':{'id':'acme.stripe','tenant_id':'acme','verifier':{'scheme':'hmac','secret':'[REDACTED]'}},'revision':3,'actor':'admin','instance':'default','sequence':'45','replayid':null,'traceparent':null,'tracestate':null}}}"
].

Definition message_cases : list string := [
  "{'id':'message.decode.inline_full','feature':'message.decode','operation':'decode_message','input':{'message':'{\'v\':1,\'id\':\'01a0\',\'source_id\':\'demo\',\'tenant_id\':\'acme\',\'received_at\':1720000000000,\'content_type\':\'application/json\',\'size\':5,\'sha256\':\'2cf24dba5fb0a30e26e83b2ac5b9e29e1b161e5c1fa7425e73043362938b9824\',\'dedupe_key\':\'evt_1\',\'replay_id\':null,\'idempotency_key\':\'acme:demo:evt_1\',\'headers\':{\'x-github-event\':\'push\'},\'body_base64\':\'aGVsbG8=\'}'},'expect':{'ok':{'v':1,'id':'01a0','source_id':'demo','tenant_id':'acme','received_at':1720000000000,'content_type':'application/json','size':5,'body_base64':'aGVsbG8=','claim':null,'sha256':'2cf24dba5fb0a30e26e83b2ac5b9e29e1b161e5c1fa7425e73043362938b9824','dedupe_key':'evt_1','replay_id':null,'idempotency_key':'acme:demo:evt_1','headers':{'x-github-event':'push'},'verification':null,'traceparent':null,'tracestate':null,'instance':null,'region':null,'event_type':null}}}";
  "{'id':'message.decode.claim','feature':'message.decode','operation':'decode_message','input':{'message':'{\'v\':1,\'id\':\'01a0\',\'source_id\':\'demo\',\'tenant_id\':\'acme\',\'received_at\':1720000000000,\'content_type\':\'application/json\',\'size\':3145728,\'dedupe_key\':null,\'replay_id\':null,\'headers\':{},\'claim\':\'urn:ankusa:claim:v1:acme:01M39VMD8RA3C5HR4RBV67Y002\',\'sha256\':\'2d711642b726b04401627ca9fbac32f5c8530fb1903cc4db02258717921a4881\'}'},'expect':{'ok':{'v':1,'id':'01a0','source_id':'demo','tenant_id':'acme','received_at':1720000000000,'content_type':'application/json','size':3145728,'body_base64':null,'claim':'urn:ankusa:claim:v1:acme:01M39VMD8RA3C5HR4RBV67Y002','sha256':'2d711642b726b04401627ca9fbac32f5c8530fb1903cc4db02258717921a4881','dedupe_key':null,'replay_id':null,'idempotency_key':null,'headers':{},'verification':null,'traceparent':null,'tracestate':null,'instance':null,'region':null,'event_type':null}}}";
  "{'id':'message.decode.legacy_inline_minimal','feature':'message.decode','operation':'decode_message','input':{'message':'{\'v\':1,\'id\':\'01a0\',\'source_id\':\'demo\',\'received_at\':1720000000000,\'size\':5,\'body_base64\':\'aGVsbG8=\'}'},'expect':{'ok':{'v':1,'id':'01a0','source_id':'demo','tenant_id':null,'received_at':1720000000000,'content_type':null,'size':5,'body_base64':'aGVsbG8=','claim':null,'sha256':null,'dedupe_key':null,'replay_id':null,'idempotency_key':null,'headers':{},'verification':null,'traceparent':null,'tracestate':null,'instance':null,'region':null,'event_type':null}}}";
  "{'id':'message.decode.unknown_keys_ignored','feature':'message.decode','operation':'decode_message','input':{'message':'{\'v\':1,\'id\':\'01a0\',\'source_id\':\'demo\',\'received_at\':1720000000000,\'size\':5,\'body_base64\':\'aGVsbG8=\',\'future_field\':{\'nested\':true},\'another\':42}'},'expect':{'ok':{'v':1,'id':'01a0','source_id':'demo','tenant_id':null,'received_at':1720000000000,'content_type':null,'size':5,'body_base64':'aGVsbG8=','claim':null,'sha256':null,'dedupe_key':null,'replay_id':null,'idempotency_key':null,'headers':{},'verification':null,'traceparent':null,'tracestate':null,'instance':null,'region':null,'event_type':null}}}";
  "{'id':'message.decode.replay','feature':'message.decode','operation':'decode_message','input':{'message':'{\'v\':1,\'id\':\'01a0\',\'source_id\':\'demo\',\'received_at\':1720000000000,\'size\':5,\'body_base64\':\'aGVsbG8=\',\'replay_id\':\'0194f4a0-0000-7000-8000-0000000000aa\',\'dedupe_key\':\'evt_1\'}'},'expect':{'ok':{'v':1,'id':'01a0','source_id':'demo','tenant_id':null,'received_at':1720000000000,'content_type':null,'size':5,'body_base64':'aGVsbG8=','claim':null,'sha256':null,'dedupe_key':'evt_1','replay_id':'0194f4a0-0000-7000-8000-0000000000aa','idempotency_key':null,'headers':{},'verification':null,'traceparent':null,'tracestate':null,'instance':null,'region':null,'event_type':null}}}";
  "{'id':'message.decode.traceparent','feature':'message.traceparent','operation':'decode_message','input':{'message':'{\'v\':1,\'id\':\'01a0\',\'source_id\':\'demo\',\'tenant_id\':\'acme\',\'received_at\':1720000000000,\'content_type\':\'application/json\',\'size\':5,\'sha256\':\'2cf24dba5fb0a30e26e83b2ac5b9e29e1b161e5c1fa7425e73043362938b9824\',\'dedupe_key\':\'evt_1\',\'replay_id\':null,\'idempotency_key\':\'acme:demo:evt_1\',\'headers\':{},\'traceparent\':\'00-4bf92f3577b34da6a3ce929d0e0e4736-00f067aa0ba902b7-01\',\'tracestate\':\'vendor=value,other=thing\',\'body_base64\':\'aGVsbG8=\'}'},'expect':{'ok':{'v':1,'id':'01a0','source_id':'demo','tenant_id':'acme','received_at':1720000000000,'content_type':'application/json','size':5,'body_base64':'aGVsbG8=','claim':null,'sha256':'2cf24dba5fb0a30e26e83b2ac5b9e29e1b161e5c1fa7425e73043362938b9824','dedupe_key':'evt_1','replay_id':null,'idempotency_key':'acme:demo:evt_1','headers':{},'verification':null,'traceparent':'00-4bf92f3577b34da6a3ce929d0e0e4736-00f067aa0ba902b7-01','tracestate':'vendor=value,other=thing','instance':null,'region':null,'event_type':null}}}";
  "{'id':'message.decode.traceparent_without_tracestate','feature':'message.traceparent','operation':'decode_message','input':{'message':'{\'v\':1,\'id\':\'01a0\',\'source_id\':\'demo\',\'received_at\':1720000000000,\'size\':5,\'traceparent\':\'00-4bf92f3577b34da6a3ce929d0e0e4736-00f067aa0ba902b7-00\',\'tracestate\':null,\'body_base64\':\'aGVsbG8=\'}'},'expect':{'ok':{'v':1,'id':'01a0','source_id':'demo','tenant_id':null,'received_at':1720000000000,'content_type':null,'size':5,'body_base64':'aGVsbG8=','claim':null,'sha256':null,'dedupe_key':null,'replay_id':null,'idempotency_key':null,'headers':{},'verification':null,'traceparent':'00-4bf92f3577b34da6a3ce929d0e0e4736-00f067aa0ba902b7-00','tracestate':null,'instance':null,'region':null,'event_type':null}}}";
  "{'id':'message.reject.bad_traceparent','feature':'message.traceparent','operation':'decode_message','input':{'message':'{\'v\':1,\'id\':\'01a0\',\'source_id\':\'demo\',\'received_at\':1720000000000,\'size\':5,\'traceparent\':7,\'body_base64\':\'aGVsbG8=\'}'},'expect':{'error':{'class':'InvalidMessageError','retryable':false,'code':'invalid_field','field':'traceparent'}}}";
  "{'id':'message.reject.bad_tracestate','feature':'message.traceparent','operation':'decode_message','input':{'message':'{\'v\':1,\'id\':\'01a0\',\'source_id\':\'demo\',\'received_at\':1720000000000,\'size\':5,\'tracestate\':[\'a=1\'],\'body_base64\':\'aGVsbG8=\'}'},'expect':{'error':{'class':'InvalidMessageError','retryable':false,'code':'invalid_field','field':'tracestate'}}}";
  "{'id':'message.reject.invalid_json','feature':'message.decode','operation':'decode_message','input':{'message':'not json'},'expect':{'error':{'class':'InvalidMessageError','retryable':false,'code':'invalid_json','field':null}}}";
  "{'id':'message.reject.not_an_object','feature':'message.decode','operation':'decode_message','input':{'message':'[1,2,3]'},'expect':{'error':{'class':'InvalidMessageError','retryable':false,'code':'not_an_object','field':null}}}";
  "{'id':'message.reject.unsupported_version','feature':'message.decode','operation':'decode_message','input':{'message':'{\'v\':3,\'id\':\'01a0\',\'source_id\':\'demo\',\'received_at\':1720000000000,\'size\':5,\'body_base64\':\'aGVsbG8=\'}'},'expect':{'error':{'class':'InvalidMessageError','retryable':false,'code':'unsupported_version','field':null}}}";
  "{'id':'message.reject.missing_version','feature':'message.decode','operation':'decode_message','input':{'message':'{\'id\':\'01a0\',\'source_id\':\'demo\',\'received_at\':1720000000000,\'size\':5,\'body_base64\':\'aGVsbG8=\'}'},'expect':{'error':{'class':'InvalidMessageError','retryable':false,'code':'unsupported_version','field':null}}}";
  "{'id':'message.reject.missing_id','feature':'message.decode','operation':'decode_message','input':{'message':'{\'v\':1,\'source_id\':\'demo\',\'received_at\':1720000000000,\'size\':5,\'body_base64\':\'aGVsbG8=\'}'},'expect':{'error':{'class':'InvalidMessageError','retryable':false,'code':'invalid_field','field':'id'}}}";
  "{'id':'message.reject.bad_idempotency_key','feature':'message.decode','operation':'decode_message','input':{'message':'{\'v\':1,\'id\':\'01a0\',\'source_id\':\'demo\',\'tenant_id\':\'acme\',\'received_at\':1720000000000,\'content_type\':\'application/json\',\'size\':5,\'sha256\':\'2cf24dba5fb0a30e26e83b2ac5b9e29e1b161e5c1fa7425e73043362938b9824\',\'dedupe_key\':\'evt_1\',\'replay_id\':null,\'idempotency_key\':7,\'headers\':{\'x-github-event\':\'push\'},\'body_base64\':\'aGVsbG8=\'}'},'expect':{'error':{'class':'InvalidMessageError','retryable':false,'code':'invalid_field','field':'idempotency_key'}}}";
  "{'id':'message.reject.bad_headers','feature':'message.decode','operation':'decode_message','input':{'message':'{\'v\':1,\'id\':\'01a0\',\'source_id\':\'demo\',\'received_at\':1720000000000,\'size\':5,\'body_base64\':\'aGVsbG8=\',\'headers\':{\'x-n\':42}}'},'expect':{'error':{'class':'InvalidMessageError','retryable':false,'code':'invalid_field','field':'headers'}}}";
  "{'id':'message.reject.ambiguous_body','feature':'message.decode','operation':'decode_message','input':{'message':'{\'v\':1,\'id\':\'01a0\',\'source_id\':\'demo\',\'received_at\':1720000000000,\'size\':5,\'body_base64\':\'aGVsbG8=\',\'claim\':\'urn:ankusa:claim:v1:acme:01M39VMD8RA3C5HR4RBV67Y002\',\'sha256\':\'2d711642b726b04401627ca9fbac32f5c8530fb1903cc4db02258717921a4881\'}'},'expect':{'error':{'class':'InvalidMessageError','retryable':false,'code':'ambiguous_body','field':null}}}";
  "{'id':'message.reject.missing_body','feature':'message.decode','operation':'decode_message','input':{'message':'{\'v\':1,\'id\':\'01a0\',\'source_id\':\'demo\',\'received_at\':1720000000000,\'size\':5}'},'expect':{'error':{'class':'InvalidMessageError','retryable':false,'code':'missing_body','field':null}}}";
  "{'id':'message.reject.invalid_body_base64','feature':'message.decode','operation':'decode_message','input':{'message':'{\'v\':1,\'id\':\'01a0\',\'source_id\':\'demo\',\'received_at\':1720000000000,\'size\':5,\'body_base64\':\'!not_base64!\'}'},'expect':{'error':{'class':'InvalidMessageError','retryable':false,'code':'invalid_body_base64','field':null}}}";
  "{'id':'message.reject.claim_without_sha256','feature':'message.decode','operation':'decode_message','input':{'message':'{\'v\':1,\'id\':\'01a0\',\'source_id\':\'demo\',\'tenant_id\':\'acme\',\'received_at\':1720000000000,\'size\':5,\'claim\':\'urn:ankusa:claim:v1:acme:01M39VMD8RA3C5HR4RBV67Y002\'}'},'expect':{'error':{'class':'InvalidMessageError','retryable':false,'code':'invalid_field','field':'sha256'}}}";
  "{'id':'message.reject.size_mismatch','feature':'message.integrity','operation':'decode_message','input':{'message':'{\'v\':1,\'id\':\'01a0\',\'source_id\':\'demo\',\'received_at\':1720000000000,\'size\':6,\'body_base64\':\'aGVsbG8=\'}'},'expect':{'error':{'class':'InvalidMessageError','retryable':false,'code':'size_mismatch','field':null}}}";
  "{'id':'message.reject.digest_mismatch','feature':'message.integrity','operation':'decode_message','input':{'message':'{\'v\':1,\'id\':\'01a0\',\'source_id\':\'demo\',\'received_at\':1720000000000,\'size\':5,\'body_base64\':\'aGVsbG8=\',\'sha256\':\'d9298a10d1b0735837dc4bd85dac641b0f3cef27a47e5d53a54f2f3f5b2fcffa\'}'},'expect':{'error':{'class':'InvalidMessageError','retryable':false,'code':'integrity','field':null}}}";
  "{'id':'message.reject.tenant_mismatch','feature':'message.integrity','operation':'decode_message','input':{'message':'{\'v\':1,\'id\':\'01a0\',\'source_id\':\'demo\',\'tenant_id\':\'other\',\'received_at\':1720000000000,\'size\':5,\'claim\':\'urn:ankusa:claim:v1:acme:01M39VMD8RA3C5HR4RBV67Y002\',\'sha256\':\'2d711642b726b04401627ca9fbac32f5c8530fb1903cc4db02258717921a4881\'}'},'expect':{'error':{'class':'InvalidMessageError','retryable':false,'code':'tenant_mismatch','field':null}}}";
  "{'id':'idempotency.id_only','feature':'message.idempotency_key','operation':'idempotency_key','input':{'message':'{\'v\':1,\'id\':\'01a0\',\'source_id\':\'demo\',\'received_at\':1720000000000,\'size\':5,\'body_base64\':\'aGVsbG8=\'}'},'expect':{'ok':{'key':'01a0'}}}";
  "{'id':'idempotency.dedupe_key','feature':'message.idempotency_key','operation':'idempotency_key','input':{'message':'{\'v\':1,\'id\':\'01a0\',\'source_id\':\'stripe\',\'received_at\':1720000000000,\'size\':5,\'body_base64\':\'aGVsbG8=\',\'dedupe_key\':\'evt_1\'}'},'expect':{'ok':{'key':'default:stripe:evt_1'}}}";
  "{'id':'idempotency.dedupe_key_tenant','feature':'message.idempotency_key','operation':'idempotency_key','input':{'message':'{\'v\':1,\'id\':\'01a0\',\'source_id\':\'stripe\',\'tenant_id\':\'acme\',\'received_at\':1720000000000,\'size\':5,\'body_base64\':\'aGVsbG8=\',\'dedupe_key\':\'evt_1\'}'},'expect':{'ok':{'key':'acme:stripe:evt_1'}}}";
  "{'id':'idempotency.shipped_wins','feature':'message.idempotency_key','operation':'idempotency_key','input':{'message':'{\'v\':1,\'id\':\'01a0\',\'source_id\':\'demo\',\'received_at\':1720000000000,\'size\':5,\'body_base64\':\'aGVsbG8=\',\'dedupe_key\':\'other\',\'idempotency_key\':\'acme:stripe:evt_1\'}'},'expect':{'ok':{'key':'acme:stripe:evt_1'}}}";
  "{'id':'idempotency.shipped_empty_falls_back','feature':'message.idempotency_key','operation':'idempotency_key','input':{'message':'{\'v\':1,\'id\':\'01a0\',\'source_id\':\'stripe\',\'received_at\':1720000000000,\'size\':5,\'body_base64\':\'aGVsbG8=\',\'dedupe_key\':\'evt_1\',\'idempotency_key\':\'\'}'},'expect':{'ok':{'key':'default:stripe:evt_1'}}}";
  "{'id':'idempotency.replay_ignored_by_default','feature':'message.idempotency_key','operation':'idempotency_key','input':{'message':'{\'v\':1,\'id\':\'01a0\',\'source_id\':\'stripe\',\'received_at\':1720000000000,\'size\':5,\'body_base64\':\'aGVsbG8=\',\'dedupe_key\':\'evt_1\',\'replay_id\':\'rid-1\'}'},'expect':{'ok':{'key':'default:stripe:evt_1'}}}";
  "{'id':'idempotency.replay_included','feature':'message.idempotency_key','operation':'idempotency_key','input':{'message':'{\'v\':1,\'id\':\'01a0\',\'source_id\':\'stripe\',\'received_at\':1720000000000,\'size\':5,\'body_base64\':\'aGVsbG8=\',\'dedupe_key\':\'evt_1\',\'replay_id\':\'rid-1\'}','include_replay':true},'expect':{'ok':{'key':'default:stripe:evt_1#replay:rid-1'}}}";
  "{'id':'idempotency.replay_included_id_only','feature':'message.idempotency_key','operation':'idempotency_key','input':{'message':'{\'v\':1,\'id\':\'01a0\',\'source_id\':\'demo\',\'received_at\':1720000000000,\'size\':5,\'body_base64\':\'aGVsbG8=\',\'replay_id\':\'rid-1\'}','include_replay':true},'expect':{'ok':{'key':'01a0#replay:rid-1'}}}";
  "{'id':'idempotency.from_headers','feature':'message.idempotency_key','operation':'idempotency_key','input':{'headers':{'x-ankusa-id':'01a0','x-ankusa-source':'stripe','x-ankusa-dedupe-key':'evt_1'}},'expect':{'ok':{'key':'default:stripe:evt_1'}}}";
  "{'id':'idempotency.from_headers_tenant','feature':'message.idempotency_key','operation':'idempotency_key','input':{'headers':{'x-ankusa-id':'01a0','x-ankusa-source':'stripe','x-ankusa-tenant':'acme','x-ankusa-dedupe-key':'evt_1'}},'expect':{'ok':{'key':'acme:stripe:evt_1'}}}";
  "{'id':'idempotency.from_headers_shipped','feature':'message.idempotency_key','operation':'idempotency_key','input':{'headers':{'x-ankusa-id':'01a0','x-ankusa-source':'stripe','x-ankusa-idempotency-key':'acme:stripe:evt_1','x-ankusa-dedupe-key':'other'}},'expect':{'ok':{'key':'acme:stripe:evt_1'}}}";
  "{'id':'idempotency.from_headers_replay','feature':'message.idempotency_key','operation':'idempotency_key','input':{'headers':{'x-ankusa-id':'01a0','x-ankusa-source':'stripe','x-ankusa-dedupe-key':'evt_1','x-ankusa-replay-id':'rid-1'},'include_replay':true},'expect':{'ok':{'key':'default:stripe:evt_1#replay:rid-1'}}}";
  "{'id':'message.versions.supported','feature':'message.versions','operation':'supported_versions','input':{},'expect':{'ok':{'min':1,'max':2}}}";
  "{'id':'message.reject.version_zero','feature':'message.versions','operation':'decode_message','input':{'message':'{\'v\':0,\'id\':\'01b0\',\'source_id\':\'demo\',\'tenant_id\':\'acme\',\'received_at\':1720000000000,\'content_type\':\'application/json\',\'size\':5,\'sha256\':\'2cf24dba5fb0a30e26e83b2ac5b9e29e1b161e5c1fa7425e73043362938b9824\',\'body_base64\':\'aGVsbG8=\',\'dedupe_key\':\'evt_1\',\'replay_id\':null,\'idempotency_key\':\'acme:demo:evt_1\',\'headers\':{\'x-github-event\':\'push\'}}'},'expect':{'error':{'class':'InvalidMessageError','retryable':false,'code':'unsupported_version','field':null}}}";
  "{'id':'message.reject.version_string','feature':'message.versions','operation':'decode_message','input':{'message':'{\'v\':\'1\',\'id\':\'01b0\',\'source_id\':\'demo\',\'tenant_id\':\'acme\',\'received_at\':1720000000000,\'content_type\':\'application/json\',\'size\':5,\'sha256\':\'2cf24dba5fb0a30e26e83b2ac5b9e29e1b161e5c1fa7425e73043362938b9824\',\'body_base64\':\'aGVsbG8=\',\'dedupe_key\':\'evt_1\',\'replay_id\':null,\'idempotency_key\':\'acme:demo:evt_1\',\'headers\':{\'x-github-event\':\'push\'}}'},'expect':{'error':{'class':'InvalidMessageError','retryable':false,'code':'unsupported_version','field':null}}}";
  "{'id':'message.decode.v2_additive.inline','feature':'message.decode.v2_additive','operation':'decode_message','input':{'message':'{\'v\':2,\'id\':\'01b1\',\'source_id\':\'demo\',\'tenant_id\':\'acme\',\'received_at\':1720000000000,\'content_type\':\'application/json\',\'size\':5,\'sha256\':\'2cf24dba5fb0a30e26e83b2ac5b9e29e1b161e5c1fa7425e73043362938b9824\',\'body_base64\':\'aGVsbG8=\',\'dedupe_key\':\'evt_1\',\'replay_id\':null,\'idempotency_key\':\'acme:demo:evt_1\',\'headers\':{\'x-github-event\':\'push\'},\'priority\':\'high\',\'labels\':{\'team\':\'payments\'},\'attempt\':3,\'source_kind\':null}'},'expect':{'ok':{'v':2,'id':'01b1','source_id':'demo','tenant_id':'acme','received_at':1720000000000,'content_type':'application/json','size':5,'body_base64':'aGVsbG8=','claim':null,'sha256':'2cf24dba5fb0a30e26e83b2ac5b9e29e1b161e5c1fa7425e73043362938b9824','dedupe_key':'evt_1','replay_id':null,'idempotency_key':'acme:demo:evt_1','headers':{'x-github-event':'push'},'verification':null,'traceparent':null,'tracestate':null,'instance':null,'region':null,'event_type':null}}}";
  "{'id':'message.decode.v2_additive.claim','feature':'message.decode.v2_additive','operation':'decode_message','input':{'message':'{\'v\':2,\'id\':\'01b2\',\'source_id\':\'demo\',\'tenant_id\':\'acme\',\'received_at\':1720000000000,\'content_type\':\'application/json\',\'size\':3145728,\'sha256\':\'2d711642b726b04401627ca9fbac32f5c8530fb1903cc4db02258717921a4881\',\'dedupe_key\':\'evt_1\',\'replay_id\':null,\'idempotency_key\':\'acme:demo:evt_1\',\'headers\':{},\'claim\':\'urn:ankusa:claim:v1:acme:01M39VMD8RA3C5HR4RBV67Y002\',\'expires_in_ms\':86400000,\'region_hint\':[\'eu\',\'us\']}'},'expect':{'ok':{'v':2,'id':'01b2','source_id':'demo','tenant_id':'acme','received_at':1720000000000,'content_type':'application/json','size':3145728,'body_base64':null,'claim':'urn:ankusa:claim:v1:acme:01M39VMD8RA3C5HR4RBV67Y002','sha256':'2d711642b726b04401627ca9fbac32f5c8530fb1903cc4db02258717921a4881','dedupe_key':'evt_1','replay_id':null,'idempotency_key':'acme:demo:evt_1','headers':{},'verification':null,'traceparent':null,'tracestate':null,'instance':null,'region':null,'event_type':null}}}";
  "{'id':'message.decode.v2_additive.origin','feature':'message.decode.v2_additive','operation':'decode_message','input':{'message':'{\'v\':2,\'id\':\'01b3\',\'source_id\':\'demo\',\'tenant_id\':\'acme\',\'received_at\':1720000000000,\'content_type\':\'application/json\',\'size\':5,\'sha256\':\'2cf24dba5fb0a30e26e83b2ac5b9e29e1b161e5c1fa7425e73043362938b9824\',\'body_base64\':\'aGVsbG8=\',\'dedupe_key\':\'evt_1\',\'replay_id\':null,\'idempotency_key\':\'acme:demo:evt_1\',\'headers\':{\'x-github-event\':\'push\'},\'instance\':\'ankusa-eu-1\',\'region\':\'eu-west-1\',\'verification\':{\'status\':\'ok\',\'flagged\':false},\'trace_flags\':\'01\'}'},'expect':{'ok':{'v':2,'id':'01b3','source_id':'demo','tenant_id':'acme','received_at':1720000000000,'content_type':'application/json','size':5,'body_base64':'aGVsbG8=','claim':null,'sha256':'2cf24dba5fb0a30e26e83b2ac5b9e29e1b161e5c1fa7425e73043362938b9824','dedupe_key':'evt_1','replay_id':null,'idempotency_key':'acme:demo:evt_1','headers':{'x-github-event':'push'},'verification':{'status':'ok','flagged':false},'traceparent':null,'tracestate':null,'instance':'ankusa-eu-1','region':'eu-west-1','event_type':null}}}";
  "{'id':'message.reject.v2_additive.missing_id','feature':'message.decode.v2_additive','operation':'decode_message','input':{'message':'{\'v\':2,\'source_id\':\'demo\',\'tenant_id\':\'acme\',\'received_at\':1720000000000,\'content_type\':\'application/json\',\'size\':5,\'sha256\':\'2cf24dba5fb0a30e26e83b2ac5b9e29e1b161e5c1fa7425e73043362938b9824\',\'body_base64\':\'aGVsbG8=\',\'dedupe_key\':\'evt_1\',\'replay_id\':null,\'idempotency_key\':\'acme:demo:evt_1\',\'headers\':{\'x-github-event\':\'push\'},\'priority\':\'high\'}'},'expect':{'error':{'class':'InvalidMessageError','retryable':false,'code':'invalid_field','field':'id'}}}";
  "{'id':'message.decode.origin','feature':'message.origin','operation':'decode_message','input':{'message':'{\'v\':1,\'id\':\'01b4\',\'source_id\':\'demo\',\'tenant_id\':\'acme\',\'received_at\':1720000000000,\'content_type\':\'application/json\',\'size\':5,\'sha256\':\'2cf24dba5fb0a30e26e83b2ac5b9e29e1b161e5c1fa7425e73043362938b9824\',\'body_base64\':\'aGVsbG8=\',\'dedupe_key\':\'evt_1\',\'replay_id\':null,\'idempotency_key\':\'acme:demo:evt_1\',\'headers\':{\'x-github-event\':\'push\'},\'instance\':\'ankusa-eu-1\',\'region\':\'eu-west-1\'}'},'expect':{'ok':{'v':1,'id':'01b4','source_id':'demo','tenant_id':'acme','received_at':1720000000000,'content_type':'application/json','size':5,'body_base64':'aGVsbG8=','claim':null,'sha256':'2cf24dba5fb0a30e26e83b2ac5b9e29e1b161e5c1fa7425e73043362938b9824','dedupe_key':'evt_1','replay_id':null,'idempotency_key':'acme:demo:evt_1','headers':{'x-github-event':'push'},'verification':null,'traceparent':null,'tracestate':null,'instance':'ankusa-eu-1','region':'eu-west-1','event_type':null}}}";
  "{'id':'message.decode.origin_null','feature':'message.origin','operation':'decode_message','input':{'message':'{\'v\':1,\'id\':\'01b5\',\'source_id\':\'demo\',\'tenant_id\':\'acme\',\'received_at\':1720000000000,\'content_type\':\'application/json\',\'size\':5,\'sha256\':\'2cf24dba5fb0a30e26e83b2ac5b9e29e1b161e5c1fa7425e73043362938b9824\',\'body_base64\':\'aGVsbG8=\',\'dedupe_key\':\'evt_1\',\'replay_id\':null,\'idempotency_key\':\'acme:demo:evt_1\',\'headers\':{\'x-github-event\':\'push\'},\'instance\':null,\'region\':null}'},'expect':{'ok':{'v':1,'id':'01b5','source_id':'demo','tenant_id':'acme','received_at':1720000000000,'content_type':'application/json','size':5,'body_base64':'aGVsbG8=','claim':null,'sha256':'2cf24dba5fb0a30e26e83b2ac5b9e29e1b161e5c1fa7425e73043362938b9824','dedupe_key':'evt_1','replay_id':null,'idempotency_key':'acme:demo:evt_1','headers':{'x-github-event':'push'},'verification':null,'traceparent':null,'tracestate':null,'instance':null,'region':null,'event_type':null}}}";
  "{'id':'message.decode.origin_instance_only','feature':'message.origin','operation':'decode_message','input':{'message':'{\'v\':1,\'id\':\'01b6\',\'source_id\':\'demo\',\'tenant_id\':\'acme\',\'received_at\':1720000000000,\'content_type\':\'application/json\',\'size\':5,\'sha256\':\'2cf24dba5fb0a30e26e83b2ac5b9e29e1b161e5c1fa7425e73043362938b9824\',\'body_base64\':\'aGVsbG8=\',\'dedupe_key\':\'evt_1\',\'replay_id\':null,\'idempotency_key\':\'acme:demo:evt_1\',\'headers\':{\'x-github-event\':\'push\'},\'instance\':\'default\'}'},'expect':{'ok':{'v':1,'id':'01b6','source_id':'demo','tenant_id':'acme','received_at':1720000000000,'content_type':'application/json','size':5,'body_base64':'aGVsbG8=','claim':null,'sha256':'2cf24dba5fb0a30e26e83b2ac5b9e29e1b161e5c1fa7425e73043362938b9824','dedupe_key':'evt_1','replay_id':null,'idempotency_key':'acme:demo:evt_1','headers':{'x-github-event':'push'},'verification':null,'traceparent':null,'tracestate':null,'instance':'default','region':null,'event_type':null}}}";
  "{'id':'message.reject.bad_instance','feature':'message.origin','operation':'decode_message','input':{'message':'{\'v\':1,\'id\':\'01b0\',\'source_id\':\'demo\',\'tenant_id\':\'acme\',\'received_at\':1720000000000,\'content_type\':\'application/json\',\'size\':5,\'sha256\':\'2cf24dba5fb0a30e26e83b2ac5b9e29e1b161e5c1fa7425e73043362938b9824\',\'body_base64\':\'aGVsbG8=\',\'dedupe_key\':\'evt_1\',\'replay_id\':null,\'idempotency_key\':\'acme:demo:evt_1\',\'headers\':{\'x-github-event\':\'push\'},\'instance\':7}'},'expect':{'error':{'class':'InvalidMessageError','retryable':false,'code':'invalid_field','field':'instance'}}}";
  "{'id':'message.reject.bad_region','feature':'message.origin','operation':'decode_message','input':{'message':'{\'v\':1,\'id\':\'01b0\',\'source_id\':\'demo\',\'tenant_id\':\'acme\',\'received_at\':1720000000000,\'content_type\':\'application/json\',\'size\':5,\'sha256\':\'2cf24dba5fb0a30e26e83b2ac5b9e29e1b161e5c1fa7425e73043362938b9824\',\'body_base64\':\'aGVsbG8=\',\'dedupe_key\':\'evt_1\',\'replay_id\':null,\'idempotency_key\':\'acme:demo:evt_1\',\'headers\':{\'x-github-event\':\'push\'},\'region\':[\'eu-west-1\']}'},'expect':{'error':{'class':'InvalidMessageError','retryable':false,'code':'invalid_field','field':'region'}}}";
  "{'id':'message.reject.bad_instance_before_region','feature':'message.origin','operation':'decode_message','input':{'message':'{\'v\':1,\'id\':\'01b0\',\'source_id\':\'demo\',\'tenant_id\':\'acme\',\'received_at\':1720000000000,\'content_type\':\'application/json\',\'size\':5,\'sha256\':\'2cf24dba5fb0a30e26e83b2ac5b9e29e1b161e5c1fa7425e73043362938b9824\',\'body_base64\':\'aGVsbG8=\',\'dedupe_key\':\'evt_1\',\'replay_id\':null,\'idempotency_key\':\'acme:demo:evt_1\',\'headers\':{\'x-github-event\':\'push\'},\'instance\':true,\'region\':1}'},'expect':{'error':{'class':'InvalidMessageError','retryable':false,'code':'invalid_field','field':'instance'}}}";
  "{'id':'message.decode.event_type','feature':'message.event_type','operation':'decode_message','input':{'message':'{\'v\':1,\'id\':\'01c0\',\'source_id\':\'demo\',\'tenant_id\':\'acme\',\'received_at\':1720000000000,\'content_type\':\'application/json\',\'size\':5,\'sha256\':\'2cf24dba5fb0a30e26e83b2ac5b9e29e1b161e5c1fa7425e73043362938b9824\',\'body_base64\':\'aGVsbG8=\',\'dedupe_key\':\'evt_1\',\'replay_id\':null,\'idempotency_key\':\'acme:demo:evt_1\',\'headers\':{\'x-github-event\':\'push\'},\'event_type\':\'invoice.paid\'}'},'expect':{'ok':{'v':1,'id':'01c0','source_id':'demo','tenant_id':'acme','received_at':1720000000000,'content_type':'application/json','size':5,'body_base64':'aGVsbG8=','claim':null,'sha256':'2cf24dba5fb0a30e26e83b2ac5b9e29e1b161e5c1fa7425e73043362938b9824','dedupe_key':'evt_1','replay_id':null,'idempotency_key':'acme:demo:evt_1','headers':{'x-github-event':'push'},'verification':null,'traceparent':null,'tracestate':null,'instance':null,'region':null,'event_type':'invoice.paid'}}}";
  "{'id':'message.decode.event_type_null','feature':'message.event_type','operation':'decode_message','input':{'message':'{\'v\':1,\'id\':\'01c1\',\'source_id\':\'demo\',\'tenant_id\':\'acme\',\'received_at\':1720000000000,\'content_type\':\'application/json\',\'size\':5,\'sha256\':\'2cf24dba5fb0a30e26e83b2ac5b9e29e1b161e5c1fa7425e73043362938b9824\',\'body_base64\':\'aGVsbG8=\',\'dedupe_key\':\'evt_1\',\'replay_id\':null,\'idempotency_key\':\'acme:demo:evt_1\',\'headers\':{\'x-github-event\':\'push\'},\'event_type\':null}'},'expect':{'ok':{'v':1,'id':'01c1','source_id':'demo','tenant_id':'acme','received_at':1720000000000,'content_type':'application/json','size':5,'body_base64':'aGVsbG8=','claim':null,'sha256':'2cf24dba5fb0a30e26e83b2ac5b9e29e1b161e5c1fa7425e73043362938b9824','dedupe_key':'evt_1','replay_id':null,'idempotency_key':'acme:demo:evt_1','headers':{'x-github-event':'push'},'verification':null,'traceparent':null,'tracestate':null,'instance':null,'region':null,'event_type':null}}}";
  "{'id':'message.decode.event_type_absent','feature':'message.event_type','operation':'decode_message','input':{'message':'{\'v\':1,\'id\':\'01c2\',\'source_id\':\'demo\',\'tenant_id\':\'acme\',\'received_at\':1720000000000,\'content_type\':\'application/json\',\'size\':5,\'sha256\':\'2cf24dba5fb0a30e26e83b2ac5b9e29e1b161e5c1fa7425e73043362938b9824\',\'body_base64\':\'aGVsbG8=\',\'dedupe_key\':\'evt_1\',\'replay_id\':null,\'idempotency_key\':\'acme:demo:evt_1\',\'headers\':{\'x-github-event\':\'push\'}}'},'expect':{'ok':{'v':1,'id':'01c2','source_id':'demo','tenant_id':'acme','received_at':1720000000000,'content_type':'application/json','size':5,'body_base64':'aGVsbG8=','claim':null,'sha256':'2cf24dba5fb0a30e26e83b2ac5b9e29e1b161e5c1fa7425e73043362938b9824','dedupe_key':'evt_1','replay_id':null,'idempotency_key':'acme:demo:evt_1','headers':{'x-github-event':'push'},'verification':null,'traceparent':null,'tracestate':null,'instance':null,'region':null,'event_type':null}}}";
  "{'id':'message.reject.bad_event_type','feature':'message.event_type','operation':'decode_message','input':{'message':'{\'v\':1,\'id\':\'01c3\',\'source_id\':\'demo\',\'tenant_id\':\'acme\',\'received_at\':1720000000000,\'content_type\':\'application/json\',\'size\':5,\'sha256\':\'2cf24dba5fb0a30e26e83b2ac5b9e29e1b161e5c1fa7425e73043362938b9824\',\'body_base64\':\'aGVsbG8=\',\'dedupe_key\':\'evt_1\',\'replay_id\':null,\'idempotency_key\':\'acme:demo:evt_1\',\'headers\':{\'x-github-event\':\'push\'},\'event_type\':7}'},'expect':{'error':{'class':'InvalidMessageError','retryable':false,'code':'invalid_field','field':'event_type'}}}";
  "{'id':'message.reject.bad_region_before_event_type','feature':'message.event_type','operation':'decode_message','input':{'message':'{\'v\':1,\'id\':\'01c4\',\'source_id\':\'demo\',\'tenant_id\':\'acme\',\'received_at\':1720000000000,\'content_type\':\'application/json\',\'size\':5,\'sha256\':\'2cf24dba5fb0a30e26e83b2ac5b9e29e1b161e5c1fa7425e73043362938b9824\',\'body_base64\':\'aGVsbG8=\',\'dedupe_key\':\'evt_1\',\'replay_id\':null,\'idempotency_key\':\'acme:demo:evt_1\',\'headers\':{\'x-github-event\':\'push\'},\'region\':1,\'event_type\':true}'},'expect':{'error':{'class':'InvalidMessageError','retryable':false,'code':'invalid_field','field':'region'}}}"
].

Definition producer_cases : list string := [
  "{'id':'producer.inline_full','feature':'message.producer','operation':'decode_message','input':{'message':'{\'body_base64\':\'eyJpZCI6ImV2dF8xIn0=\',\'content_type\':\'application/json\',\'dedupe_key\':\'evt_1\',\'event_type\':\'invoice.paid\',\'headers\':{\'x-github-event\':\'push\',\'x-multi\':\'a, b\'},\'id\':\'01931e8a-7c2e-7000-8000-000000000001\',\'idempotency_key\':\'acme:stripe:evt_1\',\'instance\':\'conformance_eu\',\'received_at\':1737500000000,\'region\':\'eu-west-1\',\'replay_id\':null,\'sha256\':\'40993c639ffb5f13a0a2ef5c93c965f10b405f2b87a379272381da2dbc158dfa\',\'size\':14,\'source_id\':\'stripe\',\'tenant_id\':\'acme\',\'traceparent\':\'00-4bf92f3577b34da6a3ce929d0e0e4736-00f067aa0ba902b7-01\',\'tracestate\':\'vendor=1\',\'v\':1,\'verification\':{\'flagged\':false,\'status\':\'ok\'}}'},'expect':{'ok':{'v':1,'id':'01931e8a-7c2e-7000-8000-000000000001','source_id':'stripe','tenant_id':'acme','received_at':1737500000000,'content_type':'application/json','size':14,'body_base64':'eyJpZCI6ImV2dF8xIn0=','claim':null,'sha256':'40993c639ffb5f13a0a2ef5c93c965f10b405f2b87a379272381da2dbc158dfa','dedupe_key':'evt_1','replay_id':null,'idempotency_key':'acme:stripe:evt_1','headers':{'x-github-event':'push','x-multi':'a, b'},'verification':{'flagged':false,'status':'ok'},'traceparent':'00-4bf92f3577b34da6a3ce929d0e0e4736-00f067aa0ba902b7-01','tracestate':'vendor=1','instance':'conformance_eu','region':'eu-west-1','event_type':'invoice.paid'}}}";
  "{'id':'producer.claim','feature':'message.producer','operation':'decode_message','input':{'message':'{\'claim\':\'urn:ankusa:claim:v1:acme:01M39VMD8RA3C5HR4RBV67Y002\',\'content_type\':\'application/octet-stream\',\'dedupe_key\':\'evt_2\',\'event_type\':null,\'headers\':{\'x-github-event\':\'push\'},\'id\':\'01931e8a-7c2e-7000-8000-000000000002\',\'idempotency_key\':\'acme:stripe:evt_2\',\'instance\':\'conformance_eu\',\'received_at\':1737500000000,\'region\':\'eu-west-1\',\'replay_id\':null,\'sha256\':\'09ecb6ebc8bcefc733f6f2ec44f791abeed6a99edf0cc31519637898aebd52d8\',\'size\':100,\'source_id\':\'stripe\',\'tenant_id\':\'acme\',\'traceparent\':null,\'tracestate\':null,\'v\':1,\'verification\':{\'flagged\':false,\'status\':\'ok\'}}'},'expect':{'ok':{'v':1,'id':'01931e8a-7c2e-7000-8000-000000000002','source_id':'stripe','tenant_id':'acme','received_at':1737500000000,'content_type':'application/octet-stream','size':100,'body_base64':null,'claim':'urn:ankusa:claim:v1:acme:01M39VMD8RA3C5HR4RBV67Y002','sha256':'09ecb6ebc8bcefc733f6f2ec44f791abeed6a99edf0cc31519637898aebd52d8','dedupe_key':'evt_2','replay_id':null,'idempotency_key':'acme:stripe:evt_2','headers':{'x-github-event':'push'},'verification':{'flagged':false,'status':'ok'},'traceparent':null,'tracestate':null,'instance':'conformance_eu','region':'eu-west-1','event_type':null}}}";
  "{'id':'producer.replay_ordered','feature':'message.producer','operation':'decode_message','input':{'message':'{\'body_base64\':\'aGVsbG8=\',\'content_type\':\'text/plain\',\'dedupe_key\':null,\'event_type\':null,\'headers\':{},\'id\':\'01931e8a-7c2e-7000-8000-000000000003\',\'idempotency_key\':\'01931e8a-7c2e-7000-8000-000000000003\',\'instance\':\'conformance\',\'ordering_key\':\'cus_1\',\'received_at\':1737500000001,\'region\':null,\'replay_id\':\'rpl_1\',\'sha256\':\'2cf24dba5fb0a30e26e83b2ac5b9e29e1b161e5c1fa7425e73043362938b9824\',\'size\':5,\'source_id\':\'orders\',\'tenant_id\':null,\'traceparent\':null,\'tracestate\':null,\'v\':1,\'verification\':{\'flagged\':false,\'status\':\'skipped\'}}'},'expect':{'ok':{'v':1,'id':'01931e8a-7c2e-7000-8000-000000000003','source_id':'orders','tenant_id':null,'received_at':1737500000001,'content_type':'text/plain','size':5,'body_base64':'aGVsbG8=','claim':null,'sha256':'2cf24dba5fb0a30e26e83b2ac5b9e29e1b161e5c1fa7425e73043362938b9824','dedupe_key':null,'replay_id':'rpl_1','idempotency_key':'01931e8a-7c2e-7000-8000-000000000003','headers':{},'verification':{'flagged':false,'status':'skipped'},'traceparent':null,'tracestate':null,'instance':'conformance','region':null,'event_type':null}}}";
  "{'id':'producer.flagged','feature':'message.producer','operation':'decode_message','input':{'message':'{\'body_base64\':\'AAEC/w==\',\'content_type\':null,\'dedupe_key\':\'d-1\',\'event_type\':null,\'headers\':{},\'id\':\'01931e8a-7c2e-7000-8000-000000000004\',\'idempotency_key\':\'globex:github:d-1\',\'instance\':\'conformance\',\'received_at\':1737500000002,\'region\':null,\'replay_id\':null,\'sha256\':\'3d1f57c984978ef98a18378c8166c1cb8ede02c03eeb6aee7e2f121dfeee3e56\',\'size\':4,\'source_id\':\'github\',\'tenant_id\':\'globex\',\'traceparent\':null,\'tracestate\':null,\'v\':1,\'verification\':{\'flagged\':true,\'status\':\'failed\'}}'},'expect':{'ok':{'v':1,'id':'01931e8a-7c2e-7000-8000-000000000004','source_id':'github','tenant_id':'globex','received_at':1737500000002,'content_type':null,'size':4,'body_base64':'AAEC/w==','claim':null,'sha256':'3d1f57c984978ef98a18378c8166c1cb8ede02c03eeb6aee7e2f121dfeee3e56','dedupe_key':'d-1','replay_id':null,'idempotency_key':'globex:github:d-1','headers':{},'verification':{'flagged':true,'status':'failed'},'traceparent':null,'tracestate':null,'instance':'conformance','region':null,'event_type':null}}}"
].

Definition receive_cases : list string := [
  "{'id':'receive.signed_ok','feature':'webhook.require_signature','operation':'receive_delivery','input':{'headers':{'x-ankusa-id':'01a0','x-ankusa-source':'demo','x-ankusa-tenant':'acme','content-type':'application/json','webhook-id':'msg_p5jXN8AQM9LWM0D4loKWxJek','webhook-timestamp':'1614265330','webhook-signature':'v1,g0hM9SsE+OTPJTGt/tmIKtSyZlE3uFJELVlNIOLJ1OE='},'body':{'text':'{\'test\': 2432232314}'},'receiver':{'secrets':['whsec_MfKQ9r8GKYqrTwjUPD8ILPZIo2LaLaSw']},'now':1614265330},'expect':{'ok':{'verified':true,'id':'01a0','source':'demo','tenant':'acme','content_type':'application/json','dedupe_key':null,'replay_id':null,'idempotency_key':null,'received_at':null,'body_sha256':null,'verification':null}}}";
  "{'id':'receive.signed_rotation_ok','feature':'webhook.require_signature','operation':'receive_delivery','input':{'headers':{'x-ankusa-id':'01a0','webhook-id':'msg_p5jXN8AQM9LWM0D4loKWxJek','webhook-timestamp':'1614265330','webhook-signature':'v1,g0hM9SsE+OTPJTGt/tmIKtSyZlE3uFJELVlNIOLJ1OE='},'body':{'text':'{\'test\': 2432232314}'},'receiver':{'secrets':['whsec_AAECAwQFBgcICQoLDA0ODxAREhMUFRYXGBkaGxwdHh8=','whsec_MfKQ9r8GKYqrTwjUPD8ILPZIo2LaLaSw']},'now':1614265330},'expect':{'ok':{'verified':true,'id':'01a0','source':'','tenant':null,'content_type':null,'dedupe_key':null,'replay_id':null,'idempotency_key':null,'received_at':null,'body_sha256':null,'verification':null}}}";
  "{'id':'receive.tolerance_option_ok','feature':'webhook.require_signature','operation':'receive_delivery','input':{'headers':{'x-ankusa-id':'01a0','webhook-id':'msg_p5jXN8AQM9LWM0D4loKWxJek','webhook-timestamp':'1614265330','webhook-signature':'v1,g0hM9SsE+OTPJTGt/tmIKtSyZlE3uFJELVlNIOLJ1OE='},'body':{'text':'{\'test\': 2432232314}'},'receiver':{'secrets':['whsec_MfKQ9r8GKYqrTwjUPD8ILPZIo2LaLaSw'],'tolerance_seconds':400},'now':1614265680},'expect':{'ok':{'verified':true,'id':'01a0','source':'','tenant':null,'content_type':null,'dedupe_key':null,'replay_id':null,'idempotency_key':null,'received_at':null,'body_sha256':null,'verification':null}}}";
  "{'id':'receive.unsigned_refused_by_default','feature':'webhook.require_signature','operation':'receive_delivery','input':{'headers':{'x-ankusa-id':'01a0','x-ankusa-source':'demo'},'body':{'text':'{\'test\': 2432232314}'},'receiver':{},'now':1614265330},'expect':{'error':{'class':'InvalidSignatureError','retryable':false,'code':'invalid_secret','field':null}}}";
  "{'id':'receive.unsigned_refused_with_empty_secrets','feature':'webhook.require_signature','operation':'receive_delivery','input':{'headers':{'x-ankusa-id':'01a0'},'body':{'text':'{}'},'receiver':{'secrets':[],'allow_unsigned':false},'now':1614265330},'expect':{'error':{'class':'InvalidSignatureError','retryable':false,'code':'invalid_secret','field':null}}}";
  "{'id':'receive.unsigned_with_secret_refused','feature':'webhook.require_signature','operation':'receive_delivery','input':{'headers':{'x-ankusa-id':'01a0','x-ankusa-source':'demo'},'body':{'text':'{\'test\': 2432232314}'},'receiver':{'secrets':['whsec_MfKQ9r8GKYqrTwjUPD8ILPZIo2LaLaSw']},'now':1614265330},'expect':{'error':{'class':'InvalidSignatureError','retryable':false,'code':'missing_header','field':'webhook-id'}}}";
  "{'id':'receive.wrong_secret_refused','feature':'webhook.require_signature','operation':'receive_delivery','input':{'headers':{'x-ankusa-id':'01a0','webhook-id':'msg_p5jXN8AQM9LWM0D4loKWxJek','webhook-timestamp':'1614265330','webhook-signature':'v1,g0hM9SsE+OTPJTGt/tmIKtSyZlE3uFJELVlNIOLJ1OE='},'body':{'text':'{\'test\': 2432232314}'},'receiver':{'secrets':['whsec_AAECAwQFBgcICQoLDA0ODxAREhMUFRYXGBkaGxwdHh8=']},'now':1614265330},'expect':{'error':{'class':'InvalidSignatureError','retryable':false,'code':'no_matching_signature','field':'webhook-signature'}}}";
  "{'id':'receive.tampered_body_refused','feature':'webhook.require_signature','operation':'receive_delivery','input':{'headers':{'x-ankusa-id':'01a0','webhook-id':'msg_p5jXN8AQM9LWM0D4loKWxJek','webhook-timestamp':'1614265330','webhook-signature':'v1,g0hM9SsE+OTPJTGt/tmIKtSyZlE3uFJELVlNIOLJ1OE='},'body':{'text':'{\'test\': 2432232315}'},'receiver':{'secrets':['whsec_MfKQ9r8GKYqrTwjUPD8ILPZIo2LaLaSw']},'now':1614265330},'expect':{'error':{'class':'InvalidSignatureError','retryable':false,'code':'no_matching_signature','field':'webhook-signature'}}}";
  "{'id':'receive.stale_refused','feature':'webhook.require_signature','operation':'receive_delivery','input':{'headers':{'x-ankusa-id':'01a0','webhook-id':'msg_p5jXN8AQM9LWM0D4loKWxJek','webhook-timestamp':'1614265330','webhook-signature':'v1,g0hM9SsE+OTPJTGt/tmIKtSyZlE3uFJELVlNIOLJ1OE='},'body':{'text':'{\'test\': 2432232314}'},'receiver':{'secrets':['whsec_MfKQ9r8GKYqrTwjUPD8ILPZIo2LaLaSw']},'now':1614265631},'expect':{'error':{'class':'InvalidSignatureError','retryable':false,'code':'timestamp_out_of_tolerance','field':'webhook-timestamp'}}}";
  "{'id':'receive.bad_secret_refused_even_with_allow_unsigned','feature':'webhook.require_signature','operation':'receive_delivery','input':{'headers':{'x-ankusa-id':'01a0'},'body':{'text':'{}'},'receiver':{'secrets':['whsec_!!!'],'allow_unsigned':true},'now':1614265330},'expect':{'error':{'class':'InvalidSignatureError','retryable':false,'code':'invalid_secret','field':null}}}";
  "{'id':'receive.allow_unsigned_does_not_weaken_a_secret','feature':'webhook.require_signature','operation':'receive_delivery','input':{'headers':{'x-ankusa-id':'01a0','x-ankusa-source':'demo'},'body':{'text':'{\'test\': 2432232314}'},'receiver':{'secrets':['whsec_MfKQ9r8GKYqrTwjUPD8ILPZIo2LaLaSw'],'allow_unsigned':true},'now':1614265330},'expect':{'error':{'class':'InvalidSignatureError','retryable':false,'code':'missing_header','field':'webhook-id'}}}";
  "{'id':'receive.allow_unsigned_ok','feature':'webhook.require_signature','operation':'receive_delivery','input':{'headers':{'x-ankusa-id':'01a0','x-ankusa-source':'demo','x-ankusa-tenant':'acme','x-ankusa-idempotency-key':'acme:demo:evt_1','content-type':'application/json'},'body':{'text':'{\'test\': 2432232314}'},'receiver':{'allow_unsigned':true},'now':1614265330},'expect':{'ok':{'verified':false,'id':'01a0','source':'demo','tenant':'acme','content_type':'application/json','dedupe_key':null,'replay_id':null,'idempotency_key':'acme:demo:evt_1','received_at':null,'body_sha256':null,'verification':null}}}";
  "{'id':'receive.allow_unsigned_empty_secrets_ok','feature':'webhook.require_signature','operation':'receive_delivery','input':{'headers':{'x-ankusa-id':'01a0'},'body':{'text':'{}'},'receiver':{'secrets':[],'allow_unsigned':true},'now':1614265330},'expect':{'ok':{'verified':false,'id':'01a0','source':'','tenant':null,'content_type':null,'dedupe_key':null,'replay_id':null,'idempotency_key':null,'received_at':null,'body_sha256':null,'verification':null}}}";
  "{'id':'receive.signature_checked_before_hook_id','feature':'webhook.require_signature','operation':'receive_delivery','input':{'headers':{},'body':{'text':'{}'},'receiver':{},'now':1614265330},'expect':{'error':{'class':'InvalidSignatureError','retryable':false,'code':'invalid_secret','field':null}}}";
  "{'id':'receive.signed_without_hook_id','feature':'webhook.require_signature','operation':'receive_delivery','input':{'headers':{'webhook-id':'msg_p5jXN8AQM9LWM0D4loKWxJek','webhook-timestamp':'1614265330','webhook-signature':'v1,g0hM9SsE+OTPJTGt/tmIKtSyZlE3uFJELVlNIOLJ1OE='},'body':{'text':'{\'test\': 2432232314}'},'receiver':{'secrets':['whsec_MfKQ9r8GKYqrTwjUPD8ILPZIo2LaLaSw']},'now':1614265330},'expect':{'error':{'class':'MissingHookIdError'}}}";
  "{'id':'receive.allow_unsigned_without_hook_id','feature':'webhook.require_signature','operation':'receive_delivery','input':{'headers':{'x-ankusa-source':'demo'},'body':{'text':'{}'},'receiver':{'allow_unsigned':true},'now':1614265330},'expect':{'error':{'class':'MissingHookIdError'}}}"
].

Definition redeem_cases : list string := [
  "{'id':'redeem.ok','operation':'redeem','input':{'gateway':{'status':200,'headers':{'content-type':'application/octet-stream'},'body':{'text':'hello claim check'}},'ref':'urn:ankusa:claim:v1:acme:01M39VMD8RA3C5HR4RBV67Y002','sha256':'8e1bed597394cf01672e49232d9929c8bc6b3d6ea4e2f489517ec88701f01581'},'expect':{'ok':{'body':{'text':'hello claim check'}},'requests':[{'method':'GET','path':'/v1/claims/acme/01M39VMD8RA3C5HR4RBV67Y002'}]},'feature':'claim_check.redeem'}";
  "{'id':'redeem.ok.binary','operation':'redeem','input':{'gateway':{'status':200,'body':{'base64':'AP8QgAoN'}},'ref':'urn:ankusa:claim:v1:acme:01M39VMD8RA3C5HR4RBV67Y002','sha256':'e907c711571027ff8d3a8fe2330188727124bf32ba25eccacdb01f32c0a0fda7'},'expect':{'ok':{'body':{'base64':'AP8QgAoN'}}},'feature':'claim_check.redeem'}";
  "{'id':'redeem.ok.empty','operation':'redeem','input':{'gateway':{'status':200},'ref':'urn:ankusa:claim:v1:acme:01M39VMD8RA3C5HR4RBV67Y002','sha256':'e3b0c44298fc1c149afbf4c8996fb92427ae41e4649b934ca495991b7852b855'},'expect':{'ok':{'body':{'base64':''}}},'feature':'claim_check.redeem'}";
  "{'id':'redeem.integrity.mismatch','operation':'redeem','input':{'gateway':{'status':200,'body':{'text':'tampered'}},'ref':'urn:ankusa:claim:v1:acme:01M39VMD8RA3C5HR4RBV67Y002','sha256':'8e1bed597394cf01672e49232d9929c8bc6b3d6ea4e2f489517ec88701f01581'},'expect':{'error':{'class':'ClaimIntegrityError','retryable':false}},'feature':'claim_check.redeem.integrity'}";
  "{'id':'redeem.integrity.truncated','operation':'redeem','input':{'gateway':{'status':200,'body':{'text':'hello claim chec'}},'ref':'urn:ankusa:claim:v1:acme:01M39VMD8RA3C5HR4RBV67Y002','sha256':'8e1bed597394cf01672e49232d9929c8bc6b3d6ea4e2f489517ec88701f01581'},'expect':{'error':{'class':'ClaimIntegrityError','retryable':false}},'feature':'claim_check.redeem.integrity'}";
  "{'id':'redeem.integrity.empty_body','operation':'redeem','input':{'gateway':{'status':200},'ref':'urn:ankusa:claim:v1:acme:01M39VMD8RA3C5HR4RBV67Y002','sha256':'8e1bed597394cf01672e49232d9929c8bc6b3d6ea4e2f489517ec88701f01581'},'expect':{'error':{'class':'ClaimIntegrityError','retryable':false}},'feature':'claim_check.redeem.integrity'}";
  "{'id':'redeem.error.not_found','operation':'redeem','input':{'gateway':{'status':404,'headers':{'content-type':'application/json'},'body':{'json':{'error':'not_found'}}},'ref':'urn:ankusa:claim:v1:acme:01M39VMD8RA3C5HR4RBV67Y002','sha256':'8e1bed597394cf01672e49232d9929c8bc6b3d6ea4e2f489517ec88701f01581'},'expect':{'error':{'class':'ClaimNotFoundError','retryable':false}},'feature':'claim_check.redeem.error_classification'}";
  "{'id':'redeem.error.rejected_json','operation':'redeem','input':{'gateway':{'status':400,'headers':{'content-type':'application/json'},'body':{'json':{'error':'invalid_ref'}}},'ref':'urn:ankusa:claim:v1:acme:01M39VMD8RA3C5HR4RBV67Y002','sha256':'8e1bed597394cf01672e49232d9929c8bc6b3d6ea4e2f489517ec88701f01581'},'expect':{'error':{'class':'ClaimRejectedError','retryable':false,'status':400,'body':{'error':'invalid_ref'}}},'feature':'claim_check.redeem.error_classification'}";
  "{'id':'redeem.error.rejected_text','operation':'redeem','input':{'gateway':{'status':403,'headers':{'content-type':'text/plain'},'body':{'text':'forbidden'}},'ref':'urn:ankusa:claim:v1:acme:01M39VMD8RA3C5HR4RBV67Y002','sha256':'8e1bed597394cf01672e49232d9929c8bc6b3d6ea4e2f489517ec88701f01581'},'expect':{'error':{'class':'ClaimRejectedError','retryable':false,'status':403,'body':'forbidden'}},'feature':'claim_check.redeem.error_classification'}";
  "{'id':'redeem.error.rejected_empty','operation':'redeem','input':{'gateway':{'status':410},'ref':'urn:ankusa:claim:v1:acme:01M39VMD8RA3C5HR4RBV67Y002','sha256':'8e1bed597394cf01672e49232d9929c8bc6b3d6ea4e2f489517ec88701f01581'},'expect':{'error':{'class':'ClaimRejectedError','retryable':false,'status':410,'body':''}},'feature':'claim_check.redeem.error_classification'}";
  "{'id':'redeem.error.throttled','operation':'redeem','input':{'gateway':{'status':429,'headers':{'retry-after':'3'}},'ref':'urn:ankusa:claim:v1:acme:01M39VMD8RA3C5HR4RBV67Y002','sha256':'8e1bed597394cf01672e49232d9929c8bc6b3d6ea4e2f489517ec88701f01581'},'expect':{'error':{'class':'ClaimCheckUnavailableError','retryable':true}},'feature':'claim_check.redeem.error_classification'}";
  "{'id':'redeem.error.request_timeout','operation':'redeem','input':{'gateway':{'status':408},'ref':'urn:ankusa:claim:v1:acme:01M39VMD8RA3C5HR4RBV67Y002','sha256':'8e1bed597394cf01672e49232d9929c8bc6b3d6ea4e2f489517ec88701f01581'},'expect':{'error':{'class':'ClaimCheckUnavailableError','retryable':true}},'feature':'claim_check.redeem.error_classification'}";
  "{'id':'redeem.error.server_error','operation':'redeem','input':{'gateway':{'status':500,'headers':{'content-type':'application/json'},'body':{'json':{'error':'internal'}}},'ref':'urn:ankusa:claim:v1:acme:01M39VMD8RA3C5HR4RBV67Y002','sha256':'8e1bed597394cf01672e49232d9929c8bc6b3d6ea4e2f489517ec88701f01581'},'expect':{'error':{'class':'ClaimCheckUnavailableError','retryable':true}},'feature':'claim_check.redeem.error_classification'}";
  "{'id':'redeem.error.service_unavailable','operation':'redeem','input':{'gateway':{'status':503,'headers':{'content-type':'text/plain'},'body':{'text':'busy'}},'ref':'urn:ankusa:claim:v1:acme:01M39VMD8RA3C5HR4RBV67Y002','sha256':'8e1bed597394cf01672e49232d9929c8bc6b3d6ea4e2f489517ec88701f01581'},'expect':{'error':{'class':'ClaimCheckUnavailableError','retryable':true}},'feature':'claim_check.redeem.error_classification'}";
  "{'id':'redeem.error.non_200_success','operation':'redeem','input':{'gateway':{'status':201,'body':{'text':'hello claim check'}},'ref':'urn:ankusa:claim:v1:acme:01M39VMD8RA3C5HR4RBV67Y002','sha256':'8e1bed597394cf01672e49232d9929c8bc6b3d6ea4e2f489517ec88701f01581'},'expect':{'error':{'class':'ClaimCheckUnavailableError','retryable':true}},'feature':'claim_check.redeem.error_classification'}";
  "{'id':'redeem.error.redirect_not_followed','operation':'redeem','input':{'gateway':{'status':302,'headers':{'location':'/elsewhere'}},'ref':'urn:ankusa:claim:v1:acme:01M39VMD8RA3C5HR4RBV67Y002','sha256':'8e1bed597394cf01672e49232d9929c8bc6b3d6ea4e2f489517ec88701f01581'},'expect':{'error':{'class':'ClaimCheckUnavailableError','retryable':true},'requests':[{'method':'GET','path':'/v1/claims/acme/01M39VMD8RA3C5HR4RBV67Y002'}]},'feature':'claim_check.redeem.error_classification'}";
  "{'id':'redeem.error.unreachable','operation':'redeem','input':{'gateway':{'unreachable':true},'ref':'urn:ankusa:claim:v1:acme:01M39VMD8RA3C5HR4RBV67Y002','sha256':'8e1bed597394cf01672e49232d9929c8bc6b3d6ea4e2f489517ec88701f01581'},'expect':{'error':{'class':'ClaimCheckUnavailableError','retryable':true}},'feature':'claim_check.redeem.error_classification'}";
  "{'id':'redeem.invalid.ref','operation':'redeem','input':{'gateway':{'status':200,'headers':{'content-type':'application/octet-stream'},'body':{'text':'hello claim check'}},'ref':'not-a-ref','sha256':'8e1bed597394cf01672e49232d9929c8bc6b3d6ea4e2f489517ec88701f01581'},'expect':{'error':{'class':'InvalidClaimRefError','retryable':false},'requests':[]},'feature':'claim_check.redeem.input_validation'}";
  "{'id':'redeem.invalid.sha256_empty','operation':'redeem','input':{'gateway':{'status':200,'headers':{'content-type':'application/octet-stream'},'body':{'text':'hello claim check'}},'ref':'urn:ankusa:claim:v1:acme:01M39VMD8RA3C5HR4RBV67Y002','sha256':''},'expect':{'error':{'class':'InvalidClaimRefError','retryable':false},'requests':[]},'feature':'claim_check.redeem.input_validation'}";
  "{'id':'redeem.invalid.sha256_short','operation':'redeem','input':{'gateway':{'status':200,'headers':{'content-type':'application/octet-stream'},'body':{'text':'hello claim check'}},'ref':'urn:ankusa:claim:v1:acme:01M39VMD8RA3C5HR4RBV67Y002','sha256':'8e1bed597394cf01672e49232d9929c8bc6b3d6ea4e2f489517ec88701f0158'},'expect':{'error':{'class':'InvalidClaimRefError','retryable':false},'requests':[]},'feature':'claim_check.redeem.input_validation'}";
  "{'id':'redeem.invalid.sha256_long','operation':'redeem','input':{'gateway':{'status':200,'headers':{'content-type':'application/octet-stream'},'body':{'text':'hello claim check'}},'ref':'urn:ankusa:claim:v1:acme:01M39VMD8RA3C5HR4RBV67Y002','sha256':'8e1bed597394cf01672e49232d9929c8bc6b3d6ea4e2f489517ec88701f015810'},'expect':{'error':{'class':'InvalidClaimRefError','retryable':false},'requests':[]},'feature':'claim_check.redeem.input_validation'}";
  "{'id':'redeem.invalid.sha256_uppercase','operation':'redeem','input':{'gateway':{'status':200,'headers':{'content-type':'application/octet-stream'},'body':{'text':'hello claim check'}},'ref':'urn:ankusa:claim:v1:acme:01M39VMD8RA3C5HR4RBV67Y002','sha256':'8E1BED597394CF01672E49232D9929C8BC6B3D6EA4E2F489517EC88701F01581'},'expect':{'error':{'class':'InvalidClaimRefError','retryable':false},'requests':[]},'feature':'claim_check.redeem.input_validation'}";
  "{'id':'redeem.invalid.sha256_prefixed','operation':'redeem','input':{'gateway':{'status':200,'headers':{'content-type':'application/octet-stream'},'body':{'text':'hello claim check'}},'ref':'urn:ankusa:claim:v1:acme:01M39VMD8RA3C5HR4RBV67Y002','sha256':'sha256-8e1bed597394cf01672e49232d9929c8bc6b3d6ea4e2f489517ec88701f01581'},'expect':{'error':{'class':'InvalidClaimRefError','retryable':false},'requests':[]},'feature':'claim_check.redeem.input_validation'}";
  "{'id':'redeem.invalid.sha256_non_hex','operation':'redeem','input':{'gateway':{'status':200,'headers':{'content-type':'application/octet-stream'},'body':{'text':'hello claim check'}},'ref':'urn:ankusa:claim:v1:acme:01M39VMD8RA3C5HR4RBV67Y002','sha256':'gggggggggggggggggggggggggggggggggggggggggggggggggggggggggggggggg'},'expect':{'error':{'class':'InvalidClaimRefError','retryable':false},'requests':[]},'feature':'claim_check.redeem.input_validation'}";
  "{'id':'redeem.client.headers','operation':'redeem','input':{'gateway':{'status':200,'headers':{'content-type':'application/octet-stream'},'body':{'text':'hello claim check'}},'ref':'urn:ankusa:claim:v1:acme:01M39VMD8RA3C5HR4RBV67Y002','sha256':'8e1bed597394cf01672e49232d9929c8bc6b3d6ea4e2f489517ec88701f01581','client':{'headers':{'authorization':'Bearer t0k3n','x-tenant':'acme'}}},'expect':{'ok':{'body':{'text':'hello claim check'}},'requests':[{'method':'GET','path':'/v1/claims/acme/01M39VMD8RA3C5HR4RBV67Y002','headers':{'authorization':'Bearer t0k3n','x-tenant':'acme'}}]},'feature':'claim_check.client.headers'}";
  "{'id':'redeem.client.timeout','operation':'redeem','input':{'gateway':{'status':200,'headers':{'content-type':'application/octet-stream'},'body':{'text':'hello claim check'},'delay_ms':1000},'ref':'urn:ankusa:claim:v1:acme:01M39VMD8RA3C5HR4RBV67Y002','sha256':'8e1bed597394cf01672e49232d9929c8bc6b3d6ea4e2f489517ec88701f01581','client':{'timeout_ms':200}},'expect':{'error':{'class':'ClaimCheckUnavailableError','retryable':true}},'feature':'claim_check.client.timeout'}";
  "{'id':'redeem.client.transport','operation':'redeem','input':{'gateway':{'status':200,'headers':{'content-type':'application/octet-stream'},'body':{'text':'hello claim check'}},'ref':'urn:ankusa:claim:v1:acme:01M39VMD8RA3C5HR4RBV67Y002','sha256':'8e1bed597394cf01672e49232d9929c8bc6b3d6ea4e2f489517ec88701f01581','client':{'transport':'injected'}},'expect':{'ok':{'body':{'text':'hello claim check'}},'requests':[{'method':'GET','path':'/v1/claims/acme/01M39VMD8RA3C5HR4RBV67Y002'}]},'feature':'claim_check.client.transport'}"
].

Definition routes_cases : list string := [
  "{'id':'routes.auth.bearer_header_rides','feature':'routes.crud','operation':'routes_get','input':{'client':{'headers':{'authorization':'Bearer t0k3n'}},'gateway':{'status':200,'body':{'json':{'id':'stripe','path':'/webhooks/stripe','methods':['POST'],'enabled':true,'ip_rules':[],'metadata':{},'revision':1,'inserted_at':'2026-09-28T14:16:26Z','updated_at':'2026-09-28T14:16:26Z'}}},'id':'stripe'},'expect':{'ok':{'id':'stripe','path':'/webhooks/stripe','methods':['POST'],'enabled':true,'ip_rules':[],'metadata':{},'revision':1,'inserted_at':'2026-09-28T14:16:26Z','updated_at':'2026-09-28T14:16:26Z'},'requests':[{'method':'GET','path':'/admin/routes/stripe','headers':{'authorization':'Bearer t0k3n'}}]}}";
  "{'id':'routes.auth.forbidden_scope','feature':'routes.errors','operation':'routes_create','input':{'gateway':{'status':403,'body':{'json':{'error':'forbidden','scope':'routes:write'}}},'input':{'id':'stripe','path':'/webhooks/stripe'}},'expect':{'error':{'class':'RoutesRejectedError','retryable':false,'status':403,'code':'forbidden','scope':'routes:write'}}}";
  "{'id':'routes.health.ok','feature':'routes.health','operation':'routes_health','input':{'gateway':{'status':200,'body':{'json':{'status':'ok','routes':3}}}},'expect':{'ok':{'status':'ok','routes':3},'requests':[{'method':'GET','path':'/health'}]}}";
  "{'id':'routes.create.ok','feature':'routes.crud','operation':'routes_create','input':{'gateway':{'status':201,'body':{'json':{'id':'stripe','path':'/webhooks/stripe','methods':['POST'],'enabled':true,'ip_rules':[],'metadata':{},'inserted_at':'2026-09-28T14:16:26Z','updated_at':'2026-09-28T14:16:26Z','revision':1}}},'input':{'path':'/webhooks/stripe'}},'expect':{'ok':{'id':'stripe','path':'/webhooks/stripe','methods':['POST'],'enabled':true,'ip_rules':[],'metadata':{},'inserted_at':'2026-09-28T14:16:26Z','updated_at':'2026-09-28T14:16:26Z','revision':1},'requests':[{'method':'POST','path':'/admin/routes','body':{'path':'/webhooks/stripe'}}]}}";
  "{'id':'routes.create.client_headers','feature':'routes.crud','operation':'routes_create','input':{'client':{'headers':{'authorization':'Bearer t'}},'gateway':{'status':201,'body':{'json':{'id':'stripe','path':'/webhooks/stripe','methods':['POST'],'enabled':true,'ip_rules':[],'metadata':{},'inserted_at':'2026-09-28T14:16:26Z','updated_at':'2026-09-28T14:16:26Z','revision':1}}},'input':{'path':'/webhooks/stripe'}},'expect':{'ok':{'id':'stripe','path':'/webhooks/stripe','methods':['POST'],'enabled':true,'ip_rules':[],'metadata':{},'inserted_at':'2026-09-28T14:16:26Z','updated_at':'2026-09-28T14:16:26Z','revision':1},'requests':[{'method':'POST','path':'/admin/routes','headers':{'authorization':'Bearer t'}}]}}";
  "{'id':'routes.list.ok','feature':'routes.crud','operation':'routes_list','input':{'gateway':{'status':200,'body':{'json':{'routes':[{'id':'stripe','path':'/webhooks/stripe','methods':['POST'],'enabled':true,'ip_rules':[],'metadata':{},'inserted_at':'2026-09-28T14:16:26Z','updated_at':'2026-09-28T14:16:26Z','revision':1}],'next_cursor':null}}}},'expect':{'ok':{'routes':[{'id':'stripe','path':'/webhooks/stripe','methods':['POST'],'enabled':true,'ip_rules':[],'metadata':{},'inserted_at':'2026-09-28T14:16:26Z','updated_at':'2026-09-28T14:16:26Z','revision':1}],'next_cursor':null},'requests':[{'method':'GET','path':'/admin/routes'}]}}";
  "{'id':'routes.list.query','feature':'routes.request_shape','operation':'routes_list','input':{'gateway':{'status':200,'body':{'json':{'routes':[],'next_cursor':null}}},'params':{'enabled':true,'limit':10,'cursor':'stripe'}},'expect':{'ok':{'routes':[],'next_cursor':null},'requests':[{'method':'GET','path':'/admin/routes?enabled=true&limit=10&cursor=stripe'}]}}";
  "{'id':'routes.list.query.injected','feature':'routes.request_shape','operation':'routes_list','input':{'gateway':{'status':200,'body':{'json':{'routes':[],'next_cursor':null}}},'params':{'enabled':true,'limit':10,'cursor':'stripe'},'client':{'transport':'injected'}},'expect':{'ok':{'routes':[],'next_cursor':null},'requests':[{'method':'GET','path':'/admin/routes?enabled=true&limit=10&cursor=stripe'}]}}";
  "{'id':'routes.get.ok','feature':'routes.crud','operation':'routes_get','input':{'gateway':{'status':200,'body':{'json':{'id':'stripe','path':'/webhooks/stripe','methods':['POST'],'enabled':true,'ip_rules':[],'metadata':{},'inserted_at':'2026-09-28T14:16:26Z','updated_at':'2026-09-28T14:16:26Z','revision':1}}},'id':'stripe'},'expect':{'ok':{'id':'stripe','path':'/webhooks/stripe','methods':['POST'],'enabled':true,'ip_rules':[],'metadata':{},'inserted_at':'2026-09-28T14:16:26Z','updated_at':'2026-09-28T14:16:26Z','revision':1},'requests':[{'method':'GET','path':'/admin/routes/stripe'}]}}";
  "{'id':'routes.get.escapes_id','feature':'routes.input_validation','operation':'routes_get','input':{'gateway':{'status':404,'body':{'json':{'error':'not_found'}}},'id':'a/b?c#d e%'},'expect':{'error':{'class':'RouteNotFoundError','retryable':false},'requests':[{'method':'GET','path':'/admin/routes/a%2Fb%3Fc%23d%20e%25'}]}}";
  "{'id':'routes.replace.ok','feature':'routes.crud','operation':'routes_replace','input':{'gateway':{'status':200,'body':{'json':{'id':'stripe','path':'/webhooks/stripe','methods':['POST'],'enabled':false,'ip_rules':[],'metadata':{'owner':'payments'},'inserted_at':'2026-09-28T14:16:26Z','updated_at':'2026-09-28T14:16:31Z','revision':1}}},'id':'stripe','input':{'path':'/webhooks/stripe','enabled':false,'metadata':{'owner':'payments'}}},'expect':{'ok':{'id':'stripe','path':'/webhooks/stripe','methods':['POST'],'enabled':false,'ip_rules':[],'metadata':{'owner':'payments'},'inserted_at':'2026-09-28T14:16:26Z','updated_at':'2026-09-28T14:16:31Z','revision':1},'requests':[{'method':'PUT','path':'/admin/routes/stripe','body':{'path':'/webhooks/stripe','enabled':false,'metadata':{'owner':'payments'}}}]}}";
  "{'id':'routes.update.ok','feature':'routes.crud','operation':'routes_update','input':{'gateway':{'status':200,'body':{'json':{'id':'stripe','path':'/webhooks/stripe','methods':['POST'],'enabled':true,'ip_rules':[],'metadata':{},'inserted_at':'2026-09-28T14:16:26Z','updated_at':'2026-09-28T14:16:33Z','revision':1}}},'id':'stripe','patch':{'enabled':true}},'expect':{'ok':{'id':'stripe','path':'/webhooks/stripe','methods':['POST'],'enabled':true,'ip_rules':[],'metadata':{},'inserted_at':'2026-09-28T14:16:26Z','updated_at':'2026-09-28T14:16:33Z','revision':1},'requests':[{'method':'PATCH','path':'/admin/routes/stripe','body':{'enabled':true}}]}}";
  "{'id':'routes.delete.ok','feature':'routes.crud','operation':'routes_delete','input':{'gateway':{'status':204},'id':'stripe'},'expect':{'ok':null,'requests':[{'method':'DELETE','path':'/admin/routes/stripe'}]}}";
  "{'id':'routes.ip_rules.get.ok','feature':'routes.ip_rules','operation':'routes_ip_rules_get','input':{'gateway':{'status':200,'body':{'json':{'default':'deny','rules':[{'action':'allow','cidr':'203.0.113.0/24'}]}}}},'expect':{'ok':{'default':'deny','rules':[{'action':'allow','cidr':'203.0.113.0/24'}]},'requests':[{'method':'GET','path':'/admin/ip-rules'}]}}";
  "{'id':'routes.ip_rules.put.ok','feature':'routes.ip_rules','operation':'routes_ip_rules_put','input':{'gateway':{'status':200,'body':{'json':{'default':'deny','rules':[{'action':'allow','cidr':'203.0.113.0/24'}]}}},'rules':{'default':'deny','rules':[{'action':'allow','cidr':'203.0.113.0/24'}]}},'expect':{'ok':{'default':'deny','rules':[{'action':'allow','cidr':'203.0.113.0/24'}]},'requests':[{'method':'PUT','path':'/admin/ip-rules','body':{'default':'deny','rules':[{'action':'allow','cidr':'203.0.113.0/24'}]}}]}}";
  "{'id':'routes.test.ok','feature':'routes.dry_run','operation':'routes_test','input':{'gateway':{'status':200,'body':{'json':{'decision':'allow','reason':'matched','route_id':'stripe','ip_rule':null}}},'request':{'method':'POST','path':'/webhooks/stripe','ip':'203.0.113.7'}},'expect':{'ok':{'decision':'allow','reason':'matched','route_id':'stripe','ip_rule':null},'requests':[{'method':'POST','path':'/admin/routes/test','body':{'method':'POST','path':'/webhooks/stripe','ip':'203.0.113.7'}}]}}";
  "{'id':'routes.error.not_found','feature':'routes.errors','operation':'routes_get','input':{'gateway':{'status':404,'body':{'json':{'error':'not_found'}}},'id':'nope'},'expect':{'error':{'class':'RouteNotFoundError','retryable':false}}}";
  "{'id':'routes.error.duplicate','feature':'routes.errors','operation':'routes_create','input':{'gateway':{'status':409,'body':{'json':{'error':'duplicate_route','conflicting_id':'stripe'}}},'input':{'id':'other','path':'/webhooks/stripe'}},'expect':{'error':{'class':'RoutesRejectedError','retryable':false,'code':'duplicate_route','conflicting_id':'stripe'}}}";
  "{'id':'routes.error.invalid','feature':'routes.errors','operation':'routes_create','input':{'gateway':{'status':400,'body':{'json':{'error':'invalid_route','field':'path','message':'must start with \'/\''}}},'input':{'path':'hooks/x'}},'expect':{'error':{'class':'RoutesRejectedError','retryable':false,'code':'invalid_route','field':'path','message':'must start with \'/\''}}}";
  "{'id':'routes.error.store_unavailable','feature':'routes.errors','operation':'routes_create','input':{'gateway':{'status':503,'body':{'json':{'error':'store_unavailable'}}},'input':{'path':'/hooks/x'}},'expect':{'error':{'class':'RoutesUnavailableError','retryable':true}}}";
  "{'id':'routes.error.unreachable','feature':'routes.errors','operation':'routes_create','input':{'gateway':{'unreachable':true},'input':{'path':'/hooks/x'}},'expect':{'error':{'class':'RoutesUnavailableError','retryable':true}}}";
  "{'id':'routes.error.redirect','feature':'routes.errors','operation':'routes_list','input':{'gateway':{'status':302,'headers':{'location':'http://gateway.invalid/admin/routes'}}},'expect':{'error':{'class':'RoutesUnavailableError','retryable':true}}}";
  "{'id':'routes.error.server_error','feature':'routes.errors','operation':'routes_list','input':{'gateway':{'status':500,'body':{'json':{'error':'internal_error'}}}},'expect':{'error':{'class':'RoutesUnavailableError','retryable':true}}}";
  "{'id':'routes.error.forbidden','feature':'routes.errors','operation':'routes_list','input':{'gateway':{'status':403,'body':{'json':{'error':'forbidden'}}}},'expect':{'error':{'class':'RoutesRejectedError','retryable':false,'status':403,'code':'forbidden'}}}";
  "{'id':'routes.error.invalid_id','feature':'routes.input_validation','operation':'routes_get','input':{'gateway':{'unreachable':true},'id':'..'},'expect':{'error':{'class':'InvalidRouteIdError','retryable':false},'requests':[]}}";
  "{'id':'routes.error.dot_id','feature':'routes.input_validation','operation':'routes_get','input':{'gateway':{'unreachable':true},'id':'.'},'expect':{'error':{'class':'InvalidRouteIdError','retryable':false},'requests':[]}}";
  "{'id':'routes.error.empty_id','feature':'routes.input_validation','operation':'routes_get','input':{'gateway':{'unreachable':true},'id':''},'expect':{'error':{'class':'InvalidRouteIdError','retryable':false},'requests':[]}}"
].

Definition signature_cases : list string := [
  "{'id':'signature.ok.reference','feature':'webhook.verify_signature','operation':'verify_signature','input':{'headers':{'webhook-id':'msg_p5jXN8AQM9LWM0D4loKWxJek','webhook-timestamp':'1614265330','webhook-signature':'v1,g0hM9SsE+OTPJTGt/tmIKtSyZlE3uFJELVlNIOLJ1OE='},'body':{'text':'{\'test\': 2432232314}'},'secrets':['whsec_MfKQ9r8GKYqrTwjUPD8ILPZIo2LaLaSw'],'now':1614265330},'expect':{'ok':{'id':'msg_p5jXN8AQM9LWM0D4loKWxJek','timestamp':1614265330}}}";
  "{'id':'signature.ok.second_secret','feature':'webhook.verify_signature','operation':'verify_signature','input':{'headers':{'webhook-id':'msg_p5jXN8AQM9LWM0D4loKWxJek','webhook-timestamp':'1614265330','webhook-signature':'v1,g0hM9SsE+OTPJTGt/tmIKtSyZlE3uFJELVlNIOLJ1OE='},'body':{'text':'{\'test\': 2432232314}'},'secrets':['whsec_AAECAwQFBgcICQoLDA0ODxAREhMUFRYXGBkaGxwdHh8=','whsec_MfKQ9r8GKYqrTwjUPD8ILPZIo2LaLaSw'],'now':1614265330},'expect':{'ok':{'id':'msg_p5jXN8AQM9LWM0D4loKWxJek','timestamp':1614265330}}}";
  "{'id':'signature.ok.rotation','feature':'webhook.verify_signature','operation':'verify_signature','input':{'headers':{'webhook-id':'msg_p5jXN8AQM9LWM0D4loKWxJek','webhook-timestamp':'1614265330','webhook-signature':'v1,O4Gjv1HqPqsMrjmczoggs/sWA8gZD0VyHG+fLh4+ktI= v1,g0hM9SsE+OTPJTGt/tmIKtSyZlE3uFJELVlNIOLJ1OE='},'body':{'text':'{\'test\': 2432232314}'},'secrets':['whsec_MfKQ9r8GKYqrTwjUPD8ILPZIo2LaLaSw'],'now':1614265330},'expect':{'ok':{'id':'msg_p5jXN8AQM9LWM0D4loKWxJek','timestamp':1614265330}}}";
  "{'id':'signature.ok.uppercase_headers','feature':'webhook.verify_signature','operation':'verify_signature','input':{'headers':{'Webhook-Id':'msg_p5jXN8AQM9LWM0D4loKWxJek','Webhook-Timestamp':'1614265330','Webhook-Signature':'v1,g0hM9SsE+OTPJTGt/tmIKtSyZlE3uFJELVlNIOLJ1OE='},'body':{'text':'{\'test\': 2432232314}'},'secrets':['whsec_MfKQ9r8GKYqrTwjUPD8ILPZIo2LaLaSw'],'now':1614265330},'expect':{'ok':{'id':'msg_p5jXN8AQM9LWM0D4loKWxJek','timestamp':1614265330}}}";
  "{'id':'signature.ok.binary_body','feature':'webhook.verify_signature','operation':'verify_signature','input':{'headers':{'webhook-id':'msg_p5jXN8AQM9LWM0D4loKWxJek','webhook-timestamp':'1614265330','webhook-signature':'v1,8CGq/11JvjhkgLmuLjiFOAJHIj4HRMYNvr3bb0Xjuvw='},'body':{'base64':'aMOpbGxvIP8AgCBlbmQ='},'secrets':['whsec_MfKQ9r8GKYqrTwjUPD8ILPZIo2LaLaSw'],'now':1614265330},'expect':{'ok':{'id':'msg_p5jXN8AQM9LWM0D4loKWxJek','timestamp':1614265330}}}";
  "{'id':'signature.ok.raw_secret','feature':'webhook.verify_signature','operation':'verify_signature','input':{'headers':{'webhook-id':'msg_p5jXN8AQM9LWM0D4loKWxJek','webhook-timestamp':'1614265330','webhook-signature':'v1,RygtTnLIGTWu8Cyl+ruiz7FHMf3vABxz89IvBzGpYW4='},'body':{'text':'{\'test\': 2432232314}'},'secrets':['a raw shared secret'],'now':1614265330},'expect':{'ok':{'id':'msg_p5jXN8AQM9LWM0D4loKWxJek','timestamp':1614265330}}}";
  "{'id':'signature.ok.tolerance_edge','feature':'webhook.verify_signature','operation':'verify_signature','input':{'headers':{'webhook-id':'msg_p5jXN8AQM9LWM0D4loKWxJek','webhook-timestamp':'1614265330','webhook-signature':'v1,g0hM9SsE+OTPJTGt/tmIKtSyZlE3uFJELVlNIOLJ1OE='},'body':{'text':'{\'test\': 2432232314}'},'secrets':['whsec_MfKQ9r8GKYqrTwjUPD8ILPZIo2LaLaSw'],'now':1614265630},'expect':{'ok':{'id':'msg_p5jXN8AQM9LWM0D4loKWxJek','timestamp':1614265330}}}";
  "{'id':'signature.ok.zero_tolerance','feature':'webhook.verify_signature','operation':'verify_signature','input':{'headers':{'webhook-id':'msg_p5jXN8AQM9LWM0D4loKWxJek','webhook-timestamp':'1614265330','webhook-signature':'v1,g0hM9SsE+OTPJTGt/tmIKtSyZlE3uFJELVlNIOLJ1OE='},'body':{'text':'{\'test\': 2432232314}'},'secrets':['whsec_MfKQ9r8GKYqrTwjUPD8ILPZIo2LaLaSw'],'now':1614265330,'tolerance_seconds':0},'expect':{'ok':{'id':'msg_p5jXN8AQM9LWM0D4loKWxJek','timestamp':1614265330}}}";
  "{'id':'signature.error.stale','feature':'webhook.verify_signature.errors','operation':'verify_signature','input':{'headers':{'webhook-id':'msg_p5jXN8AQM9LWM0D4loKWxJek','webhook-timestamp':'1614265330','webhook-signature':'v1,g0hM9SsE+OTPJTGt/tmIKtSyZlE3uFJELVlNIOLJ1OE='},'body':{'text':'{\'test\': 2432232314}'},'secrets':['whsec_MfKQ9r8GKYqrTwjUPD8ILPZIo2LaLaSw'],'now':1614265631},'expect':{'error':{'class':'InvalidSignatureError','retryable':false,'code':'timestamp_out_of_tolerance','field':'webhook-timestamp'}}}";
  "{'id':'signature.error.future','feature':'webhook.verify_signature.errors','operation':'verify_signature','input':{'headers':{'webhook-id':'msg_p5jXN8AQM9LWM0D4loKWxJek','webhook-timestamp':'1614265330','webhook-signature':'v1,g0hM9SsE+OTPJTGt/tmIKtSyZlE3uFJELVlNIOLJ1OE='},'body':{'text':'{\'test\': 2432232314}'},'secrets':['whsec_MfKQ9r8GKYqrTwjUPD8ILPZIo2LaLaSw'],'now':1614265029},'expect':{'error':{'class':'InvalidSignatureError','retryable':false,'code':'timestamp_out_of_tolerance','field':'webhook-timestamp'}}}";
  "{'id':'signature.error.missing_signature','feature':'webhook.verify_signature.errors','operation':'verify_signature','input':{'headers':{'webhook-id':'msg_p5jXN8AQM9LWM0D4loKWxJek','webhook-timestamp':'1614265330'},'body':{'text':'{\'test\': 2432232314}'},'secrets':['whsec_MfKQ9r8GKYqrTwjUPD8ILPZIo2LaLaSw'],'now':1614265330},'expect':{'error':{'class':'InvalidSignatureError','retryable':false,'code':'missing_header','field':'webhook-signature'}}}";
  "{'id':'signature.error.empty_id','feature':'webhook.verify_signature.errors','operation':'verify_signature','input':{'headers':{'webhook-id':'','webhook-timestamp':'1614265330','webhook-signature':'v1,g0hM9SsE+OTPJTGt/tmIKtSyZlE3uFJELVlNIOLJ1OE='},'body':{'text':'{\'test\': 2432232314}'},'secrets':['whsec_MfKQ9r8GKYqrTwjUPD8ILPZIo2LaLaSw'],'now':1614265330},'expect':{'error':{'class':'InvalidSignatureError','retryable':false,'code':'missing_header','field':'webhook-id'}}}";
  "{'id':'signature.error.invalid_timestamp','feature':'webhook.verify_signature.errors','operation':'verify_signature','input':{'headers':{'webhook-id':'msg_p5jXN8AQM9LWM0D4loKWxJek','webhook-timestamp':'16142653x0','webhook-signature':'v1,g0hM9SsE+OTPJTGt/tmIKtSyZlE3uFJELVlNIOLJ1OE='},'body':{'text':'{\'test\': 2432232314}'},'secrets':['whsec_MfKQ9r8GKYqrTwjUPD8ILPZIo2LaLaSw'],'now':1614265330},'expect':{'error':{'class':'InvalidSignatureError','retryable':false,'code':'invalid_timestamp','field':'webhook-timestamp'}}}";
  "{'id':'signature.error.v2_only','feature':'webhook.verify_signature.errors','operation':'verify_signature','input':{'headers':{'webhook-id':'msg_p5jXN8AQM9LWM0D4loKWxJek','webhook-timestamp':'1614265330','webhook-signature':'v2,g0hM9SsE+OTPJTGt/tmIKtSyZlE3uFJELVlNIOLJ1OE='},'body':{'text':'{\'test\': 2432232314}'},'secrets':['whsec_MfKQ9r8GKYqrTwjUPD8ILPZIo2LaLaSw'],'now':1614265330},'expect':{'error':{'class':'InvalidSignatureError','retryable':false,'code':'no_matching_signature','field':'webhook-signature'}}}";
  "{'id':'signature.error.tampered_body','feature':'webhook.verify_signature.errors','operation':'verify_signature','input':{'headers':{'webhook-id':'msg_p5jXN8AQM9LWM0D4loKWxJek','webhook-timestamp':'1614265330','webhook-signature':'v1,g0hM9SsE+OTPJTGt/tmIKtSyZlE3uFJELVlNIOLJ1OE='},'body':{'text':'{\'test\': 2432232315}'},'secrets':['whsec_MfKQ9r8GKYqrTwjUPD8ILPZIo2LaLaSw'],'now':1614265330},'expect':{'error':{'class':'InvalidSignatureError','retryable':false,'code':'no_matching_signature','field':'webhook-signature'}}}";
  "{'id':'signature.error.invalid_secret','feature':'webhook.verify_signature.errors','operation':'verify_signature','input':{'headers':{'webhook-id':'msg_p5jXN8AQM9LWM0D4loKWxJek','webhook-timestamp':'1614265330','webhook-signature':'v1,g0hM9SsE+OTPJTGt/tmIKtSyZlE3uFJELVlNIOLJ1OE='},'body':{'text':'{\'test\': 2432232314}'},'secrets':['whsec_!!!'],'now':1614265330},'expect':{'error':{'class':'InvalidSignatureError','retryable':false,'code':'invalid_secret','field':null}}}";
  "{'id':'signature.error.unpadded_secret','feature':'webhook.verify_signature.errors','operation':'verify_signature','description':'A whsec_ secret is strict, padded base64 (as core decodes it): an unpadded one is invalid_secret, never a key some SDKs accept and others refuse.','input':{'headers':{'webhook-id':'msg_p5jXN8AQM9LWM0D4loKWxJek','webhook-timestamp':'1614265330','webhook-signature':'v1,g0hM9SsE+OTPJTGt/tmIKtSyZlE3uFJELVlNIOLJ1OE='},'body':{'text':'{\'test\': 2432232314}'},'secrets':['whsec_dGVzdA'],'now':1614265330},'expect':{'error':{'class':'InvalidSignatureError','retryable':false,'code':'invalid_secret','field':null}}}";
  "{'id':'signature.error.no_secrets','feature':'webhook.verify_signature.errors','operation':'verify_signature','input':{'headers':{'webhook-id':'msg_p5jXN8AQM9LWM0D4loKWxJek','webhook-timestamp':'1614265330','webhook-signature':'v1,g0hM9SsE+OTPJTGt/tmIKtSyZlE3uFJELVlNIOLJ1OE='},'body':{'text':'{\'test\': 2432232314}'},'secrets':[],'now':1614265330},'expect':{'error':{'class':'InvalidSignatureError','retryable':false,'code':'invalid_secret','field':null}}}";
  "{'id':'signature.ok.asymmetric_alongside','feature':'webhook.verify_signature.asymmetric','operation':'verify_signature','input':{'headers':{'webhook-id':'msg_2KWPBgLlAfxdpx2AI54pPJ85f4W','webhook-timestamp':'1674087231','webhook-signature':'v1a,pbpYBMlty2hExn4zt0UTGb6BaP2Vq5AfyzjB9GGV3x/wCJKd8UjOCf8Qhaji6TKY9C5eNMnlF0GG4udaO6B7Ag== v1,ARw42xaAApl/nxRo+iPGYwSaMQaOwMo2eyH5JBRA+bQ='},'body':{'text':'{\'type\':\'contact.created\',\'timestamp\':\'2022-11-03T20:26:10.344522Z\',\'data\':{\'id\':\'1f81eb52-5198-4599-803e-771906343485\'}}'},'secrets':['whsec_MfKQ9r8GKYqrTwjUPD8ILPZIo2LaLaSw'],'now':1674087231},'expect':{'ok':{'id':'msg_2KWPBgLlAfxdpx2AI54pPJ85f4W','timestamp':1674087231}}}";
  "{'id':'signature.error.asymmetric_only','feature':'webhook.verify_signature.asymmetric','operation':'verify_signature','input':{'headers':{'webhook-id':'msg_2KWPBgLlAfxdpx2AI54pPJ85f4W','webhook-timestamp':'1674087231','webhook-signature':'v1a,pbpYBMlty2hExn4zt0UTGb6BaP2Vq5AfyzjB9GGV3x/wCJKd8UjOCf8Qhaji6TKY9C5eNMnlF0GG4udaO6B7Ag=='},'body':{'text':'{\'type\':\'contact.created\',\'timestamp\':\'2022-11-03T20:26:10.344522Z\',\'data\':{\'id\':\'1f81eb52-5198-4599-803e-771906343485\'}}'},'secrets':['whsec_MfKQ9r8GKYqrTwjUPD8ILPZIo2LaLaSw'],'now':1674087231},'expect':{'error':{'class':'InvalidSignatureError','retryable':false,'code':'no_matching_signature','field':'webhook-signature'}}}"
].

Definition verification_cases : list string := [
  "{'id':'verification.message.ok','feature':'message.verification','operation':'decode_message','input':{'message':'{\'v\':1,\'id\':\'01a0\',\'source_id\':\'demo\',\'tenant_id\':\'acme\',\'received_at\':1720000000000,\'content_type\':\'application/json\',\'size\':5,\'sha256\':\'2cf24dba5fb0a30e26e83b2ac5b9e29e1b161e5c1fa7425e73043362938b9824\',\'dedupe_key\':null,\'replay_id\':null,\'idempotency_key\':\'01a0\',\'verification\':{\'status\':\'ok\',\'flagged\':false},\'headers\':{},\'body_base64\':\'aGVsbG8=\'}'},'expect':{'ok':{'v':1,'id':'01a0','source_id':'demo','tenant_id':'acme','received_at':1720000000000,'content_type':'application/json','size':5,'body_base64':'aGVsbG8=','claim':null,'sha256':'2cf24dba5fb0a30e26e83b2ac5b9e29e1b161e5c1fa7425e73043362938b9824','dedupe_key':null,'replay_id':null,'idempotency_key':'01a0','headers':{},'verification':{'status':'ok','flagged':false},'traceparent':null,'tracestate':null,'instance':null,'region':null,'event_type':null}}}";
  "{'id':'verification.message.flagged','feature':'message.verification','operation':'decode_message','input':{'message':'{\'v\':1,\'id\':\'01a1\',\'source_id\':\'demo\',\'tenant_id\':null,\'received_at\':1720000000000,\'content_type\':null,\'size\':0,\'verification\':{\'status\':\'failed\',\'flagged\':true},\'body_base64\':\'\'}'},'expect':{'ok':{'v':1,'id':'01a1','source_id':'demo','tenant_id':null,'received_at':1720000000000,'content_type':null,'size':0,'body_base64':'','claim':null,'sha256':null,'dedupe_key':null,'replay_id':null,'idempotency_key':null,'headers':{},'verification':{'status':'failed','flagged':true},'traceparent':null,'tracestate':null,'instance':null,'region':null,'event_type':null}}}";
  "{'id':'verification.message.skipped','feature':'message.verification','operation':'decode_message','input':{'message':'{\'v\':1,\'id\':\'01a2\',\'source_id\':\'demo\',\'received_at\':1720000000000,\'size\':0,\'verification\':{\'status\':\'skipped\',\'flagged\':false},\'body_base64\':\'\'}'},'expect':{'ok':{'v':1,'id':'01a2','source_id':'demo','tenant_id':null,'received_at':1720000000000,'content_type':null,'size':0,'body_base64':'','claim':null,'sha256':null,'dedupe_key':null,'replay_id':null,'idempotency_key':null,'headers':{},'verification':{'status':'skipped','flagged':false},'traceparent':null,'tracestate':null,'instance':null,'region':null,'event_type':null}}}";
  "{'id':'verification.message.unknown_status_passes_through','feature':'message.verification','operation':'decode_message','input':{'message':'{\'v\':1,\'id\':\'01a3\',\'source_id\':\'demo\',\'received_at\':1720000000000,\'size\':0,\'verification\':{\'status\':\'attested\',\'flagged\':false},\'body_base64\':\'\'}'},'expect':{'ok':{'v':1,'id':'01a3','source_id':'demo','tenant_id':null,'received_at':1720000000000,'content_type':null,'size':0,'body_base64':'','claim':null,'sha256':null,'dedupe_key':null,'replay_id':null,'idempotency_key':null,'headers':{},'verification':{'status':'attested','flagged':false},'traceparent':null,'tracestate':null,'instance':null,'region':null,'event_type':null}}}";
  "{'id':'verification.message.not_an_object','feature':'message.verification','operation':'decode_message','input':{'message':'{\'v\':1,\'id\':\'01a4\',\'source_id\':\'demo\',\'received_at\':1720000000000,\'size\':0,\'verification\':\'ok\',\'body_base64\':\'\'}'},'expect':{'error':{'class':'InvalidMessageError','retryable':false,'code':'invalid_field','field':'verification'}}}";
  "{'id':'verification.message.flagged_not_boolean','feature':'message.verification','operation':'decode_message','input':{'message':'{\'v\':1,\'id\':\'01a5\',\'source_id\':\'demo\',\'received_at\':1720000000000,\'size\':0,\'verification\':{\'status\':\'ok\',\'flagged\':\'true\'},\'body_base64\':\'\'}'},'expect':{'error':{'class':'InvalidMessageError','retryable':false,'code':'invalid_field','field':'verification'}}}";
  "{'id':'verification.message.status_missing','feature':'message.verification','operation':'decode_message','input':{'message':'{\'v\':1,\'id\':\'01a6\',\'source_id\':\'demo\',\'received_at\':1720000000000,\'size\':0,\'verification\':{\'flagged\':false},\'body_base64\':\'\'}'},'expect':{'error':{'class':'InvalidMessageError','retryable':false,'code':'invalid_field','field':'verification'}}}";
  "{'id':'verification.message.null_is_absent','feature':'message.verification','operation':'decode_message','input':{'message':'{\'v\':1,\'id\':\'01a7\',\'source_id\':\'demo\',\'received_at\':1720000000000,\'size\':0,\'verification\':null,\'body_base64\':\'\'}'},'expect':{'ok':{'v':1,'id':'01a7','source_id':'demo','tenant_id':null,'received_at':1720000000000,'content_type':null,'size':0,'body_base64':'','claim':null,'sha256':null,'dedupe_key':null,'replay_id':null,'idempotency_key':null,'headers':{},'verification':null,'traceparent':null,'tracestate':null,'instance':null,'region':null,'event_type':null}}}";
  "{'id':'verification.message.trusted.ok','feature':'message.verification','operation':'trusted','input':{'message':'{\'v\':1,\'id\':\'01b0\',\'source_id\':\'demo\',\'received_at\':1720000000000,\'size\':0,\'verification\':{\'status\':\'ok\',\'flagged\':false},\'body_base64\':\'\'}'},'expect':{'ok':{'trusted':true}}}";
  "{'id':'verification.message.trusted.flagged_is_untrusted','feature':'message.verification','operation':'trusted','input':{'message':'{\'v\':1,\'id\':\'01b1\',\'source_id\':\'demo\',\'received_at\':1720000000000,\'size\':0,\'verification\':{\'status\':\'failed\',\'flagged\':true},\'body_base64\':\'\'}'},'expect':{'ok':{'trusted':false}}}";
  "{'id':'verification.message.trusted.ok_but_flagged_is_untrusted','feature':'message.verification','operation':'trusted','input':{'message':'{\'v\':1,\'id\':\'01b2\',\'source_id\':\'demo\',\'received_at\':1720000000000,\'size\':0,\'verification\':{\'status\':\'ok\',\'flagged\':true},\'body_base64\':\'\'}'},'expect':{'ok':{'trusted':false}}}";
  "{'id':'verification.message.trusted.skipped_is_untrusted','feature':'message.verification','operation':'trusted','input':{'message':'{\'v\':1,\'id\':\'01b3\',\'source_id\':\'demo\',\'received_at\':1720000000000,\'size\':0,\'verification\':{\'status\':\'skipped\',\'flagged\':false},\'body_base64\':\'\'}'},'expect':{'ok':{'trusted':false}}}";
  "{'id':'verification.message.trusted.unknown_status_is_untrusted','feature':'message.verification','operation':'trusted','input':{'message':'{\'v\':1,\'id\':\'01b4\',\'source_id\':\'demo\',\'received_at\':1720000000000,\'size\':0,\'verification\':{\'status\':\'attested\',\'flagged\':false},\'body_base64\':\'\'}'},'expect':{'ok':{'trusted':false}}}";
  "{'id':'verification.message.trusted.absent_is_untrusted','feature':'message.verification','operation':'trusted','input':{'message':'{\'v\':1,\'id\':\'01b5\',\'source_id\':\'demo\',\'received_at\':1720000000000,\'size\':0,\'body_base64\':\'\'}'},'expect':{'ok':{'trusted':false}}}";
  "{'id':'verification.headers.ok','feature':'webhook.verification','operation':'parse_headers','input':{'headers':{'x-ankusa-id':'01a0','x-ankusa-source':'demo','X-Ankusa-Verification':'ok'}},'expect':{'ok':{'id':'01a0','source':'demo','tenant':null,'content_type':null,'dedupe_key':null,'replay_id':null,'idempotency_key':null,'received_at':null,'body_sha256':null,'verification':{'status':'ok','flagged':false}}}}";
  "{'id':'verification.headers.flagged','feature':'webhook.verification','operation':'parse_headers','input':{'headers':{'x-ankusa-id':'01a0','x-ankusa-source':'demo','x-ankusa-verification':'failed','x-ankusa-verification-flagged':'true'}},'expect':{'ok':{'id':'01a0','source':'demo','tenant':null,'content_type':null,'dedupe_key':null,'replay_id':null,'idempotency_key':null,'received_at':null,'body_sha256':null,'verification':{'status':'failed','flagged':true}}}}";
  "{'id':'verification.headers.flagged_other_value_is_false','feature':'webhook.verification','operation':'parse_headers','input':{'headers':{'x-ankusa-id':'01a0','x-ankusa-source':'demo','x-ankusa-verification':'ok','x-ankusa-verification-flagged':'yes'}},'expect':{'ok':{'id':'01a0','source':'demo','tenant':null,'content_type':null,'dedupe_key':null,'replay_id':null,'idempotency_key':null,'received_at':null,'body_sha256':null,'verification':{'status':'ok','flagged':false}}}}";
  "{'id':'verification.headers.empty_is_null','feature':'webhook.verification','operation':'parse_headers','input':{'headers':{'x-ankusa-id':'01a0','x-ankusa-source':'demo','x-ankusa-verification':'','x-ankusa-verification-flagged':'true'}},'expect':{'ok':{'id':'01a0','source':'demo','tenant':null,'content_type':null,'dedupe_key':null,'replay_id':null,'idempotency_key':null,'received_at':null,'body_sha256':null,'verification':null}}}";
  "{'id':'verification.receive.unsigned_flagged','feature':'webhook.verification','operation':'receive_delivery','input':{'headers':{'x-ankusa-id':'01a0','x-ankusa-source':'demo','x-ankusa-verification':'failed','x-ankusa-verification-flagged':'true'},'body':{'text':'{}'},'receiver':{'allow_unsigned':true},'now':1720000000},'expect':{'ok':{'verified':false,'id':'01a0','source':'demo','tenant':null,'content_type':null,'dedupe_key':null,'replay_id':null,'idempotency_key':null,'received_at':null,'body_sha256':null,'verification':{'status':'failed','flagged':true}}}}";
  "{'id':'verification.headers.trusted.ok','feature':'webhook.verification','operation':'trusted','input':{'headers':{'x-ankusa-id':'01a0','x-ankusa-source':'demo','x-ankusa-verification':'ok'}},'expect':{'ok':{'trusted':true}}}";
  "{'id':'verification.headers.trusted.flagged_is_untrusted','feature':'webhook.verification','operation':'trusted','input':{'headers':{'x-ankusa-id':'01a0','x-ankusa-source':'demo','x-ankusa-verification':'failed','x-ankusa-verification-flagged':'true'}},'expect':{'ok':{'trusted':false}}}";
  "{'id':'verification.headers.trusted.ok_but_flagged_is_untrusted','feature':'webhook.verification','operation':'trusted','input':{'headers':{'x-ankusa-id':'01a0','x-ankusa-source':'demo','x-ankusa-verification':'ok','x-ankusa-verification-flagged':'true'}},'expect':{'ok':{'trusted':false}}}";
  "{'id':'verification.headers.trusted.flagged_other_value_is_false','feature':'webhook.verification','operation':'trusted','input':{'headers':{'x-ankusa-id':'01a0','x-ankusa-source':'demo','x-ankusa-verification':'ok','x-ankusa-verification-flagged':'yes'}},'expect':{'ok':{'trusted':true}}}";
  "{'id':'verification.headers.trusted.skipped_is_untrusted','feature':'webhook.verification','operation':'trusted','input':{'headers':{'x-ankusa-id':'01a0','x-ankusa-source':'demo','x-ankusa-verification':'skipped'}},'expect':{'ok':{'trusted':false}}}";
  "{'id':'verification.headers.trusted.unknown_status_is_untrusted','feature':'webhook.verification','operation':'trusted','input':{'headers':{'x-ankusa-id':'01a0','x-ankusa-source':'demo','x-ankusa-verification':'attested'}},'expect':{'ok':{'trusted':false}}}";
  "{'id':'verification.headers.trusted.absent_is_untrusted','feature':'webhook.verification','operation':'trusted','input':{'headers':{'x-ankusa-id':'01a0','x-ankusa-source':'demo'}},'expect':{'ok':{'trusted':false}}}"
].

Definition webhook_cases : list string := [
  "{'id':'webhook.full','feature':'webhook.parse_headers','operation':'parse_headers','input':{'headers':{'x-ankusa-id':'01a0','x-ankusa-source':'demo','x-ankusa-tenant':'acme','content-type':'application/json'}},'expect':{'ok':{'id':'01a0','source':'demo','tenant':'acme','content_type':'application/json','dedupe_key':null,'replay_id':null,'idempotency_key':null,'received_at':null,'body_sha256':null,'verification':null}}}";
  "{'id':'webhook.case_insensitive','feature':'webhook.parse_headers','operation':'parse_headers','input':{'headers':{'X-Ankusa-Id':'01a0','X-Ankusa-Source':'demo','Content-Type':'text/plain'}},'expect':{'ok':{'id':'01a0','source':'demo','tenant':null,'content_type':'text/plain','dedupe_key':null,'replay_id':null,'idempotency_key':null,'received_at':null,'body_sha256':null,'verification':null}}}";
  "{'id':'webhook.defaults','feature':'webhook.parse_headers','operation':'parse_headers','input':{'headers':{'x-ankusa-id':'01a0'}},'expect':{'ok':{'id':'01a0','source':'','tenant':null,'content_type':null,'dedupe_key':null,'replay_id':null,'idempotency_key':null,'received_at':null,'body_sha256':null,'verification':null}}}";
  "{'id':'webhook.missing_id','feature':'webhook.parse_headers','operation':'parse_headers','input':{'headers':{'x-ankusa-source':'demo'}},'expect':{'error':{'class':'MissingHookIdError'}}}";
  "{'id':'webhook.empty_id','feature':'webhook.parse_headers','operation':'parse_headers','input':{'headers':{'x-ankusa-id':''}},'expect':{'error':{'class':'MissingHookIdError'}}}";
  "{'id':'webhook.dedupe_and_replay','feature':'webhook.parse_headers','operation':'parse_headers','input':{'headers':{'x-ankusa-id':'01a0','x-ankusa-source':'demo','x-ankusa-dedupe-key':'evt_9','x-ankusa-replay-id':'rid-1','x-ankusa-idempotency-key':'default:demo:evt_9'}},'expect':{'ok':{'id':'01a0','source':'demo','tenant':null,'content_type':null,'dedupe_key':'evt_9','replay_id':'rid-1','idempotency_key':'default:demo:evt_9','received_at':null,'body_sha256':null,'verification':null}}}";
  "{'id':'webhook.idempotency_key_empty_is_null','feature':'webhook.parse_headers','operation':'parse_headers','input':{'headers':{'x-ankusa-id':'01a0','x-ankusa-idempotency-key':''}},'expect':{'ok':{'id':'01a0','source':'','tenant':null,'content_type':null,'dedupe_key':null,'replay_id':null,'idempotency_key':null,'received_at':null,'body_sha256':null,'verification':null}}}";
  "{'id':'webhook.delivery_metadata.both','feature':'webhook.delivery_metadata','operation':'parse_headers','input':{'headers':{'x-ankusa-id':'01a0','x-ankusa-source':'demo','x-ankusa-received-at':'1720000000000','x-ankusa-body-sha256':'2cf24dba5fb0a30e26e83b2ac5b9e29e1b161e5c1fa7425e73043362938b9824'}},'expect':{'ok':{'id':'01a0','source':'demo','tenant':null,'content_type':null,'dedupe_key':null,'replay_id':null,'idempotency_key':null,'received_at':1720000000000,'body_sha256':'2cf24dba5fb0a30e26e83b2ac5b9e29e1b161e5c1fa7425e73043362938b9824','verification':null}}}";
  "{'id':'webhook.delivery_metadata.case_insensitive_names','feature':'webhook.delivery_metadata','operation':'parse_headers','input':{'headers':{'x-ankusa-id':'01a0','x-ankusa-source':'demo','X-Ankusa-Received-At':'1720000000000','X-Ankusa-Body-Sha256':'2cf24dba5fb0a30e26e83b2ac5b9e29e1b161e5c1fa7425e73043362938b9824'}},'expect':{'ok':{'id':'01a0','source':'demo','tenant':null,'content_type':null,'dedupe_key':null,'replay_id':null,'idempotency_key':null,'received_at':1720000000000,'body_sha256':'2cf24dba5fb0a30e26e83b2ac5b9e29e1b161e5c1fa7425e73043362938b9824','verification':null}}}";
  "{'id':'webhook.delivery_metadata.received_at_only','feature':'webhook.delivery_metadata','operation':'parse_headers','input':{'headers':{'x-ankusa-id':'01a0','x-ankusa-source':'demo','x-ankusa-received-at':'0'}},'expect':{'ok':{'id':'01a0','source':'demo','tenant':null,'content_type':null,'dedupe_key':null,'replay_id':null,'idempotency_key':null,'received_at':0,'body_sha256':null,'verification':null}}}";
  "{'id':'webhook.delivery_metadata.empty_is_absent','feature':'webhook.delivery_metadata','operation':'parse_headers','input':{'headers':{'x-ankusa-id':'01a0','x-ankusa-source':'demo','x-ankusa-received-at':'','x-ankusa-body-sha256':''}},'expect':{'ok':{'id':'01a0','source':'demo','tenant':null,'content_type':null,'dedupe_key':null,'replay_id':null,'idempotency_key':null,'received_at':null,'body_sha256':null,'verification':null}}}";
  "{'id':'webhook.delivery_metadata.received_at_not_digits','feature':'webhook.delivery_metadata','operation':'parse_headers','input':{'headers':{'x-ankusa-id':'01a0','x-ankusa-source':'demo','x-ankusa-received-at':'17e11','x-ankusa-body-sha256':'2cf24dba5fb0a30e26e83b2ac5b9e29e1b161e5c1fa7425e73043362938b9824'}},'expect':{'ok':{'id':'01a0','source':'demo','tenant':null,'content_type':null,'dedupe_key':null,'replay_id':null,'idempotency_key':null,'received_at':null,'body_sha256':'2cf24dba5fb0a30e26e83b2ac5b9e29e1b161e5c1fa7425e73043362938b9824','verification':null}}}";
  "{'id':'webhook.delivery_metadata.received_at_negative','feature':'webhook.delivery_metadata','operation':'parse_headers','input':{'headers':{'x-ankusa-id':'01a0','x-ankusa-source':'demo','x-ankusa-received-at':'-1'}},'expect':{'ok':{'id':'01a0','source':'demo','tenant':null,'content_type':null,'dedupe_key':null,'replay_id':null,'idempotency_key':null,'received_at':null,'body_sha256':null,'verification':null}}}";
  "{'id':'webhook.delivery_metadata.received_at_too_long','feature':'webhook.delivery_metadata','operation':'parse_headers','input':{'headers':{'x-ankusa-id':'01a0','x-ankusa-source':'demo','x-ankusa-received-at':'1720000000000000'}},'expect':{'ok':{'id':'01a0','source':'demo','tenant':null,'content_type':null,'dedupe_key':null,'replay_id':null,'idempotency_key':null,'received_at':null,'body_sha256':null,'verification':null}}}";
  "{'id':'webhook.delivery_metadata.sha256_uppercase','feature':'webhook.delivery_metadata','operation':'parse_headers','input':{'headers':{'x-ankusa-id':'01a0','x-ankusa-source':'demo','x-ankusa-received-at':'1720000000000','x-ankusa-body-sha256':'2CF24DBA5FB0A30E26E83B2AC5B9E29E1B161E5C1FA7425E73043362938B9824'}},'expect':{'ok':{'id':'01a0','source':'demo','tenant':null,'content_type':null,'dedupe_key':null,'replay_id':null,'idempotency_key':null,'received_at':1720000000000,'body_sha256':null,'verification':null}}}";
  "{'id':'webhook.delivery_metadata.sha256_short','feature':'webhook.delivery_metadata','operation':'parse_headers','input':{'headers':{'x-ankusa-id':'01a0','x-ankusa-source':'demo','x-ankusa-body-sha256':'2cf24dba5fb0a30e26e83b2ac5b9e29e1b161e5c1fa7425e73043362938b982'}},'expect':{'ok':{'id':'01a0','source':'demo','tenant':null,'content_type':null,'dedupe_key':null,'replay_id':null,'idempotency_key':null,'received_at':null,'body_sha256':null,'verification':null}}}";
  "{'id':'webhook.delivery_metadata.sha256_not_hex','feature':'webhook.delivery_metadata','operation':'parse_headers','input':{'headers':{'x-ankusa-id':'01a0','x-ankusa-source':'demo','x-ankusa-body-sha256':'gcf24dba5fb0a30e26e83b2ac5b9e29e1b161e5c1fa7425e73043362938b9824'}},'expect':{'ok':{'id':'01a0','source':'demo','tenant':null,'content_type':null,'dedupe_key':null,'replay_id':null,'idempotency_key':null,'received_at':null,'body_sha256':null,'verification':null}}}";
  "{'id':'webhook.delivery_metadata.receive_unsigned','feature':'webhook.delivery_metadata','operation':'receive_delivery','input':{'headers':{'x-ankusa-id':'01a0','x-ankusa-source':'demo','x-ankusa-received-at':'1720000000000','x-ankusa-body-sha256':'2cf24dba5fb0a30e26e83b2ac5b9e29e1b161e5c1fa7425e73043362938b9824'},'body':{'text':'hello'},'receiver':{'allow_unsigned':true},'now':1720000000},'expect':{'ok':{'verified':false,'id':'01a0','source':'demo','tenant':null,'content_type':null,'dedupe_key':null,'replay_id':null,'idempotency_key':null,'received_at':1720000000000,'body_sha256':'2cf24dba5fb0a30e26e83b2ac5b9e29e1b161e5c1fa7425e73043362938b9824','verification':null}}}"
].

Definition operation_names : list string := [
  "parse_claim_ref";
  "redeem";
  "health";
  "parse_headers";
  "routes_health";
  "routes_list";
  "routes_create";
  "routes_get";
  "routes_replace";
  "routes_update";
  "routes_delete";
  "routes_ip_rules_get";
  "routes_ip_rules_put";
  "routes_test";
  "admin_health";
  "admin_metrics";
  "admin_config";
  "admin_dlq_list";
  "admin_replay_create";
  "admin_replay_get";
  "admin_replay_list";
  "admin_replay_update";
  "admin_quarantine";
  "admin_audit_list";
  "decode_message";
  "idempotency_key";
  "verify_signature";
  "receive_delivery";
  "trusted";
  "supported_versions";
  "decode_lifecycle"
].

Definition feature_entries : list string := [
  "{'id':'claim_ref.parse','description':'Parse urn:ankusa:claim:v1:<tenant>:<claim_id> into tenant_id, claim_id, and the /v1/claims/{tenant_id}/{claim_id} path; anything else raises InvalidClaimRefError.'}";
  "{'id':'claim_ref.v2','description':'Parse urn:ankusa:claim:v2:<tenant>:<claim_id>:<exp_unix>:<signature> (exp_unix: decimal, 1-12 digits, no leading zero; signature: 43 unpadded base64url characters) into the same tenant_id and claim_id, with the path /v1/claims/{tenant_id}/{claim_id}?exp={exp_unix}&sig={signature}. The SDK never verifies the signature: the gateway does. Any other segment count, exp or signature shape, or version raises InvalidClaimRefError; a message\u0027s claim in either form passes the same parse.'}";
  "{'id':'claim_check.redeem.signed','description':'Redeeming a v2 ref requests the path with its ?exp=&sig= query exactly as parse_claim_ref returns it; the gateway\u0027s 400 bad_signature and 410 ref_expired are ClaimRejectedError(status, body), and 503 overloaded is ClaimCheckUnavailableError (retryable).'}";
  "{'id':'claim_check.redeem','description':'GET /v1/claims/{tenant_id}/{claim_id} and return the body bytes verbatim (text, binary, empty).'}";
  "{'id':'claim_check.redeem.input_validation','description':'A malformed ref, or a sha256 that isn\u0027t 64 lowercase hex chars, raises InvalidClaimRefError before any request is made.'}";
  "{'id':'claim_check.redeem.integrity','description':'Returned bytes are verified against the expected sha256; a mismatch raises ClaimIntegrityError.'}";
  "{'id':'claim_check.redeem.error_classification','description':'404 -> ClaimNotFoundError; 408 and 429 -> ClaimCheckUnavailableError (retryable, like 5xx); other 4xx -> ClaimRejectedError(status, body); 5xx, any other non-200, an unfollowed redirect, or no connection -> ClaimCheckUnavailableError (retryable).'}";
  "{'id':'claim_check.health','description':'GET /health returns the JSON body on 200; anything else raises ClaimCheckUnavailableError.'}";
  "{'id':'claim_check.client.headers','description':'Client-level headers ride on every request.'}";
  "{'id':'claim_check.client.timeout','description':'A per-client request timeout; exceeding it raises ClaimCheckUnavailableError.'}";
  "{'id':'claim_check.client.transport','description':'An injectable transport (Python transport=, TypeScript fetch) replaces the network.'}";
  "{'id':'webhook.parse_headers','description':'Parse x-ankusa-id/-source/-tenant/-dedupe-key/-replay-id/-idempotency-key and content-type case-insensitively; a missing or empty x-ankusa-id raises MissingHookIdError.'}";
  "{'id':'message.decode','description':'Decode a v1 queue message: the inline (body_base64) and claim body forms, the optional fields (sha256, dedupe_key, replay_id, idempotency_key, headers), and unknown keys are ignored.'}";
  "{'id':'message.traceparent','description':'A v1 queue message carries the hook\u0027s W3C trace context as the optional string fields traceparent and tracestate (null or absent decodes to null), so a consumer continues the trace Ankusa started. Either field present but neither a string nor null -> InvalidMessageError(invalid_field, field = that key). The SDK passes the strings through verbatim: it does not parse or validate the traceparent.'}";
  "{'id':'message.integrity','description':'Size mismatch -> InvalidMessageError(size_mismatch); sha256 mismatch -> InvalidMessageError(integrity); claim tenant != tenant_id -> InvalidMessageError(tenant_mismatch).'}";
  "{'id':'message.idempotency_key','description':'The idempotency key: the message\u0027s idempotency_key field (or the x-ankusa-idempotency-key header) when present; otherwise computed as tenant:source_id:dedupe_key (tenant \u0027default\u0027 when null) for a non-empty dedupe_key, else id. With include_replay and a replay_id, append #replay:<replay_id>.'}";
  "{'id':'webhook.verify_signature','description':'Verify a Standard Webhooks signature: webhook-signature holds space-separated v1,<base64> entries, each an HMAC-SHA256 over <webhook-id>.<webhook-timestamp>.<body> with one configured secret (whsec_ + base64 key, or the raw UTF-8 bytes of any other string); any matching entry for any secret passes (constant-time compare); webhook-timestamp must be within tolerance_seconds (default 300) of now. Header names are case-insensitive. Returns the id and the timestamp.'}";
  "{'id':'webhook.verify_signature.errors','description':'Failures raise InvalidSignatureError(retryable=false, code, field), checked in this order: no secret, or a whsec_ secret whose remainder is not valid base64 -> invalid_secret (field null); a missing or empty webhook-id, webhook-timestamp, webhook-signature (in that order) -> missing_header (field = that header); a timestamp that is not all decimal digits -> invalid_timestamp; |now - timestamp| > tolerance -> timestamp_out_of_tolerance (both field webhook-timestamp); no matching v1 entry (other versions are ignored) -> no_matching_signature (field webhook-signature).'}";
  "{'id':'webhook.verify_signature.asymmetric','description':'A webhook-signature header may carry Ed25519 (v1a,<base64>) entries beside the HMAC (v1,<base64>) ones, as the Standard Webhooks specification allows. An HMAC verifier (verify_signature) ignores every entry that is not v1,: a delivery whose valid v1 entry sits beside a v1a one verifies, and one that carries only v1a entries is no_matching_signature, never a pass. The vector is the specification\u0027s reference message signed with the RFC 8032 test key 1 (public key whpk_11qYAYKxCrfVS/7TyWQHOg7hcvPapiMlrwIaaPcHURo=), which Ankusa core\u0027s Verifier.Asymmetric verifies from the same bytes (packages/ankusa/test/ankusa/verifier_test.exs).'}";
  "{'id':'webhook.require_signature','description':'A receiver of Ankusa\u0027s HTTP sink (receive_delivery) requires a signature by default. With secrets configured it verifies the delivery exactly as verify_signature does and answers InvalidSignatureError (a 401) for a missing or bad signature; allow_unsigned does not weaken a configured secret. With no secrets and no allow_unsigned it refuses every delivery with InvalidSignatureError(invalid_secret, field null), so an unconfigured receiver is never open. allow_unsigned: true with no secrets accepts a delivery unverified (verified=false). The signature is checked before the hook id: a delivery with no x-ankusa-id raises MissingHookIdError only once it passed (or was allowed to skip) the signature check. Success returns the parsed delivery headers plus verified.'}";
  "{'id':'routes.crud','description':'Create, list, read, replace, update, and delete route definitions over the route-management listener (routes.admin.port).'}";
  "{'id':'routes.ip_rules','description':'Get and replace the global IP rules.'}";
  "{'id':'routes.dry_run','description':'Dry-run a request against the route table and return the decision without capturing anything.'}";
  "{'id':'routes.errors','description':'2xx is success. 404 -> RouteNotFoundError; every other 4xx -> RoutesRejectedError(status, code = the body\u0027s error, field, message, conflicting_id, max_routes, scope = the body\u0027s scope when present, else null). Anything else that isn\u0027t 2xx (5xx, an unfollowed 3xx redirect, 1xx), a transport failure, or a non-JSON success body -> RoutesUnavailableError (retryable).'}";
  "{'id':'routes.input_validation','description':'Route ids are checked before any request and then percent-encoded as one path segment: an id that isn\u0027t a string, is empty, or is exactly `.` or `..` raises InvalidRouteIdError (no request), while every other id travels with `/`, `?`, `#`, `%` and space escaped as %2F %3F %23 %25 %20.'}";
  "{'id':'routes.request_shape','description':'Requests match the documented API: JSON bodies carry exactly the caller\u0027s input, and query parameters go out in input order with booleans as `true`/`false`.'}";
  "{'id':'routes.health','description':'GET /health on the route-management listener returns {status, routes}.'}";
  "{'id':'admin.operations','description':'Operator API: health, Prometheus metrics, redacted config, DLQ list, replay jobs, and quarantine.'}";
  "{'id':'admin.audit','description':'GET /v1/audit on the operator API: the audit trail, newest first, paged by cursor/limit and filtered by since, until, actor, action, tenant (query parameters in input order, only those given). Returns {entries, next_cursor}; errors as admin.errors.'}";
  "{'id':'admin.errors','description':'2xx is success. A 409 whose body has error role_not_enabled -> RoleNotEnabledError(role); every other 4xx -> AdminRejectedError(status, code = the body\u0027s error, scope = the body\u0027s scope when present, else null). Anything else that isn\u0027t 2xx (5xx, an unfollowed 3xx redirect, 1xx) or a transport failure -> AdminUnavailableError (retryable).'}";
  "{'id':'message.verification','description':'A queue message says how the hook was verified at ingest. decode_message exposes the message\u0027s verification object ({status, flagged}; null when the message predates the field or says null; a present value that is not an object of a non-empty string status and a boolean flagged is InvalidMessageError(invalid_field, field verification)). status is ok, failed or skipped; the SDK does not reject other values. trusted answers whether the decoded message may be treated as verified: true only for status ok with flagged false; a flagged message (accepted despite a failed check, on_verify_failure: accept_flag), a failed or skipped one, any other status, and a message with no verification are untrusted.'}";
  "{'id':'webhook.verification','description':'An HTTP-sink delivery says how the hook was verified at ingest. parse_headers exposes x-ankusa-verification as {status: <value>, flagged: <x-ankusa-verification-flagged == \'true\'>}, null when the header is absent or empty; receive_delivery returns the same object. status is ok, failed or skipped; the SDK does not reject other values. trusted answers whether the parsed headers may be treated as verified: true only for status ok with flagged false; a flagged delivery, a failed or skipped one, any other status, and one with no verification header are untrusted. This is separate from the signature check of receive_delivery (webhook.require_signature): that proves the sink signed the delivery, this says how the node verified the provider\u0027s request.'}";
  "{'id':'message.versions','description':'An SDK accepts every queue message whose v is an integer from min_supported to max_supported inclusive (1 and 2) and maps each version to its one current message type: decode_message reports the wire v it read, and the rest of the decode (rules, order, result) is the same for every accepted version. supported_versions returns {min, max}, the two bounds the SDK exposes (constants or functions in the SDK\u0027s idiom). A v outside the range, missing, or not an integer -> InvalidMessageError(unsupported_version, field null, retryable false): the permanent failure a consumer dead-letters, never retries.'}";
  "{'id':'message.decode.v2_additive','description':'v 2 is defined as v 1 plus additive fields: a v 2 message decodes exactly like the v 1 message with the same known fields, whatever extra keys it carries (unknown keys of any JSON type are ignored), with v = 2 in the result; a v 2 message is validated by the v 1 rules, so a bad field is the same InvalidMessageError.'}";
  "{'id':'message.origin','description':'A queue message names where it was published from: instance (the Ankusa instance\u0027s name) and region (the instance\u0027s configured region). decode_message exposes both as a string, null when the message says null or lacks the key (a node older than the fields); a present value that is neither a string nor null is InvalidMessageError(invalid_field, field = that key). They are checked after tracestate, instance first.'}";
  "{'id':'message.event_type','description':'decode_message exposes event_type: the provider\u0027s event name as the source\u0027s event_type key read it (for example invoice.paid), a string, or null when the message says null or lacks the key (a node older than the field, or a source without event_type). A present value that is neither a string nor null is InvalidMessageError(invalid_field, field event_type). It is checked after region.'}";
  "{'id':'message.producer','description':'The messages Ankusa core itself writes decode as expected. The cases in cases/producer.json are generated by `mix ankusa.conformance.gen` from Ankusa.Sink.Message.encode/3 (inline, claim, replay and ordered, flagged and unverified hooks, with and without a configured region) and are never edited by hand; check.mjs regenerates them and fails when the checked-in file differs, so a field added to the encoder without a vector update fails the gate, and every SDK must decode what the encoder writes.'}";
  "{'id':'webhook.delivery_metadata','description':'An HTTP-sink delivery says when the edge accepted the hook and the SHA-256 of the body it sent: parse_headers and receive_delivery return received_at (the x-ankusa-received-at header, unix milliseconds: 1 to 15 decimal digits, as an integer) and body_sha256 (x-ankusa-body-sha256: exactly 64 lowercase hex characters, as is). Both are advisory and optional: a header that is absent, empty or malformed (not digits, too long, uppercase or short hex) is null, never an error, so a sender older than the headers still parses.'}";
  "{'id':'consumer.failure_policy','description':'Every failure a consumer\u0027s decoders raise for a message that cannot be read (decode_message, decode_lifecycle) or a delivery that cannot be trusted (receive_delivery\u0027s signature check) carries retryable=false, so a consumer sends it to its terminal queue instead of requeueing the same bytes forever: invalid_json (empty or truncated included), not_an_object, unsupported_version (a v above the SDK\u0027s maximum, a specversion other than 1.0), invalid_field. check.mjs also fails any case that expects InvalidMessageError or InvalidSignatureError without retryable=false. The policy: docs/delivery.md, Consumer failure policy.'}";
  "{'id':'lifecycle.decode','description':'decode_lifecycle decodes a lifecycle event (a CloudEvents 1.0 structured-mode event: the decoded body of a message the lifecycle sinks publish, content type application/cloudevents+json) into specversion, id, source, type, subject, time, datacontenttype, data, revision, actor, instance, sequence, replayid, traceparent, tracestate. Not JSON -> invalid_json; not an object -> not_an_object; specversion missing or not \'1.0\' -> unsupported_version; id, source, type, subject, time not non-empty strings, data present but neither an object nor null, revision neither null/absent nor an integer >= 1, sequence neither null/absent nor a string of decimal digits, or datacontenttype, actor, instance, replayid, traceparent, tracestate neither a string, null nor absent -> invalid_field with field = the key, checked in the order listed in conformance/README.md (first failure wins). Unknown keys and unknown types are ignored; absent optional fields decode to null.'}"
].

Definition sdk_entries : list string := [
  "'sdk-clojure':{'setup':[['clojure','-P','-X:test']],'run':['clojure','-X:test',':nses','[ankusa.sdk.conformance-test]']}";
  "'sdk-elixir':{'setup':[['mix','local.hex','--force','--if-missing'],['mix','local.rebar','--force','--if-missing'],['mix','deps.get','--check-locked']],'run':['mix','test','test/conformance_test.exs']}";
  "'sdk-go':{'setup':[],'run':['go','test','-count=1','-run','^TestConformance$','.']}";
  "'sdk-java':{'setup':[['sbt','--server','--batch','Test/compile']],'run':['sbt','--server','--batch','testOnly io.github.jamescarr.ankusa.conformance.ConformanceTest']}";
  "'sdk-php':{'setup':[['composer','install','--no-interaction','--no-progress']],'run':['composer','conformance']}";
  "'sdk-python':{'setup':[['uv','sync','--locked']],'run':['uv','run','pytest','tests/test_conformance.py']}";
  "'sdk-ruby':{'setup':[['env','BUNDLE_FROZEN=true','bundle','install']],'run':['bundle','exec','rake','conformance']}";
  "'sdk-rust':{'setup':[['cargo','build','--locked','--tests']],'run':['cargo','test','--locked','--test','conformance']}";
  "'sdk-typescript':{'setup':[['npm','ci']],'run':['npm','run','conformance']}"
].
