(* ===== verification/VectorRun.v ===== *)
(** * The conformance vectors, run on the definitions

    The SDK's conformance runner ([conformance/conformance.test.ts]) for the
    operations that send nothing: it reads a case, calls the operation and
    compares the result, or the attributes of the error, with what the case
    expects.  The repository's conformance directory, as data, is valid;
    [VectorHttp] runs all its vectors. *)
From stdpp Require Import base tactics list numbers option strings sets sorting.
From S2P Require Import Prelude JsNumber JsString Json JsonFacts Base64 Sha256 ClaimRef Headers Signature Message MessageFacts.
From S2P Require Import Lifecycle Http JsValue ConformanceCases VectorData.
Local Open Scope Z_scope.

Section runner.
Context {lc : LowerCase} {crypto : Crypto}.

(** ** Inputs *)

Definition string_of (x : option json) : jstr := match x with Some (JStr s) => s | _ => [] end.
Definition num_opt (x : option json) : option num := match x with Some (JNum n) => Some n | _ => None end.
Definition bool_opt (x : option json) : option bool := match x with Some (JBool b) => Some b | _ => None end.
Definition strings_of (x : option json) : option (list jstr) :=
  match x with Some (JArr l) => Some (map (λ v, string_of (Some v)) l) | _ => None end.
Definition fields_of (x : option json) : list (jstr * json) := match x with Some (JObj o) => o | _ => [] end.

(** [{ text } | { base64 } | { json }].  An error is [Err None] when it is of no
    class the runner knows, which fails the case. *)
Definition bodyBytes (x : option json) : result (option json) bytes :=
  match x with
  | None => Ok []
  | Some x =>
      let o := fields_of (Some x) in
      match obj_get (js "text") o, obj_get (js "base64") o, obj_get (js "json") o with
      | Some s, _, _ => Ok (utf8_encode (string_of (Some s)))
      | None, Some s, _ => Ok (buffer_from_base64 (string_of (Some s)))
      | None, None, Some v => Ok (utf8_encode (json_stringify v))
      | None, None, None => Err None
      end
  end.

Definition headers_of (x : option json) : HeaderSource :=
  HRecord (map (λ kv, (kv.1, HValue (string_of (Some kv.2)))) (enumerate (fields_of x))).

(** ** Results and errors as values *)

Definition error_value (cls : string) (retryable : bool) (rest : list (jstr * json)) : json :=
  JObj ((js "class", JStr (js cls)) :: (js "retryable", JBool retryable) :: rest).

Definition message_error (e : InvalidMessageError) : json :=
  error_value "InvalidMessageError" (message_retryable e)
    [(js "code", JStr (code_text (im_code e))); (js "field", json_opt (im_field e))].

Definition signature_code (c : InvalidSignatureCode) : jstr :=
  js match c with
     | invalid_secret => "invalid_secret"
     | missing_header => "missing_header"
     | invalid_timestamp => "invalid_timestamp"
     | timestamp_out_of_tolerance => "timestamp_out_of_tolerance"
     | no_matching_signature => "no_matching_signature"
     end.

Definition signature_failure (e : InvalidSignatureError) : json :=
  error_value "InvalidSignatureError" (signature_retryable e)
    [(js "code", JStr (signature_code (Signature.code e))); (js "field", json_opt (Signature.field e))].

Definition missing_id (e : MissingHookIdError) : json := JObj [(js "class", JStr (js "MissingHookIdError"))].

Definition ref_failure (e : claim_check_error) : json := error_value "InvalidClaimRefError" (retryable e) [].

Definition delivery_value (h : HookHeaders) : list (jstr * json) :=
  [ (js "id", JStr (Headers.id h)); (js "source", JStr (source h)); (js "tenant", json_opt (tenant h));
    (js "content_type", json_opt (contentType h)); (js "dedupe_key", json_opt (dedupeKey h));
    (js "replay_id", json_opt (replayId h)); (js "idempotency_key", json_opt (Headers.idempotencyKey h));
    (js "received_at", match receivedAt h with Some n => JNum n | None => JNull end);
    (js "body_sha256", json_opt (bodySha256 h));
    (js "verification", match verification h with
                        | Some x => JObj [(js "status", JStr (status x)); (js "flagged", JBool (flagged x))]
                        | None => JNull
                        end) ].

Definition with_error {E A} (f : E → json) (g : A → json) (r : result E A) : result (option json) json :=
  match r with Ok a => Ok (g a) | Err e => Err (Some (f e)) end.

(** The hook of a case: from its headers, or from its message. *)
Definition case_hook (input : list (jstr * json)) : result json hook :=
  match obj_get (js "headers") input with
  | Some h => match parseHeaders (headers_of (Some h)) with Ok h => Ok (HookHeader h) | Err e => Err (missing_id e) end
  | None => match decodeMessage (PText (string_of (obj_get (js "message") input))) with
            | Ok m => Ok (HookMessage m)
            | Err e => Err (message_error e)
            end
  end.

(** ** One case *)

(** The operations without a client; [None] for the others. *)
Definition dispatch (operation : jstr) (input : list (jstr * json)) : option (result (option json) json) :=
  let arg k := obj_get (js k) input in
  let named_op op := bool_decide (operation = js op) in
  if named_op "parse_claim_ref" then
    Some (with_error ref_failure
            (λ p, JObj [(js "tenant_id", JStr (tenantId p)); (js "claim_id", JStr (claimId p)); (js "path", JStr (path p))])
            (parseClaimRef (string_of (arg "ref"))))
  else if named_op "verify_signature" then
    Some (body ← bodyBytes (arg "body");
          with_error signature_failure
            (λ v, JObj [(js "id", JStr (verified_id v)); (js "timestamp", JNum (verified_timestamp v))])
            (verifySignature (num_of_Z 0)
               {| headers := headers_of (arg "headers"); body := PBytes body;
                  secrets := Secrets (default [] (strings_of (arg "secrets")));
                  toleranceSeconds := num_opt (arg "tolerance_seconds"); now := num_opt (arg "now") |}))
  else if named_op "receive_delivery" then
    let receiver := fields_of (arg "receiver") in
    Some (body ← bodyBytes (arg "body");
          with_error
            (λ e, match e with ReceiveSignature e => signature_failure e | ReceiveMissingId e => missing_id e end)
            (λ d, JObj ((js "verified", JBool (verified d)) :: delivery_value (delivery d)))
            (receiveDelivery (num_of_Z 0)
               {| r_headers := headers_of (arg "headers"); r_body := PBytes body;
                  r_secrets := Secrets <$> strings_of (obj_get (js "secrets") receiver);
                  r_allowUnsigned := bool_opt (obj_get (js "allow_unsigned") receiver);
                  r_toleranceSeconds := num_opt (obj_get (js "tolerance_seconds") receiver);
                  r_now := num_opt (arg "now") |}))
  else if named_op "parse_headers" then
    Some (with_error missing_id (λ h, JObj (delivery_value h)) (parseHeaders (headers_of (arg "headers"))))
  else if named_op "decode_message" then
    Some (with_error message_error (λ m, JObj (message_props m)) (decodeMessage (PText (string_of (arg "message")))))
  else if named_op "decode_lifecycle" then
    Some (with_error message_error (λ e, JObj (lifecycle_props e)) (decodeLifecycle (PText (string_of (arg "event")))))
  else if named_op "idempotency_key" then
    Some (with_error (λ e, e)
            (λ k, JObj [(js "key", JStr (idempotencyKey k (bool_decide (bool_opt (arg "include_replay") = Some true))))])
            (case_hook input))
  else if named_op "trusted" then
    Some (with_error (λ e, e) (λ k, JObj [(js "trusted", JBool (isTrusted k))]) (case_hook input))
  else if named_op "supported_versions" then
    Some (Ok (JObj [(js "min", JNum MIN_SUPPORTED_VERSION); (js "max", JNum MAX_SUPPORTED_VERSION)]))
  else None.

(** Every expected attribute of the error, the class included. *)
Definition error_agrees (got want : list (jstr * json)) : bool :=
  forallb (λ kv, deep_equal_opt (obj_get kv.1 got) (Some kv.2)) want.

(** [None] for a case that needs a client.  A case with neither [ok] nor
    [error] only asks that no error is raised. *)
Definition runCase (c : json) : option bool :=
  let o := case_object c in
  let expect := fields_of (obj_get (js "expect") o) in
  r ← dispatch (string_of (obj_get (js "operation") o)) (fields_of (obj_get (js "input") o));
  Some match obj_get (js "ok") expect with
       | Some want => match r with Ok got => deep_equal got want | Err _ => false end
       | None =>
           match obj_get (js "error") expect with
           | Some want => match r with Err (Some e) => error_agrees (fields_of (Some e)) (fields_of (Some want)) | _ => false end
           | None => is_ok r
           end
       end.
End runner.

(** ** The repository *)

Definition json_list (cases : list string) : jstr := 91 :: join_with 44 (map jq cases) ++ [93].
Definition case_file (cases : list string) : option bytes :=
  Some (jq "{'cases':" ++ json_list cases ++ js "}").

Definition quoted (l : list string) : list string := map (λ s, "'" +:+ s +:+ "'") l.

(** The directory as it is checked in, beside the packages. *)
Definition packages : list string :=
  ["ankusa"; "ankusa_kafka"; "ankusa_nats"; "ankusa_rabbitmq"; "ankusa_redis"; "ankusa_server"; "async_api_spex";
   "sdk-clojure"; "sdk-elixir"; "sdk-go"; "sdk-java"; "sdk-php"; "sdk-python"; "sdk-ruby"; "sdk-rust"; "sdk-typescript"].

Definition checked_in : repository :=
  {| features_json := Some (jq "{'operations':" ++ json_list (quoted operation_names) ++ jq ",'features':" ++
       json_list feature_entries ++ js "}");
     sdks_json := Some (jq "{'sdks':{" ++ join_with 44 (map jq sdk_entries) ++ js "}}");
     case_dir :=
       [ (js "admin.json", case_file admin_cases); (js "claim_ref.json", case_file claim_ref_cases);
         (js "claim_ref_v2.json", case_file claim_ref_v2_cases); (js "failure_policy.json", case_file failure_policy_cases);
         (js "health.json", case_file health_cases); (js "lifecycle.json", case_file lifecycle_cases);
         (js "message.json", case_file message_cases); (js "producer.json", case_file producer_cases);
         (js "receive.json", case_file receive_cases); (js "redeem.json", case_file redeem_cases);
         (js "routes.json", case_file routes_cases); (js "signature.json", case_file signature_cases);
         (js "verification.json", case_file verification_cases); (js "webhook.json", case_file webhook_cases) ];
     package_dir := map (λ n, (js n, true)) packages |}.

(** The directory as it is checked in is valid. *)
Theorem checked_in_valid : ∃ v, check_repository checked_in [] = (Ok v, []).
Proof. eexists. vm_compute. reflexivity. Qed.

(** The runner is not a rubber stamp: a vector that expects the wrong class of
    error, or an error where there is none, fails. *)
Example wrong_vectors :
  let run s := json_parse (jq s) ≫= runCase (lc := AsciiKelvin) (crypto := NodeCrypto) in
  map run
    [ "{'operation':'parse_claim_ref','input':{'ref':'x'},'expect':{'error':{'class':'InvalidClaimRefError','retryable':false}}}";
      "{'operation':'parse_claim_ref','input':{'ref':'x'},'expect':{'error':{'class':'ClaimNotFoundError'}}}";
      "{'operation':'parse_claim_ref','input':{'ref':'x'},'expect':{'error':{'class':'InvalidClaimRefError','retryable':true}}}";
      "{'operation':'supported_versions','input':{},'expect':{'error':{'class':'InvalidMessageError'}}}";
      "{'operation':'supported_versions','input':{},'expect':{}}";
      "{'operation':'redeem','input':{},'expect':{}}" ]
  = [Some true; Some false; Some false; Some false; Some true; None].
Proof. by vm_compute. Qed.
