(* ===== verification/VectorHttp.v ===== *)
(** * The conformance vectors that need a client

    The rest of the SDK's conformance runner
    ([conformance/conformance.test.ts]): a gateway that answers every request
    the way a case says and records it, a client built on it, the operation, and
    the comparison of the result and of the recorded requests with the case.
    The HTTP library is instantiated by [transport], which follows its
    documentation: a [2xx] answer is read as asked, another one's body is its
    JSON or else its text, an empty body is no body, and a rejected fetch
    rejects the call. *)
From stdpp Require Import base tactics list numbers option strings sets.
From S2P Require Import Prelude JsNumber JsString Json JsonFacts Base64 Sha256 ClaimRef Http Url ClaimCheck AdminClient RoutesClient.
From S2P Require Import JsValue ConformanceCases VectorData VectorRun.
Local Open Scope Z_scope.

(** ** The gateway of a case *)

Record gateway := {
  g_unreachable : bool;
  g_injected : bool;
  g_status : Z;
  g_body : bytes;
  g_delay : num;
}.

Definition Z_of_num (x : option json) : Z :=
  match x with Some (JNum n) => default 0 (num_value n) | _ => 0 end.

(** [None] when the body of the case is of no known form. *)
Definition gateway_of (input : list (jstr * json)) : option gateway :=
  let spec := fields_of (obj_get (js "gateway") input) in
  let client := fields_of (obj_get (js "client") input) in
  let unreachable := match obj_get (js "unreachable") spec with Some _ => true | None => false end in
  match bodyBytes (if unreachable then None else obj_get (js "body") spec) with
  | Err _ => None
  | Ok bs =>
      Some {| g_unreachable := unreachable;
              g_injected := is_string "injected" (obj_get (js "transport") client);
              g_status := if unreachable then 200 else Z_of_num (obj_get (js "status") spec);
              g_body := bs;
              g_delay := match obj_get (js "delay_ms") spec with Some (JNum n) => n | _ => num_of_Z 0 end |}
  end.

(** A request that arrives: the injected transport serves even a case that is
    marked unreachable. *)
Definition reaches (g : gateway) : bool := g_injected g || negb (g_unreachable g).

Definition read_data (p : parse_as) (bs : bytes) : option (parsed_body p) :=
  match p with
  | AsJson => json_parse (text_decode bs)
  | AsText => Some (text_decode bs)
  | AsArrayBuffer => Some bs
  end.

Definition respond (g : gateway) (p : parse_as) : outcome (parsed_body p) :=
  let empty := (g_status g =? 204) || bool_decide (g_body g = []) in
  if is_2xx (g_status g) then
    if empty then Answered None None (g_status g)
    else match read_data p (g_body g) with
         | Some d => Answered (Some d) None (g_status g)
         | None => Rejected (Thrown (js "Unexpected token in JSON"))
         end
  else if empty then Answered None None (g_status g)
  else Answered None (Some (default (JStr (text_decode (g_body g))) (json_parse (text_decode (g_body g))))) (g_status g).

Definition transport (g : gateway) : OpenApiFetch :=
  {| send := λ _ _ c,
       match simple_target c with
       | None => Rejected (Thrown (js "URI malformed"))
       | Some _ =>
           if negb (reaches g) then Rejected (Thrown (js "fetch failed"))
           else if num_lt (c_timeout c) (g_delay g) then Rejected (Thrown (js "The operation was aborted due to timeout"))
           else respond g (c_parseAs c)
       end |}.

(** ** Recorded requests *)

Record recorded := {
  rec_method : jstr;
  rec_path : jstr;
  rec_headers : list (jstr * json);
  rec_body : json;
}.

Definition method_name (m : http_method) : jstr :=
  js match m with GET => "GET" | POST => "POST" | PUT => "PUT" | PATCH => "PATCH" | DELETE => "DELETE" end.

Definition record_call (headers : list (jstr * json)) (c : call) : option recorded :=
  t ← simple_target c;
  Some {| rec_method := method_name (c_method c); rec_path := t; rec_headers := headers;
          rec_body := default JNull (c_body c ≫= λ b, json_parse (json_stringify b)) |}.

Definition request_agrees (got : recorded) (want : json) : bool :=
  let o := fields_of (Some want) in
  deep_equal_opt (Some (JStr (rec_method got))) (obj_get (js "method") o) &&
  deep_equal_opt (Some (JStr (rec_path got))) (obj_get (js "path") o) &&
  forallb (λ kv, deep_equal_opt (obj_get kv.1 (rec_headers got)) (Some kv.2)) (fields_of (obj_get (js "headers") o)) &&
  match obj_get (js "body") o with Some b => deep_equal (rec_body got) b | None => true end.

Definition assertRequests (actual : list recorded) (expected : list json) : bool :=
  (length actual =? length expected)%nat && forallb (λ gw, request_agrees gw.1 gw.2) (zip actual expected).

(** ** Errors as values *)

(** The attributes the runner copies, those that are not [undefined]. *)
Definition attribute (k : string) (v : option json) : list (jstr * json) :=
  match v with Some v => [(js k, v)] | None => [] end.

Definition claim_failure (e : claim_check_error) : json :=
  let value cls rest := error_value cls (retryable e) ((js "message", JStr (claim_error_message e)) :: rest) in
  match e with
  | InvalidClaimRefError _ => value "InvalidClaimRefError" []
  | ClaimNotFoundError _ => value "ClaimNotFoundError" []
  | ClaimRejectedError _ status body =>
      value "ClaimRejectedError" [(js "status", JNum (num_of_Z status)); (js "body", body)]
  | ClaimIntegrityError _ => value "ClaimIntegrityError" []
  | ClaimCheckUnavailableError _ _ => value "ClaimCheckUnavailableError" []
  end.

(** [None] for the [TypeError]s, which the runner does not know. *)
Definition routes_failure_value (e : routes_failure) : option json :=
  match e with
  | RoutesTypeError => None
  | RoutesError e =>
      let value cls m rest := Some (error_value cls (routes_retryable e) ((js "message", JStr m) :: rest)) in
      match e with
      | RouteNotFoundError m => value "RouteNotFoundError" m []
      | InvalidRouteIdError m _ => value "InvalidRouteIdError" m []
      | RoutesRejectedError r =>
          value "RoutesRejectedError" (rr_message r)
            ((js "status", JNum (num_of_Z (rr_status r))) :: attribute "code" (rr_code r) ++
             attribute "field" (rr_field r) ++ attribute "conflicting_id" (rr_conflicting_id r) ++
             attribute "max_routes" (rr_max_routes r) ++ [(js "scope", default JNull (rr_scope r))])
      | RoutesUnavailableError m _ => value "RoutesUnavailableError" m []
      end
  end.

Definition admin_failure_value (e : admin_failure) : option json :=
  match e with
  | AdminTypeError => None
  | AdminError e =>
      let value cls m rest := Some (error_value cls (admin_retryable e) ((js "message", JStr m) :: rest)) in
      match e with
      | RoleNotEnabledError m role => value "RoleNotEnabledError" m (attribute "role" role)
      | AdminRejectedError m status code scope =>
          value "AdminRejectedError" m
            ((js "status", JNum (num_of_Z status)) :: attribute "code" code ++ [(js "scope", default JNull scope)])
      | AdminUnavailableError m _ => value "AdminUnavailableError" m []
      end
  end.

(** ** One case *)

Definition returned {E A} (fail : E → option json) (ok : A → option json) (r : result E A * list call) :
    result (option json) (option json) * list call :=
  (match r.1 with Ok a => Ok (ok a) | Err e => Err (fail e) end, r.2).

Section runner.
Context {crypto : Crypto}.

Definition base64_value (bs : bytes) : json :=
  JObj [(js "body", JObj [(js "base64", JStr (base64_encode bs))])].

(** The operations with a client, on the gateway of the case: the result
    ([None] is [undefined]) and the calls made. *)
Definition dispatch_client (g : gateway) (operation : jstr) (input : list (jstr * json)) :
    option (result (option json) (option json) * list call) :=
  let net := transport g in
  let client := fields_of (obj_get (js "client") input) in
  let headers := map (λ kv, (kv.1, string_of (Some kv.2))) (fields_of (obj_get (js "headers") client)) in
  let timeout := num_opt (obj_get (js "timeout_ms") client) in
  let cc := {| baseUrl := js "http://gateway.invalid"; cc_headers := headers; timeoutMs := timeout |} in
  let ro := {| routes_baseUrl := js "http://gateway.invalid"; routes_headers := headers; routes_timeoutMs := timeout |} in
  let ad := {| admin_baseUrl := js "http://gateway.invalid"; admin_headers := headers; admin_timeoutMs := timeout |} in
  let arg k := obj_get (js k) input in
  let params := match arg "params" with Some (JObj o) => Some o | _ => None end in
  let body k := default JNull (arg k) in
  let named_op op := bool_decide (operation = js op) in
  let routes {A} ok (m : http routes_failure A) := Some (returned routes_failure_value ok (m [])) in
  let admin {A} ok (m : http admin_failure A) := Some (returned admin_failure_value ok (m [])) in
  if named_op "redeem" then
    Some (returned (λ e, Some (claim_failure e)) (λ bs, Some (base64_value bs))
            (redeem cc (string_of (arg "ref")) (string_of (arg "sha256")) []))
  else if named_op "health" then Some (returned (λ e, Some (claim_failure e)) Some (ClaimCheck.health cc []))
  else if named_op "routes_health" then routes Some (RoutesClient.health ro)
  else if named_op "routes_list" then routes id (listRoutes ro params)
  else if named_op "routes_create" then routes id (createRoute ro (body "input"))
  else if named_op "routes_get" then routes id (getRoute ro (arg "id"))
  else if named_op "routes_replace" then routes id (replaceRoute ro (arg "id") (body "input"))
  else if named_op "routes_update" then routes id (updateRoute ro (arg "id") (body "patch"))
  else if named_op "routes_delete" then routes (λ _, Some JNull) (deleteRoute ro (arg "id"))
  else if named_op "routes_ip_rules_get" then routes id (getIpRules ro)
  else if named_op "routes_ip_rules_put" then routes id (putIpRules ro (body "rules"))
  else if named_op "routes_test" then routes id (testRoute ro (body "request"))
  else if named_op "admin_health" then admin Some (AdminClient.health ad)
  else if named_op "admin_metrics" then
    admin (λ t, match t with Some t => Some (JObj [(js "text", JStr t)]) | None => Some (JObj []) end) (metrics ad)
  else if named_op "admin_config" then admin id (config ad)
  else if named_op "admin_dlq_list" then admin id (listDeadLetters ad params)
  else if named_op "admin_audit_list" then admin id (listAudit ad params)
  else if named_op "admin_replay_create" then admin id (createReplay ad (body "spec"))
  else if named_op "admin_replay_get" then admin id (getReplay ad (string_of (arg "id")))
  else if named_op "admin_replay_list" then admin id (listReplays ad)
  else if named_op "admin_replay_update" then admin id (updateReplay ad (string_of (arg "id")) (body "patch"))
  else if named_op "admin_quarantine" then admin id (listQuarantined ad params)
  else None.

(** Bytes cannot be written in JSON: a redeemed body is compared in base64. *)
Definition expectedOk (operation : jstr) (expected : json) : option json :=
  if bool_decide (operation = js "redeem") then
    match bodyBytes (obj_get (js "body") (fields_of (Some expected))) with
    | Ok bs => Some (base64_value bs)
    | Err _ => None
    end
  else Some expected.

(** Whether the result is the expected one. *)
Definition result_agrees (operation : jstr) (expect : list (jstr * json)) (r : result (option json) (option json)) : bool :=
  match obj_get (js "ok") expect with
  | Some want =>
      match r, expectedOk operation want with
      | Ok got, Some want => deep_equal_opt got (Some want)
      | _, _ => false
      end
  | None =>
      match obj_get (js "error") expect with
      | Some want =>
          match r with
          | Err (Some e) => error_agrees (fields_of (Some e)) (fields_of (Some want))
          | _ => false
          end
      | None => is_ok r
      end
  end.

(** [None] for a case that needs no client. *)
Definition runClientCase (c : json) : option bool :=
  let o := case_object c in
  let expect := fields_of (obj_get (js "expect") o) in
  let input := fields_of (obj_get (js "input") o) in
  let operation := string_of (obj_get (js "operation") o) in
  g ← gateway_of input;
  '(r, calls) ← dispatch_client g operation input;
  let headers := fields_of (obj_get (js "headers") (fields_of (obj_get (js "client") input))) in
  let requests := if reaches g then omap (record_call headers) calls else [] in
  Some (result_agrees operation expect r &&
        match obj_get (js "requests") expect with
        | Some (JArr want) => assertRequests requests want
        | _ => true
        end).
End runner.

(** ** All vectors of the repository *)

(** A case is run with a client or without, never both ways. *)
Definition passes (c : json) : bool :=
  match runCase (lc := AsciiKelvin) (crypto := NodeCrypto) c, runClientCase (crypto := NodeCrypto) c with
  | Some b, None | None, Some b => b
  | _, _ => false
  end.

(** All 301 vectors of the repository pass on the definitions of this
    development: 212 without a client, 89 with one, their requests included. *)
Theorem vectors_pass :
  let cases := all_cases (case_files checked_in) in
  length cases = 301%nat ∧ length (omap (runClientCase (crypto := NodeCrypto)) cases) = 89%nat ∧
  forallb passes cases = true.
Proof. vm_compute. done. Qed.

(** Requests are compared too: the wrong path, a request too many, or a body
    that was not sent fails a case. *)
Example wrong_requests :
  let run s := json_parse (jq s) ≫= runClientCase (crypto := NodeCrypto) in
  let case requests := "{'operation':'routes_get','input':{'id':'r 1','gateway':{'status':200,'body':{'json':{'id':'r 1'}}}},'expect':{'ok':{'id':'r 1'},'requests':[" +:+ requests +:+ "]}}" in
  map (λ r, run (case r))
    [ "{'method':'GET','path':'/admin/routes/r%201'}"; "{'method':'GET','path':'/admin/routes/r 1'}"; "";
      "{'method':'GET','path':'/admin/routes/r%201','body':{}}" ]
  = [Some true; Some false; Some false; Some false].
Proof. by vm_compute. Qed.
